(* ===== verification/_CoqProject ===== *)
-Q . S2P
Prelude.v
Text.v
Errors.v
Machine.v
Float.v
Write.v
Fs.v
Reader.v
ReaderSpec.v
Descriptor.v
DescriptorSpec.v
Vmx.v
VmxSpec.v
Stream.v
Sparse.v
StreamSpec.v
Ova.v
Sha256.v
OvaSpec.v
SparseSpec.v
Pipeline.v
PipelineSpec.v
Ovf.v
StrSpec.v
TypesSpec.v
Xml.v
OvfSpec.v
Export.v
ExportSpec.v
HostedSpec.v
ExportVmSpec.v
ProgressSpec.v
RunsSpec.v
ImportSpec.v
ExportFailSpec.v
ExportSplitSpec.v
ExportDeviceSpec.v
ExportEndsSpec.v
Cli.v
CliSpec.v
CliExportSpec.v
InfoSpec.v
Testing.v
TestsParse.v
TestsDisk.v
TestsOva.v
TestsOvf.v
TestsExport.v
IntegrationParse.v
IntegrationOvf.v
IntegrationOva.v
IntegrationRun.v
