(* ===== verification/Prelude.v ===== *)
(** * OVATool: exporting VMware machines as OVA archives, verified

    OVATool reads a VMware machine (a VMX file and its VMDK disks) and writes
    an OVA archive: a TAR file with one stream-optimized VMDK per disk, an OVF
    descriptor and a SHA-256 manifest.  This development models the crates
    [ovatool-core] and [ovatool-cli] under src/crates/ and proves what their
    parts promise and how they compose.

    * The program and its model

    The export runs: parse the VMX file, find how each disk is stored, read
    the disk in chunks, compress the chunks in parallel, write each compressed
    chunk into a stream-optimized VMDK in memory, then write the disks, the
    descriptor and the manifest to the archive.

    - [Errors]: error.rs, and the outcome of a call: [Ok], [Err], [Panic], or
      [Diverge] when the fuel of a loop is used up.  [Machine]: integers of a
      fixed width; overflow panics in a debug build and wraps in a release
      build (the class [BuildProfile]); little-endian encodings.  [Float]: the
      doubles behind a percentage, a ratio or a size, as exact multiples of
      the smallest one, rounded to nearest even.  [Text]: Rust strings,
      [format!], parsing of numbers, UTF-8.  [Write]: state-passing actions,
      the trait [std::io::Write] as a class with the laws its documentation
      states, [Cursor] and a device that can be full.  [Fs]: the files,
      [std::path], iterators.
    - [Vmx]: vmx.rs.  [Descriptor]: vmdk/descriptor.rs.  [Reader]:
      vmdk/reader.rs (flat disks).  [Sparse]: vmdk/sparse.rs (hosted sparse
      disks).  [Stream]: vmdk/stream.rs (the writer of stream-optimized
      disks, a state machine over any [Write]).  [Ova]: ova.rs (TAR headers,
      the archive writer, the streaming writer, the hashing writer).
      [Pipeline]: pipeline.rs (the chunks in parallel; the order in which they
      complete is any permutation).  [Ovf]: ovf.rs (the descriptor).
      [Export]: export.rs ([export_vm], [process_disk],
      [process_sparse_disk], [process_split_sparse_disk],
      [calculate_total_disk_size], [get_vm_info]).  [Cli]: main.rs of
      ovatool-cli, every line it prints included.
    - [Testing], [TestsParse], [TestsDisk], [TestsOva], [TestsOvf],
      [TestsExport]: the [#[test]] functions of the modules, translated and
      run on the model.  [IntegrationParse], [IntegrationOvf],
      [IntegrationOva], [IntegrationRun]: those of the directory tests/.
    - Definitions bear the names of the functions they translate; methods
      take the name of their type where it would be ambiguous
      ([StreamVmdkWriter_finish]).  A [&mut self] method is an action on the
      record of its fields.  The state of the export is the progress, the
      calls of the progress callback and the output file.

    * What is proved

    - [StreamSpec]: a disk written grain by grain reads back, through its
      footer, directory and tables, as the map of the grains written, and
      its header and footer announce the capacity asked for; runs never panic; the header round-trips; the program's own sparse reader
      refuses the result.
    - [OvaSpec]: an archive reads back, with a TAR reader written from the
      format, as its members and their manifest; streaming a member equals
      adding it; wrong sizes are refused; sizes from 8 GiB on panic.
    - [ReaderSpec], [SparseSpec]: draining a chunk iterator cuts the file, or
      the virtual disk, into chunks; opening a sparse disk is complete;
      reading a grain gives its size or an error; a zero geometry panics.
    - [HostedSpec]: the hosted sparse format as a relation between a file and
      a disk; the reader implements it, and an exported disk keeps its
      contents.
    - [DescriptorSpec], [VmxSpec], [TypesSpec], [StrSpec]: printing and
      parsing (a file name comes back with single blanks), the meaning of lines, the devices a configuration declares and
      their order, the ranges of the numbers parsed, and that the strings
      parsed from strings, and the OVF descriptor built from them, are made of
      Unicode scalar values (so that the descriptor's bytes decode).
    - [PipelineSpec]: any parallel run equals the sequential one; the progress
      is exact.
    - [Xml], [OvfSpec]: an XML reader; the descriptor of a machine whose file
      names need no escaping is a document, says what the configuration says,
      its references resolve, and its characters are ones XML allows exactly
      when those of the configuration are.
    - [ExportSpec]: the three ways a disk is read give one image; in chunks of
      64 KiB the image holds the disk, in larger chunks it does not.
      [ProgressSpec]: the progress of a disk of any kind and its percentages, the
      percentage of a completed export, the compression ratio.
    - [ExportVmSpec]: an exported machine is an archive of its disks, a
      descriptor that matches them, and a manifest.  [ImportSpec]: an importer
      of OVA archives written from the formats gets the disks of the machine
      back from what was exported, for every way the files can hold a disk.  [ExportFailSpec]: what
      failed runs leave behind, disks that cannot be opened, and flat disks in
      several extents.
      [ExportSplitSpec]: a split disk whose extents hold more than it
      declares.  [ExportDeviceSpec]: an export to a device that fills up
      leaves a prefix of the archive (two writers run in lockstep).
      [ExportEndsSpec]: every export with a chunk size that is not zero comes
      to an end.  [RunsSpec]: an export gives the same archive on any number
      of threads, for any schedule, and in a release build what it gives in a
      debug build (an order of success that sequencing respects).
    - [CliSpec]: sizes shown, and the chunk size of zero.  [CliExportSpec]:
      the export command from its arguments to its last line, and the grains
      every chunk size it can be given loses.  [InfoSpec]: the disks
      [info] lists are the ones [export] converts, with their capacities.
    - [IntegrationRun]: the tests of the repository pass on the model.

    The specifications are independent readers of the three output formats
    ([stream_lookup], [tar_read], [read_xml]), an importer made of them
    ([import_ova]), and a relation for the input
    format ([hosted]); a client is proved against the
    class of what it uses ([Write] and its laws, [Flate2], [Rayon], [Sha2],
    [HashOrder], [FileSystem]).

    * Parameters

    Code that is not of this repository: DEFLATE ([Flate2]: decoding inverts
    encoding, and a decoder that succeeds fills its buffer), SHA-256 ([Sha2]:
    updates concatenate, a digest has 32 bytes), the thread pool ([Rayon]: a
    schedule is a permutation), memory mapping ([MmapLaws]: it shows the file),
    the Unicode tables, the iteration order of a [HashMap], [File::create],
    the size the file system gives for the output, and the clock.  The
    witnesses instantiate them with stored blocks, SHA-256 as FIPS 180-4
    defines it ([Sha256]) or sums of bytes, a backwards schedule and
    in-memory files.

    * Fuel

    Loops are structural, or take fuel that a lemma shows enough:
    [write_all] has a round per byte at most, a chunk iterator a call per byte
    of the file or of the capacity at most ([drain_chunks],
    [drain_sparse_chunks]), [read_chunk_loop] and [drain_full] shorten what is
    left by a byte a round at least.  A chunk size of zero makes the iterators
    run for ever, and [zero_chunks_never_end] shows it for every fuel.

    * Not modelled

    The command line parser and the drawing of the progress bar (the crates
    clap and indicatif); the tests that run the DEFLATE library on its own
    output ([test_compress_grain_basic], [test_compress_grain],
    [test_compress_grain_random_data]), the tests of vmdk_reader_test.rs on
    files of a megabyte (too long to evaluate; their content is proved for all
    files in [ReaderSpec]) and the ignored tests of integration_test.rs, whose
    machine is not in the repository; the module roots lib.rs and vmdk/mod.rs.
    Memory is unbounded: allocation never fails.  Files do not
    change during an export, and the output is not one of its inputs.  Paths
    are Unix paths without a trailing slash.

    This file is the prelude: lists indexed by integers, chunks, sorting, and
    the tactics the other files share. *)
From stdpp Require Export prelude gmap sorting.
From Stdlib Require Export ZArith Lia.

#[export] Set Default Goal Selector "!".
Global Open Scope Z_scope.

Declare Scope ova_scope.
Delimit Scope ova_scope with ova.
Global Open Scope ova_scope.

(** ** Bytes and Z-indexed lists

    Bytes are integers; [is_byte] is the range every byte of a Rust [u8] has.
    Lengths and offsets are [Z], as the code's [usize] and [u64] values are,
    so that a bound check is a comparison of integers. *)

Abbreviation byte := Z (only parsing).
Abbreviation bytes := (list Z) (only parsing).

Definition is_byte (b : Z) : Prop := 0 <= b < 256.

(** The same, evaluated: for concrete buffers. *)
Definition all_bytes (l : list Z) : bool := forallb (fun b => (0 <=? b) && (b <? 256)) l.

Lemma all_bytes_spec l : all_bytes l = true -> Forall is_byte l.
Proof.
  unfold all_bytes. intros H. apply Forall_forall. intros b Hb.
  rewrite forallb_forall in H. apply list_elem_of_In in Hb. specialize (H b Hb).
  unfold is_byte. lia.
Qed.

Definition zlen {A} (l : list A) : Z := Z.of_nat (length l).
Definition ztake {A} (n : Z) (l : list A) : list A := take (Z.to_nat n) l.
Definition zdrop {A} (n : Z) (l : list A) : list A := drop (Z.to_nat n) l.
Definition zrep {A} (n : Z) (x : A) : list A := replicate (Z.to_nat n) x.

(** [zslice off n l] is [l[off .. off + n]] where that range is in bounds. *)
Definition zslice {A} (off n : Z) (l : list A) : list A := ztake n (zdrop off l).

(** [put_at off src buf] is [buf[off .. off + src.len()].copy_from_slice(src)]
    where that range is in bounds. *)
Definition put_at {A} (off : Z) (src buf : list A) : list A :=
  ztake off buf ++ src ++ zdrop (off + zlen src) buf.

Notation "'zeros' n" := (zrep n 0) (at level 10, n at level 9) : ova_scope.

(** ** Automation *)

Create HintDb ova discriminated.
Create Rewrite HintDb zlen.

Lemma zlen_nonneg {A} (l : list A) : 0 <= zlen l.
Proof. unfold zlen; lia. Qed.

Lemma zlen_nil {A} : zlen (@nil A) = 0.
Proof. reflexivity. Qed.

Lemma zlen_cons {A} (x : A) l : zlen (x :: l) = 1 + zlen l.
Proof. unfold zlen; cbn [length]; lia. Qed.

Lemma zlen_app {A} (l k : list A) : zlen (l ++ k) = zlen l + zlen k.
Proof. unfold zlen; rewrite length_app; lia. Qed.

Lemma zlen_zrep {A} n (x : A) : zlen (zrep n x) = Z.max 0 n.
Proof. unfold zlen, zrep; rewrite length_replicate; lia. Qed.

Lemma zlen_ztake {A} n (l : list A) : zlen (ztake n l) = Z.min (Z.max 0 n) (zlen l).
Proof. unfold zlen, ztake; rewrite length_take; lia. Qed.

Lemma zlen_zdrop {A} n (l : list A) : zlen (zdrop n l) = Z.max 0 (zlen l - Z.max 0 n).
Proof. unfold zlen, zdrop; rewrite length_drop; lia. Qed.

Lemma zlen_map {A B} (f : A -> B) l : zlen (map f l) = zlen l.
Proof. unfold zlen; rewrite length_map; lia. Qed.

Lemma zlen_fmap {A B} (f : A -> B) (l : list A) : zlen (f <$> l) = zlen l.
Proof. unfold zlen; rewrite length_fmap; lia. Qed.

#[export] Hint Rewrite @zlen_cons @zlen_app @zlen_zrep @zlen_ztake
  @zlen_zdrop @zlen_map @zlen_fmap : zlen.

(** [zlen_pos] records that the lengths the goal and the hypotheses mention
    are not negative, [zsolve] normalises lengths and calls [lia]. *)
Ltac zlen_pos :=
  repeat match goal with
    | |- context [zlen ?l] =>
        lazymatch goal with
        | _ : 0 <= zlen l |- _ => fail
        | _ => pose proof (zlen_nonneg l)
        end
    | _ : context [zlen ?l] |- _ =>
        lazymatch goal with
        | _ : 0 <= zlen l |- _ => fail
        | _ => pose proof (zlen_nonneg l)
        end
    end.

(** [zlen []] is replaced syntactically: as a rewrite rule it would be tried,
    up to conversion, on every length. *)
Ltac zlen_nils :=
  repeat match goal with
    | |- context [zlen (@nil ?A)] => change (zlen (@nil A)) with 0
    | H : context [zlen (@nil ?A)] |- _ => change (zlen (@nil A)) with 0 in H
    end.

Ltac zlens := autorewrite with zlen in *; zlen_nils.
Ltac zsolve := zlens; zlen_pos; lia.

(** Case analysis on the boolean comparisons of the goal. *)
Ltac zcase :=
  match goal with
  | |- context [if ?a <? ?b then _ else _] => destruct (Z.ltb_spec a b)
  | |- context [if ?a <=? ?b then _ else _] => destruct (Z.leb_spec a b)
  | |- context [if ?a =? ?b then _ else _] => destruct (Z.eqb_spec a b)
  end.

(** ** Slices *)

Lemma zlen_zslice {A} off n (l : list A) :
  0 <= off -> 0 <= n -> off + n <= zlen l -> zlen (zslice off n l) = n.
Proof. intros. unfold zslice. zsolve. Qed.

Lemma ztake_all {A} n (l : list A) : zlen l <= n -> ztake n l = l.
Proof. unfold ztake, zlen. intros. apply take_ge. lia. Qed.

Lemma zdrop_all {A} n (l : list A) : zlen l <= n -> zdrop n l = [].
Proof. unfold zdrop, zlen. intros. apply drop_ge. lia. Qed.

Lemma ztake_nonpos {A} n (l : list A) : n <= 0 -> ztake n l = [].
Proof. unfold ztake. intros. replace (Z.to_nat n) with O by lia. reflexivity. Qed.

Lemma zdrop_nonpos {A} n (l : list A) : n <= 0 -> zdrop n l = l.
Proof. unfold zdrop. intros. replace (Z.to_nat n) with O by lia. reflexivity. Qed.

Lemma ztake_app_le {A} n (l k : list A) : n <= zlen l -> ztake n (l ++ k) = ztake n l.
Proof. unfold ztake, zlen. intros. apply take_app_le. lia. Qed.

Lemma ztake_app_ge {A} n (l k : list A) :
  zlen l <= n -> ztake n (l ++ k) = l ++ ztake (n - zlen l) k.
Proof.
  unfold ztake, zlen. intros. rewrite take_app_ge by lia. do 2 f_equal. lia.
Qed.

Lemma zdrop_app_le {A} n (l k : list A) : n <= zlen l -> zdrop n (l ++ k) = zdrop n l ++ k.
Proof. unfold zdrop, zlen. intros. apply drop_app_le. lia. Qed.

Lemma zdrop_app_ge {A} n (l k : list A) :
  zlen l <= n -> zdrop n (l ++ k) = zdrop (n - zlen l) k.
Proof.
  unfold zdrop, zlen. intros. rewrite drop_app_ge by lia. f_equal. lia.
Qed.

Lemma ztake_zdrop {A} n (l : list A) : ztake n l ++ zdrop n l = l.
Proof. apply take_drop. Qed.

Lemma zdrop_zdrop {A} a b (l : list A) :
  0 <= a -> 0 <= b -> zdrop a (zdrop b l) = zdrop (b + a) l.
Proof. unfold zdrop. intros. rewrite drop_drop. f_equal. lia. Qed.

Lemma zslice_app_l {A} off n (l k : list A) :
  0 <= off -> 0 <= n -> off + n <= zlen l -> zslice off n (l ++ k) = zslice off n l.
Proof.
  intros. unfold zslice. rewrite zdrop_app_le by lia. apply ztake_app_le.
  rewrite zlen_zdrop. lia.
Qed.

Lemma zslice_app_r {A} off n (l k : list A) :
  zlen l <= off -> zslice off n (l ++ k) = zslice (off - zlen l) n k.
Proof. intros. unfold zslice. by rewrite zdrop_app_ge by lia. Qed.

Lemma zslice_all {A} n (l : list A) : zlen l = n -> zslice 0 n l = l.
Proof. intros <-. unfold zslice. rewrite zdrop_nonpos by lia. by apply ztake_all. Qed.

Lemma zslice_mid {A} off n (p s q : list A) :
  zlen p = off -> zlen s = n -> zslice off n (p ++ s ++ q) = s.
Proof.
  intros <- <-. rewrite zslice_app_r by lia. rewrite Z.sub_diag.
  pose proof (zlen_nonneg s).
  rewrite zslice_app_l by lia. by apply zslice_all.
Qed.

Lemma zslice_skip {A} off m n (l k : list A) :
  zlen l = m -> m <= off -> zslice off n (l ++ k) = zslice (off - m) n k.
Proof. intros <- ?. by apply zslice_app_r. Qed.

Lemma zslice_head {A} n (l k : list A) : zlen l = n -> zslice 0 n (l ++ k) = l.
Proof.
  intros <-. zlen_pos. rewrite zslice_app_l by lia. by apply zslice_all.
Qed.

Lemma zslice_0 {A} off (l : list A) : zslice off 0 l = [].
Proof. unfold zslice. by apply ztake_nonpos. Qed.

Lemma zslice_ztake {A} off n m (l : list A) :
  0 <= off -> 0 <= n -> off + n <= m -> zslice off n (ztake m l) = zslice off n l.
Proof.
  intros. unfold zslice, ztake, zdrop. rewrite skipn_firstn_comm, take_take. f_equal. lia.
Qed.

(** Two adjacent slices. *)
Lemma zslice_join {A} off n m (l : list A) :
  0 <= off -> 0 <= n -> 0 <= m -> zslice off n l ++ zslice (off + n) m l = zslice off (n + m) l.
Proof.
  intros. unfold zslice. rewrite <- (zdrop_zdrop n off) by lia.
  generalize (zdrop off l) as k. intros k. unfold ztake, zdrop.
  rewrite Z2Nat.inj_add by lia. apply take_take_drop.
Qed.

Lemma zslice_zslice {A} a n b m (l : list A) :
  0 <= a -> 0 <= b -> 0 <= m -> b + m <= n ->
  zslice b m (zslice a n l) = zslice (a + b) m l.
Proof.
  intros. unfold zslice, ztake, zdrop.
  rewrite skipn_firstn_comm, take_take, drop_drop. f_equal; [lia|f_equal; lia].
Qed.

Lemma zslice_put_other {A} o n off (src buf : list A) :
  0 <= o -> 0 <= n -> 0 <= off -> off + zlen src <= zlen buf ->
  o + n <= off \/ off + zlen src <= o -> zslice o n (put_at off src buf) = zslice o n buf.
Proof.
  intros ? ? ? Hb Hd. unfold put_at. pose proof (zlen_nonneg src).
  assert (Ht : zlen (ztake off buf) = off) by (rewrite zlen_ztake; lia).
  destruct Hd.
  - rewrite zslice_app_l by lia. symmetry.
    rewrite <- (zslice_app_l o n (ztake off buf) (zdrop off buf)) by lia.
    by rewrite ztake_zdrop.
  - rewrite zslice_app_r by lia. rewrite Ht, zslice_app_r by lia.
    unfold zslice. rewrite zdrop_zdrop by lia. do 2 f_equal. lia.
Qed.

Lemma zslice_put_same {A} off n (src buf : list A) :
  0 <= off -> off + zlen src <= zlen buf -> zlen src = n ->
  zslice off n (put_at off src buf) = src.
Proof.
  intros. unfold put_at. apply zslice_mid; [|done].
  rewrite zlen_ztake. zlen_pos. lia.
Qed.

Lemma zlen_put_at {A} off (src buf : list A) :
  0 <= off -> off + zlen src <= zlen buf -> zlen (put_at off src buf) = zlen buf.
Proof. intros. unfold put_at. zsolve. Qed.

(** Filling a zeroed buffer from left to right appends the fields. *)
Lemma put_at_zeros (p s : bytes) off n :
  zlen p = off -> zlen s <= n ->
  put_at off s (p ++ zeros n) = (p ++ s) ++ zeros (n - zlen s).
Proof.
  intros <- Hn. unfold put_at. zlen_pos.
  rewrite ztake_app_le by lia. rewrite ztake_all by lia.
  rewrite zdrop_app_ge by lia. rewrite <- app_assoc. do 2 f_equal.
  unfold zdrop, zrep, zlen in *. rewrite drop_replicate. f_equal. lia.
Qed.

(** Writing a field behind a gap keeps the gap zeroed. *)
Lemma put_at_gap (p s : bytes) off n :
  zlen p <= off -> off - zlen p + zlen s <= n ->
  put_at off s (p ++ zeros n) =
    (p ++ zeros (off - zlen p) ++ s) ++ zeros (n - (off - zlen p) - zlen s).
Proof.
  intros Ho Hn. zlen_pos.
  replace (zeros n) with (zeros (off - zlen p) ++ zeros (n - (off - zlen p))).
  - rewrite !app_assoc. rewrite put_at_zeros; [done| |lia]. zsolve.
  - unfold zrep. rewrite <- replicate_add. f_equal. lia.
Qed.

Lemma put_field (p s : bytes) off gap n m :
  zlen p + gap = off -> 0 <= gap -> 0 <= m -> gap + zlen s + m = n ->
  put_at off s (p ++ zeros n) = (p ++ zeros gap ++ s) ++ zeros m.
Proof.
  intros <- ? ? <-. rewrite put_at_gap by lia. do 4 f_equal; lia.
Qed.

(** Overwriting a field by one of the same length. *)
Lemma put_at_mid {A} off (p s t q : list A) :
  zlen p = off -> zlen s = zlen t -> put_at off s (p ++ t ++ q) = p ++ s ++ q.
Proof.
  intros <- Hs. unfold put_at. zlen_pos.
  rewrite ztake_app_le by lia. rewrite ztake_all by lia.
  rewrite zdrop_app_ge by lia. rewrite zdrop_app_ge by lia.
  rewrite zdrop_nonpos by lia. done.
Qed.

Lemma zrep_app {A} a b (x : A) : 0 <= a -> 0 <= b -> zrep a x ++ zrep b x = zrep (a + b) x.
Proof. intros. unfold zrep. rewrite <- replicate_add. f_equal. lia. Qed.

Lemma Forall_zrep {A} (P : A -> Prop) n x : P x -> Forall P (zrep n x).
Proof. intros. unfold zrep. by apply Forall_replicate. Qed.

Lemma Forall_ztake {A} (P : A -> Prop) n l : Forall P l -> Forall P (ztake n l).
Proof. apply Forall_take. Qed.

Lemma Forall_zdrop {A} (P : A -> Prop) n l : Forall P l -> Forall P (zdrop n l).
Proof. apply Forall_drop. Qed.

Lemma Forall_zslice {A} (P : A -> Prop) o n l : Forall P l -> Forall P (zslice o n l).
Proof. intros. by apply Forall_ztake, Forall_zdrop. Qed.

#[export] Hint Resolve Forall_zrep Forall_ztake Forall_zdrop Forall_zslice : ova.

(** ** Sequences of equally long records *)

Section records.
  Context {A B : Type} (f : A -> list B) (k : Z).

Lemma zlen_records_in l : (forall x, x ∈ l -> zlen (f x) = k) -> zlen (l ≫= f) = k * zlen l.
Proof.
  induction l as [|x l IH]; intros Hk; [unfold zlen; cbn; lia|].
  rewrite bind_cons, zlen_app, Hk, IH, zlen_cons by set_solver. lia.
Qed.

Lemma zslice_record_in l (i : nat) x q :
  (forall x, x ∈ l -> zlen (f x) = k) ->
  l !! i = Some x -> zslice (k * Z.of_nat i) k ((l ≫= f) ++ q) = f x.
Proof.
  revert i. induction l as [|y l IH]; intros [|i] Hk; cbn [lookup list_lookup]; [done|done| |].
  - intros [= ->]. rewrite bind_cons, <- app_assoc, Z.mul_0_r.
    apply zslice_head, Hk. set_solver.
  - intros Hi. rewrite bind_cons, <- app_assoc.
    pose proof (zlen_nonneg (f y)) as Hp. pose proof (Hk y ltac:(set_solver)) as Hy. rewrite Hy in Hp.
    rewrite zslice_app_r by (rewrite Hy; nia).
    rewrite Hy. replace (k * Z.of_nat (S i) - k) with (k * Z.of_nat i) by lia.
    apply IH; [set_solver|done].
Qed.

  Hypothesis Hk : forall x, zlen (f x) = k.

Lemma zlen_records l : zlen (l ≫= f) = k * zlen l.
Proof. by apply zlen_records_in. Qed.

Lemma zslice_record l (i : nat) x q :
  l !! i = Some x -> zslice (k * Z.of_nat i) k ((l ≫= f) ++ q) = f x.
Proof. by apply zslice_record_in. Qed.
End records.

(** ** Rounding up to a block size *)

(** The number of bytes the code pads with: [(512 - len % 512) % 512]. *)
Definition pad_len (block len : Z) : Z := (block - len mod block) mod block.

Lemma pad_len_range block len : 0 < block -> 0 <= pad_len block len < block.
Proof. intros. apply Z.mod_pos_bound. lia. Qed.

Lemma pad_len_aligns block len : 0 < block -> (len + pad_len block len) mod block = 0.
Proof.
  intros. unfold pad_len. rewrite Zplus_mod_idemp_r.
  replace (len + (block - len mod block)) with ((len - len mod block) + 1 * block) by lia.
  rewrite Z.mod_add by lia. rewrite Zminus_mod, Zmod_mod, Z.sub_diag. apply Zmod_0_l.
Qed.

Lemma pad_len_aligned block len : 0 < block -> len mod block = 0 -> pad_len block len = 0.
Proof. intros ? E. unfold pad_len. rewrite E, Z.sub_0_r. apply Z.mod_same. lia. Qed.

Lemma pad_len_unaligned block len :
  0 < block -> len mod block <> 0 -> pad_len block len = block - len mod block.
Proof.
  intros ? Hne. unfold pad_len. apply Z.mod_small.
  pose proof (Z.mod_pos_bound len block). lia.
Qed.

Lemma pad_len_step block len :
  0 < block -> len mod block <> 0 -> pad_len block len = 1 + pad_len block (len + 1).
Proof.
  intros Hb Hne. rewrite (pad_len_unaligned block len) by done.
  pose proof (Z.mod_pos_bound len block Hb).
  pose proof (Z.div_mod len block ltac:(lia)) as Hd.
  destruct (decide (len mod block = block - 1)).
  - rewrite pad_len_aligned; [lia|done|].
    replace (len + 1) with ((len / block + 1) * block) by nia. apply Z.mod_mul. lia.
  - assert ((len + 1) mod block = len mod block + 1) as E.
    { symmetry. apply (Z.mod_unique _ _ (len / block)); lia. }
    rewrite pad_len_unaligned by lia. lia.
Qed.

(** ** Cutting into chunks

    [split_chunks k l] is [l] cut into pieces of [k] elements, the last one
    possibly shorter: the reference for every chunk iterator of the code. *)

Fixpoint split_rounds {A} (fuel : nat) (k : Z) (l : list A) : list (list A) :=
  match fuel, l with
  | _, [] => []
  | O, _ => []
  | S f, _ => ztake k l :: split_rounds f k (zdrop k l)
  end.

Definition split_chunks {A} (k : Z) (l : list A) : list (list A) := split_rounds (length l) k l.

(** The number of pieces. *)
Definition ceil_div (n k : Z) : Z := n / k + if 0 <? n mod k then 1 else 0.

Lemma ceil_div_step n k : 0 < k -> 0 < n -> ceil_div n k = 1 + ceil_div (Z.max 0 (n - k)) k.
Proof.
  intros Hk Hn. unfold ceil_div. destruct (decide (n <= k)) as [Hle|].
  - rewrite Z.max_l by lia. rewrite Z.div_0_l, Z.mod_0_l by lia. cbn.
    destruct (decide (n = k)) as [->|].
    + rewrite Z.div_same, Z.mod_same by lia. reflexivity.
    + rewrite Z.div_small, Z.mod_small by lia. zcase; lia.
  - rewrite Z.max_r by lia. replace n with ((n - k) + 1 * k) at 1 2 by lia.
    rewrite Z.div_add, Z.mod_add by lia. lia.
Qed.

Lemma ceil_div_nonneg n k : 0 < k -> 0 <= n -> 0 <= ceil_div n k.
Proof. intros. unfold ceil_div. pose proof (Z.div_pos n k). zcase; lia. Qed.

Lemma ceil_div_alt n k : 0 < k -> 0 <= n -> ceil_div n k = (n + k - 1) / k.
Proof.
  intros Hk Hn. unfold ceil_div. pose proof (Z.div_mod n k ltac:(lia)) as Hd.
  pose proof (Z.mod_pos_bound n k Hk). destruct (Z.ltb_spec 0 (n mod k)).
  - apply (Z.div_unique _ _ _ (n mod k - 1)); lia.
  - apply (Z.div_unique _ _ _ (k - 1)); lia.
Qed.

Lemma ceil_div_bounds n k : 0 < k -> 0 <= n -> n <= ceil_div n k * k < n + k.
Proof.
  intros Hk Hn. unfold ceil_div. pose proof (Z.div_mod n k ltac:(lia)) as Hd.
  pose proof (Z.mod_pos_bound n k Hk). zcase; nia.
Qed.

Section chunks.
  Context {A : Type} (k : Z).
  Hypothesis Hk : 0 < k.
  Implicit Types l : list A.

Lemma split_rounds_more fuel1 fuel2 l :
  zlen l <= Z.of_nat fuel1 -> zlen l <= Z.of_nat fuel2 ->
  split_rounds fuel1 k l = split_rounds fuel2 k l.
Proof.
  revert fuel2 l. induction fuel1 as [|f1 IH]; intros [|f2] [|x l] H1 H2; try done;
    try (rewrite zlen_cons in *; zlen_pos; lia).
  cbn [split_rounds]. f_equal. apply IH; rewrite zlen_zdrop, zlen_cons in *; zlen_pos; lia.
Qed.

Lemma split_chunks_nil : split_chunks k (@nil A) = [].
Proof. reflexivity. Qed.

Lemma split_chunks_step l :
  l <> [] -> split_chunks k l = ztake k l :: split_chunks k (zdrop k l).
Proof.
  intros Hl. destruct l as [|x l]; [done|]. unfold split_chunks at 1.
  cbn [length split_rounds]. f_equal. apply split_rounds_more; rewrite zlen_zdrop, ?zlen_cons;
    unfold zlen in *; rewrite ?length_drop; cbn [length]; [lia|].
  unfold zdrop. rewrite length_drop. cbn [length]. lia.
Qed.

Lemma chunks_ind (P : list A -> Prop) :
  P [] -> (forall l, l <> [] -> P (zdrop k l) -> P l) -> forall l, P l.
Proof.
  intros Hnil Hstep l. remember (length l) as n eqn:En. assert (length l <= n)%nat as Hn by lia.
  clear En. revert l Hn. induction n as [|n IH]; intros [|x l] Hn; cbn in Hn; try done; try lia.
  apply Hstep; [done|]. apply IH. unfold zdrop. rewrite length_drop. cbn [length]. lia.
Qed.

Lemma split_chunks_concat l : concat (split_chunks k l) = l.
Proof.
  induction l as [|l Hl IH] using chunks_ind; [done|].
  rewrite split_chunks_step by done. cbn [concat]. by rewrite IH, ztake_zdrop.
Qed.

Lemma split_chunks_length l : zlen (split_chunks k l) = ceil_div (zlen l) k.
Proof.
  induction l as [|l Hl IH] using chunks_ind.
  - unfold ceil_div. change (zlen (@nil A)) with 0. by rewrite Z.div_0_l, Z.mod_0_l by lia.
  - rewrite split_chunks_step, zlen_cons, IH by done.
    assert (0 < zlen l) by (destruct l; [done|rewrite zlen_cons; zlen_pos; lia]).
    rewrite (ceil_div_step (zlen l)) by done. rewrite zlen_zdrop.
    do 2 f_equal. lia.
Qed.

(** Piece [i] is the slice at [i * k]. *)
Lemma split_chunks_lookup l (i : nat) c :
  split_chunks k l !! i = Some c ->
  k * Z.of_nat i < zlen l /\ c = zslice (k * Z.of_nat i) (Z.min k (zlen l - k * Z.of_nat i)) l.
Proof.
  revert i. induction l as [|l Hl IH] using chunks_ind; intros i; [done|].
  assert (0 < zlen l) by (destruct l; [done|rewrite zlen_cons; zlen_pos; lia]).
  rewrite split_chunks_step by done. destruct i as [|i]; cbn.
  - intros [= <-]. rewrite Z.mul_0_r, Z.sub_0_r. split; [done|].
    unfold zslice. rewrite zdrop_nonpos by lia.
    destruct (Z.le_ge_cases k (zlen l)); [by rewrite Z.min_l|].
    rewrite Z.min_r by done. by rewrite !ztake_all by lia.
  - intros [Hi ->]%IH. rewrite zlen_zdrop in *. split; [nia|].
    unfold zslice. rewrite zdrop_zdrop by nia. f_equal; [nia|f_equal; nia].
Qed.

(** All pieces but the last are full. *)
Lemma split_chunks_sizes l (i : nat) c :
  split_chunks k l !! i = Some c ->
  0 < zlen c <= k /\ (Z.of_nat i < zlen (split_chunks k l) - 1 -> zlen c = k).
Proof.
  intros Hi. pose proof (lookup_lt_Some _ _ _ Hi) as Hlt.
  destruct (split_chunks_lookup _ _ _ Hi) as [Ho ->].
  rewrite zlen_zslice by lia. split; [lia|]. rewrite split_chunks_length. unfold ceil_div.
  intros Hb. enough (k * Z.of_nat i + k <= zlen l) by lia.
  pose proof (Z.div_mod (zlen l) k ltac:(lia)). pose proof (Z.mod_pos_bound (zlen l) k Hk).
  destruct (Z.ltb_spec 0 (zlen l mod k)); nia.
Qed.

(** Whole pieces in front do not change the cut of the rest. *)
Lemma split_chunks_app l1 l2 :
  zlen l1 mod k = 0 -> split_chunks k (l1 ++ l2) = split_chunks k l1 ++ split_chunks k l2.
Proof.
  induction l1 as [|l1 Hl IH] using chunks_ind; intros Hm; [done|].
  assert (0 < zlen l1) by (destruct l1; [done|rewrite zlen_cons; zlen_pos; lia]).
  assert (k <= zlen l1).
  { destruct (decide (k <= zlen l1)); [done|]. rewrite Z.mod_small in Hm by lia. lia. }
  rewrite (split_chunks_step (l1 ++ l2)) by (by destruct l1).
  rewrite (split_chunks_step l1) by done.
  rewrite ztake_app_le, zdrop_app_le by lia. cbn. f_equal. apply IH.
  rewrite zlen_zdrop, !Z.max_r by lia. rewrite Zminus_mod, Hm, Z.mod_same by lia. by rewrite Z.mod_0_l by lia.
Qed.

Lemma split_chunks_small l : 0 < zlen l <= k -> split_chunks k l = [l].
Proof.
  intros [H1 H2]. rewrite split_chunks_step by (by intros ->).
  by rewrite ztake_all, zdrop_all by done.
Qed.
End chunks.

(** ** Indexed maps *)

Lemma map_as_imap {A B} (f : A -> B) l : map f l = imap (fun _ => f) l.
Proof. induction l as [|x l IH]; [done|]. cbn. by rewrite IH. Qed.

Lemma map_imap {A B C} (g : B -> C) (f : nat -> A -> B) l : map g (imap f l) = imap (fun i x => g (f i x)) l.
Proof. apply fmap_imap. Qed.

(** ** Stable sorting

    [slice::sort_by] is stable; equal elements keep their order. *)

Section sort.
  Context {A : Type} (cmp : A -> A -> comparison).

Fixpoint sort_insert (x : A) (l : list A) : list A :=
  match l with
  | [] => [x]
  | y :: l' => match cmp x y with Gt => y :: sort_insert x l' | _ => x :: l end
  end.

Definition sort_by (l : list A) : list A := foldr sort_insert [] l.

  (** [cmp] orders the elements up to [Eq]. *)
Class CmpLaws := {
  cmp_opp : forall x y, cmp y x = CompOpp (cmp x y);
  cmp_le_trans : forall x y z, cmp x y <> Gt -> cmp y z <> Gt -> cmp x z <> Gt;
}.

Definition cmp_le (x y : A) : Prop := cmp x y <> Gt.

Lemma sort_insert_perm x l : sort_insert x l ≡ₚ x :: l.
Proof.
  induction l as [|y l IH]; cbn; [done|].
  destruct (cmp x y); [done..|]. rewrite IH. apply Permutation_swap.
Qed.

Lemma sort_by_perm l : sort_by l ≡ₚ l.
Proof. induction l as [|x l IH]; cbn; [done|]. by rewrite sort_insert_perm, IH. Qed.

Context `{CmpLaws}.

Lemma cmp_le_flip x y : cmp x y = Gt -> cmp_le y x.
Proof. intros E. unfold cmp_le. by rewrite cmp_opp, E. Qed.

Lemma sort_insert_sorted x l : StronglySorted cmp_le l -> StronglySorted cmp_le (sort_insert x l).
Proof.
  induction 1 as [|y l Hs IH Hy]; cbn; [by repeat constructor|].
  destruct (cmp x y) eqn:E.
  1, 2: constructor; [by constructor|]; constructor; [unfold cmp_le; by rewrite E|];
    eapply Forall_impl; [exact Hy|]; intros z Hz; apply (cmp_le_trans x y z); [by rewrite E|done].
  constructor; [done|]. rewrite sort_insert_perm. constructor; [by apply cmp_le_flip|done].
Qed.

Lemma sort_by_sorted l : StronglySorted cmp_le (sort_by l).
Proof. induction l; cbn; [constructor|by apply sort_insert_sorted]. Qed.

(** Where [Eq] elements are equal, the order of the input does not matter. *)
Lemma sort_by_permutation l1 l2 :
  (forall x y, x ∈ l1 -> y ∈ l1 -> cmp x y = Eq -> x = y) ->
  l1 ≡ₚ l2 -> sort_by l1 = sort_by l2.
Proof.
  intros Heq Hp. apply (StronglySorted_unique_strong cmp_le).
  - intros x y Hx Hy Hxy Hyx. rewrite sort_by_perm in Hx, Hy. rewrite <- Hp in Hy.
    apply Heq; [done..|]. unfold cmp_le in *. rewrite cmp_opp in Hyx. by destruct (cmp x y).
  - apply sort_by_sorted.
  - apply sort_by_sorted.
  - by rewrite !sort_by_perm.
Qed.
End sort.

(** ** Folds *)

Lemma fold_left_keeps {A B} (P : A -> Prop) (f : A -> B -> A) l a :
  (forall a b, P a -> P (f a b)) -> P a -> P (fold_left f l a).
Proof. intros Hf. revert a. induction l as [|b l IH]; intros a Ha; [done|]. cbn. by apply IH, Hf. Qed.

Lemma fold_left_concat {A} (parts : list (list A)) acc :
  fold_left (fun h b => h ++ b) parts acc = acc ++ concat parts.
Proof.
  revert acc. induction parts as [|p parts IH]; intros acc; cbn; [by rewrite app_nil_r|].
  by rewrite IH, app_assoc.
Qed.
