(* ===== verification/Text.v ===== *)
(** * Text: Rust strings and the [str], [char] and [format!] operations

    A string is the list of its Unicode scalar values.  The code slices
    strings only next to ASCII characters it has just found, so positions in
    scalar values and positions in UTF-8 bytes select the same text; where the
    code looks at bytes ([as_bytes], [fs::read_to_string]) the model goes
    through [utf8_encode] and [utf8_decode]. *)
From S2P Require Export Prelude.
From Stdlib Require Export Ascii String.
From stdpp Require Export strings.
Global Open Scope Z_scope.

Abbreviation str := (list Z) (only parsing).

(** String literals.  [raw] reads a backquote as a double quote, so that the
    XML templates stay readable. *)
Definition lit (s : string) : str :=
  map (fun a => Z.of_N (N_of_ascii a)) (list_ascii_of_string s).

Definition raw (s : string) : str :=
  map (fun c => if c =? 96 then 34 else c) (lit s).

Arguments lit _%_string.
Arguments raw _%_string.

(** ** Characters *)

Abbreviation c_nl := 10 (only parsing).
Abbreviation c_cr := 13 (only parsing).
Abbreviation c_space := 32 (only parsing).
Abbreviation c_dquote := 34 (only parsing).
Abbreviation c_hash := 35 (only parsing).
Abbreviation c_amp := 38 (only parsing).
Abbreviation c_apos := 39 (only parsing).
Abbreviation c_plus := 43 (only parsing).
Abbreviation c_minus := 45 (only parsing).
Abbreviation c_dot := 46 (only parsing).
Abbreviation c_slash := 47 (only parsing).
Abbreviation c_zero := 48 (only parsing).
Abbreviation c_colon := 58 (only parsing).
Abbreviation c_lt := 60 (only parsing).
Abbreviation c_eq := 61 (only parsing).
Abbreviation c_gt := 62 (only parsing).
Abbreviation c_underscore := 95 (only parsing).

Definition in_range (lo hi c : Z) : bool := (lo <=? c) && (c <=? hi).

(** [char] values: the Unicode scalar values. *)
Definition is_scalar (c : Z) : Prop := 0 <= c < 55296 \/ 57344 <= c < 1114112.

(** [char::is_whitespace], the [White_Space] property. *)
Definition is_whitespace (c : Z) : bool :=
  in_range 9 13 c || (c =? 32) || (c =? 133) || (c =? 160) || (c =? 5760)
  || in_range 8192 8202 c || (c =? 8232) || (c =? 8233) || (c =? 8239)
  || (c =? 8287) || (c =? 12288).

Definition is_ascii_upper (c : Z) : bool := in_range 65 90 c.
Definition is_ascii_lower (c : Z) : bool := in_range 97 122 c.
Definition is_ascii_digit (c : Z) : bool := in_range 48 57 c.

Definition ascii_lower (c : Z) : Z := if is_ascii_upper c then c + 32 else c.
Definition ascii_upper (c : Z) : Z := if is_ascii_lower c then c - 32 else c.

(** The part of the Unicode character database the code consults outside
    ASCII: its contents are data of the standard library's release, and every
    theorem holds for any contents. *)
Class UnicodeTables := {
  alphanumeric_table : Z -> bool;
  lowercase_table : Z -> str;
  uppercase_table : Z -> str;
}.

(** Tables of a program that meets no character outside ASCII. *)
Definition ascii_tables : UnicodeTables :=
  {| alphanumeric_table := fun _ => false;
     lowercase_table := fun c => [c];
     uppercase_table := fun c => [c] |}.

Definition is_alphanumeric `{UnicodeTables} (c : Z) : bool :=
  if c <? 128 then is_ascii_upper c || is_ascii_lower c || is_ascii_digit c
  else alphanumeric_table c.

Definition to_lowercase `{UnicodeTables} (s : str) : str :=
  s ≫= fun c => if c <? 128 then [ascii_lower c] else lowercase_table c.

Definition to_uppercase `{UnicodeTables} (s : str) : str :=
  s ≫= fun c => if c <? 128 then [ascii_upper c] else uppercase_table c.

Definition eq_ignore_ascii_case (a b : str) : bool :=
  bool_decide (map ascii_lower a = map ascii_lower b).

(** ** Searching and slicing *)

Definition str_eqb (a b : str) : bool := bool_decide (a = b).

Fixpoint starts_with (p s : str) : bool :=
  match p, s with
  | [], _ => true
  | a :: p', b :: s' => (a =? b) && starts_with p' s'
  | _ :: _, [] => false
  end.

Definition ends_with (p s : str) : bool := starts_with (rev p) (rev s).

Fixpoint find_char (c : Z) (s : str) : option Z :=
  match s with
  | [] => None
  | d :: s' => if d =? c then Some 0 else Z.succ <$> find_char c s'
  end.

Fixpoint trim_start (s : str) : str :=
  match s with
  | [] => []
  | c :: s' => if is_whitespace c then trim_start s' else s
  end.

Definition trim_end (s : str) : str := rev (trim_start (rev s)).
Definition trim (s : str) : str := trim_end (trim_start s).

(** [str::replace] of a character by a string. *)
Definition replace_char (c : Z) (by_ s : str) : str :=
  s ≫= fun d => if d =? c then by_ else [d].

(** [str::replace] of a non-empty string: leftmost matches, left to right;
    the fuel is the length of the text. *)
Fixpoint replace_fuel (fuel : nat) (pat by_ s : str) : str :=
  match fuel, s with
  | S f, c :: s' =>
      if starts_with pat s then by_ ++ replace_fuel f pat by_ (zdrop (zlen pat) s)
      else c :: replace_fuel f pat by_ s'
  | _, _ => s
  end.

Definition replace (pat by_ s : str) : str := replace_fuel (length s) pat by_ s.

(** [str::lines]: split at newlines, a final newline opens no line, and a
    carriage return before a newline belongs to the line ending. *)
Definition strip_cr (line : str) : str :=
  match rev line with
  | c :: r => if c =? c_cr then rev r else line
  | [] => line
  end.

Fixpoint lines_from (acc : str) (s : str) : list str :=
  match s with
  | [] => match acc with [] => [] | _ => [rev acc] end
  | c :: s' =>
      if c =? c_nl then strip_cr (rev acc) :: lines_from [] s'
      else lines_from (c :: acc) s'
  end.

Definition lines (s : str) : list str := lines_from [] s.

(** [str::split_whitespace]. *)
Fixpoint split_ws_from (acc : str) (s : str) : list str :=
  match s with
  | [] => match acc with [] => [] | _ => [rev acc] end
  | c :: s' =>
      if is_whitespace c then
        match acc with
        | [] => split_ws_from [] s'
        | _ => rev acc :: split_ws_from [] s'
        end
      else split_ws_from (c :: acc) s'
  end.

Definition split_whitespace (s : str) : list str := split_ws_from [] s.

(** [slice::join]. *)
Fixpoint join (sep : str) (parts : list str) : str :=
  match parts with
  | [] => []
  | [p] => p
  | p :: rest => p ++ sep ++ join sep rest
  end.

(** [Ord for str]: byte order of the UTF-8 encodings, which is the order of
    the scalar values. *)
Fixpoint str_cmp (a b : str) : comparison :=
  match a, b with
  | [], [] => Eq
  | [], _ => Lt
  | _, [] => Gt
  | x :: a', y :: b' => match x ?= y with Eq => str_cmp a' b' | c => c end
  end.

(** [if v.starts_with('"') && v.ends_with('"') && v.len() >= 2
    { &v[1..v.len() - 1] } else { v }], which both key-value parsers use. *)
Definition unquote (v : str) : str :=
  if starts_with [c_dquote] v && ends_with [c_dquote] v && (2 <=? zlen v)
  then zslice 1 (zlen v - 2) v else v.

(** ** Numbers *)

Definition digit_char (d : Z) : Z := if d <? 10 then 48 + d else 87 + d.

Definition digit_val (radix c : Z) : option Z :=
  let d := if is_ascii_digit c then c - 48
           else if is_ascii_lower c then c - 87
           else if is_ascii_upper c then c - 55 else radix in
  if d <? radix then Some d else None.

(** [format!] of an unsigned integer in a radix; the fuel bounds the number
    of digits by the number of bits. *)
Fixpoint show_fuel (fuel : nat) (radix n : Z) : str :=
  match fuel with
  | O => []
  | S f =>
      if n <? radix then [digit_char n]
      else show_fuel f radix (n / radix) ++ [digit_char (n mod radix)]
  end.

Definition show_radix (radix n : Z) : str :=
  show_fuel (Z.to_nat (Z.log2 n + 1)) radix n.

Definition show_dec (n : Z) : str := show_radix 10 n.

(** [{:0w}]: left padding with zeros up to a width. *)
Definition pad_zero (w : Z) (s : str) : str := zrep (w - zlen s) c_zero ++ s.

(** [from_str_radix] and [parse] of an unsigned integer of [bits] bits: an
    optional plus sign, at least one digit, no overflow. *)
Fixpoint parse_digits (bits radix acc : Z) (s : str) : option Z :=
  match s with
  | [] => Some acc
  | c :: s' =>
      d ← digit_val radix c;
      let acc' := acc * radix + d in
      if acc' <? 2 ^ bits then parse_digits bits radix acc' s' else None
  end.

Definition parse_uint (bits radix : Z) (s : str) : option Z :=
  match s with
  | [] => None
  | c :: rest =>
      match (if c =? c_plus then rest else s) with
      | [] => None
      | ds => parse_digits bits radix 0 ds
      end
  end.

Definition parse_u32 (s : str) : option Z := parse_uint 32 10 s.
Definition parse_u64 (s : str) : option Z := parse_uint 64 10 s.

(** ** [format!] *)

Fixpoint fmt (template : str) (args : list str) : str :=
  match template with
  | 123 :: 125 :: t =>
      match args with
      | a :: args' => a ++ fmt t args'
      | [] => fmt t []
      end
  | c :: t => c :: fmt t args
  | [] => []
  end.

(** ** UTF-8 *)

Definition utf8_encode_char (c : Z) : bytes :=
  if c <? 128 then [c]
  else if c <? 2048 then [192 + c / 64; 128 + c mod 64]
  else if c <? 65536 then [224 + c / 4096; 128 + (c / 64) mod 64; 128 + c mod 64]
  else [240 + c / 262144; 128 + (c / 4096) mod 64; 128 + (c / 64) mod 64; 128 + c mod 64].

Definition utf8_encode (s : str) : bytes := s ≫= utf8_encode_char.

Definition is_cont (b : Z) : bool := in_range 128 191 b.

(** Strict decoding: no overlong form, no surrogate, nothing above 0x10FFFF. *)
Fixpoint utf8_decode (b : bytes) : option str :=
  match b with
  | [] => Some []
  | b0 :: t =>
      if in_range 0 127 b0 then cons b0 <$> utf8_decode t else
      match t with
      | [] => None
      | b1 :: t1 =>
          if in_range 194 223 b0 && is_cont b1
          then cons ((b0 - 192) * 64 + (b1 - 128)) <$> utf8_decode t1 else
          match t1 with
          | [] => None
          | b2 :: t2 =>
              let c := (b0 - 224) * 4096 + (b1 - 128) * 64 + (b2 - 128) in
              if in_range 224 239 b0 && is_cont b1 && is_cont b2 && (2048 <=? c)
                 && negb (in_range 55296 57343 c)
              then cons c <$> utf8_decode t2 else
              match t2 with
              | [] => None
              | b3 :: t3 =>
                  let c := (b0 - 240) * 262144 + (b1 - 128) * 4096
                           + (b2 - 128) * 64 + (b3 - 128) in
                  if in_range 240 244 b0 && is_cont b1 && is_cont b2 && is_cont b3
                     && in_range 65536 1114111 c
                  then cons c <$> utf8_decode t3 else None
              end
          end
      end
  end.

(** ** Facts: numbers *)

(** The value of a digit string, overflow aside. *)
Fixpoint digits_value (radix acc : Z) (s : str) : option Z :=
  match s with
  | [] => Some acc
  | c :: s' => d ← digit_val radix c; digits_value radix (acc * radix + d) s'
  end.

Lemma digits_value_app radix acc s t :
  digits_value radix acc (s ++ t) = acc' ← digits_value radix acc s; digits_value radix acc' t.
Proof.
  revert acc. induction s as [|c s IH]; intros acc; cbn; [done|].
  destruct (digit_val radix c); cbn; [apply IH|done].
Qed.

Lemma digit_val_char radix d :
  0 <= d < radix -> radix <= 36 -> digit_val radix (digit_char d) = Some d.
Proof.
  intros Hd Hr. unfold digit_val, digit_char, is_ascii_digit, is_ascii_lower, in_range.
  destruct (Z.ltb_spec d 10).
  - destruct (Z.leb_spec 48 (48 + d)), (Z.leb_spec (48 + d) 57); try lia. cbn.
    replace (48 + d - 48) with d by lia. by destruct (Z.ltb_spec d radix); [|lia].
  - destruct (Z.leb_spec 48 (87 + d)), (Z.leb_spec (87 + d) 57); try lia. cbn.
    destruct (Z.leb_spec 97 (87 + d)), (Z.leb_spec (87 + d) 122); try lia. cbn.
    replace (87 + d - 87) with d by lia. by destruct (Z.ltb_spec d radix); [|lia].
Qed.

Section show.
  Variable radix : Z.
  Hypothesis radix_range : 2 <= radix <= 36.

Lemma show_fuel_spec fuel n :
  0 <= n < radix ^ Z.of_nat fuel -> (0 < fuel)%nat ->
  let s := show_fuel fuel radix n in
  (forall acc, digits_value radix acc s = Some (acc * radix ^ zlen s + n)) /\
  n < radix ^ zlen s /\ 1 <= zlen s /\ (1 < zlen s -> radix ^ (zlen s - 1) <= n).
Proof.
  revert n. induction fuel as [|fuel IH]; intros n Hn Hf; [lia|]. cbn [show_fuel].
  destruct (Z.ltb_spec n radix).
  - change (zlen [digit_char n]) with 1. rewrite Z.pow_1_r.
    split_and!; [|lia|lia|lia]. intros acc. cbn [digits_value].
    rewrite digit_val_char by lia. reflexivity.
  - assert (Hq : 0 <= n / radix < radix ^ Z.of_nat fuel).
    { split; [apply Z.div_pos; lia|]. apply Z.div_lt_upper_bound; [lia|].
      rewrite <- Z.pow_succ_r by lia. rewrite Nat2Z.inj_succ in Hn. lia. }
    assert (1 <= n / radix) by (apply Z.div_le_lower_bound; lia).
    destruct fuel as [|fuel]; [cbn in Hq; lia|].
    destruct (IH (n / radix) Hq ltac:(lia)) as (Hv & Hlt & Hl & Hge).
    set (s := show_fuel (S fuel) radix (n / radix)) in *.
    pose proof (Z.mod_pos_bound n radix ltac:(lia)) as Hm.
    pose proof (Z.div_mod n radix ltac:(lia)) as Hdm.
    rewrite zlen_app. change (zlen [digit_char (n mod radix)]) with 1.
    rewrite Z.pow_add_r, Z.pow_1_r by lia.
    split_and!; [|nia|lia|].
    + intros acc. rewrite digits_value_app, Hv. cbn [mbind option_bind digits_value].
      rewrite digit_val_char by lia. cbn. f_equal. nia.
    + intros _. rewrite Z.add_simpl_r.
      assert (radix ^ (zlen s - 1) <= n / radix).
      { destruct (decide (1 < zlen s)); [by apply Hge|].
        replace (zlen s - 1) with 0 by lia. lia. }
      replace (zlen s) with ((zlen s - 1) + 1) by lia.
      rewrite Z.pow_add_r, Z.pow_1_r by lia. nia.
Qed.

Lemma show_radix_spec n :
  0 <= n ->
  let s := show_radix radix n in
  (forall acc, digits_value radix acc s = Some (acc * radix ^ zlen s + n)) /\
  n < radix ^ zlen s /\ 1 <= zlen s /\ (1 < zlen s -> radix ^ (zlen s - 1) <= n).
Proof.
  intros Hn. apply show_fuel_spec; pose proof (Z.log2_nonneg n); [|lia].
  split; [done|]. rewrite Z2Nat.id by lia.
  apply Z.lt_le_trans with (2 ^ (Z.log2 n + 1)); [|apply Z.pow_le_mono_l; lia].
  destruct (decide (n = 0)) as [->|]; [done|]. apply Z.log2_lt_pow2; lia.
Qed.

(** A number takes at most [k] digits exactly if it is below [radix ^ k]. *)
Lemma zlen_show_radix n k : 0 <= n -> 1 <= k -> zlen (show_radix radix n) <= k <-> n < radix ^ k.
Proof.
  intros Hn Hk. destruct (show_radix_spec n Hn) as (_ & Hlt & Hl & Hge).
  set (s := show_radix radix n) in *. split; intros H.
  - apply Z.lt_le_trans with (radix ^ zlen s); [done|]. apply Z.pow_le_mono_r; lia.
  - destruct (decide (zlen s <= k)); [done|].
    assert (radix ^ k <= radix ^ (zlen s - 1)) by (apply Z.pow_le_mono_r; lia).
    specialize (Hge ltac:(lia)). lia.
Qed.

Lemma digits_value_zeros n s :
  digits_value radix 0 (zrep n c_zero ++ s) = digits_value radix 0 s.
Proof.
  rewrite digits_value_app. unfold zrep.
  assert (forall k, digits_value radix 0 (replicate k c_zero) = Some 0) as ->; [|done].
  induction k as [|k IH]; [done|]. cbn [replicate digits_value].
  change c_zero with (digit_char 0). rewrite digit_val_char by lia.
  cbn [mbind option_bind]. by rewrite Z.add_0_r, Z.mul_0_l.
Qed.

Lemma digits_value_pad_zero w n :
  0 <= n -> digits_value radix 0 (pad_zero w (show_radix radix n)) = Some n.
Proof.
  intros Hn. unfold pad_zero.
  rewrite digits_value_zeros.
  destruct (show_radix_spec n Hn) as (Hv & _). by rewrite Hv.
Qed.

Lemma zlen_pad_zero w n :
  0 <= n -> 1 <= w -> n < radix ^ w -> zlen (pad_zero w (show_radix radix n)) = w.
Proof.
  intros Hn Hw Hlt. apply zlen_show_radix in Hlt; [|done..]. unfold pad_zero. zsolve.
Qed.

Lemma zlen_pad_zero_big w n :
  0 <= n -> 1 <= w -> radix ^ w <= n -> w < zlen (pad_zero w (show_radix radix n)).
Proof.
  intros Hn Hw Hge. pose proof (proj1 (zlen_show_radix n w Hn Hw)). unfold pad_zero.
  rewrite zlen_app, zlen_zrep. zlen_pos. lia.
Qed.
End show.

(** ** Facts: templates *)

Lemma fmt_cons c t args : c <> 123 -> fmt (c :: t) args = c :: fmt t args.
Proof.
  intros Hc. cbn [fmt]. destruct c as [|p|p]; [done| |done].
  do 7 (destruct p as [p|p|]; try done).
Qed.

(** A piece of a template without an opening brace. *)
Definition no_hole (t : str) : bool := forallb (fun c => negb (c =? 123)) t.

Lemma fmt_app t u args : no_hole t = true -> fmt (t ++ u) args = t ++ fmt u args.
Proof.
  induction t as [|c t IH]; [done|]. cbn [no_hole forallb]. fold (no_hole t).
  intros [Hc Ht]%andb_true_iff. cbn [app].
  rewrite fmt_cons by (by destruct (Z.eqb_spec c 123)). by rewrite IH.
Qed.

Lemma fmt_hole t u a args :
  no_hole t = true -> fmt (t ++ 123 :: 125 :: u) (a :: args) = t ++ a ++ fmt u args.
Proof. intros. by rewrite fmt_app. Qed.

Lemma fmt_plain t args : no_hole t = true -> fmt t args = t.
Proof. intros. rewrite <- (app_nil_r t) at 1. by rewrite fmt_app, app_nil_r by done. Qed.

(** ** Facts: UTF-8 *)

(** A Rust string: every element is a [char]. *)
Definition is_str (s : str) : Prop := Forall is_scalar s.

(** The same, evaluated: for literals. *)
Definition is_strb (s : str) : bool :=
  forallb (fun c => in_range 0 55295 c || in_range 57344 1114111 c) s.

Lemma is_strb_spec s : is_strb s = true -> is_str s.
Proof.
  unfold is_strb, is_str, in_range, is_scalar. intros H. apply Forall_forall. intros c Hc.
  rewrite forallb_forall in H. apply list_elem_of_In in Hc. specialize (H c Hc). lia.
Qed.

Lemma utf8_encode_char_bytes c : is_scalar c -> Forall is_byte (utf8_encode_char c).
Proof.
  unfold is_scalar, utf8_encode_char, is_byte. intros Hc.
  repeat zcase; repeat constructor; Z.to_euclidean_division_equations; lia.
Qed.

Lemma utf8_encode_bytes s : is_str s -> Forall is_byte (utf8_encode s).
Proof.
  induction 1 as [|c s Hc _ IH]; [constructor|]. unfold utf8_encode.
  rewrite bind_cons. apply Forall_app. split; [by apply utf8_encode_char_bytes|done].
Qed.
#[export] Hint Resolve utf8_encode_bytes : ova.

Lemma utf8_encode_app s t : utf8_encode (s ++ t) = utf8_encode s ++ utf8_encode t.
Proof. apply bind_app. Qed.

(** A character in base 64, as UTF-8 cuts it. *)
Lemma sextets c : 0 <= c -> exists q r2 r1 r0,
  c = q * 262144 + r2 * 4096 + r1 * 64 + r0 /\
  0 <= q /\ 0 <= r2 < 64 /\ 0 <= r1 < 64 /\ 0 <= r0 < 64 /\
  c / 64 = q * 4096 + r2 * 64 + r1 /\ c / 4096 = q * 64 + r2 /\ c / 262144 = q /\
  c mod 64 = r0 /\ (c / 64) mod 64 = r1 /\ (c / 4096) mod 64 = r2.
Proof.
  intros Hc. exists (c / 262144), ((c / 4096) mod 64), ((c / 64) mod 64), (c mod 64).
  change 4096 with (64 * 64). change 262144 with (64 * 64 * 64).
  rewrite <- !Z.div_div by lia.
  pose proof (Z.mod_pos_bound c 64). pose proof (Z.mod_pos_bound (c / 64) 64).
  pose proof (Z.mod_pos_bound (c / 64 / 64) 64).
  pose proof (Z.div_mod c 64). pose proof (Z.div_mod (c / 64) 64).
  pose proof (Z.div_mod (c / 64 / 64) 64).
  pose proof (Z.div_pos (c / 64 / 64) 64). pose proof (Z.div_pos (c / 64) 64).
  pose proof (Z.div_pos c 64).
  split_and!; lia.
Qed.

Lemma if_true {A} (x : bool) (a b : A) : x = true -> (if x then a else b) = a.
Proof. by intros ->. Qed.

Lemma if_false {A} (x : bool) (a b : A) : x = false -> (if x then a else b) = b.
Proof. by intros ->. Qed.

Ltac utf8_range :=
  unfold is_cont, in_range;
  repeat match goal with |- context [?a <=? ?b] => destruct (Z.leb_spec a b) end;
  cbn; try reflexivity; lia.

(** Decoding one character. *)
Lemma utf8_decode_char c b :
  is_scalar c -> utf8_decode (utf8_encode_char c ++ b) = cons c <$> utf8_decode b.
Proof.
  unfold is_scalar, utf8_encode_char. intros Hc.
  destruct (sextets c) as (q & r2 & r1 & r0 & E & ? & ? & ? & ? & -> & -> & -> & -> & -> & ->); [lia|].
  repeat zcase; cbn [app utf8_decode].
  - apply if_true. utf8_range.
  - rewrite if_false by utf8_range. rewrite if_true by utf8_range. do 2 f_equal. lia.
  - rewrite if_false by utf8_range. rewrite if_false by utf8_range.
    rewrite if_true by utf8_range. do 2 f_equal. lia.
  - rewrite if_false by utf8_range. rewrite if_false by utf8_range.
    rewrite if_false by utf8_range.
    rewrite if_true by utf8_range. do 2 f_equal. lia.
Qed.

Lemma utf8_roundtrip s : is_str s -> utf8_decode (utf8_encode s) = Some s.
Proof.
  induction 1 as [|c s Hc _ IH]; [done|]. unfold utf8_encode. rewrite bind_cons.
  rewrite utf8_decode_char by done. fold (utf8_encode s). by rewrite IH.
Qed.

(** ** Facts: searching and trimming *)

Lemma starts_with_spec p s : starts_with p s = true <-> exists q, s = p ++ q.
Proof.
  revert s. induction p as [|a p IH]; intros s; cbn.
  - split; [by exists s|done].
  - destruct s as [|b s]; [split; [done|by intros [q Hq]]|].
    rewrite andb_true_iff, IH, Z.eqb_eq. split.
    + intros [-> [q ->]]. by exists q.
    + intros [q [= -> ->]]. split; [done|by exists q].
Qed.

Lemma starts_with_app p q : starts_with p (p ++ q) = true.
Proof. apply starts_with_spec. by exists q. Qed.

Lemma ends_with_spec p s : ends_with p s = true <-> exists q, s = q ++ p.
Proof.
  unfold ends_with. rewrite starts_with_spec. split; intros [q Hq].
  - exists (rev q). rewrite <- (rev_involutive s), Hq, rev_app_distr. by rewrite rev_involutive.
  - exists (rev q). by rewrite Hq, rev_app_distr.
Qed.

Lemma ends_with_app p q : ends_with p (q ++ p) = true.
Proof. apply ends_with_spec. by exists q. Qed.

Lemma find_char_app c p q : c ∉ p -> find_char c (p ++ c :: q) = Some (zlen p).
Proof.
  induction p as [|d p IH]; intros Hc; cbn [app find_char].
  - by rewrite Z.eqb_refl.
  - destruct (Z.eqb_spec d c); [set_solver|]. rewrite IH by set_solver. cbn.
    f_equal. rewrite zlen_cons. lia.
Qed.

Lemma find_char_Some c s i :
  find_char c s = Some i ->
  exists p q, s = p ++ c :: q /\ c ∉ p /\ i = zlen p.
Proof.
  revert i. induction s as [|d s IH]; intros i; cbn [find_char]; [done|].
  destruct (Z.eqb_spec d c) as [->|].
  - intros [= <-]. exists [], s. split_and!; [done|set_solver|done].
  - destruct (find_char c s) as [j|]; [|done]. intros [= <-].
    destruct (IH j eq_refl) as (p & q & -> & Hp & ->).
    exists (d :: p), q. split_and!; [done|set_solver|rewrite zlen_cons; lia].
Qed.

(** No white space at the ends. *)
Definition tidy (s : str) : Prop :=
  match s with [] => True | c :: _ => is_whitespace c = false end /\
  match rev s with [] => True | c :: _ => is_whitespace c = false end.

Lemma trim_tidy s : tidy s -> trim s = s.
Proof.
  intros [Hh Hl]. unfold trim. assert (trim_start s = s) as ->.
  { destruct s as [|c s]; [done|]. cbn. by rewrite Hh. }
  unfold trim_end. destruct (rev s) as [|c r] eqn:E.
  - apply (f_equal (@rev Z)) in E. rewrite rev_involutive in E. by rewrite E.
  - cbn [trim_start]. rewrite Hl, <- E. apply rev_involutive.
Qed.

Lemma tidy_quoted s : tidy (c_dquote :: s ++ [c_dquote]).
Proof.
  split; [done|]. by rewrite app_comm_cons, rev_app_distr.
Qed.

Lemma unquote_quoted v : unquote (c_dquote :: v ++ [c_dquote]) = v.
Proof.
  unfold unquote. change (starts_with [c_dquote] (c_dquote :: v ++ [c_dquote])) with true.
  rewrite app_comm_cons, ends_with_app. rewrite zlen_app, zlen_cons. zlen_pos.
  change (zlen [c_dquote]) with 1. rewrite (proj2 (Z.leb_le _ _)) by lia. cbn [andb].
  change ((c_dquote :: v) ++ [c_dquote]) with ([c_dquote] ++ v ++ [c_dquote]).
  by apply zslice_mid; [|lia].
Qed.

(** Trimming a tidy text behind a blank. *)
Lemma trim_space s : trim (c_space :: s) = trim s.
Proof. reflexivity. Qed.

Lemma trim_end_space s : trim_end (s ++ [c_space]) = trim_end s.
Proof. unfold trim_end. by rewrite rev_app_distr. Qed.

Lemma trim_space_end s : trim (s ++ [c_space]) = trim s.
Proof.
  unfold trim. induction s as [|c s IH]; [done|]. cbn [app trim_start].
  destruct (is_whitespace c); [done|]. apply (trim_end_space (c :: s)).
Qed.

(** ** Facts: order *)

Lemma str_cmp_eq a b : str_cmp a b = Eq <-> a = b.
Proof.
  revert b. induction a as [|x a IH]; intros [|y b]; cbn; try done.
  destruct (Z.compare_spec x y) as [->|Hlt|Hlt]; [rewrite IH|..]; split; congruence || (intros [= -> _]; lia) || done.
Qed.

#[export] Instance str_cmp_laws : CmpLaws str_cmp.
Proof.
  split.
  - intros x. induction x as [|c x IH]; intros [|d y]; cbn; try done.
    rewrite (Z.compare_antisym c d). destruct (c ?= d); cbn; [apply IH|done|done].
  - intros x. induction x as [|c x IH]; intros [|d y] [|e z]; cbn; try done.
    destruct (Z.compare_spec c d) as [->|H1|H1], (Z.compare_spec d e) as [->|H2|H2]; try done.
    + apply IH.
    + intros _ _. by rewrite (proj2 (Z.compare_lt_iff c e)).
    + intros _ _. rewrite (proj2 (Z.compare_lt_iff c e)); [done|lia].
Qed.

(** ** Facts: lines *)

Lemma lines_from_app acc l rest :
  c_nl ∉ l -> lines_from acc (l ++ c_nl :: rest) = strip_cr (rev acc ++ l) :: lines rest.
Proof.
  revert acc. induction l as [|c l IH]; intros acc Hl; cbn [app lines_from].
  - by rewrite app_nil_r.
  - destruct (Z.eqb_spec c c_nl); [set_solver|]. rewrite IH by set_solver.
    cbn [rev]. by rewrite <- app_assoc.
Qed.

Lemma lines_app l rest : c_nl ∉ l -> lines (l ++ c_nl :: rest) = strip_cr l :: lines rest.
Proof. intros. unfold lines at 1. by rewrite lines_from_app. Qed.

Lemma strip_cr_id l c : c <> c_cr -> strip_cr (l ++ [c]) = l ++ [c].
Proof.
  intros. unfold strip_cr. rewrite rev_app_distr. cbn.
  by destruct (Z.eqb_spec c c_cr).
Qed.

(** The text of a list of lines. *)
Definition unlines (l : list str) : str := l ≫= fun x => x ++ [c_nl].

(** A line that [lines] and [trim] leave alone. *)
Definition plain_line (l : str) : Prop := c_nl ∉ l /\ tidy l.

Lemma plain_strip_cr l : tidy l -> strip_cr l = l.
Proof.
  intros [_ Hl]. unfold strip_cr. destruct (rev l) as [|c r]; [done|].
  by destruct (Z.eqb_spec c c_cr) as [->|].
Qed.

Lemma lines_unlines l : Forall plain_line l -> lines (unlines l) = l.
Proof.
  induction 1 as [|x l [Hn Ht] _ IH]; [done|]. unfold unlines. rewrite bind_cons.
  rewrite <- app_assoc. cbn [app]. rewrite lines_app by done. rewrite plain_strip_cr by done.
  f_equal. exact IH.
Qed.

(** ** Facts: splitting at white space *)

(** Each inner run of white space becomes one blank, a final one nothing. *)
Fixpoint collapse_from (pending : bool) (s : str) : str :=
  match s with
  | [] => []
  | c :: s' =>
      if is_whitespace c then collapse_from true s'
      else (if pending then [c_space] else []) ++ c :: collapse_from false s'
  end.

Definition collapse (s : str) : str := collapse_from false (trim_start s).

Lemma join_cons_ne sep p l : l <> [] -> join sep (p :: l) = p ++ sep ++ join sep l.
Proof. by destruct l. Qed.

Lemma split_ws_from_ne acc s : acc <> [] -> split_ws_from acc s <> [].
Proof.
  revert acc. induction s as [|c s IH]; intros acc Ha; cbn; [by destruct acc|].
  destruct (is_whitespace c); [by destruct acc|]. by apply IH.
Qed.

Lemma join_split_ws s :
  (forall acc, acc <> [] -> join [c_space] (split_ws_from acc s) = rev acc ++ collapse_from false s) /\
  (split_ws_from [] s = [] \/ split_ws_from [] s <> [] /\
     [c_space] ++ join [c_space] (split_ws_from [] s) = collapse_from true s) /\
  (split_ws_from [] s = [] -> collapse_from true s = []).
Proof.
  induction s as [|c s (IH1 & IH2 & IH3)].
  - split_and!; [|by left|done]. intros [|a acc] Ha; [done|]. cbn. by rewrite app_nil_r.
  - cbn [split_ws_from collapse_from]. destruct (is_whitespace c).
    + split_and!; [|exact IH2|exact IH3]. intros [|a acc] Ha; [done|].
      destruct IH2 as [E|[Hne <-]].
      * rewrite E, (IH3 E). by rewrite app_nil_r.
      * by rewrite join_cons_ne.
    + split_and!.
      * intros acc Ha. rewrite (IH1 (c :: acc)) by done. cbn [rev]. by rewrite <- app_assoc.
      * right. split; [by apply split_ws_from_ne|]. by rewrite (IH1 [c]).
      * intros E. by apply split_ws_from_ne in E.
Qed.

Lemma join_split_whitespace s : join [c_space] (split_whitespace s) = collapse s.
Proof.
  unfold split_whitespace, collapse. induction s as [|c s IH]; [done|].
  cbn [split_ws_from trim_start]. destruct (is_whitespace c) eqn:Hc; [done|].
  destruct (join_split_ws s) as [IH1 _]. rewrite (IH1 [c]) by done.
  cbn [collapse_from]. by rewrite Hc.
Qed.

(** A word: something without white space. *)
Definition word (w : str) : Prop := w <> [] /\ forallb (fun c => negb (is_whitespace c)) w = true.

Lemma split_ws_word acc w s :
  forallb (fun c => negb (is_whitespace c)) w = true ->
  split_ws_from acc (w ++ s) = split_ws_from (rev w ++ acc) s.
Proof.
  revert acc. induction w as [|c w IH]; intros acc Hw; [done|]. cbn in Hw.
  apply andb_true_iff in Hw as [Hc Hw]. cbn [app split_ws_from].
  apply negb_true_iff in Hc. rewrite Hc, IH by done. cbn. by rewrite <- app_assoc.
Qed.

Lemma split_whitespace_word w s :
  word w -> split_whitespace (w ++ c_space :: s) = w :: split_whitespace s.
Proof.
  intros [Hne Hw]. unfold split_whitespace. rewrite split_ws_word by done. rewrite app_nil_r.
  cbn [split_ws_from]. change (is_whitespace c_space) with true. cbn iota.
  destruct (rev w) as [|c r] eqn:E.
  - apply (f_equal (@rev Z)) in E. rewrite rev_involutive in E. done.
  - by rewrite <- E, rev_involutive.
Qed.

(** ** Facts: parsing what was shown *)

Lemma parse_digits_value bits radix acc s v :
  0 <= acc -> digits_value radix acc s = Some v -> v < 2 ^ bits -> 1 <= radix ->
  parse_digits bits radix acc s = Some v.
Proof.
  intros Ha Hv Hb Hr. revert acc Ha Hv.
  assert (Hd : forall c d, digit_val radix c = Some d -> 0 <= d).
  { intros c d. unfold digit_val, is_ascii_digit, is_ascii_lower, is_ascii_upper, in_range.
    destruct (Z.leb_spec 48 c), (Z.leb_spec c 57), (Z.leb_spec 97 c), (Z.leb_spec c 122),
      (Z.leb_spec 65 c), (Z.leb_spec c 90); cbn; try lia; zcase; intros Hd; try discriminate Hd; injection Hd as <-; lia. }
  assert (Hmono : forall s acc v, 0 <= acc -> digits_value radix acc s = Some v -> acc <= v).
  { clear - Hd Hr. induction s as [|c s IH]; intros acc v Ha; cbn; [intros [= ->]; lia|].
    destruct (digit_val radix c) as [d|] eqn:E; [|done]. cbn. intros Hv.
    specialize (Hd _ _ E). apply IH in Hv; nia. }
  induction s as [|c s IH]; intros acc Ha; cbn; [done|].
  destruct (digit_val radix c) as [d|] eqn:E; [|done]. cbn. intros Hv.
  specialize (Hd _ _ E). assert (Hacc : 0 <= acc * radix + d) by nia.
  pose proof (Hmono _ _ _ Hacc Hv).
  destruct (Z.ltb_spec (acc * radix + d) (2 ^ bits)); [|lia]. by apply IH.
Qed.

Lemma digit_char_not_plus d : 0 <= d -> digit_char d <> c_plus.
Proof. intros. unfold digit_char. zcase; lia. Qed.

Lemma show_fuel_head fuel radix n :
  1 <= radix -> 0 <= n -> match show_fuel fuel radix n with [] => True | c :: _ => c <> c_plus end.
Proof.
  intros Hr. revert n. induction fuel as [|f IH]; intros n Hn; cbn [show_fuel]; [done|]. zcase.
  - by apply digit_char_not_plus.
  - specialize (IH (n / radix) ltac:(apply Z.div_pos; lia)).
    destruct (show_fuel f radix (n / radix)); cbn; [|done].
    apply digit_char_not_plus. apply Z.mod_pos_bound. lia.
Qed.

(** An unsigned number printed with padding parses back. *)
Lemma parse_uint_padded bits radix w n :
  2 <= radix <= 36 -> 0 <= n < 2 ^ bits ->
  parse_uint bits radix (pad_zero w (show_radix radix n)) = Some n.
Proof.
  intros Hr Hn. pose proof (digits_value_pad_zero radix Hr w n ltac:(lia)) as Hv.
  destruct (show_radix_spec radix Hr n ltac:(lia)) as (_ & _ & Hl & _).
  assert (Hh : match pad_zero w (show_radix radix n) with [] => False | c :: _ => c <> c_plus end).
  { unfold pad_zero, zrep. destruct (Z.to_nat _); cbn; [|done].
    pose proof (show_fuel_head (Z.to_nat (Z.log2 n + 1)) radix n ltac:(lia) ltac:(lia)) as Hs.
    fold (show_radix radix n) in Hs. destruct (show_radix radix n); [by cbn in Hl|done]. }
  unfold parse_uint. destruct (pad_zero w (show_radix radix n)) as [|c s]; [done|].
  destruct (Z.eqb_spec c c_plus); [done|]. apply parse_digits_value; [lia|done|lia|lia].
Qed.

Lemma pad_zero_0 s : pad_zero 0 s = s.
Proof. unfold pad_zero, zrep. zlen_pos. by replace (Z.to_nat (0 - zlen s)) with O by lia. Qed.

Lemma parse_u64_show n : 0 <= n < 2 ^ 64 -> parse_u64 (show_dec n) = Some n.
Proof. intros. rewrite <- (pad_zero_0 (show_dec n)). apply parse_uint_padded; lia. Qed.

Lemma parse_u32_show n : 0 <= n < 2 ^ 32 -> parse_u32 (show_dec n) = Some n.
Proof. intros. rewrite <- (pad_zero_0 (show_dec n)). apply parse_uint_padded; lia. Qed.

Lemma digit_char_word d : 0 <= d < 36 -> is_whitespace (digit_char d) = false.
Proof.
  intros. unfold digit_char, is_whitespace, in_range.
  zcase; repeat match goal with
    | |- context [?a <=? ?b] => destruct (Z.leb_spec a b); try lia
    | |- context [?a =? ?b] => destruct (Z.eqb_spec a b); try lia
    end; done.
Qed.

Lemma show_fuel_word fuel radix n :
  2 <= radix <= 36 -> 0 <= n ->
  forallb (fun c => negb (is_whitespace c)) (show_fuel fuel radix n) = true.
Proof.
  intros Hr. revert n. induction fuel as [|f IH]; intros n Hn; cbn [show_fuel]; [done|].
  pose proof (Z.mod_pos_bound n radix ltac:(lia)). zcase.
  - cbn. by rewrite digit_char_word by lia.
  - rewrite forallb_app, IH by (apply Z.div_pos; lia). cbn. by rewrite digit_char_word by lia.
Qed.

Lemma show_radix_word radix n : 2 <= radix <= 36 -> 0 <= n -> word (show_radix radix n).
Proof.
  intros Hr Hn. split; [|by apply show_fuel_word].
  destruct (show_radix_spec radix Hr n Hn) as (_ & _ & Hl & _). intros E. rewrite E in Hl. by cbn in Hl.
Qed.
