(* ===== verification/Errors.v ===== *)
(** * Errors: [error.rs] and the outcome of a Rust computation

    A call of the code returns a value, returns an [Err], panics, or is still
    running when the fuel of the model is used up.  The [outcome] monad keeps
    the four apart; [Module Error] is the enum of
    [crates/ovatool-core/src/error.rs] with its constructors. *)
From S2P Require Export Text.

(** [std::io::Error]: its kind and the text its [Display] prints. *)
Inductive io_error_kind :=
  | NotFound | PermissionDenied | InvalidInput | InvalidData | WriteZero
  | UnexpectedEof | OtherKind.

Record io_error := { io_kind : io_error_kind; io_text : str }.

Module Error.

  (** [error.rs]: [enum Error]. *)
Inductive Error :=
    | Io (source : io_error) (path : option str)
    | VmxParse (message : str)
    | Vmdk (message : str)
    | Ovf (message : str)
    | Ova (message : str)
    | Pipeline (message : str).

Definition io (source : io_error) (path : str) : Error := Io source (Some path).
Definition io_simple (source : io_error) : Error := Io source None.
Definition vmx_parse (message : str) : Error := VmxParse message.
Definition vmdk (message : str) : Error := Vmdk message.
Definition ovf (message : str) : Error := Ovf message.
Definition ova (message : str) : Error := Ova message.
Definition pipeline (message : str) : Error := Pipeline message.

  (** [impl From<io::Error> for Error]. *)
Definition from_io (source : io_error) : Error := io_simple source.

  (** The [#[error(...)]] attributes: [Display for Error]. *)
Definition to_string (e : Error) : str :=
    match e with
    | Io source path =>
        fmt (lit "I/O error{}: {}")
          [match path with Some p => fmt (lit " at '{}'") [p] | None => [] end;
           io_text source]
    | VmxParse message => fmt (lit "VMX parse error: {}") [message]
    | Vmdk message => fmt (lit "VMDK error: {}") [message]
    | Ovf message => fmt (lit "OVF error: {}") [message]
    | Ova message => fmt (lit "OVA error: {}") [message]
    | Pipeline message => fmt (lit "Pipeline error: {}") [message]
    end.

End Error.

Abbreviation Error := Error.Error.

(** ** The outcome monad *)

Inductive outcome (E A : Type) : Type :=
  | Ok (a : A)
  | Err (e : E)
  | Panic
  | Diverge.

Arguments Ok {E A} a.
Arguments Err {E A} e.
Arguments Panic {E A}.
Arguments Diverge {E A}.

(** [error.rs]: [type Result<T> = std::result::Result<T, Error>], with the
    panic and the exhausted fuel as further cases. *)
Abbreviation Result := (outcome Error).
Abbreviation io_result := (outcome io_error).

#[export] Instance outcome_ret {E} : MRet (outcome E) := fun A => @Ok E A.
#[export] Instance outcome_bind {E} : MBind (outcome E) := fun A B f m =>
  match m with Ok a => f a | Err e => Err e | Panic => Panic | Diverge => Diverge end.
#[export] Instance outcome_fmap {E} : FMap (outcome E) := fun A B f m =>
  match m with Ok a => Ok (f a) | Err e => Err e | Panic => Panic | Diverge => Diverge end.

(** [Result::map_err]. *)
Definition map_err {E E' A} (f : E -> E') (m : outcome E A) : outcome E' A :=
  match m with Ok a => Ok a | Err e => Err (f e) | Panic => Panic | Diverge => Diverge end.

(** [Option::ok_or_else]. *)
Definition ok_or {E A} (o : option A) (e : E) : outcome E A :=
  match o with Some a => Ok a | None => Err e end.

Definition is_ok {E A} (m : outcome E A) : bool :=
  match m with Ok _ => true | _ => false end.

(** The call comes back, with a value or an error. *)
Definition returns {E A} (m : outcome E A) : Prop :=
  match m with Ok _ | Err _ => True | Panic | Diverge => False end.

(** [iter.collect::<Result<Vec<_>>>()] on fallible items. *)
Fixpoint collect {E A} (l : list (outcome E A)) : outcome E (list A) :=
  match l with
  | [] => Ok []
  | m :: l' => a ← m; k ← collect l'; Ok (a :: k)
  end.

Lemma bind_Ok {E A B} (m : outcome E A) (f : A -> outcome E B) b :
  (m ≫= f) = Ok b <-> exists a, m = Ok a /\ f a = Ok b.
Proof. destruct m; cbn; split; naive_solver. Qed.

Lemma map_err_Ok {E E' A} (f : E -> E') (m : outcome E A) a :
  map_err f m = Ok a <-> m = Ok a.
Proof. destruct m; cbn; naive_solver. Qed.

Lemma bind_ret_Ok {E A B} (a : A) (f : A -> outcome E B) : (Ok a ≫= f) = f a.
Proof. reflexivity. Qed.

Lemma collect_Ok {E A} (l : list (outcome E A)) k :
  collect l = Ok k <-> l = Ok <$> k.
Proof.
  revert k. induction l as [|m l IH]; intros k; cbn.
  - destruct k; naive_solver.
  - split.
    + intros (a & -> & H)%bind_Ok. apply bind_Ok in H as (k' & Hk & [= <-]).
      cbn. f_equal. by apply IH.
    + destruct k as [|a k]; [done|]. cbn. intros [= -> Hl].
      cbn. by rewrite (proj2 (IH k) Hl).
Qed.

Lemma mapM_all_Ok {E A B} (g : A -> outcome E B) (f : A -> B) l :
  (forall x, x ∈ l -> g x = Ok (f x)) -> mapM g l = Ok (f <$> l).
Proof.
  induction l as [|x l IH]; intros Hg; [done|]. cbn [mapM].
  rewrite Hg by set_solver. cbn [mbind outcome_bind]. rewrite IH by set_solver. done.
Qed.

Lemma imap_all_Ok {E A B} (f : nat -> A -> outcome E B) l :
  (forall i c, l !! i = Some c -> exists v, f i c = Ok v) -> exists vs, imap f l = Ok <$> vs.
Proof.
  revert f. induction l as [|c l IH]; intros f Hf; [by exists []|].
  destruct (Hf O c eq_refl) as [v Hv].
  destruct (IH (f ∘ S) (fun i d Hd => Hf (S i) d Hd)) as [vs Hvs].
  exists (v :: vs). cbn. by rewrite Hv, Hvs.
Qed.

(** Two runs that fail in the same way. *)
Definition same_failure {E A B} (r : outcome E A) (r' : outcome E B) : Prop :=
  match r, r' with
  | Err e, Err e' => e = e'
  | Panic, Panic | Diverge, Diverge => True
  | _, _ => False
  end.

(** [inv_ok] destructs the successful runs of composed computations among the
    hypotheses. *)
Ltac inv_ok :=
  repeat match goal with
    | H : (_ ≫= _) = Ok _ |- _ =>
        let a := fresh "a" in let H1 := fresh "Hok" in let H2 := fresh "Hok" in
        apply bind_Ok in H as (a & H1 & H2)
    | H : map_err _ _ = Ok _ |- _ => apply map_err_Ok in H
    | H : Ok _ = Ok _ |- _ => injection H as H; subst
    | H : Err _ = Ok _ |- _ => discriminate H
    | H : Panic = Ok _ |- _ => discriminate H
    | H : Diverge = Ok _ |- _ => discriminate H
    end.
