(* ===== verification/Machine.v ===== *)
(** * Machine: fixed-width integers and little-endian encodings

    [u8], [u16], [u32], [u64] values are integers in their range.  [usize] is
    64 bits wide, as on every platform the README lists.  Arithmetic that
    leaves the range panics when the program is built with overflow checks
    (the default [dev] profile) and wraps otherwise (the [release] profile):
    the build profile is a parameter of the model, and the theorems hold for
    both profiles unless they say otherwise. *)
From S2P Require Export Errors.

Class BuildProfile := overflow_checks : bool.

Definition debug : BuildProfile := true.
Definition release : BuildProfile := false.

Definition is_u (bits n : Z) : Prop := 0 <= n < 2 ^ bits.
Abbreviation is_u32 := (is_u 32).
Abbreviation is_u64 := (is_u 64).

(** [n as u32]. *)
Definition as_u32 (n : Z) : Z := n mod 2 ^ 32.

Section arithmetic.
  Context `{BuildProfile} {E : Type}.

Definition checked (bits n : Z) : outcome E Z :=
    if (0 <=? n) && (n <? 2 ^ bits) then Ok n
    else if overflow_checks then Panic else Ok (n mod 2 ^ bits).

Definition add_u64 (a b : Z) : outcome E Z := checked 64 (a + b).
Definition sub_u64 (a b : Z) : outcome E Z := checked 64 (a - b).
Definition mul_u64 (a b : Z) : outcome E Z := checked 64 (a * b).

  (** Division and remainder by zero panic in both profiles. *)
Definition div_u64 (a b : Z) : outcome E Z := if b =? 0 then Panic else Ok (a / b).
Definition rem_u64 (a b : Z) : outcome E Z := if b =? 0 then Panic else Ok (a mod b).

Lemma checked_ok bits n : is_u bits n -> checked bits n = Ok n.
Proof.
    unfold is_u, checked. intros. destruct (Z.leb_spec 0 n), (Z.ltb_spec n (2 ^ bits)); try lia.
    reflexivity.
Qed.

Lemma checked_range bits n m : 0 <= bits -> checked bits n = Ok m -> is_u bits m.
Proof.
    unfold is_u, checked. intros Hb.
    destruct (Z.leb_spec 0 n), (Z.ltb_spec n (2 ^ bits)); cbn;
      try (destruct overflow_checks; [done|]); intros [= <-];
      try apply Z.mod_pos_bound; lia.
Qed.

  (** Checked arithmetic never returns an [Err]. *)
Lemma checked_bind_panics {A} bits n (f : Z -> outcome E A) :
  (forall m, f m = Panic) -> (checked bits n ≫= f) = Panic.
Proof.
  intros Hf. unfold checked. destruct (_ && _); [apply Hf|]. by destruct overflow_checks; cbn.
Qed.

Lemma div_u64_ok a b : b <> 0 -> div_u64 a b = Ok (a / b).
Proof. unfold div_u64. intros. by destruct (Z.eqb_spec b 0). Qed.

Lemma rem_u64_ok a b : b <> 0 -> rem_u64 a b = Ok (a mod b).
Proof. unfold rem_u64. intros. by destruct (Z.eqb_spec b 0). Qed.
End arithmetic.

(** ** Little-endian bytes: [to_le_bytes] and [from_le_bytes] *)

Fixpoint le_bytes (n : nat) (v : Z) : bytes :=
  match n with
  | O => []
  | S m => v mod 256 :: le_bytes m (v / 256)
  end.

Fixpoint le_val (b : bytes) : Z :=
  match b with
  | [] => 0
  | x :: b' => x + 256 * le_val b'
  end.

Abbreviation u16_le := (le_bytes 2).
Abbreviation u32_le := (le_bytes 4).
Abbreviation u64_le := (le_bytes 8).

Lemma length_le_bytes n v : length (le_bytes n v) = n.
Proof. revert v; induction n; intros; cbn; congruence. Qed.

Lemma zlen_le_bytes n v : zlen (le_bytes n v) = Z.of_nat n.
Proof. unfold zlen. by rewrite length_le_bytes. Qed.
#[export] Hint Rewrite zlen_le_bytes : zlen.

Lemma le_bytes_is_byte n v : Forall is_byte (le_bytes n v).
Proof.
  revert v; induction n; intros; cbn; constructor; [|done].
  apply Z.mod_pos_bound; lia.
Qed.
#[export] Hint Resolve le_bytes_is_byte : ova.

Lemma le_val_bytes n v : le_val (le_bytes n v) = v mod 256 ^ Z.of_nat n.
Proof.
  revert v; induction n as [|n IH]; intros; cbn [le_bytes le_val].
  - change (256 ^ Z.of_nat 0) with 1. by rewrite Z.mod_1_r.
  - rewrite IH, Nat2Z.inj_succ, Z.pow_succ_r by lia.
    rewrite Z.rem_mul_r by lia. lia.
Qed.

Lemma le_val_range b : Forall is_byte b -> 0 <= le_val b < 256 ^ zlen b.
Proof.
  induction 1 as [|x b Hx _ IH]; cbn [le_val].
  - by cbn.
  - rewrite zlen_cons, Z.add_1_l, Z.pow_succ_r by apply zlen_nonneg.
    unfold is_byte in Hx. lia.
Qed.

Lemma le_bytes_val b : Forall is_byte b -> le_bytes (length b) (le_val b) = b.
Proof.
  induction 1 as [|x b Hx _ IH]; cbn [length le_bytes le_val]; [done|].
  unfold is_byte in Hx.
  replace (x + 256 * le_val b) with (x + le_val b * 256) by lia.
  rewrite Z.mod_add, Z.mod_small, Z.div_add, Z.div_small by lia.
  by rewrite Z.add_0_l, IH.
Qed.

Lemma le_val_u32 v : is_u32 v -> le_val (u32_le v) = v.
Proof. intros. rewrite le_val_bytes. by apply Z.mod_small. Qed.

Lemma le_val_u64 v : is_u64 v -> le_val (u64_le v) = v.
Proof. intros. rewrite le_val_bytes. by apply Z.mod_small. Qed.

(** ** Indexed reads: [u32::from_le_bytes([d[o], .., d[o + 3]])], which panics
    out of bounds *)

Definition read_le {E} (n : nat) (off : Z) (d : bytes) : outcome E Z :=
  if off + Z.of_nat n <=? zlen d then Ok (le_val (zslice off (Z.of_nat n) d))
  else Panic.

Abbreviation read_u32 := (read_le 4).
Abbreviation read_u64 := (read_le 8).

(** [d[start..end].to_vec()], which panics out of bounds. *)
Definition read_slice {E} (start end_ : Z) (d : bytes) : outcome E bytes :=
  if (start <=? end_) && (end_ <=? zlen d) then Ok (zslice start (end_ - start) d)
  else Panic.

Lemma read_le_ok {E} n off d :
  off + Z.of_nat n <= zlen d ->
  @read_le E n off d = Ok (le_val (zslice off (Z.of_nat n) d)).
Proof. unfold read_le. intros. by destruct (Z.leb_spec (off + Z.of_nat n) (zlen d)); [|lia]. Qed.

Lemma read_le_inv {E} n off d v :
  @read_le E n off d = Ok v ->
  off + Z.of_nat n <= zlen d /\ v = le_val (zslice off (Z.of_nat n) d).
Proof.
  unfold read_le. destruct (Z.leb_spec (off + Z.of_nat n) (zlen d)); [|done].
  by intros [= <-].
Qed.

Lemma read_slice_ok {E} start end_ d :
  start <= end_ <= zlen d ->
  @read_slice E start end_ d = Ok (zslice start (end_ - start) d).
Proof.
  unfold read_slice. intros.
  destruct (Z.leb_spec start end_), (Z.leb_spec end_ (zlen d)); try lia. done.
Qed.

Lemma read_le_range {E} n off d v :
  Forall is_byte d -> 0 <= off -> @read_le E n off d = Ok v -> 0 <= v < 256 ^ Z.of_nat n.
Proof.
  unfold read_le. intros Hd Ho. destruct (Z.leb_spec (off + Z.of_nat n) (zlen d)); [|done].
  intros [= <-].
  pose proof (le_val_range _ (Forall_zslice is_byte off (Z.of_nat n) d Hd)) as Hr.
  by rewrite zlen_zslice in Hr by lia.
Qed.
