(* ===== verification/Float.v ===== *)
(** * Float: the doubles the program computes with

    The program uses [f64] for what it shows: percentages, ratios, sizes.
    All of it is non-negative, and every finite double is an integer multiple
    of the smallest one, 2{^-1074}: a finite double is that integer.
    Operations round to 53 significant bits, to the nearest and to the even
    one of two, as IEEE 754 does by default and Rust requires. *)
From S2P Require Export Machine.

(** ** Rounding *)

(** The integer nearest to [n / d], the even one of two. *)
Definition round_even (n d : Z) : Z :=
  let q := n / d in
  let r := n mod d in
  if (d <? 2 * r) || ((d =? 2 * r) && Z.odd q) then q + 1 else q.

(** The exponent of the last of the 53 bits of [n / d]. *)
Definition ulp_exp (n d : Z) : Z := Z.max 0 (Z.log2 (n / d) - 52).

Definition round53 (n d : Z) : Z :=
  let e := ulp_exp n d in
  round_even n (d * 2 ^ e) * 2 ^ e.

(** ** The numbers and their operations *)

Inductive f64 := Finite (units : Z) | Infinite | NotANumber.

#[export] Instance f64_eq_dec : EqDecision f64.
Proof. solve_decision. Defined.

Definition f64_one : Z := 2 ^ 1074.

(** The rounding of [n / d], in units of 2{^-1074}; 2{^1024} and more is
    infinite. *)
Definition f64_round (n d : Z) : f64 :=
  let k := round53 n d in
  if 2 ^ 2098 <=? k then Infinite else Finite k.

(** [n as f64] of an unsigned integer. *)
Definition f64_of_u64 (n : Z) : f64 := f64_round (n * f64_one) 1.

Definition f64_div (x y : f64) : f64 :=
  match x, y with
  | Finite a, Finite b =>
      if b =? 0 then (if a =? 0 then NotANumber else Infinite) else f64_round (a * f64_one) b
  | Infinite, Finite _ => Infinite
  | Finite _, Infinite => Finite 0
  | _, _ => NotANumber
  end.

Definition f64_mul (x y : f64) : f64 :=
  match x, y with
  | Finite a, Finite b => f64_round (a * b) f64_one
  | Infinite, Finite a | Finite a, Infinite => if a =? 0 then NotANumber else Infinite
  | Infinite, Infinite => Infinite
  | _, _ => NotANumber
  end.

(** [x <= y]; a comparison with NaN is false. *)
Definition f64_leb (x y : f64) : bool :=
  match x, y with
  | Finite a, Finite b => a <=? b
  | Infinite, Finite _ => false
  | (Finite _ | Infinite), Infinite => true
  | NotANumber, _ | _, NotANumber => false
  end.

(** The literals [0.0], [1.0], [100.0]. *)
Definition f64_lit (n : Z) : f64 := Finite (n * f64_one).

(** ** [{:.n}]: the decimal expansion, rounded to [n] digits *)

Definition show_fixed (digits : Z) (x : f64) : str :=
  match x with
  | Finite k =>
      let scale := 10 ^ digits in
      let h := round_even (scale * k) f64_one in
      show_dec (h / scale) ++ [c_dot] ++ pad_zero digits (show_dec (h mod scale))
  | Infinite => lit "inf"
  | NotANumber => lit "NaN"
  end.

(** ** Laws of rounding *)

Lemma round_even_near n d : 0 < d -> 2 * Z.abs (n - round_even n d * d) <= d.
Proof.
  intros Hd. unfold round_even. cbv zeta. pose proof (Z.div_mod n d ltac:(lia)) as Hdm.
  pose proof (Z.mod_pos_bound n d Hd) as Hm.
  destruct (Z.ltb_spec d (2 * (n mod d))), (Z.eqb_spec d (2 * (n mod d))); cbn [orb andb]; try nia.
  destruct (Z.odd (n / d)); nia.
Qed.

(** A double is never further from the quotient than an integer is. *)
Lemma round_even_ge n d m : 0 < d -> m * d <= n -> m <= round_even n d.
Proof. intros Hd Hm. pose proof (round_even_near n d Hd). nia. Qed.

Lemma round_even_le n d m : 0 < d -> n <= m * d -> round_even n d <= m.
Proof. intros Hd Hm. pose proof (round_even_near n d Hd). nia. Qed.

Lemma round_even_exact m d : 0 < d -> round_even (m * d) d = m.
Proof. intros Hd. pose proof (round_even_ge (m * d) d m). pose proof (round_even_le (m * d) d m). lia. Qed.

Lemma round_even_scale n d c : 0 < d -> 0 < c -> round_even (n * c) (d * c) = round_even n d.
Proof.
  intros Hd Hc. unfold round_even. cbv zeta.
  rewrite Z.div_mul_cancel_r, Z.mul_mod_distr_r by lia.
  replace (d * c <? 2 * (n mod d * c)) with (d <? 2 * (n mod d)) by
    (destruct (Z.ltb_spec d (2 * (n mod d))), (Z.ltb_spec (d * c) (2 * (n mod d * c))); try done; nia).
  replace (d * c =? 2 * (n mod d * c)) with (d =? 2 * (n mod d)); [done|].
  destruct (Z.eqb_spec d (2 * (n mod d))), (Z.eqb_spec (d * c) (2 * (n mod d * c))); try done; nia.
Qed.

(** Rounding keeps the order of the quotients it rounds. *)
Lemma round_even_mono n d n' d' :
  0 < d -> 0 < d' -> n * d' <= n' * d -> round_even n d <= round_even n' d'.
Proof.
  intros Hd Hd' Hle. rewrite <- (round_even_scale n d d'), <- (round_even_scale n' d' d) by done.
  rewrite (Z.mul_comm d' d). set (D := d * d'). assert (HD : 0 < D) by nia. clearbody D.
  revert Hle. generalize (n * d') (n' * d). intros a b Hab.
  destruct (Z.le_gt_cases (round_even a D) (round_even b D)) as [|Hgt]; [done|exfalso].
  pose proof (round_even_near a D HD). pose proof (round_even_near b D HD).
  assert (a = b) by nia. subst. lia.
Qed.

(** ** Laws of the 53 bits *)

Lemma ulp_exp_lower n d : 0 <= n -> 0 < d -> 0 < ulp_exp n d -> 2 ^ (ulp_exp n d + 52) * d <= n.
Proof.
  unfold ulp_exp. intros Hn Hd He. rewrite Z.max_r, Z.sub_simpl_r by lia.
  assert (0 < n / d) by (destruct (Z.le_gt_cases (n / d) 0); [rewrite Z.log2_nonpos in He by done; lia|done]).
  pose proof (Z.log2_spec (n / d) ltac:(done)). pose proof (Z.mul_div_le n d Hd). nia.
Qed.

Lemma ulp_exp_upper n d : 0 <= n -> 0 < d -> n < 2 ^ (ulp_exp n d + 53) * d.
Proof.
  unfold ulp_exp. intros Hn Hd. pose proof (Z.mul_succ_div_gt n d Hd) as Hgt.
  assert (n / d < 2 ^ (Z.max 0 (Z.log2 (n / d) - 52) + 53)); [|nia].
  pose proof (Z.log2_nonneg (n / d)).
  destruct (Z.le_gt_cases (n / d) 0); [pose proof (Z.pow_pos_nonneg 2 (Z.max 0 (Z.log2 (n / d) - 52) + 53)); lia|].
  apply Z.log2_lt_pow2; lia.
Qed.

Lemma ulp_exp_nonneg n d : 0 <= ulp_exp n d.
Proof. unfold ulp_exp. lia. Qed.

Lemma ulp_exp_mono n d n' d' :
  0 <= n -> 0 < d -> 0 < d' -> n * d' <= n' * d -> ulp_exp n d <= ulp_exp n' d'.
Proof.
  intros Hn Hd Hd' Hle. unfold ulp_exp.
  assert (Z.log2 (n / d) <= Z.log2 (n' / d')); [|lia].
  apply Z.log2_le_mono, Z.div_le_lower_bound; [done|].
  pose proof (Z.mul_div_le n d Hd). nia.
Qed.

(** The bounds [m * 2{^s}] with [m] of 53 bits are themselves doubles, and
    rounding does not cross them. *)
Section bounds.
  Context (n d m s : Z) (Hn : 0 <= n) (Hd : 0 < d) (Hs : 0 <= s) (Hm : 0 <= m <= 2 ^ 53).

Lemma scaled_pos : 0 < d * 2 ^ ulp_exp n d.
Proof. pose proof (Z.pow_pos_nonneg 2 (ulp_exp n d) ltac:(lia) (ulp_exp_nonneg n d)). nia. Qed.

Lemma split_scale : ulp_exp n d <= s -> m * 2 ^ s = m * 2 ^ (s - ulp_exp n d) * 2 ^ ulp_exp n d.
Proof.
  intros Hle. pose proof (ulp_exp_nonneg n d). rewrite <- Z.mul_assoc, <- Z.pow_add_r by lia. by rewrite Z.sub_add.
Qed.

Lemma beyond : s < ulp_exp n d -> m * 2 ^ s <= 2 ^ 52 * 2 ^ ulp_exp n d.
Proof.
  intros Hlt. replace (ulp_exp n d) with (s + 1 + (ulp_exp n d - s - 1)) by lia.
  rewrite !Z.pow_add_r by lia. pose proof (Z.pow_pos_nonneg 2 s ltac:(lia) Hs).
  pose proof (Z.pow_pos_nonneg 2 (ulp_exp n d - s - 1) ltac:(lia) ltac:(lia)). nia.
Qed.

Lemma round53_ge : m * 2 ^ s * d <= n -> m * 2 ^ s <= round53 n d.
Proof.
  intros Hle. unfold round53. cbv zeta. pose proof (ulp_exp_nonneg n d) as He.
  pose proof (Z.pow_pos_nonneg 2 (ulp_exp n d) ltac:(lia) He) as Hp.
  destruct (Z.le_gt_cases (ulp_exp n d) s) as [Hes|Hes].
  - rewrite (split_scale Hes) in *. apply Z.mul_le_mono_nonneg_r; [lia|].
    apply round_even_ge; [apply scaled_pos|]. nia.
  - etransitivity; [apply (beyond Hes)|]. apply Z.mul_le_mono_nonneg_r; [lia|].
    apply round_even_ge; [apply scaled_pos|].
    pose proof (ulp_exp_lower n d Hn Hd ltac:(lia)) as Hlow. rewrite Z.pow_add_r in Hlow by lia. nia.
Qed.

Lemma round53_le : n <= m * 2 ^ s * d -> round53 n d <= m * 2 ^ s.
Proof.
  intros Hle. unfold round53. cbv zeta. pose proof (ulp_exp_nonneg n d) as He.
  pose proof (Z.pow_pos_nonneg 2 (ulp_exp n d) ltac:(lia) He) as Hp.
  destruct (Z.le_gt_cases (ulp_exp n d) s) as [Hes|Hes].
  - rewrite (split_scale Hes) in *. apply Z.mul_le_mono_nonneg_r; [lia|].
    apply round_even_le; [apply scaled_pos|]. nia.
  - pose proof (beyond Hes) as Hb.
    pose proof (ulp_exp_lower n d Hn Hd ltac:(lia)) as Hlow. rewrite Z.pow_add_r in Hlow by lia.
    assert (m * 2 ^ s = 2 ^ 52 * 2 ^ ulp_exp n d) as -> by nia.
    apply Z.mul_le_mono_nonneg_r; [lia|]. apply round_even_le; [apply scaled_pos|]. nia.
Qed.
End bounds.

Lemma round53_exact m s d :
  0 < d -> 0 <= s -> 0 <= m <= 2 ^ 53 -> round53 (m * 2 ^ s * d) d = m * 2 ^ s.
Proof.
  intros Hd Hs Hm. pose proof (Z.pow_pos_nonneg 2 s ltac:(lia) Hs).
  apply Z.le_antisymm; [apply round53_le|apply round53_ge]; try done; nia.
Qed.

Lemma round53_nonneg n d : 0 <= n -> 0 < d -> 0 <= round53 n d.
Proof. intros. apply (round53_ge n d 0 0); lia. Qed.

Lemma round53_mono n d n' d' :
  0 <= n -> 0 <= n' -> 0 < d -> 0 < d' -> n * d' <= n' * d -> round53 n d <= round53 n' d'.
Proof.
  intros Hn Hn' Hd Hd' Hle. pose proof (ulp_exp_mono n d n' d' Hn Hd Hd' Hle) as He.
  pose proof (ulp_exp_nonneg n d). apply Z.lt_eq_cases in He as [Hlt|Heq].
  - transitivity (1 * 2 ^ (ulp_exp n d + 53)).
    + apply round53_le; try lia. pose proof (ulp_exp_upper n d). lia.
    + apply round53_ge; try lia. pose proof (ulp_exp_lower n' d' Hn' Hd' ltac:(lia)) as Hlow.
      pose proof (Z.pow_le_mono_r 2 (ulp_exp n d + 53) (ulp_exp n' d' + 52) ltac:(lia) ltac:(lia)). nia.
  - unfold round53. cbv zeta. rewrite Heq. pose proof (Z.pow_pos_nonneg 2 (ulp_exp n' d') ltac:(lia) ltac:(lia)).
    apply Z.mul_le_mono_nonneg_r; [lia|]. apply round_even_mono; nia.
Qed.

(** ** Laws of the operations *)

Lemma round53_0 d : 0 < d -> round53 0 d = 0.
Proof. intros. apply (round53_exact 0 0 d); lia. Qed.

Lemma f64_one_pos : 0 < f64_one.
Proof. reflexivity. Qed.

(** The bounds, in units of one. *)
Lemma round53_ge_units n d m :
  0 <= n -> 0 < d -> 0 <= m <= 2 ^ 53 -> m * f64_one * d <= n -> m * f64_one <= round53 n d.
Proof. intros. by apply (round53_ge n d m 1074). Qed.

Lemma round53_le_units n d m :
  0 <= n -> 0 < d -> 0 <= m <= 2 ^ 53 -> n <= m * f64_one * d -> round53 n d <= m * f64_one.
Proof. intros. by apply (round53_le n d m 1074). Qed.

Lemma round53_exact_units m d :
  0 < d -> 0 <= m <= 2 ^ 53 -> round53 (m * f64_one * d) d = m * f64_one.
Proof. intros. by apply (round53_exact m 1074 d). Qed.

Lemma round53_exact_int m : 0 <= m <= 2 ^ 53 -> round53 (m * f64_one) 1 = m * f64_one.
Proof. intros. rewrite <- (Z.mul_1_r (m * f64_one)) at 1. by apply round53_exact_units. Qed.

Lemma f64_range b : b <= 2 ^ 64 -> b * f64_one < 2 ^ 2098.
Proof.
  intros Hb. apply Z.le_lt_trans with (2 ^ 64 * f64_one); [|reflexivity].
  by apply Z.mul_le_mono_nonneg_r.
Qed.

Lemma f64_round_finite n d b :
  0 <= n -> 0 < d -> 0 <= b <= 2 ^ 53 -> n <= b * f64_one * d -> f64_round n d = Finite (round53 n d).
Proof.
  intros Hn Hd Hb Hle. unfold f64_round. cbv zeta.
  pose proof (round53_le_units n d b Hn Hd Hb Hle) as Hr.
  pose proof (f64_range b ltac:(lia)). zcase; [lia|done].
Qed.

Lemma f64_of_u64_round n : is_u64 n -> f64_of_u64 n = Finite (round53 (n * f64_one) 1).
Proof.
  intros [Hn Hlt]. unfold f64_of_u64, f64_round. cbv zeta. pose proof f64_one_pos.
  pose proof (round53_le (n * f64_one) 1 (2 ^ 11) (53 + 1074)) as Hr.
  replace (2 ^ 11 * 2 ^ (53 + 1074)) with (2 ^ 64 * f64_one) in Hr by reflexivity.
  specialize (Hr ltac:(nia) ltac:(lia) ltac:(lia) ltac:(lia) ltac:(nia)).
  pose proof (f64_range (2 ^ 64) ltac:(lia)). zcase; [lia|done].
Qed.

(** A quotient below a power of two in range is finite. *)
Lemma f64_round_below n d e :
  0 <= n -> 0 < d -> 0 <= e < 2098 -> n <= 2 ^ e * d -> f64_round n d = Finite (round53 n d).
Proof.
  intros Hn Hd He Hle. unfold f64_round. cbv zeta.
  pose proof (round53_le n d 1 e Hn Hd ltac:(lia) ltac:(lia) ltac:(lia)) as Hr.
  assert (2 ^ e < 2 ^ 2098) by (apply Z.pow_lt_mono_r; lia). zcase; [lia|done].
Qed.

(** Integers of 53 bits are doubles. *)
Lemma f64_of_u64_exact n : 0 <= n <= 2 ^ 53 -> f64_of_u64 n = f64_lit n.
Proof.
  intros Hn. rewrite f64_of_u64_round by (unfold is_u; lia). unfold f64_lit. f_equal.
  by apply round53_exact_int.
Qed.

(** ** Percentages *)

(** [(a as f64 / b as f64) * 100.0]. *)
Definition f64_percent (a b : Z) : f64 :=
  f64_mul (f64_div (f64_of_u64 a) (f64_of_u64 b)) (f64_lit 100).

(** In units: the quotient, then the product. *)
Definition quotient_units (a b : Z) : Z :=
  round53 (round53 (a * f64_one) 1 * f64_one) (round53 (b * f64_one) 1).
Definition percent_units (a b : Z) : Z :=
  round53 (quotient_units a b * (100 * f64_one)) f64_one.

Section percent.
  Context (b : Z) (Hb : is_u64 b) (Hpos : 0 < b).

Lemma units_pos : 0 < round53 (b * f64_one) 1.
Proof.
  pose proof f64_one_pos. pose proof (round53_ge_units (b * f64_one) 1 1). nia.
Qed.

Lemma units_mono a a' : 0 <= a <= a' -> round53 (a * f64_one) 1 <= round53 (a' * f64_one) 1.
Proof. intros. pose proof f64_one_pos. apply round53_mono; nia. Qed.

Lemma units_nonneg a : 0 <= a -> 0 <= round53 (a * f64_one) 1.
Proof. intros. pose proof f64_one_pos. apply round53_nonneg; nia. Qed.

Lemma quotient_units_bounds a : 0 <= a <= b -> 0 <= quotient_units a b <= f64_one.
Proof.
  intros Ha. pose proof f64_one_pos. pose proof units_pos. pose proof (units_mono a b Ha).
  pose proof (units_nonneg a ltac:(lia)). unfold quotient_units. split.
  - apply round53_nonneg; nia.
  - transitivity (1 * f64_one); [|lia]. apply round53_le_units; nia.
Qed.

Lemma percent_units_bounds a : 0 <= a <= b -> 0 <= percent_units a b <= 100 * f64_one.
Proof.
  intros Ha. pose proof f64_one_pos. pose proof (quotient_units_bounds a Ha). unfold percent_units. split.
  - apply round53_nonneg; nia.
  - apply round53_le_units; nia.
Qed.

Lemma quotient_units_nonneg a : 0 <= a -> 0 <= quotient_units a b.
Proof.
  intros Ha. pose proof f64_one_pos. pose proof units_pos. pose proof (units_nonneg a Ha).
  apply round53_nonneg; nia.
Qed.

(** The count may exceed the total: every part is finite. *)
Lemma units_below a : is_u64 a -> round53 (a * f64_one) 1 <= 2 ^ 1138.
Proof.
  intros [Ha Hlt]. pose proof f64_one_pos.
  replace (2 ^ 1138) with (1 * 2 ^ 1138) by lia. apply round53_le; [nia|lia|lia|lia|].
  assert (E : 1 * 2 ^ 1138 = 2 ^ 64 * f64_one) by reflexivity. rewrite E, Z.mul_1_r.
  apply Z.mul_le_mono_nonneg_r; lia.
Qed.

Lemma quotient_below a : is_u64 a ->
  round53 (a * f64_one) 1 * f64_one <= 2 ^ 1138 * round53 (b * f64_one) 1.
Proof.
  intros Ha. pose proof f64_one_pos. pose proof (units_below a Ha).
  pose proof (units_nonneg a ltac:(by destruct Ha)).
  pose proof (round53_ge_units (b * f64_one) 1 1 ltac:(nia) ltac:(lia) ltac:(lia) ltac:(nia)).
  apply Z.mul_le_mono_nonneg; lia.
Qed.

Lemma product_below q : 0 <= q <= 2 ^ 1138 -> q * (100 * f64_one) <= 2 ^ 1145 * f64_one.
Proof.
  intros Hq. pose proof f64_one_pos. rewrite Z.mul_assoc. apply Z.mul_le_mono_nonneg_r; [lia|].
  transitivity (2 ^ 1138 * 128); [apply Z.mul_le_mono_nonneg; lia|].
  assert (E : 2 ^ 1138 * 128 = 2 ^ 1145) by reflexivity. lia.
Qed.

Lemma f64_percent_units a : is_u64 a -> f64_percent a b = Finite (percent_units a b).
Proof.
  intros Ha. pose proof f64_one_pos. pose proof units_pos.
  pose proof (quotient_below a Ha) as Hq. pose proof (quotient_units_nonneg a ltac:(by destruct Ha)) as Hn.
  pose proof (units_nonneg a ltac:(by destruct Ha)).
  unfold f64_percent, percent_units, quotient_units in *.
  rewrite !f64_of_u64_round by done. unfold f64_lit. cbn [f64_div].
  destruct (Z.eqb_spec (round53 (b * f64_one) 1) 0); [lia|].
  rewrite (f64_round_below _ _ 1138) by (done || nia). cbn [f64_mul].
  assert (Hle : round53 (round53 (a * f64_one) 1 * f64_one) (round53 (b * f64_one) 1) <= 2 ^ 1138).
  { replace (2 ^ 1138) with (1 * 2 ^ 1138) by lia. apply round53_le; [nia|done|lia|lia|].
    by rewrite Z.mul_1_l. }
  rewrite (f64_round_below _ _ 1145); [done|nia|done|lia|by apply product_below].
Qed.

Lemma percent_units_mono a a' : 0 <= a <= a' -> percent_units a b <= percent_units a' b.
Proof.
  intros Ha. pose proof f64_one_pos. pose proof units_pos. pose proof (units_mono a a' Ha).
  pose proof (units_nonneg a ltac:(lia)).
  pose proof (quotient_units_nonneg a ltac:(lia)). pose proof (quotient_units_nonneg a' ltac:(lia)).
  assert (quotient_units a b <= quotient_units a' b).
  { apply round53_mono; [nia|nia|done|done|]. apply Z.mul_le_mono_nonneg_r; [lia|nia]. }
  apply round53_mono; [nia|nia|done|done|nia].
Qed.

Lemma percent_units_full : percent_units b b = 100 * f64_one.
Proof.
  pose proof f64_one_pos. pose proof units_pos. unfold percent_units.
  assert (quotient_units b b = f64_one) as ->.
  { unfold quotient_units. replace (round53 (b * f64_one) 1 * f64_one)
      with (1 * f64_one * round53 (b * f64_one) 1) by lia.
    rewrite round53_exact_units by lia. lia. }
  rewrite Z.mul_comm. by apply round53_exact_units.
Qed.

(** With a total of at most 53 bits, only the whole is a hundred percent. *)
Lemma quotient_units_partial a : b <= 2 ^ 53 -> 0 <= a < b -> quotient_units a b <= (2 ^ 53 - 1) * 2 ^ 1021.
Proof.
  intros Hsmall Ha. pose proof f64_one_pos. unfold quotient_units.
  rewrite !round53_exact_int by lia. apply round53_le; [nia|nia|lia|lia|].
  assert (E : f64_one = 2 ^ 53 * 2 ^ 1021) by reflexivity. rewrite E at 1.
  assert (0 < 2 ^ 1021 * f64_one) by reflexivity.
  assert (a * 2 ^ 53 <= (2 ^ 53 - 1) * b) by lia.
  replace (a * (2 ^ 53 * 2 ^ 1021) * f64_one) with (a * 2 ^ 53 * (2 ^ 1021 * f64_one)) by ring.
  replace ((2 ^ 53 - 1) * 2 ^ 1021 * (b * f64_one)) with ((2 ^ 53 - 1) * b * (2 ^ 1021 * f64_one)) by ring.
  apply Z.mul_le_mono_nonneg_r; lia.
Qed.

Lemma percent_units_partial a : b <= 2 ^ 53 -> 0 <= a < b -> percent_units a b < 100 * f64_one.
Proof.
  intros Hsmall Ha. pose proof f64_one_pos as Hone. pose proof (quotient_units_bounds a ltac:(lia)) as Hq0.
  pose proof (quotient_units_partial a Hsmall Ha) as Hq.
  apply Z.le_lt_trans with (round53 ((2 ^ 53 - 1) * 2 ^ 1021 * (100 * f64_one)) f64_one).
  - revert Hq. generalize ((2 ^ 53 - 1) * 2 ^ 1021). intros q Hq. apply round53_mono; nia.
  - by vm_compute.
Qed.
End percent.

(** What [percent_complete] returns: it grows with the count, is [0.0] for
    none, [100.0] for all, and at least [100.0] from there on; with a total of
    53 bits it is below [100.0] before. *)
Lemma f64_percent_mono a a' b :
  is_u64 b -> 0 < b -> 0 <= a <= a' -> is_u64 a' -> f64_leb (f64_percent a b) (f64_percent a' b) = true.
Proof.
  intros Hb Hpos Ha Ha'. rewrite !f64_percent_units by (done || (unfold is_u in *; lia)). cbn [f64_leb].
  by apply Z.leb_le, percent_units_mono.
Qed.

Lemma f64_percent_full b : is_u64 b -> 0 < b -> f64_percent b b = f64_lit 100.
Proof. intros Hb Hpos. rewrite f64_percent_units by done.
  unfold f64_lit. f_equal. by apply percent_units_full. Qed.

Lemma f64_percent_zero b : is_u64 b -> 0 < b -> f64_percent 0 b = f64_lit 0.
Proof.
  intros Hb Hpos. rewrite f64_percent_units by done. unfold percent_units, quotient_units.
  pose proof (units_pos b Hpos). assert (E : round53 (0 * f64_one) 1 * f64_one = 0) by reflexivity.
  rewrite E, round53_0 by done. reflexivity.
Qed.

Lemma f64_percent_nonneg a b :
  is_u64 b -> 0 < b -> is_u64 a -> f64_leb (f64_lit 0) (f64_percent a b) = true.
Proof.
  intros Hb Hpos Ha. rewrite <- (f64_percent_zero b) by done. apply f64_percent_mono; [done|done| |done].
  destruct Ha. lia.
Qed.

Lemma f64_percent_range a b :
  is_u64 b -> 0 < b -> 0 <= a <= b ->
  f64_leb (f64_lit 0) (f64_percent a b) = true /\ f64_leb (f64_percent a b) (f64_lit 100) = true.
Proof.
  intros Hb Hpos Ha. split; [apply f64_percent_nonneg; unfold is_u in *; lia|].
  rewrite <- (f64_percent_full b) by done. by apply f64_percent_mono.
Qed.

Lemma f64_percent_reached a b :
  is_u64 b -> 0 < b -> is_u64 a -> b <= a -> f64_leb (f64_lit 100) (f64_percent a b) = true.
Proof.
  intros Hb Hpos Ha Hle. rewrite <- (f64_percent_full b) by done. apply f64_percent_mono; done || lia.
Qed.

Lemma f64_percent_partial a b :
  0 < b <= 2 ^ 53 -> 0 <= a < b -> f64_leb (f64_lit 100) (f64_percent a b) = false.
Proof.
  intros Hb Ha. rewrite f64_percent_units by (unfold is_u; lia). unfold f64_lit. cbn [f64_leb].
  apply Z.leb_gt, percent_units_partial; lia.
Qed.

(** ** Quotients by a power of two are exact *)

Lemma f64_div_pow2 n j :
  0 <= n <= 2 ^ 53 -> 0 <= j <= 53 ->
  f64_div (f64_of_u64 n) (f64_of_u64 (2 ^ j)) = Finite (n * 2 ^ (1074 - j)).
Proof.
  intros Hn Hj. assert (0 < 2 ^ j <= 2 ^ 53).
  { split; [apply Z.pow_pos_nonneg; lia|apply Z.pow_le_mono_r; lia]. }
  pose proof f64_one_pos. rewrite !f64_of_u64_exact by lia. unfold f64_lit. cbn [f64_div].
  destruct (Z.eqb_spec (2 ^ j * f64_one) 0); [nia|].
  assert (E : f64_one = 2 ^ (1074 - j) * 2 ^ j) by (rewrite <- Z.pow_add_r by lia; by rewrite Z.sub_add).
  assert (E' : n * f64_one * f64_one = n * 2 ^ (1074 - j) * (2 ^ j * f64_one)) by (rewrite E at 1; ring).
  assert (0 < 2 ^ (1074 - j) <= f64_one) by (split; [apply Z.pow_pos_nonneg; lia|apply Z.pow_le_mono_r; lia]).
  assert (0 < 2 ^ j * f64_one) by nia.
  rewrite E'. rewrite (f64_round_finite _ _ n); [|nia|done|done|].
  2: { apply Z.mul_le_mono_nonneg_r; [lia|]. apply Z.mul_le_mono_nonneg_l; lia. }
  rewrite round53_exact by lia. done.
Qed.

Lemma show_fixed_pow2 digits n j :
  0 <= digits -> 0 <= n <= 2 ^ 53 -> 0 <= j <= 53 ->
  show_fixed digits (f64_div (f64_of_u64 n) (f64_of_u64 (2 ^ j))) =
  let h := round_even (10 ^ digits * n) (2 ^ j) in
  show_dec (h / 10 ^ digits) ++ [c_dot] ++ pad_zero digits (show_dec (h mod 10 ^ digits)).
Proof.
  intros Hd Hn Hj. rewrite f64_div_pow2 by done. cbn [show_fixed]. cbv zeta.
  assert (0 < 2 ^ (1074 - j)) by (apply Z.pow_pos_nonneg; lia).
  assert (0 < 2 ^ j) by (apply Z.pow_pos_nonneg; lia).
  assert (E : f64_one = 2 ^ j * 2 ^ (1074 - j)) by (rewrite <- Z.pow_add_r by lia; f_equal; lia).
  rewrite E, Z.mul_assoc, round_even_scale by done. done.
Qed.

(** A ratio of counts is at most one when the counts are in order. *)
Lemma f64_ratio_le_one a b :
  is_u64 b -> 0 < b -> 0 <= a <= b -> f64_leb (f64_div (f64_of_u64 a) (f64_of_u64 b)) (f64_lit 1) = true.
Proof.
  intros Hb Hpos Ha. pose proof f64_one_pos. pose proof (units_pos b Hpos).
  pose proof (quotient_units_bounds b Hpos a Ha) as Hq. unfold quotient_units in Hq.
  pose proof (units_mono a b Ha). pose proof (units_nonneg a ltac:(lia)).
  rewrite !f64_of_u64_round by (unfold is_u in *; lia). cbn [f64_div].
  destruct (Z.eqb_spec (round53 (b * f64_one) 1) 0); [lia|].
  rewrite (f64_round_finite _ _ 1) by (lia || nia). unfold f64_lit. cbn [f64_leb]. apply Z.leb_le. lia.
Qed.
