(* ===== verification/Write.v ===== *)
(** * Write: the [std::io::Write] interface and its implementations

    The archive and disk writers of the code are generic in [W: Write + Seek]
    and only ever append.  [Write] is the trait, [WriteLaws] what its
    documentation promises, [InfallibleWrite] the extra promise of an
    in-memory writer.  The client theorems are proved against the interface;
    [Cursor] (the [Cursor<Vec<u8>>] of [export.rs]) and [Disk] (a device with
    a fixed room and short writes) discharge it. *)
From S2P Require Export Machine.

(** ** A state monad that keeps the state on failure *)

Definition M (S E A : Type) : Type := S -> outcome E A * S.

#[export] Instance M_ret {S E} : MRet (M S E) := fun A a s => (Ok a, s).
#[export] Instance M_bind {S E} : MBind (M S E) := fun A B f m s =>
  match m s with
  | (Ok a, s') => f a s'
  | (Err e, s') => (Err e, s')
  | (Panic, s') => (Panic, s')
  | (Diverge, s') => (Diverge, s')
  end.

Section state.
  Context {S E : Type}.

Definition get : M S E S := fun s => (Ok s, s).
Definition modify (f : S -> S) : M S E () := fun s => (Ok tt, f s).
Definition lift {A} (m : outcome E A) : M S E A := fun s => (m, s).
Definition throw {A} (e : E) : M S E A := fun s => (Err e, s).
Definition map_err_m {E' A} (f : E -> E') (m : M S E A) : M S E' A :=
  fun s => let '(r, s') := m s in (map_err f r, s').

Lemma M_bind_Ok {A B} (m : M S E A) (f : A -> M S E B) s b s' :
  (m ≫= f) s = (Ok b, s') <-> exists a s1, m s = (Ok a, s1) /\ f a s1 = (Ok b, s').
Proof.
  unfold mbind, M_bind. destruct (m s) as [[] ?]; split; naive_solver.
Qed.

(** Running the first action of a sequence. *)
Lemma M_bind_step {A B} (m : M S E A) (f : A -> M S E B) s a s1 :
  m s = (Ok a, s1) -> (m ≫= f) s = f a s1.
Proof. unfold mbind, M_bind. by intros ->. Qed.

Lemma map_err_m_Ok {E' A} (f : E -> E') (m : M S E A) s a s' :
  map_err_m f m s = (Ok a, s') <-> m s = (Ok a, s').
Proof. unfold map_err_m. destruct (m s) as [[]]; cbn; naive_solver. Qed.
End state.

(** Running an action on a component of the state, seen through a getter and
    a setter: a method call on a field. *)
Definition on_field {S T E A} (g : S -> T) (p : T -> S -> S) (m : M T E A) : M S E A :=
  fun s => let '(r, t) := m (g s) in (r, p t s).

Lemma on_field_Ok {S T E A} (g : S -> T) p (m : M T E A) s a s' :
  on_field g p m s = (Ok a, s') <-> exists t, m (g s) = (Ok a, t) /\ s' = p t s.
Proof. unfold on_field. destruct (m (g s)) as [r t]. naive_solver. Qed.

Ltac inv_m :=
  repeat match goal with
    | H : (_ ≫= _) ?s = (Ok _, _) |- _ =>
        let a := fresh "a" in let s1 := fresh "st" in
        let H1 := fresh "Hm" in let H2 := fresh "Hm" in
        apply M_bind_Ok in H as (a & s1 & H1 & H2)
    | H : map_err_m _ _ _ = (Ok _, _) |- _ => apply map_err_m_Ok in H
    | H : on_field _ _ _ _ = (Ok _, _) |- _ =>
        let t := fresh "t" in let H1 := fresh "Hm" in
        apply on_field_Ok in H as (t & H1 & ->)
    | H : get _ = (Ok _, _) |- _ => injection H as H; subst
    | H : mret _ _ = (Ok _, _) |- _ => injection H as H; subst
    | H : modify _ _ = (Ok _, _) |- _ => injection H as H; subst
    | H : lift _ _ = (Ok _, _) |- _ => injection H as H; subst
    end.

(** ** The trait *)

Class Write (W : Type) := {
  write : bytes -> M W io_error Z;
  flush : M W io_error ();
}.

Section write_all.
  Context `{Write W}.

  (** The provided method [Write::write_all].  Every round that goes on has
      written at least one byte, so the length of the buffer bounds the
      rounds ([write_all_rounds] below).  [ErrorKind::Interrupted], which the
      loop retries, is folded into [write]. *)
Fixpoint write_all_rounds (fuel : nat) (buf : bytes) : M W io_error () :=
  match buf, fuel with
  | [], _ => mret tt
  | _ :: _, O => fun w => (Diverge, w)
  | _ :: _, S f =>
      n ← write buf;
      if n =? 0
      then throw {| io_kind := WriteZero; io_text := lit "failed to write whole buffer" |}
      else if zlen buf <? n then fun w => (Panic, w)
      else write_all_rounds f (zdrop n buf)
  end.

Definition write_all (buf : bytes) : M W io_error () :=
  write_all_rounds (length buf) buf.
End write_all.

(** What the documentation of [Write] promises: a call reports how many bytes
    it has appended, at most the buffer; a call that fails has appended none. *)
Class WriteLaws (W : Type) `{Write W} := {
  contents : W -> bytes;
  wf_writer : W -> Prop;
  write_law : forall b w r w', wf_writer w -> write b w = (r, w') ->
    wf_writer w' /\
    match r with
    | Ok n => 0 <= n <= zlen b /\ contents w' = contents w ++ ztake n b
    | Err _ => contents w' = contents w
    | Panic | Diverge => False
    end;
  flush_law : forall w r w', wf_writer w -> flush w = (r, w') ->
    wf_writer w' /\ contents w' = contents w /\ returns r;
}.

(** A writer that never fails, as one in memory. *)
Class InfallibleWrite (W : Type) `{WriteLaws W} := {
  write_some : forall b w, wf_writer w -> b <> [] ->
    exists n w', write b w = (Ok n, w') /\ 0 < n;
  flush_some : forall w, wf_writer w -> exists w', flush w = (Ok tt, w');
}.

Section write_laws.
  Context `{WriteLaws W}.

  (** The general statement about the loop: it appends a prefix of the buffer,
      all of it exactly when it succeeds, and never panics. *)
Lemma write_all_rounds_prefix fuel b w r w' :
  (length b <= fuel)%nat -> wf_writer w -> write_all_rounds fuel b w = (r, w') ->
  wf_writer w' /\ returns r /\
  exists k, 0 <= k <= zlen b /\ contents w' = contents w ++ ztake k b /\
            (r = Ok tt -> k = zlen b).
Proof.
  revert b w. induction fuel as [|fuel IH]; intros [|x b] w Hf Hw; cbn [write_all_rounds].
  - intros [= <- <-]. split_and!; [done..|]. exists 0. rewrite ztake_nonpos, app_nil_r by lia. by cbn.
  - cbn in Hf. lia.
  - intros [= <- <-]. split_and!; [done..|]. exists 0. rewrite ztake_nonpos, app_nil_r by lia. by cbn.
  - set (buf := x :: b) in *. unfold mbind, M_bind.
    destruct (write buf w) as [[n|e| |] w1] eqn:Ew; intros Hr;
      pose proof (write_law _ _ _ _ Hw Ew) as [Hw1 Hl].
    + destruct Hl as [Hn Hc]. destruct (Z.eqb_spec n 0).
      { injection Hr as <- <-. split_and!; [done..|]. exists 0. subst n.
        rewrite Hc. split_and!; [lia|lia|done|done]. }
      destruct (Z.ltb_spec (zlen buf) n); [lia|].
      apply IH in Hr as (Hw' & Hp & k & Hk & Hc' & He);
        [|unfold zdrop; rewrite length_drop; subst buf; cbn [length] in *; lia|done].
      split_and!; [done..|]. exists (n + k). rewrite zlen_zdrop in *.
      split_and!; [lia|lia| |intros; specialize (He ltac:(done)); lia].
      rewrite Hc', Hc, <- app_assoc. f_equal.
      rewrite <- (ztake_zdrop n buf) at 3.
      rewrite ztake_app_ge by (rewrite zlen_ztake; lia).
      f_equal. f_equal. rewrite zlen_ztake. lia.
    + injection Hr as <- <-. split_and!; [done..|]. exists 0.
      rewrite ztake_nonpos, app_nil_r by lia. split_and!; [lia|apply zlen_nonneg|done|done].
    + done.
    + done.
Qed.

Lemma write_all_prefix b w r w' :
  wf_writer w -> write_all b w = (r, w') ->
  wf_writer w' /\ returns r /\
  exists k, 0 <= k <= zlen b /\ contents w' = contents w ++ ztake k b /\
            (r = Ok tt -> k = zlen b).
Proof. intros. by apply (write_all_rounds_prefix (length b)). Qed.

Lemma write_all_Ok b w u w' :
  wf_writer w -> write_all b w = (Ok u, w') ->
  wf_writer w' /\ contents w' = contents w ++ b.
Proof.
  intros Hw Hr. destruct u. destruct (write_all_prefix _ _ _ _ Hw Hr) as (? & _ & k & _ & Hc & Hk).
  split; [done|]. by rewrite Hc, Hk, ztake_all.
Qed.
End write_laws.

Lemma write_all_rounds_total `{InfallibleWrite W} fuel b w :
  (length b <= fuel)%nat -> wf_writer w ->
  exists w', write_all_rounds fuel b w = (Ok tt, w').
Proof.
  revert b w. induction fuel as [|fuel IH];
    intros [|x b] w Hf Hw; cbn in Hf |- *; try (by eauto); [lia|].
  destruct (write_some (x :: b) w Hw) as (n & w1 & Ew & Hn); [done|].
  destruct (write_law _ _ _ _ Hw Ew) as [Hw1 [Hr _]].
  unfold mbind, M_bind. rewrite Ew.
  destruct (Z.eqb_spec n 0); [lia|]. destruct (Z.ltb_spec (zlen (x :: b)) n); [lia|].
  apply IH; [|done]. unfold zdrop. rewrite length_drop. cbn [length]. lia.
Qed.

(** What every call of [write] preserves, the loop preserves. *)
Lemma write_all_invariant `{Write W} (I : W -> Prop) b w r w' :
  (forall b w r w', I w -> write b w = (r, w') -> I w') ->
  I w -> write_all b w = (r, w') -> I w'.
Proof.
  intros HI. unfold write_all. generalize (length b) as fuel. intros fuel. revert b w.
  induction fuel as [|fuel IH]; intros [|x b] w Hw; cbn [write_all_rounds];
    try by intros [= _ <-].
  unfold mbind, M_bind. destruct (write (x :: b) w) as [[n|e| |] w1] eqn:Ew;
    pose proof (HI _ _ _ _ Hw Ew) as Hw1; try by intros [= _ <-].
  destruct (n =? 0); [by intros [= _ <-]|]. zcase; [by intros [= _ <-]|]. by apply IH.
Qed.

(** A loop every round of which is bound to make progress succeeds. *)
Lemma write_all_progress `{Write W} (P : bytes -> W -> Prop) b w :
  (forall b w, b <> [] -> P b w ->
     exists n w', write b w = (Ok n, w') /\ 0 < n <= zlen b /\ P (zdrop n b) w') ->
  P b w -> exists w', write_all b w = (Ok tt, w') /\ P [] w'.
Proof.
  intros HP. unfold write_all.
  assert (Hf : (length b <= length b)%nat) by lia. revert Hf.
  generalize (length b) at 2 3 as fuel. intros fuel. revert b w.
  induction fuel as [|fuel IH]; intros [|x b] w Hf Hw; cbn in Hf |- *; try lia; try by eauto.
  destruct (HP (x :: b) w) as (n & w1 & Ew & Hn & Hw1); [done..|].
  unfold mbind, M_bind. rewrite Ew. zcase; [lia|].
  destruct (Z.eqb_spec n 0); [lia|]. apply IH; [|done]. unfold zdrop, zlen in *. rewrite length_drop. cbn [length] in *. lia.
Qed.

Lemma write_all_total `{InfallibleWrite W} b w :
  wf_writer w -> exists w', write_all b w = (Ok tt, w').
Proof. by apply write_all_rounds_total. Qed.

(** ** [Cursor<Vec<u8>>] *)

Record Cursor := { cursor_buf : bytes; cursor_pos : Z }.

Definition cursor_new : Cursor := {| cursor_buf := []; cursor_pos := 0 |}.

(** [Write for Cursor<Vec<u8>>]: pads up to the position, overwrites, extends. *)
#[export] Instance Write_Cursor : Write Cursor := {
  write b c :=
    let buf := cursor_buf c ++ zeros (cursor_pos c - zlen (cursor_buf c)) in
    (Ok (zlen b),
     {| cursor_buf := ztake (cursor_pos c) buf ++ b ++ zdrop (cursor_pos c + zlen b) buf;
        cursor_pos := cursor_pos c + zlen b |});
  flush c := (Ok tt, c);
}.

#[export, refine] Instance WriteLaws_Cursor : WriteLaws Cursor := {
  contents := cursor_buf;
  wf_writer c := cursor_pos c = zlen (cursor_buf c);
}.
Proof.
  - intros b c r w' Hw [= <- <-]. cbn. rewrite Hw, Z.sub_diag.
    change (zeros 0) with (@nil Z). rewrite app_nil_r.
    rewrite ztake_all, zdrop_all, app_nil_r, zlen_app by zsolve.
    rewrite ztake_all by lia. pose proof (zlen_nonneg b). split_and!; [done|lia|lia|done].
  - intros w r w' Hw [= <- <-]. done.
Defined.

#[export] Instance InfallibleWrite_Cursor : InfallibleWrite Cursor.
Proof.
  split.
  - intros [|x b] w _ Hb; [done|]. eexists _, _. split; [reflexivity|]. zsolve.
  - intros w _. by eexists.
Qed.

(** ** A device with room for [disk_room] bytes that takes at most
    [disk_burst] bytes a call *)

Record Disk := { disk_data : bytes; disk_room : Z; disk_burst : Z }.

Definition disk_full : io_error :=
  {| io_kind := OtherKind; io_text := lit "No space left on device" |}.

#[export] Instance Write_Disk : Write Disk := {
  write b d :=
    if disk_room d <=? 0 then (Err disk_full, d) else
    let n := Z.min (zlen b) (Z.min (disk_room d) (disk_burst d)) in
    (Ok n, {| disk_data := disk_data d ++ ztake n b;
              disk_room := disk_room d - n; disk_burst := disk_burst d |});
  flush d := (Ok tt, d);
}.

#[export, refine] Instance WriteLaws_Disk : WriteLaws Disk := {
  contents := disk_data;
  wf_writer d := 0 < disk_burst d;
}.
Proof.
  - intros b d r w' Hw. cbn. destruct (Z.leb_spec (disk_room d) 0); intros [= <- <-]; [done|].
    cbn. pose proof (zlen_nonneg b). split_and!; [done|lia|lia|done].
  - intros w r w' Hw [= <- <-]. done.
Defined.
