(* ===== verification/Fs.v ===== *)
(** * Fs: files, paths and iterators

    The read-only file system the program is started in, the [std::path]
    operations the code uses, and the [Iterator] protocol: repeated calls of
    [next] until it answers [None]. *)
From S2P Require Export Write.

(** ** Files *)

Record fs_node := { node_data : bytes; node_open_error : option io_error }.

(** [fs_node_at] is the state of the disk; [mmap_map] is [Mmap::map] of the
    [memmap2] crate on a file with the given contents. *)
Class FileSystem := {
  fs_node_at : str -> option fs_node;
  mmap_map : bytes -> io_result bytes;
}.

(** What [memmap2] documents: the mapping shows the file's contents. *)
Class MmapLaws `{FileSystem} := mmap_faithful : forall b, mmap_map b = Ok b.

Section files.
  Context `{FileSystem}.

Definition file_not_found : io_error :=
  {| io_kind := NotFound; io_text := lit "No such file or directory (os error 2)" |}.

Definition invalid_utf8 : io_error :=
  {| io_kind := InvalidData; io_text := lit "stream did not contain valid UTF-8" |}.

  (** [File::open]; the open file is the bytes read through it. *)
Definition file_open (path : str) : io_result bytes :=
  match fs_node_at path with
  | None => Err file_not_found
  | Some n => match node_open_error n with Some e => Err e | None => Ok (node_data n) end
  end.

  (** [Path::exists]. *)
Definition path_exists (path : str) : bool :=
  match fs_node_at path with Some _ => true | None => false end.

  (** [fs::metadata(path)?.len()]. *)
Definition metadata_len (path : str) : io_result Z :=
  match fs_node_at path with None => Err file_not_found | Some n => Ok (zlen (node_data n)) end.

  (** [fs::read_to_string]. *)
Definition read_to_string (path : str) : io_result str :=
  b ← file_open path;
  match utf8_decode b with Some s => Ok s | None => Err invalid_utf8 end.
End files.

(** A file system given by its files, all readable. *)
Definition fs_of (files : list (str * bytes)) : FileSystem :=
  {| fs_node_at p :=
       match list_find (fun kv => fst kv = p) files with
       | Some (_, (_, b)) => Some {| node_data := b; node_open_error := None |}
       | None => None
       end;
     mmap_map b := Ok b |}.

(** ** Unix paths *)

(** [Path::join]: an absolute second path replaces the first. *)
Definition path_join (base file : str) : str :=
  if starts_with [c_slash] file then file
  else match base with
       | [] => file
       | _ => if ends_with [c_slash] base then base ++ file
              else base ++ [c_slash] ++ file
       end.

(** [Path::parent] of a path without a trailing slash or [.] component: the
    part before the last slash, the empty path if there is none, [None] for
    the root and the empty path. *)
Fixpoint drop_to_slash (rev_path : str) : option str :=
  match rev_path with
  | [] => None
  | c :: r => if c =? c_slash then Some r else drop_to_slash r
  end.

Definition path_parent (path : str) : option str :=
  if bool_decide (path = []) || bool_decide (path = [c_slash]) then None
  else match drop_to_slash (rev path) with
       | None => Some []
       | Some [] => Some [c_slash]
       | Some r => Some (rev r)
       end.

(** ** Iterators *)

Section iterators.
  Context {S E A : Type}.

  (** [iter.collect()]: [next] until [None]; [Diverge] when [fuel] calls were
      not enough. *)
Fixpoint drain (fuel : nat) (next : M S E (option A)) : M S E (list A) :=
  match fuel with
  | O => fun s => (Diverge, s)
  | Datatypes.S f =>
      x ← next;
      match x with
      | None => mret []
      | Some a => l ← drain f next; mret (a :: l)
      end
  end.

Definition drain_from (fuel : nat) (next : M S E (option A)) (s : S) : outcome E (list A) :=
  fst (drain fuel next s).

  (** The result of a drain, without its final state. *)
Lemma drain_from_S f next s :
  drain_from (Datatypes.S f) next s =
    match next s with
    | (Ok None, _) => Ok []
    | (Ok (Some a), s') => cons a <$> drain_from f next s'
    | (Err e, _) => Err e
    | (Panic, _) => Panic
    | (Diverge, _) => Diverge
    end.
Proof.
  unfold drain_from. cbn [drain]. unfold mbind, M_bind.
  destruct (next s) as [[[a|]|e| |] s']; try done.
  by destruct (drain f next s') as [[] ?].
Qed.

  (** More fuel does not change an answer. *)
Lemma drain_more_fuel next f1 f2 s r s' :
  (f1 <= f2)%nat -> drain f1 next s = (r, s') -> r <> Diverge ->
  drain f2 next s = (r, s').
Proof.
  revert f2 s r s'. induction f1 as [|f1 IH]; intros f2 s r s' Hf; cbn.
  - intros [= <- <-]. done.
  - destruct f2 as [|f2]; [lia|]. cbn. unfold mbind, M_bind.
    destruct (next s) as [[[a|]|e| |] s1]; [|intros; done..].
    destruct (drain f1 next s1) as [r1 s2] eqn:E1. intros H Hr.
    rewrite (IH f2 s1 r1 s2); [done|lia|done|].
    destruct r1; injection H as H1 H2; congruence.
Qed.
End iterators.
