(* ===== verification/Reader.v ===== *)
(** * Reader: [vmdk/reader.rs], chunked reading of a flat extent

    [VmdkReader], its [ChunkIterator] and its [IndexedChunkIterator]. *)
From S2P Require Export Fs.

Record VmdkReader := { vr_mmap : bytes; vr_size : Z }.

Definition VmdkReader_open `{FileSystem} (path : str) : Result VmdkReader :=
  file ← map_err (fun e => Error.io e path) (file_open path);
  let size := zlen file in
  if size =? 0 then
    mmap ← map_err (fun e => Error.io e path) (mmap_map file);
    Ok {| vr_mmap := mmap; vr_size := 0 |}
  else
    mmap ← map_err (fun e => Error.io e path) (mmap_map file);
    Ok {| vr_mmap := mmap; vr_size := size |}.

Definition VmdkReader_size (r : VmdkReader) : Z := vr_size r.
Definition VmdkReader_data (r : VmdkReader) : bytes := vr_mmap r.

(** ** Plain chunks *)

Record ChunkIterator := {
  ci_mmap : bytes;
  ci_file_size : Z;
  ci_chunk_size : Z;
  ci_current_offset : Z;
}.

Definition ChunkIterator_new (mmap : bytes) (file_size chunk_size : Z) : ChunkIterator :=
  {| ci_mmap := mmap; ci_file_size := file_size; ci_chunk_size := chunk_size;
     ci_current_offset := 0 |}.

Definition chunks (r : VmdkReader) (chunk_size : Z) : ChunkIterator :=
  ChunkIterator_new (vr_mmap r) (vr_size r) chunk_size.

Definition count_chunks {E} (it : ChunkIterator) : outcome E Z :=
  if ci_file_size it =? 0 then Ok 0 else
  full_chunks ← div_u64 (ci_file_size it) (ci_chunk_size it);
  remainder ← rem_u64 (ci_file_size it) (ci_chunk_size it);
  Ok (full_chunks + if 0 <? remainder then 1 else 0).

Definition ChunkIterator_next : M ChunkIterator Error (option bytes) :=
  it ← get;
  if ci_file_size it <=? ci_current_offset it then mret None else
  let remaining := ci_file_size it - ci_current_offset it in
  let chunk_len := Z.min remaining (ci_chunk_size it) in
  let start := ci_current_offset it in
  let end_ := start + chunk_len in
  chunk_data ← lift (read_slice start end_ (ci_mmap it));
  _ ← modify (fun it =>
        {| ci_mmap := ci_mmap it; ci_file_size := ci_file_size it;
           ci_chunk_size := ci_chunk_size it;
           ci_current_offset := ci_current_offset it + chunk_len |});
  mret (Some chunk_data).

(** ** Indexed chunks *)

Record IndexedChunk := { ic_index : Z; ic_data : bytes; ic_is_last : bool }.

Record IndexedChunkIterator := {
  ici_mmap : bytes;
  ici_file_size : Z;
  ici_chunk_size : Z;
  ici_current_offset : Z;
  ici_current_index : Z;
  ici_total_chunks : Z;
}.

Definition IndexedChunkIterator_new {E} (mmap : bytes) (file_size chunk_size : Z)
    : outcome E IndexedChunkIterator :=
  total_chunks ←
    (if file_size =? 0 then Ok 0 else
     full_chunks ← div_u64 file_size chunk_size;
     remainder ← rem_u64 file_size chunk_size;
     Ok (full_chunks + if 0 <? remainder then 1 else 0));
  Ok {| ici_mmap := mmap; ici_file_size := file_size; ici_chunk_size := chunk_size;
        ici_current_offset := 0; ici_current_index := 0;
        ici_total_chunks := total_chunks |}.

Definition indexed_chunks {E} (r : VmdkReader) (chunk_size : Z)
    : outcome E IndexedChunkIterator :=
  IndexedChunkIterator_new (vr_mmap r) (vr_size r) chunk_size.

Definition indexed_count_chunks (it : IndexedChunkIterator) : Z := ici_total_chunks it.

Definition IndexedChunkIterator_next `{BuildProfile}
    : M IndexedChunkIterator Error (option IndexedChunk) :=
  it ← get;
  if ici_file_size it <=? ici_current_offset it then mret None else
  let remaining := ici_file_size it - ici_current_offset it in
  let chunk_len := Z.min remaining (ici_chunk_size it) in
  let start := ici_current_offset it in
  let end_ := start + chunk_len in
  chunk_data ← lift (read_slice start end_ (ici_mmap it));
  let index := ici_current_index it in
  last_index ← lift (sub_u64 (ici_total_chunks it) 1);
  let is_last := ici_current_index it =? last_index in
  _ ← modify (fun it =>
        {| ici_mmap := ici_mmap it; ici_file_size := ici_file_size it;
           ici_chunk_size := ici_chunk_size it;
           ici_current_offset := ici_current_offset it + chunk_len;
           ici_current_index := ici_current_index it + 1;
           ici_total_chunks := ici_total_chunks it |});
  mret (Some {| ic_index := index; ic_data := chunk_data; ic_is_last := is_last |}).
