(* ===== verification/ReaderSpec.v ===== *)
(** * ReaderSpec: the chunk iterators of [vmdk/reader.rs]

    Draining either iterator cuts the file into [split_chunks]; the counts are
    the numbers of chunks; a zero chunk size never ends. *)
From S2P Require Export Reader.

(** What [open] establishes. *)
Definition reader_wf (r : VmdkReader) : Prop := vr_size r = zlen (vr_mmap r).

Lemma VmdkReader_open_spec `{MmapLaws} path :
  VmdkReader_open path =
    match file_open path with
    | Ok b => Ok {| vr_mmap := b; vr_size := zlen b |}
    | Err e => Err (Error.io e path)
    | Panic => Panic
    | Diverge => Diverge
    end.
Proof.
  unfold VmdkReader_open. destruct (file_open path) as [b|e| |]; try done. cbn.
  rewrite mmap_faithful. cbn. by destruct (Z.eqb_spec (zlen b) 0) as [->|].
Qed.

(** The iterator stands at byte [off] of [d]. *)
Definition ci_at (d : bytes) (cs off : Z) : ChunkIterator :=
  {| ci_mmap := d; ci_file_size := zlen d; ci_chunk_size := cs; ci_current_offset := off |}.

Lemma ChunkIterator_next_at d cs off :
  0 <= off -> 0 <= cs ->
  ChunkIterator_next (ci_at d cs off) =
    if zlen d <=? off then (Ok None, ci_at d cs off)
    else (Ok (Some (ztake cs (zdrop off d))),
          ci_at d cs (off + Z.min (zlen d - off) cs)).
Proof.
  intros Ho Hc. unfold ChunkIterator_next. rewrite (M_bind_step get _ _ (ci_at d cs off) _ eq_refl).
  cbn [ci_at ci_file_size ci_current_offset ci_chunk_size ci_mmap]. fold (ci_at d cs off).
  destruct (Z.leb_spec (zlen d) off); [done|].
  rewrite read_slice_ok by lia.
  rewrite (M_bind_step (lift _) _ _ _ _ eq_refl), (M_bind_step (modify _) _ _ tt _ eq_refl).
  unfold mret, M_ret. do 3 f_equal. unfold zslice.
  rewrite Z.add_simpl_l. destruct (Z.le_ge_cases cs (zlen d - off)).
  - by rewrite Z.min_r.
  - rewrite Z.min_l by done. by rewrite !ztake_all by (rewrite zlen_zdrop; lia).
Qed.

Lemma drain_chunks d cs fuel off :
  0 < cs -> 0 <= off -> zlen d - off <= Z.of_nat fuel ->
  drain_from (S fuel) ChunkIterator_next (ci_at d cs off) = Ok (split_chunks cs (zdrop off d)).
Proof.
  intros Hc. revert off. induction fuel as [|f IH]; intros off Ho Hf;
    rewrite drain_from_S, ChunkIterator_next_at by lia;
    destruct (Z.leb_spec (zlen d) off); try (by rewrite zdrop_all by lia); [lia|].
  rewrite IH by lia. rewrite (split_chunks_step cs Hc (zdrop off d)).
  - cbn. do 2 f_equal. rewrite zdrop_zdrop by lia.
    destruct (Z.le_ge_cases cs (zlen d - off)); [by rewrite Z.min_r|].
    rewrite Z.min_l by done. by rewrite !zdrop_all by lia.
  - intros E. apply (f_equal zlen) in E. rewrite zlen_zdrop in E. zlen_nils. lia.
Qed.

(** The state of the indexed iterator at chunk [i]. *)
Definition ici_at (d : bytes) (cs off i : Z) : IndexedChunkIterator :=
  {| ici_mmap := d; ici_file_size := zlen d; ici_chunk_size := cs;
     ici_current_offset := off; ici_current_index := i;
     ici_total_chunks := ceil_div (zlen d) cs |}.

Lemma count_expr {E} n cs :
  0 < cs ->
  (if n =? 0 then Ok 0 else
     full_chunks ← div_u64 n cs; remainder ← rem_u64 n cs;
     @Ok E Z (full_chunks + if 0 <? remainder then 1 else 0)) = Ok (ceil_div n cs).
Proof.
  intros Hc. destruct (Z.eqb_spec n 0) as [->|].
  - unfold ceil_div. by rewrite Z.div_0_l, Z.mod_0_l by lia.
  - by rewrite div_u64_ok, rem_u64_ok by lia.
Qed.

Section indexed.
  Context `{BuildProfile}.

Lemma IndexedChunkIterator_next_at d cs off i :
  0 <= off -> 0 < cs -> ceil_div (zlen d) cs < 2 ^ 64 ->
  IndexedChunkIterator_next (ici_at d cs off i) =
    if zlen d <=? off then (Ok None, ici_at d cs off i)
    else (Ok (Some {| ic_index := i; ic_data := ztake cs (zdrop off d);
                      ic_is_last := i =? ceil_div (zlen d) cs - 1 |}),
          ici_at d cs (off + Z.min (zlen d - off) cs) (i + 1)).
Proof.
  intros Ho Hc Hn. unfold IndexedChunkIterator_next.
  rewrite (M_bind_step get _ _ (ici_at d cs off i) _ eq_refl).
  cbn [ici_at ici_file_size ici_current_offset ici_chunk_size ici_mmap ici_current_index
       ici_total_chunks]. fold (ici_at d cs off i).
  destruct (Z.leb_spec (zlen d) off); [done|].
  pose proof (ceil_div_step (zlen d) cs ltac:(lia) ltac:(lia)).
  pose proof (ceil_div_nonneg (Z.max 0 (zlen d - cs)) cs ltac:(lia) ltac:(lia)).
  unfold sub_u64. rewrite read_slice_ok, checked_ok by (unfold is_u; lia).
  rewrite !(M_bind_step (lift _) _ _ _ _ eq_refl), (M_bind_step (modify _) _ _ tt _ eq_refl).
  unfold mret, M_ret. do 4 f_equal. unfold zslice.
  rewrite Z.add_simpl_l. destruct (Z.le_ge_cases cs (zlen d - off)).
  - by rewrite Z.min_r.
  - rewrite Z.min_l by done. by rewrite !ztake_all by (rewrite zlen_zdrop; lia).
Qed.

(** The chunks of [d] with their numbers from [i] and the mark of the last. *)
Definition number_chunks (i total : Z) (l : list bytes) : list IndexedChunk :=
  imap (fun j c => {| ic_index := i + Z.of_nat j; ic_data := c;
                      ic_is_last := i + Z.of_nat j =? total - 1 |}) l.

Lemma drain_indexed_chunks d cs fuel off i :
  0 < cs -> 0 <= off -> zlen d - off <= Z.of_nat fuel -> ceil_div (zlen d) cs < 2 ^ 64 ->
  drain_from (S fuel) IndexedChunkIterator_next (ici_at d cs off i)
    = Ok (number_chunks i (ceil_div (zlen d) cs) (split_chunks cs (zdrop off d))).
Proof.
  intros Hc. revert off i. induction fuel as [|f IH]; intros off i Ho Hf Hn;
    rewrite drain_from_S, IndexedChunkIterator_next_at by lia;
    destruct (Z.leb_spec (zlen d) off); try (by rewrite zdrop_all by lia); [lia|].
  rewrite IH by lia. rewrite (split_chunks_step cs Hc (zdrop off d)).
  - cbn [fmap outcome_fmap]. f_equal. unfold number_chunks. rewrite imap_cons. rewrite Z.add_0_r. f_equal.
    rewrite zdrop_zdrop by lia.
    replace (zdrop (off + Z.min (zlen d - off) cs) d) with (zdrop (off + cs) d).
    + apply imap_ext. intros j c _. cbn. f_equal; [lia|]. by replace (i + 1 + Z.of_nat j) with (i + Z.of_nat (S j)) by lia.
    + destruct (Z.le_ge_cases cs (zlen d - off)); [by rewrite Z.min_r|].
      rewrite Z.min_l by done. by rewrite !zdrop_all by lia.
  - intros E. apply (f_equal zlen) in E. rewrite zlen_zdrop in E. zlen_nils. lia.
Qed.
End indexed.

(** ** The properties *)

(** C33: reading a flat extent in chunks of any positive size yields the file:
    the iterator of an opened reader ends, never panics, and its chunks are
    the file cut into pieces of that size, none empty, only the last one
    short, as many as [count_chunks] says. *)
Theorem reader_chunks_cut_file `{MmapLaws} path r cs fuel :
  VmdkReader_open path = Ok r -> 0 < cs -> vr_size r <= Z.of_nat fuel ->
  exists data l, file_open path = Ok data /\
    drain_from (S fuel) ChunkIterator_next (chunks r cs) = Ok l /\
    concat l = data /\ count_chunks (E:=Error) (chunks r cs) = Ok (zlen l) /\
    (forall i c, l !! i = Some c ->
       0 < zlen c <= cs /\ (Z.of_nat i < zlen l - 1 -> zlen c = cs)).
Proof.
  rewrite VmdkReader_open_spec. destruct (file_open path) as [b|e| |]; try done.
  intros [= <-] Hc Hf. exists b, (split_chunks cs b). unfold chunks, ChunkIterator_new, vr_mmap, vr_size in *.
  split; [done|]. fold (ci_at b cs 0). rewrite drain_chunks by lia.
  rewrite zdrop_nonpos by lia. split_and!.
  - done.
  - by apply split_chunks_concat.
  - unfold count_chunks. cbn [ci_at ci_file_size ci_chunk_size].
    rewrite count_expr by lia. by rewrite split_chunks_length by lia.
  - intros i c. by apply split_chunks_sizes.
Qed.

Lemma reader_chunks_cut_file_witness :
  let fs := fs_of [(lit "/d", [1; 2; 3; 4; 5])] in
  exists data l, file_open (H:=fs) (lit "/d") = Ok data /\
    drain_from 6 ChunkIterator_next (chunks {| vr_mmap := [1; 2; 3; 4; 5]; vr_size := 5 |} 2) = Ok l /\
    concat l = data /\
    count_chunks (E:=Error) (chunks {| vr_mmap := [1; 2; 3; 4; 5]; vr_size := 5 |} 2) = Ok (zlen l) /\
    (forall i c, l !! i = Some c ->
       0 < zlen c <= 2 /\ (Z.of_nat i < zlen l - 1 -> zlen c = 2)).
Proof.
  set (fs := fs_of [(lit "/d", [1; 2; 3; 4; 5])]).
  assert (laws : @MmapLaws fs) by (intros b; reflexivity).
  apply (reader_chunks_cut_file (H0:=laws) (lit "/d")); [vm_compute; reflexivity|lia|cbn; lia].
Defined.

(** C34: the indexed iterator yields the same pieces, numbered from zero in
    order, with the last mark on exactly the last one. *)
Theorem indexed_chunks_number_chunks `{BuildProfile} (r : VmdkReader) cs fuel :
  reader_wf r -> 0 < cs -> vr_size r <= Z.of_nat fuel < 2 ^ 64 ->
  exists it l, indexed_chunks (E:=Error) r cs = Ok it /\
    drain_from (S fuel) IndexedChunkIterator_next it = Ok l /\
    indexed_count_chunks it = zlen l /\
    ic_data <$> l = split_chunks cs (vr_mmap r) /\
    (forall i c, l !! i = Some c ->
       ic_index c = Z.of_nat i /\ ic_is_last c = (Z.of_nat i =? zlen l - 1)).
Proof.
  intros Hw Hc [Hf Hb]. unfold reader_wf in Hw. destruct r as [d n]. cbn [vr_size vr_mmap] in *. subst n.
  unfold indexed_chunks, IndexedChunkIterator_new. cbn [vr_size vr_mmap].
  rewrite count_expr by lia. cbn [mbind outcome_bind].
  fold (ici_at d cs 0 0). eexists _, _. split; [reflexivity|].
  assert (ceil_div (zlen d) cs < 2 ^ 64).
  { unfold ceil_div. zlen_pos. pose proof (Z.div_mod (zlen d) cs ltac:(lia)).
    pose proof (Z.mod_pos_bound (zlen d) cs Hc). pose proof (Z.div_pos (zlen d) cs).
    zcase; nia. }
  rewrite drain_indexed_chunks by lia. rewrite zdrop_nonpos by lia.
  assert (Hl : zlen (number_chunks 0 (ceil_div (zlen d) cs) (split_chunks cs d)) = ceil_div (zlen d) cs).
  { unfold number_chunks, zlen at 1. rewrite length_imap.
    fold (zlen (split_chunks cs d)). by rewrite split_chunks_length. }
  split_and!; [done|by rewrite Hl| |].
  - unfold number_chunks. rewrite fmap_imap. apply list_eq. intros i.
    rewrite list_lookup_imap. by destruct (split_chunks cs d !! i).
  - intros i c. rewrite Hl. unfold number_chunks. rewrite list_lookup_imap.
    destruct (split_chunks cs d !! i); [|done]. cbn. intros [= <-]. done.
Qed.

Lemma indexed_chunks_number_chunks_witness :
  let r := {| vr_mmap := [1; 2; 3; 4; 5]; vr_size := 5 |} in
  exists it l, indexed_chunks (E:=Error) r 2 = Ok it /\
    drain_from 6 (IndexedChunkIterator_next (H:=debug)) it = Ok l /\
    indexed_count_chunks it = zlen l /\
    ic_data <$> l = split_chunks 2 (vr_mmap r) /\
    (forall i c, l !! i = Some c ->
       ic_index c = Z.of_nat i /\ ic_is_last c = (Z.of_nat i =? zlen l - 1)).
Proof.
  apply (indexed_chunks_number_chunks (H:=debug) {| vr_mmap := [1; 2; 3; 4; 5]; vr_size := 5 |} 2 5);
    [reflexivity|lia|cbn; lia].
Defined.

(** With a chunk size of zero (which the command line accepts) the plain
    iterator over a file that is not empty yields empty chunks for ever, and
    counting the chunks panics. *)
Theorem zero_chunk_size_diverges (r : VmdkReader) :
  reader_wf r -> vr_mmap r <> [] ->
  (forall fuel, drain_from fuel ChunkIterator_next (chunks r 0) = Diverge) /\
  count_chunks (E:=Error) (chunks r 0) = Panic /\
  indexed_chunks (E:=Error) r 0 = Panic.
Proof.
  unfold reader_wf. destruct r as [d n]. cbn. intros -> Hd.
  assert (0 < zlen d) by (destruct d; [done|rewrite zlen_cons; zlen_pos; lia]).
  split_and!.
  - unfold chunks, ChunkIterator_new. cbn [vr_size vr_mmap]. fold (ci_at d 0 0).
    intros fuel. induction fuel as [|f IH]; [done|].
    rewrite drain_from_S, ChunkIterator_next_at by lia.
    destruct (Z.leb_spec (zlen d) 0); [lia|]. rewrite Z.min_r by lia.
    rewrite Z.add_0_r. by rewrite IH.
  - unfold count_chunks. cbn. by destruct (Z.eqb_spec (zlen d) 0); [lia|].
  - unfold indexed_chunks, IndexedChunkIterator_new. cbn.
    by destruct (Z.eqb_spec (zlen d) 0); [lia|].
Qed.

Lemma zero_chunk_size_diverges_witness :
  let r := {| vr_mmap := [1]; vr_size := 1 |} in
  (forall fuel, drain_from fuel ChunkIterator_next (chunks r 0) = Diverge) /\
  count_chunks (E:=Error) (chunks r 0) = Panic /\
  indexed_chunks (E:=Error) r 0 = Panic.
Proof. by apply (zero_chunk_size_diverges {| vr_mmap := [1]; vr_size := 1 |}). Defined.
