(* ===== verification/Descriptor.v ===== *)
(** * Descriptor: [vmdk/descriptor.rs], the text descriptor of a VMDK

    [parse_descriptor] and what it calls.  The local variables of the parsing
    loop are the fields of the record it returns. *)
From S2P Require Export Machine.

Inductive ExtentType := Flat | Sparse | Zero | Vmfs | VmfsSparse | VmfsRdm | VmfsRaw.

#[export] Instance ExtentType_eq_dec : EqDecision ExtentType.
Proof. solve_decision. Defined.

Definition ExtentType_from_str `{UnicodeTables} (s : str) : Result ExtentType :=
  let u := to_uppercase s in
  if str_eqb u (lit "FLAT") then Ok Flat
  else if str_eqb u (lit "SPARSE") then Ok Sparse
  else if str_eqb u (lit "ZERO") then Ok Zero
  else if str_eqb u (lit "VMFS") then Ok Vmfs
  else if str_eqb u (lit "VMFSSPARSE") then Ok VmfsSparse
  else if str_eqb u (lit "VMFSRDM") then Ok VmfsRdm
  else if str_eqb u (lit "VMFSRAW") then Ok VmfsRaw
  else Err (Error.vmdk (fmt (lit "unknown extent type: {}") [s])).

Record Extent := {
  ex_access : str;
  ex_size_sectors : Z;
  ex_extent_type : ExtentType;
  ex_filename : str;
  ex_offset : Z;
}.

Record VmdkDescriptor := {
  vd_version : Z;
  vd_cid : Z;
  vd_parent_cid : Z;
  vd_create_type : str;
  vd_extents : list Extent;
  vd_cylinders : Z;
  vd_heads : Z;
  vd_sectors : Z;
  vd_hw_version : str;
  vd_adapter_type : str;
}.

(** The [u64] sum of the iterator and the product panic or wrap on overflow. *)
Fixpoint sum_u64 `{BuildProfile} {E} (acc : Z) (l : list Z) : outcome E Z :=
  match l with
  | [] => Ok acc
  | x :: l' => acc' ← add_u64 acc x; sum_u64 acc' l'
  end.

Definition disk_size_sectors `{BuildProfile} {E} (d : VmdkDescriptor) : outcome E Z :=
  sum_u64 0 (map ex_size_sectors (vd_extents d)).

Definition disk_size_bytes `{BuildProfile} {E} (d : VmdkDescriptor) : outcome E Z :=
  n ← disk_size_sectors d; mul_u64 n 512.

(** ** Lines *)

Definition parse_key_value (line : str) : option (str * str) :=
  eq_pos ← find_char c_eq line;
  let key := trim (ztake eq_pos line) in
  let value := trim (zdrop (eq_pos + 1) line) in
  Some (key, unquote value).

Definition parse_quoted_filename_and_offset (s : str) : Result (str * option str) :=
  let s := trim s in
  if negb (starts_with [c_dquote] s) then
    Err (Error.vmdk (fmt (lit "expected quoted filename, got: {}") [s]))
  else
  end_quote ← ok_or (find_char c_dquote (zdrop 1 s))
                (Error.vmdk (fmt (lit "unclosed quote in: {}") [s]));
  let end_quote := end_quote + 1 in
  let filename := zslice 1 (end_quote - 1) s in
  let offset_str := trim (zdrop (end_quote + 1) s) in
  let offset := if bool_decide (offset_str = []) then None else Some offset_str in
  Ok (filename, offset).

Definition parse_extent_line `{UnicodeTables} (line : str) : Result Extent :=
  match split_whitespace line with
  | p0 :: p1 :: p2 :: p3 :: rest =>
      let access := p0 in
      size_sectors ← ok_or (parse_u64 p1) (Error.vmdk (fmt (lit "invalid extent size: {}") [p1]));
      extent_type ← ExtentType_from_str p2;
      let rest_of_line := join [c_space] (p3 :: rest) in
      '(filename, offset_str) ← parse_quoted_filename_and_offset rest_of_line;
      offset ← match offset_str with
               | Some s => ok_or (parse_u64 s) (Error.vmdk (fmt (lit "invalid extent offset: {}") [s]))
               | None => Ok 0
               end;
      Ok {| ex_access := access; ex_size_sectors := size_sectors; ex_extent_type := extent_type;
            ex_filename := filename; ex_offset := offset |}
  | _ => Err (Error.vmdk (fmt (lit "invalid extent line: {}") [line]))
  end.

(** ** The loop *)

Definition initial_descriptor : VmdkDescriptor :=
  {| vd_version := 1; vd_cid := 0; vd_parent_cid := 0xffffffff; vd_create_type := [];
     vd_extents := []; vd_cylinders := 0; vd_heads := 0; vd_sectors := 0;
     vd_hw_version := []; vd_adapter_type := [] |}.

Section setters.
  Implicit Type d : VmdkDescriptor.

Definition set_version v d := Build_VmdkDescriptor v (vd_cid d) (vd_parent_cid d)
  (vd_create_type d) (vd_extents d) (vd_cylinders d) (vd_heads d) (vd_sectors d)
  (vd_hw_version d) (vd_adapter_type d).
Definition set_cid v d := Build_VmdkDescriptor (vd_version d) v (vd_parent_cid d)
  (vd_create_type d) (vd_extents d) (vd_cylinders d) (vd_heads d) (vd_sectors d)
  (vd_hw_version d) (vd_adapter_type d).
Definition set_parent_cid v d := Build_VmdkDescriptor (vd_version d) (vd_cid d) v
  (vd_create_type d) (vd_extents d) (vd_cylinders d) (vd_heads d) (vd_sectors d)
  (vd_hw_version d) (vd_adapter_type d).
Definition set_create_type v d := Build_VmdkDescriptor (vd_version d) (vd_cid d) (vd_parent_cid d)
  v (vd_extents d) (vd_cylinders d) (vd_heads d) (vd_sectors d)
  (vd_hw_version d) (vd_adapter_type d).
Definition push_extent e d := Build_VmdkDescriptor (vd_version d) (vd_cid d) (vd_parent_cid d)
  (vd_create_type d) (vd_extents d ++ [e]) (vd_cylinders d) (vd_heads d) (vd_sectors d)
  (vd_hw_version d) (vd_adapter_type d).
Definition set_cylinders v d := Build_VmdkDescriptor (vd_version d) (vd_cid d) (vd_parent_cid d)
  (vd_create_type d) (vd_extents d) v (vd_heads d) (vd_sectors d)
  (vd_hw_version d) (vd_adapter_type d).
Definition set_heads v d := Build_VmdkDescriptor (vd_version d) (vd_cid d) (vd_parent_cid d)
  (vd_create_type d) (vd_extents d) (vd_cylinders d) v (vd_sectors d)
  (vd_hw_version d) (vd_adapter_type d).
Definition set_sectors v d := Build_VmdkDescriptor (vd_version d) (vd_cid d) (vd_parent_cid d)
  (vd_create_type d) (vd_extents d) (vd_cylinders d) (vd_heads d) v
  (vd_hw_version d) (vd_adapter_type d).
Definition set_hw_version v d := Build_VmdkDescriptor (vd_version d) (vd_cid d) (vd_parent_cid d)
  (vd_create_type d) (vd_extents d) (vd_cylinders d) (vd_heads d) (vd_sectors d)
  v (vd_adapter_type d).
Definition set_adapter_type v d := Build_VmdkDescriptor (vd_version d) (vd_cid d) (vd_parent_cid d)
  (vd_create_type d) (vd_extents d) (vd_cylinders d) (vd_heads d) (vd_sectors d)
  (vd_hw_version d) v.
End setters.

(** The [match] on the key. *)
Definition apply_key_value (key value : str) (d : VmdkDescriptor) : Result VmdkDescriptor :=
  let invalid (what : string) :=
    Error.vmdk (fmt (lit "invalid {}: {}") [lit what; value]) in
  if str_eqb key (lit "version") then
    v ← ok_or (parse_u32 value) (invalid "version"); Ok (set_version v d)
  else if str_eqb key (lit "CID") then
    v ← ok_or (parse_uint 32 16 value) (invalid "CID"); Ok (set_cid v d)
  else if str_eqb key (lit "parentCID") then
    v ← ok_or (parse_uint 32 16 value) (invalid "parentCID"); Ok (set_parent_cid v d)
  else if str_eqb key (lit "createType") then Ok (set_create_type value d)
  else if str_eqb key (lit "ddb.virtualHWVersion") then Ok (set_hw_version value d)
  else if str_eqb key (lit "ddb.geometry.cylinders") then
    v ← ok_or (parse_u64 value) (invalid "cylinders"); Ok (set_cylinders v d)
  else if str_eqb key (lit "ddb.geometry.heads") then
    v ← ok_or (parse_u32 value) (invalid "heads"); Ok (set_heads v d)
  else if str_eqb key (lit "ddb.geometry.sectors") then
    v ← ok_or (parse_u32 value) (invalid "sectors"); Ok (set_sectors v d)
  else if str_eqb key (lit "ddb.adapterType") then Ok (set_adapter_type value d)
  else Ok d.

(** One round of the loop over the lines. *)
Definition descriptor_line `{UnicodeTables} (d : VmdkDescriptor) (line : str) : Result VmdkDescriptor :=
  let line := trim line in
  if bool_decide (line = []) || starts_with [c_hash] line then Ok d
  else if starts_with (lit "RW ") line || starts_with (lit "RDONLY ") line
          || starts_with (lit "NOACCESS ") line then
    extent ← parse_extent_line line; Ok (push_extent extent d)
  else
  match parse_key_value line with
  | Some (key, value) => apply_key_value key value d
  | None => Ok d
  end.

Fixpoint descriptor_lines `{UnicodeTables} (d : VmdkDescriptor) (ls : list str) : Result VmdkDescriptor :=
  match ls with
  | [] => Ok d
  | line :: ls' => d' ← descriptor_line d line; descriptor_lines d' ls'
  end.

Definition parse_descriptor `{UnicodeTables} (content : str) : Result VmdkDescriptor :=
  descriptor_lines initial_descriptor (lines content).
