(* ===== verification/DescriptorSpec.v ===== *)
(** * DescriptorSpec: the descriptor format

    A printer for descriptors in the form VMware writes them, that
    [parse_descriptor] inverts; what an extent line means, with the white
    space of file names; the size of a disk; that no text makes the parser
    panic. *)
From S2P Require Export Descriptor.

(** ** Extent lines *)

(** Each run of white space becomes one blank. *)
Fixpoint squeeze_from (pending : bool) (s : str) : str :=
  match s with
  | [] => if pending then [c_space] else []
  | c :: s' =>
      if is_whitespace c then squeeze_from true s'
      else (if pending then [c_space] else []) ++ c :: squeeze_from false s'
  end.

Definition squeeze (s : str) : str := squeeze_from false s.

Lemma collapse_squeeze p f c w :
  is_whitespace c = false ->
  collapse_from p (f ++ c :: w) = squeeze_from p f ++ c :: collapse_from false w.
Proof.
  intros Hc. revert p. induction f as [|d f IH]; intros p; cbn [app collapse_from squeeze_from].
  - by rewrite Hc.
  - destruct (is_whitespace d); rewrite IH; [done|]. by rewrite <- app_assoc.
Qed.

Lemma collapse_word p w :
  word w -> collapse_from p w = (if p then [c_space] else []) ++ w.
Proof.
  intros [Hne Hw]. destruct w as [|c w]; [done|]. cbn in Hw |- *.
  apply andb_true_iff in Hw as [Hc Hw]. apply negb_true_iff in Hc. rewrite Hc. do 2 f_equal.
  clear Hne Hc. induction w as [|d w IH]; [done|]. cbn in Hw |- *.
  apply andb_true_iff in Hw as [Hd Hw]. apply negb_true_iff in Hd. rewrite Hd.
  cbn. by rewrite IH.
Qed.

Lemma squeeze_elem c p f : c ∉ f -> c <> c_space -> c ∉ squeeze_from p f.
Proof.
  intros Hf Hc. revert p. induction f as [|d f IH]; intros p; cbn.
  - destruct p; set_solver.
  - destruct (is_whitespace d); [apply IH; set_solver|].
    assert (c ∉ squeeze_from false f) by (apply IH; set_solver). destruct p; set_solver.
Qed.

Definition extent_type_name (t : ExtentType) : str :=
  match t with
  | Flat => lit "FLAT" | Sparse => lit "SPARSE" | Zero => lit "ZERO" | Vmfs => lit "VMFS"
  | VmfsSparse => lit "VMFSSPARSE" | VmfsRdm => lit "VMFSRDM" | VmfsRaw => lit "VMFSRAW"
  end.

Definition print_extent (e : Extent) : str :=
  ex_access e ++ c_space :: show_dec (ex_size_sectors e) ++ c_space ::
  extent_type_name (ex_extent_type e) ++ c_space ::
  c_dquote :: ex_filename e ++ c_dquote :: c_space :: show_dec (ex_offset e).

Record extent_ok (e : Extent) : Prop := {
  eo_access : word (ex_access e);
  eo_size : 0 <= ex_size_sectors e < 2 ^ 64;
  eo_offset : 0 <= ex_offset e < 2 ^ 64;
  eo_filename : c_dquote ∉ ex_filename e;
}.

Lemma word_tidy w : word w -> tidy w.
Proof.
  intros [Hne Hw]. assert (Hall : forall c, c ∈ w -> is_whitespace c = false).
  { intros c Hc. rewrite forallb_forall in Hw. apply list_elem_of_In in Hc.
    specialize (Hw c Hc). by apply negb_true_iff in Hw. }
  split.
  - destruct w; [done|]. apply Hall. set_solver.
  - destruct (rev w) as [|c r] eqn:E; [done|]. apply Hall, list_elem_of_In.
    apply in_rev. rewrite E. by left.
Qed.

(** A text in front of a tidy one, itself starting with something visible. *)
Lemma tidy_app c p w : is_whitespace c = false -> word w -> tidy (c :: p ++ w).
Proof.
  intros Hc Hw. split; [done|]. rewrite app_comm_cons, rev_app_distr.
  destruct (word_tidy _ Hw) as [_ Hl]. destruct Hw as [Hne _].
  destruct (rev w) as [|d r] eqn:E; [|done].
  apply (f_equal (@rev Z)) in E. by rewrite rev_involutive in E.
Qed.

Lemma show_dec_word n : 0 <= n -> word (show_dec n).
Proof. intros. by apply show_radix_word. Qed.

Lemma quoted_filename_parses f w :
  c_dquote ∉ f -> word w ->
  parse_quoted_filename_and_offset (c_dquote :: f ++ c_dquote :: c_space :: w) = Ok (f, Some w).
Proof.
  intros Hf Hw. unfold parse_quoted_filename_and_offset.
  set (s := c_dquote :: f ++ c_dquote :: c_space :: w).
  assert (Hs : trim s = s).
  { apply trim_tidy. subst s.
    replace (f ++ c_dquote :: c_space :: w) with ((f ++ [c_dquote; c_space]) ++ w)
      by (by rewrite <- app_assoc). by apply tidy_app. }
  rewrite Hs. change (starts_with [c_dquote] s) with true. cbn [negb].
  change (zdrop 1 s) with (f ++ c_dquote :: c_space :: w). rewrite find_char_app by done.
  cbn [ok_or]. rewrite bind_ret_Ok. cbv zeta. zlen_pos.
  assert (H1 : zslice 1 (zlen f + 1 - 1) s = f).
  { subst s. change (c_dquote :: f ++ c_dquote :: c_space :: w)
      with ([c_dquote] ++ f ++ (c_dquote :: c_space :: w)). apply zslice_mid; [done|lia]. }
  assert (H2 : zdrop (zlen f + 1 + 1) s = c_space :: w).
  { subst s. change (c_dquote :: f ++ c_dquote :: c_space :: w)
      with ([c_dquote] ++ f ++ [c_dquote] ++ (c_space :: w)).
    rewrite zdrop_app_ge by (change (zlen [c_dquote]) with 1; lia).
    change (zlen [c_dquote]) with 1. rewrite zdrop_app_ge by lia.
    replace (zlen f + 1 + 1 - 1 - zlen f) with 1 by lia. reflexivity. }
  rewrite H1, H2, trim_space, (trim_tidy w) by (by apply word_tidy).
  rewrite bool_decide_false by apply Hw. reflexivity.
Qed.

(** What an extent line means, file names with white space included. *)
Lemma print_extent_parses `{UnicodeTables} e :
  extent_ok e ->
  parse_extent_line (print_extent e) =
    Ok {| ex_access := ex_access e; ex_size_sectors := ex_size_sectors e;
          ex_extent_type := ex_extent_type e; ex_filename := squeeze (ex_filename e);
          ex_offset := ex_offset e |}.
Proof.
  intros [Ha Hs Ho Hf]. unfold parse_extent_line, print_extent.
  pose proof (show_dec_word (ex_size_sectors e) ltac:(lia)) as Hws.
  pose proof (show_dec_word (ex_offset e) ltac:(lia)) as Hwo.
  rewrite split_whitespace_word by done. rewrite split_whitespace_word by done.
  rewrite split_whitespace_word by (by destruct (ex_extent_type e)).
  pose proof (join_split_whitespace (c_dquote :: ex_filename e ++ c_dquote :: c_space :: show_dec (ex_offset e))) as Hj.
  unfold collapse in Hj. cbn [trim_start collapse_from] in Hj.
  change (is_whitespace c_dquote) with false in Hj. cbn iota in Hj.
  cbn [collapse_from] in Hj. change (is_whitespace c_dquote) with false in Hj. cbn iota in Hj.
  rewrite collapse_squeeze in Hj by done. cbn [collapse_from] in Hj.
  change (is_whitespace c_space) with true in Hj. cbn iota in Hj.
  rewrite (collapse_word true _ Hwo) in Hj.
  destruct (split_whitespace (c_dquote :: _)) as [|p3 rest]; [done|].
  rewrite parse_u64_show by done. cbn [ok_or]. rewrite bind_ret_Ok.
  assert (ExtentType_from_str (extent_type_name (ex_extent_type e)) = Ok (ex_extent_type e)) as ->
    by (by destruct (ex_extent_type e)).
  rewrite bind_ret_Ok, Hj. cbn [app].
  rewrite quoted_filename_parses by (done || by apply squeeze_elem).
  rewrite bind_ret_Ok, parse_u64_show by done. reflexivity.
Qed.

(** ** Key lines *)

Definition key_line (key value : str) : str := key ++ c_eq :: value.
Definition quoted (v : str) : str := c_dquote :: v ++ [c_dquote].

Lemma parse_key_line key value :
  tidy key -> c_eq ∉ key -> tidy value ->
  parse_key_value (key_line key value) = Some (key, unquote value).
Proof.
  intros Hk He Hv. unfold parse_key_value, key_line. rewrite find_char_app by done.
  cbn [mbind option_bind]. zlen_pos.
  rewrite ztake_app_le, ztake_all by lia. rewrite zdrop_app_ge by lia.
  replace (zlen key + 1 - zlen key) with 1 by lia.
  change (zdrop 1 (c_eq :: value)) with value. by rewrite !trim_tidy.
Qed.

Lemma unquote_word w : word w -> c_dquote ∉ w -> unquote w = w.
Proof.
  intros [Hne _] Hq. unfold unquote. destruct (starts_with [c_dquote] w) eqn:E; [|done].
  apply starts_with_spec in E as [q ->]. set_solver.
Qed.

Lemma show_radix_no_quote radix n : 2 <= radix <= 36 -> 0 <= n -> c_dquote ∉ show_radix radix n.
Proof.
  intros Hr Hn. unfold show_radix. generalize (Z.to_nat (Z.log2 n + 1)). intros fuel.
  revert n Hn. induction fuel as [|f IH]; intros n Hn; cbn [show_fuel]; [set_solver|].
  assert (Hd : forall d, 0 <= d -> digit_char d <> c_dquote) by (intros; unfold digit_char; zcase; lia).
  pose proof (Z.mod_pos_bound n radix ltac:(lia)). zcase.
  - specialize (Hd n Hn). set_solver.
  - specialize (Hd (n mod radix) ltac:(lia)). specialize (IH (n / radix) ltac:(apply Z.div_pos; lia)).
    set_solver.
Qed.

(** Lower-case hexadecimal, padded to eight digits as VMware writes it. *)
Definition show_hex8 (n : Z) : str := pad_zero 8 (show_radix 16 n).

Lemma pad_zero_word w s : word s -> word (pad_zero w s).
Proof.
  intros [Hne Hw]. unfold pad_zero, zrep. split; [by destruct (Z.to_nat _)|].
  rewrite forallb_app, Hw, andb_true_r. by induction (Z.to_nat (w - zlen s)).
Qed.

Lemma pad_zero_no_quote w s : c_dquote ∉ s -> c_dquote ∉ pad_zero w s.
Proof.
  intros Hs. unfold pad_zero, zrep. rewrite elem_of_app. intros [H|H]; [|done].
  apply elem_of_replicate in H. lia.
Qed.

Lemma word_no_nl w : word w -> c_nl ∉ w.
Proof.
  intros [_ Hw] Hn. rewrite forallb_forall in Hw. apply list_elem_of_In in Hn.
  by specialize (Hw _ Hn).
Qed.

(** ** Descriptors *)

Definition print_descriptor (d : VmdkDescriptor) : str :=
  unlines (
    [lit "# Disk DescriptorFile";
     key_line (lit "version") (show_dec (vd_version d));
     key_line (lit "CID") (show_hex8 (vd_cid d));
     key_line (lit "parentCID") (show_hex8 (vd_parent_cid d));
     key_line (lit "createType") (quoted (vd_create_type d));
     lit "# Extent description"]
    ++ map print_extent (vd_extents d)
    ++ [lit "# The Disk Data Base";
        key_line (lit "ddb.virtualHWVersion") (quoted (vd_hw_version d));
        key_line (lit "ddb.geometry.cylinders") (show_dec (vd_cylinders d));
        key_line (lit "ddb.geometry.heads") (show_dec (vd_heads d));
        key_line (lit "ddb.geometry.sectors") (show_dec (vd_sectors d));
        key_line (lit "ddb.adapterType") (quoted (vd_adapter_type d))]).

Definition access_mode (a : str) : Prop :=
  a = lit "RW" \/ a = lit "RDONLY" \/ a = lit "NOACCESS".

(** A descriptor the format can express: numbers in range, texts on one line,
    file names without quotes. *)
Record descriptor_ok (d : VmdkDescriptor) : Prop := {
  do_version : 0 <= vd_version d < 2 ^ 32;
  do_cid : 0 <= vd_cid d < 2 ^ 32;
  do_parent : 0 <= vd_parent_cid d < 2 ^ 32;
  do_cylinders : 0 <= vd_cylinders d < 2 ^ 64;
  do_heads : 0 <= vd_heads d < 2 ^ 32;
  do_sectors : 0 <= vd_sectors d < 2 ^ 32;
  do_type : c_nl ∉ vd_create_type d;
  do_hw : c_nl ∉ vd_hw_version d;
  do_adapter : c_nl ∉ vd_adapter_type d;
  do_extents : Forall (fun e => extent_ok e /\ access_mode (ex_access e) /\ c_nl ∉ ex_filename e) (vd_extents d);
}.

(** What is left of an extent, and of a descriptor: the file names with single
    blanks for their runs of white space. *)
Definition squeeze_extent (e : Extent) : Extent :=
  {| ex_access := ex_access e; ex_size_sectors := ex_size_sectors e; ex_extent_type := ex_extent_type e;
     ex_filename := squeeze (ex_filename e); ex_offset := ex_offset e |}.

Definition squeeze_names (d : VmdkDescriptor) : VmdkDescriptor :=
  Build_VmdkDescriptor (vd_version d) (vd_cid d) (vd_parent_cid d) (vd_create_type d)
    (map squeeze_extent (vd_extents d)) (vd_cylinders d) (vd_heads d) (vd_sectors d) (vd_hw_version d)
    (vd_adapter_type d).

Lemma squeeze_names_id d :
  squeeze_names d = d <-> Forall (fun e => squeeze (ex_filename e) = ex_filename e) (vd_extents d).
Proof.
  destruct d as [v ci pc ct es cy h sc hw ad]. cbn. split.
  - intros [= E]. induction es as [|e es IH]; [constructor|]. injection E as He Hes.
    constructor; [by apply (f_equal ex_filename) in He|by apply IH].
  - intros Hs. unfold squeeze_names. cbn. f_equal. induction Hs as [|e es He _ IH]; [done|]. cbn. rewrite IH. f_equal.
    unfold squeeze_extent. rewrite He. by destruct e.
Qed.

Lemma tidy_end p w : p <> [] -> is_whitespace (default 0 (head p)) = false -> word w -> tidy (p ++ w).
Proof. destruct p as [|c p]; [done|]. intros _ Hc Hw. by apply tidy_app. Qed.

Lemma key_line_plain key value :
  key <> [] -> tidy key -> c_nl ∉ key -> word value -> plain_line (key_line key value).
Proof.
  intros Hne [Hh _] Hn Hw. pose proof (word_no_nl _ Hw). split; [set_solver|].
  destruct key as [|c key]; [done|]. unfold key_line.
  replace ((c :: key) ++ c_eq :: value) with (c :: (key ++ [c_eq]) ++ value)
    by (by cbn; rewrite <- app_assoc). by apply tidy_app.
Qed.

Lemma quoted_plain key value :
  key <> [] -> tidy key -> c_nl ∉ key -> c_nl ∉ value -> plain_line (key_line key (quoted value)).
Proof.
  intros Hne [Hh _] Hn Hv. split; [unfold key_line, quoted; set_solver|].
  destruct key as [|c key]; [done|]. unfold key_line, quoted.
  replace ((c :: key) ++ c_eq :: c_dquote :: value ++ [c_dquote])
    with (c :: (key ++ c_eq :: c_dquote :: value) ++ [c_dquote])
    by (by cbn; rewrite <- app_assoc). by apply tidy_app.
Qed.

Lemma print_extent_plain e :
  extent_ok e -> access_mode (ex_access e) -> c_nl ∉ ex_filename e -> plain_line (print_extent e).
Proof.
  intros [Ha Hs Ho Hf] Hm Hn. unfold print_extent.
  pose proof (show_dec_word (ex_size_sectors e) ltac:(lia)) as Hws.
  pose proof (show_dec_word (ex_offset e) ltac:(lia)) as Hwo.
  pose proof (word_no_nl _ Hws). pose proof (word_no_nl _ Hwo). pose proof (word_no_nl _ Ha).
  assert (c_nl ∉ extent_type_name (ex_extent_type e))
    by (apply word_no_nl; by destruct (ex_extent_type e)).
  split; [set_solver|].
  replace (_ ++ c_space :: _) with ((ex_access e ++ c_space :: show_dec (ex_size_sectors e)
    ++ c_space :: extent_type_name (ex_extent_type e) ++ c_space :: c_dquote :: ex_filename e
    ++ [c_dquote; c_space]) ++ show_dec (ex_offset e))
    by (rewrite <- !app_assoc; cbn; do 2 f_equal; rewrite <- !app_assoc; cbn; do 2 f_equal;
        rewrite <- !app_assoc; cbn; do 3 f_equal; by rewrite <- !app_assoc).
  apply tidy_end; [|by destruct Hm as [->|[->| ->]]|done].
  destruct Ha as [Hne _]. by destruct (ex_access e).
Qed.

Section parsing.
  Context `{UnicodeTables}.

Lemma descriptor_lines_app d l1 l2 :
  descriptor_lines d (l1 ++ l2) = d' ← descriptor_lines d l1; descriptor_lines d' l2.
Proof.
  revert d. induction l1 as [|l l1 IH]; intros d; [done|]. cbn [app descriptor_lines].
  destruct (descriptor_line d l); cbn; [apply IH|done..].
Qed.

Lemma comment_step d l : plain_line l -> starts_with [c_hash] l = true -> descriptor_line d l = Ok d.
Proof.
  intros [_ Ht] Hh. unfold descriptor_line. rewrite trim_tidy by done. cbv zeta.
  by rewrite Hh, orb_true_r.
Qed.

(** No comment and no access mode starts with the first letter of a key. *)
Definition key_start (key : str) : bool :=
  match key with c :: _ => negb (c =? 35) && negb (c =? 82) && negb (c =? 78) | [] => false end.

Lemma key_step d key value :
  plain_line (key_line key value) -> key_start key = true -> tidy key -> c_eq ∉ key -> tidy value ->
  descriptor_line d (key_line key value) = apply_key_value key (unquote value) d.
Proof.
  intros [_ Ht] Hk Hkt He Hv. unfold descriptor_line. rewrite trim_tidy by done. cbv zeta.
  rewrite parse_key_line by done. destruct key as [|c key]; [done|]. cbn in Hk.
  apply andb_true_iff in Hk as [[H1 H2]%andb_true_iff H3].
  apply negb_true_iff in H1, H2, H3.
  unfold key_line. cbn [app]. cbn [starts_with lit list_ascii_of_string map].
  change (Z.of_N (N_of_ascii "R")) with 82. change (Z.of_N (N_of_ascii "N")) with 78.
  rewrite (Z.eqb_sym c_hash c), (Z.eqb_sym 82 c), (Z.eqb_sym 78 c), H1, H2, H3. done.
Qed.

Lemma extent_step d e :
  extent_ok e -> access_mode (ex_access e) -> c_nl ∉ ex_filename e ->
  descriptor_line d (print_extent e) = Ok (push_extent (squeeze_extent e) d).
Proof.
  intros He Hm Hn. unfold descriptor_line.
  rewrite trim_tidy by (by apply print_extent_plain). cbv zeta.
  rewrite print_extent_parses by done.
  assert (bool_decide (print_extent e = []) || starts_with [c_hash] (print_extent e) = false) as ->.
  { unfold print_extent. by destruct Hm as [->|[->| ->]]. }
  assert (starts_with (lit "RW ") (print_extent e) || starts_with (lit "RDONLY ") (print_extent e)
          || starts_with (lit "NOACCESS ") (print_extent e) = true) as ->.
  { unfold print_extent. by destruct Hm as [->|[->| ->]]. }
  by rewrite bind_ret_Ok.
Qed.

Fixpoint push_extents (es : list Extent) (d : VmdkDescriptor) : VmdkDescriptor :=
  match es with [] => d | e :: es' => push_extents es' (push_extent e d) end.

Lemma extents_step d es :
  Forall (fun e => extent_ok e /\ access_mode (ex_access e) /\ c_nl ∉ ex_filename e) es ->
  descriptor_lines d (map print_extent es) = Ok (push_extents (map squeeze_extent es) d).
Proof.
  intros Hes. revert d. induction Hes as [|e es (He & Hm & Hn) _ IH]; intros d; [done|].
  cbn [map descriptor_lines]. rewrite extent_step by done. cbn. apply IH.
Qed.

Lemma push_extents_spec es d :
  push_extents es d = Build_VmdkDescriptor (vd_version d) (vd_cid d) (vd_parent_cid d)
    (vd_create_type d) (vd_extents d ++ es) (vd_cylinders d) (vd_heads d) (vd_sectors d)
    (vd_hw_version d) (vd_adapter_type d).
Proof.
  revert d. induction es as [|e es IH]; intros d; cbn [push_extents].
  - rewrite app_nil_r. by destruct d.
  - rewrite IH. cbn. by rewrite <- app_assoc.
Qed.

(** A key with a number. *)
Lemma number_step d key radix w n :
  key_start key = true -> tidy key -> c_eq ∉ key -> c_nl ∉ key -> 2 <= radix <= 36 -> 0 <= n ->
  descriptor_line d (key_line key (pad_zero w (show_radix radix n)))
    = apply_key_value key (pad_zero w (show_radix radix n)) d.
Proof.
  intros Hk Ht He Hn Hr H0. pose proof (pad_zero_word w _ (show_radix_word radix n Hr H0)) as Hw.
  rewrite key_step; [|apply key_line_plain; try done; by destruct key|done..|by apply word_tidy].
  by rewrite unquote_word by (done || apply pad_zero_no_quote, show_radix_no_quote; done).
Qed.

Lemma dec_step d key n :
  key_start key = true -> tidy key -> c_eq ∉ key -> c_nl ∉ key -> 0 <= n ->
  descriptor_line d (key_line key (show_dec n)) = apply_key_value key (show_dec n) d.
Proof.
  intros. rewrite <- (pad_zero_0 (show_dec n)). apply number_step; done || lia.
Qed.

(** A key with a quoted text. *)
Lemma text_step d key v :
  key_start key = true -> tidy key -> c_eq ∉ key -> c_nl ∉ key -> c_nl ∉ v ->
  descriptor_line d (key_line key (quoted v)) = apply_key_value key v d.
Proof.
  intros Hk Ht He Hn Hv.
  rewrite key_step; [|apply quoted_plain; try done; by destruct key|done..|apply tidy_quoted].
  unfold quoted. by rewrite unquote_quoted.
Qed.
End parsing.

(** ** Sizes *)

Lemma sum_u64_ok `{BuildProfile} {E} acc l :
  0 <= acc -> Forall (fun x => 0 <= x) l -> acc + foldr Z.add 0 l < 2 ^ 64 ->
  sum_u64 (E:=E) acc l = Ok (acc + foldr Z.add 0 l).
Proof.
  intros Ha Hl. revert acc Ha. induction Hl as [|x l Hx Hl IH]; intros acc Ha Hb; cbn in *.
  - by rewrite Z.add_0_r.
  - assert (0 <= foldr Z.add 0 l).
    { clear - Hl. induction Hl; cbn; lia. }
    unfold add_u64. rewrite checked_ok by (unfold is_u; lia). rewrite bind_ret_Ok, IH by lia.
    f_equal. lia.
Qed.

Lemma ok_or_returns {E A B} (o : option A) (e : E) (f : A -> outcome E B) :
  (forall a, returns (f a)) -> returns (a ← ok_or o e; f a).
Proof. intros Hf. destruct o; cbn; [apply Hf|done]. Qed.

Lemma parse_extent_line_returns `{UnicodeTables} line : returns (parse_extent_line line).
Proof.
  unfold parse_extent_line. destruct (split_whitespace line) as [|p0 [|p1 [|p2 [|p3 rest]]]]; try done.
  apply ok_or_returns. intros n.
  assert (Ht : returns (ExtentType_from_str p2)).
  { unfold ExtentType_from_str. cbv zeta. repeat case_match; done. }
  destruct (ExtentType_from_str p2); try done. cbn [mbind outcome_bind].
  unfold parse_quoted_filename_and_offset. cbv zeta. case_match; [done|].
  destruct (find_char _ _); [|done]. cbn [ok_or mbind outcome_bind].
  case_bool_decide; cbn [mbind outcome_bind]; [done|]. by destruct (parse_u64 _).
Qed.

Lemma descriptor_line_returns `{UnicodeTables} d line : returns (descriptor_line d line).
Proof.
  unfold descriptor_line. cbv zeta. case_match; [done|]. case_match.
  - pose proof (parse_extent_line_returns (trim line)) as Hr.
    by destruct (parse_extent_line (trim line)).
  - destruct (parse_key_value (trim line)) as [[key value]|]; [|done].
    unfold apply_key_value. repeat case_match; try done; by apply ok_or_returns.
Qed.

Lemma descriptor_lines_returns `{UnicodeTables} d ls : returns (descriptor_lines d ls).
Proof.
  revert d. induction ls as [|l ls IH]; intros d; cbn; [done|].
  pose proof (descriptor_line_returns d l) as Hr.
  destruct (descriptor_line d l); try done. apply IH.
Qed.

(** The assignments of [apply_key_value] on printed values. *)
Ltac eval_keys :=
  unfold apply_key_value; cbv zeta;
  repeat match goal with
    | |- context [str_eqb ?a ?b] =>
        let v := eval vm_compute in (str_eqb a b) in change (str_eqb a b) with v; cbn iota
    end.

Lemma hex8_parses n : 0 <= n < 2 ^ 32 -> parse_uint 32 16 (show_hex8 n) = Some n.
Proof. intros. apply parse_uint_padded; lia. Qed.

Ltac key_ok := eval_keys; rewrite ?parse_u32_show, ?parse_u64_show, ?hex8_parses by done; reflexivity.

Lemma apply_version n d : 0 <= n < 2 ^ 32 ->
  apply_key_value (lit "version") (show_dec n) d = Ok (set_version n d).
Proof. intros. key_ok. Qed.
Lemma apply_cid n d : 0 <= n < 2 ^ 32 ->
  apply_key_value (lit "CID") (show_hex8 n) d = Ok (set_cid n d).
Proof. intros. key_ok. Qed.
Lemma apply_parent_cid n d : 0 <= n < 2 ^ 32 ->
  apply_key_value (lit "parentCID") (show_hex8 n) d = Ok (set_parent_cid n d).
Proof. intros. key_ok. Qed.
Lemma apply_cylinders n d : 0 <= n < 2 ^ 64 ->
  apply_key_value (lit "ddb.geometry.cylinders") (show_dec n) d = Ok (set_cylinders n d).
Proof. intros. key_ok. Qed.
Lemma apply_heads n d : 0 <= n < 2 ^ 32 ->
  apply_key_value (lit "ddb.geometry.heads") (show_dec n) d = Ok (set_heads n d).
Proof. intros. key_ok. Qed.
Lemma apply_sectors n d : 0 <= n < 2 ^ 32 ->
  apply_key_value (lit "ddb.geometry.sectors") (show_dec n) d = Ok (set_sectors n d).
Proof. intros. key_ok. Qed.
Lemma apply_create_type v d :
  apply_key_value (lit "createType") v d = Ok (set_create_type v d).
Proof. key_ok. Qed.
Lemma apply_hw_version v d :
  apply_key_value (lit "ddb.virtualHWVersion") v d = Ok (set_hw_version v d).
Proof. key_ok. Qed.
Lemma apply_adapter_type v d :
  apply_key_value (lit "ddb.adapterType") v d = Ok (set_adapter_type v d).
Proof. key_ok. Qed.

Lemma header_lines `{UnicodeTables} d d0 :
  descriptor_ok d ->
  descriptor_lines d0
    [lit "# Disk DescriptorFile";
     key_line (lit "version") (show_dec (vd_version d));
     key_line (lit "CID") (show_hex8 (vd_cid d));
     key_line (lit "parentCID") (show_hex8 (vd_parent_cid d));
     key_line (lit "createType") (quoted (vd_create_type d));
     lit "# Extent description"]
  = Ok (set_create_type (vd_create_type d) (set_parent_cid (vd_parent_cid d)
         (set_cid (vd_cid d) (set_version (vd_version d) d0)))).
Proof.
  intros []. cbn [descriptor_lines].
  assert (Hno : forall c (k : str), bool_decide (c ∉ k) = true -> c ∉ k)
    by (by intros c k ?%bool_decide_eq_true).
  rewrite comment_step by (done || by split; [apply Hno|]). rewrite bind_ret_Ok.
  rewrite dec_step, apply_version, bind_ret_Ok by (done || by apply Hno || lia).
  unfold show_hex8.
  rewrite number_step by (done || by apply Hno || lia). fold (show_hex8 (vd_cid d)).
  rewrite apply_cid, bind_ret_Ok by done.
  rewrite number_step by (done || by apply Hno || lia). fold (show_hex8 (vd_parent_cid d)).
  rewrite apply_parent_cid, bind_ret_Ok by done.
  rewrite text_step, apply_create_type, bind_ret_Ok by (done || by apply Hno).
  by rewrite comment_step by (done || by split; [apply Hno|]).
Qed.

Lemma database_lines `{UnicodeTables} d d0 :
  descriptor_ok d ->
  descriptor_lines d0
    [lit "# The Disk Data Base";
     key_line (lit "ddb.virtualHWVersion") (quoted (vd_hw_version d));
     key_line (lit "ddb.geometry.cylinders") (show_dec (vd_cylinders d));
     key_line (lit "ddb.geometry.heads") (show_dec (vd_heads d));
     key_line (lit "ddb.geometry.sectors") (show_dec (vd_sectors d));
     key_line (lit "ddb.adapterType") (quoted (vd_adapter_type d))]
  = Ok (set_adapter_type (vd_adapter_type d) (set_sectors (vd_sectors d)
         (set_heads (vd_heads d) (set_cylinders (vd_cylinders d)
         (set_hw_version (vd_hw_version d) d0))))).
Proof.
  intros []. cbn [descriptor_lines].
  assert (Hno : forall c (k : str), bool_decide (c ∉ k) = true -> c ∉ k)
    by (by intros c k ?%bool_decide_eq_true).
  rewrite comment_step by (done || by split; [apply Hno|]). rewrite bind_ret_Ok.
  rewrite text_step, apply_hw_version, bind_ret_Ok by (done || by apply Hno).
  rewrite dec_step, apply_cylinders, bind_ret_Ok by (done || by apply Hno || lia).
  rewrite dec_step, apply_heads, bind_ret_Ok by (done || by apply Hno || lia).
  rewrite dec_step, apply_sectors, bind_ret_Ok by (done || by apply Hno || lia).
  by rewrite text_step, apply_adapter_type, bind_ret_Ok by (done || by apply Hno).
Qed.

(** Every printed line is one line that trimming leaves alone. *)
Lemma print_descriptor_plain d :
  descriptor_ok d ->
  lines (print_descriptor d) =
    [lit "# Disk DescriptorFile";
     key_line (lit "version") (show_dec (vd_version d));
     key_line (lit "CID") (show_hex8 (vd_cid d));
     key_line (lit "parentCID") (show_hex8 (vd_parent_cid d));
     key_line (lit "createType") (quoted (vd_create_type d));
     lit "# Extent description"]
    ++ map print_extent (vd_extents d)
    ++ [lit "# The Disk Data Base";
        key_line (lit "ddb.virtualHWVersion") (quoted (vd_hw_version d));
        key_line (lit "ddb.geometry.cylinders") (show_dec (vd_cylinders d));
        key_line (lit "ddb.geometry.heads") (show_dec (vd_heads d));
        key_line (lit "ddb.geometry.sectors") (show_dec (vd_sectors d));
        key_line (lit "ddb.adapterType") (quoted (vd_adapter_type d))].
Proof.
  intros [Hv Hc Hp Hcy Hh Hs Ht Hhw Had Hes]. apply lines_unlines.
  assert (Hno : forall c (k : str), bool_decide (c ∉ k) = true -> c ∉ k)
    by (by intros c k ?%bool_decide_eq_true).
  repeat first [apply Forall_cons_2 | apply Forall_app_2 | apply Forall_nil_2];
    try (by split; [apply Hno|]);
    try (apply quoted_plain; first [done | by apply Hno]);
    try (apply key_line_plain; [done|done|by apply Hno|]);
    try (by apply show_dec_word; lia);
    try (by apply pad_zero_word, show_radix_word; lia).
   apply Forall_map. eapply Forall_impl; [exact Hes|]. intros e (He & Hm & Hn).
  by apply print_extent_plain.
Qed.

(** ** The properties *)

(** C35: what [parse_descriptor] reads back from the text of a descriptor whose
    numbers are in range, whose texts are on one line and whose file names have
    no quotes: versions, content ids, create type, geometry, adapter and all
    extents with their order unchanged, but the file names with each run of
    white space replaced by one blank.  So a descriptor is read back as it is
    exactly when the white space of its file names is single blanks. *)
Theorem descriptor_roundtrip `{UnicodeTables} d :
  descriptor_ok d ->
  parse_descriptor (print_descriptor d) = Ok (squeeze_names d) /\
  (parse_descriptor (print_descriptor d) = Ok d <->
   Forall (fun e => squeeze (ex_filename e) = ex_filename e) (vd_extents d)).
Proof.
  intros Hd. assert (E : parse_descriptor (print_descriptor d) = Ok (squeeze_names d)).
  { unfold parse_descriptor. rewrite print_descriptor_plain by done.
    rewrite descriptor_lines_app, header_lines, bind_ret_Ok, descriptor_lines_app by done.
    rewrite extents_step, bind_ret_Ok by apply Hd.
    rewrite database_lines by done. by rewrite push_extents_spec. }
  split; [done|]. rewrite E, <- squeeze_names_id. split; [by intros [= ->]|by intros ->].
Qed.

Definition sample_descriptor : VmdkDescriptor :=
  {| vd_version := 1; vd_cid := 0xfffffffe; vd_parent_cid := 0xffffffff;
     vd_create_type := lit "monolithicFlat";
     vd_extents :=
       [{| ex_access := lit "RW"; ex_size_sectors := 838860800; ex_extent_type := Flat;
           ex_filename := lit "Test VM-flat.vmdk"; ex_offset := 0 |};
        {| ex_access := lit "RDONLY"; ex_size_sectors := 63; ex_extent_type := VmfsRdm;
           ex_filename := lit "b.vmdk"; ex_offset := 18446744073709551615 |}];
     vd_cylinders := 52216; vd_heads := 255; vd_sectors := 63;
     vd_hw_version := lit "21"; vd_adapter_type := lit "lsi = logic" |}.

Lemma sample_descriptor_ok : descriptor_ok sample_descriptor.
Proof.
  assert (Hno : forall c (k : str), bool_decide (c ∉ k) = true -> c ∉ k)
    by (by intros c k ?%bool_decide_eq_true).
  split; try (split; vm_compute; congruence); try (by apply Hno; vm_compute).
  repeat apply Forall_cons_2; [..|apply Forall_nil_2];
    (split_and!; [split; [done|by vm_compute|by vm_compute|by apply Hno; vm_compute]
                 |unfold access_mode; cbn [ex_access]; auto
                 |by apply Hno; vm_compute]).
Qed.

Lemma descriptor_roundtrip_witness :
  parse_descriptor (H:=ascii_tables) (print_descriptor sample_descriptor) = Ok sample_descriptor.
Proof.
  apply (proj2 (descriptor_roundtrip (H:=ascii_tables) sample_descriptor sample_descriptor_ok)).
  repeat apply Forall_cons_2; [by vm_compute..|apply Forall_nil_2].
Defined.

(** An extent line yields its access mode, size, type and offset, and the
    file name with each run of white space replaced by one blank: the quoted
    name is rejoined from words, so it comes back unchanged only if its white
    space is single blanks. *)
Theorem extent_line_meaning `{UnicodeTables} e :
  extent_ok e ->
  exists e', parse_extent_line (print_extent e) = Ok e' /\
    ex_access e' = ex_access e /\ ex_size_sectors e' = ex_size_sectors e /\
    ex_extent_type e' = ex_extent_type e /\ ex_offset e' = ex_offset e /\
    ex_filename e' = squeeze (ex_filename e) /\
    (e' = e <-> squeeze (ex_filename e) = ex_filename e).
Proof.
  intros He. eexists. split; [by apply print_extent_parses|]. cbn. split_and!; try done.
  destruct e as [a s t f o]. cbn. split; [by intros [= ->]|by intros ->].
Qed.

(** Two blanks in a file name become one: the file the tool then opens is
    another one. *)
Lemma extent_line_meaning_witness :
  let e := {| ex_access := lit "RW"; ex_size_sectors := 8; ex_extent_type := Flat;
              ex_filename := lit "My  VM-flat.vmdk"; ex_offset := 0 |} in
  exists e', parse_extent_line (H:=ascii_tables) (print_extent e) = Ok e' /\
    ex_access e' = lit "RW" /\ ex_size_sectors e' = 8 /\
    ex_extent_type e' = Flat /\ ex_offset e' = 0 /\
    ex_filename e' = lit "My VM-flat.vmdk" /\
    (e' = e <-> squeeze (ex_filename e) = ex_filename e).
Proof.
  apply (extent_line_meaning (H:=ascii_tables)
    {| ex_access := lit "RW"; ex_size_sectors := 8; ex_extent_type := Flat;
       ex_filename := lit "My  VM-flat.vmdk"; ex_offset := 0 |}).
  split; cbn; [by split|lia|lia|]. by apply (bool_decide_unpack _); vm_compute.
Defined.

(** No text makes the descriptor parser panic or run for ever: it returns a
    descriptor or an error. *)
Theorem parse_descriptor_returns `{UnicodeTables} content : returns (parse_descriptor content).
Proof. apply descriptor_lines_returns. Qed.

(** The size of a disk is 512 times the sum of its extents' sectors,
    wherever that fits 64 bits; beyond, a debug build panics, and a release
    build wraps. *)
Theorem disk_size_exact_or_overflow `{BuildProfile} d :
  Forall (fun e => 0 <= ex_size_sectors e) (vd_extents d) ->
  let total := foldr Z.add 0 (map ex_size_sectors (vd_extents d)) in
  total < 2 ^ 64 ->
  disk_size_sectors (E:=Error) d = Ok total /\
  disk_size_bytes (E:=Error) d =
    if total * 512 <? 2 ^ 64 then Ok (total * 512)
    else if overflow_checks then Panic else Ok (total * 512 mod 2 ^ 64).
Proof.
  intros Hs total Ht.
  assert (Hn : Forall (fun x => 0 <= x) (map ex_size_sectors (vd_extents d))) by (by apply Forall_map).
  assert (H0 : 0 <= total) by (subst total; clear Ht; induction Hn; cbn; lia).
  assert (Hsum : disk_size_sectors (E:=Error) d = Ok total).
  { unfold disk_size_sectors. by rewrite sum_u64_ok by (done || lia). }
  split; [done|]. unfold disk_size_bytes. rewrite Hsum, bind_ret_Ok.
  unfold mul_u64, checked. rewrite (proj2 (Z.leb_le 0 (total * 512))) by lia. done.
Qed.

Lemma disk_size_exact_or_overflow_witness :
  disk_size_sectors (H:=release) (E:=Error) sample_descriptor = Ok 838860863 /\
  disk_size_bytes (H:=release) (E:=Error) sample_descriptor = Ok 429496761856.
Proof.
  apply (disk_size_exact_or_overflow (H:=release) sample_descriptor);
    [repeat constructor; cbn; lia|by vm_compute].
Defined.
