(* ===== verification/Vmx.v ===== *)
(** * Vmx: [vmx.rs], the VM configuration

    The key-value file, the disks and the network adapters it declares.  A
    [HashMap] is a finite map; the order in which iterating over it visits the
    entries is a parameter ([HashOrder]), since Rust's differs between runs. *)
From S2P Require Export Fs.

Record DiskConfig := {
  dc_file_name : str;
  dc_controller : str;
  dc_unit : Z;
}.

Record NetworkConfig := {
  nc_name : str;
  nc_virtual_dev : option str;
  nc_network_name : option str;
}.

Record VmxConfig := {
  vc_display_name : str;
  vc_guest_os : str;
  vc_memory_mb : Z;
  vc_num_cpus : Z;
  vc_disks : list DiskConfig;
  vc_networks : list NetworkConfig;
  vc_raw : gmap str str;
}.

(** The iteration order of a [HashMap]. *)
Class HashOrder := hash_order : gmap str str -> list (str * str).

(** Iterating visits every entry once. *)
Class HashOrderLaws `{HashOrder} := hash_order_perm : forall m, hash_order m ≡ₚ map_to_list m.

(** The order of the keys, standing for one run's. *)
Definition key_order : HashOrder := map_to_list.

(** ** Key-value pairs *)

(** One round of the loop of [parse_key_value_pairs]. *)
Definition kv_line (map : gmap str str) (line : str) : gmap str str :=
  let line := trim line in
  if bool_decide (line = []) || starts_with [c_hash] line then map else
  match find_char c_eq line with
  | Some eq_pos =>
      let key := trim (ztake eq_pos line) in
      let value := trim (zdrop (eq_pos + 1) line) in
      let value := unquote value in
      <[key := value]> map
  | None => map
  end.

Definition parse_key_value_pairs (content : str) : gmap str str :=
  fold_left kv_line (lines content) ∅.

(** ** Disks *)

Definition controller_prefixes : list str := [lit "scsi"; lit "ide"; lit "nvme"; lit "sata"].

(** One round of the loop of [extract_disks]: the disk it pushes. *)
Definition disk_of_entry (raw : gmap str str) (entry : str * str) : option DiskConfig :=
  let '(key, value) := entry in
  if negb (ends_with (lit ".fileName") key) then None else
  if negb (ends_with (lit ".vmdk") value) then None else
  let prefix := ztake (zlen key - zlen (lit ".fileName")) key in
  if negb (existsb (fun ctrl_prefix => starts_with ctrl_prefix prefix) controller_prefixes) then None else
  match find_char c_colon prefix with
  | None => None
  | Some colon_pos =>
      let controller := ztake colon_pos prefix in
      let unit_str := zdrop (colon_pos + 1) prefix in
      match parse_u32 unit_str with
      | None => None
      | Some unit =>
          let present_key := fmt (lit "{}.present") [prefix] in
          let is_present :=
            match raw !! present_key with
            | Some v => eq_ignore_ascii_case v (lit "TRUE")
            | None => false
            end in
          if is_present then
            Some {| dc_file_name := value; dc_controller := controller; dc_unit := unit |}
          else None
      end
  end.

(** The comparison [sort_by] is given. *)
Definition disk_cmp (a b : DiskConfig) : comparison :=
  match str_cmp (dc_controller a) (dc_controller b) with
  | Eq => dc_unit a ?= dc_unit b
  | c => c
  end.

Definition extract_disks `{HashOrder} (raw : gmap str str) : list DiskConfig :=
  let disks := omap (disk_of_entry raw) (hash_order raw) in
  sort_by disk_cmp disks.

(** ** Networks *)

Definition network_name_of (entry : str * str) : option str :=
  let '(key, value) := entry in
  if starts_with (lit "ethernet") key && ends_with (lit ".present") key
     && eq_ignore_ascii_case value (lit "TRUE")
  then Some (ztake (zlen key - zlen (lit ".present")) key)
  else None.

Definition network_of (raw : gmap str str) (name : str) : NetworkConfig :=
  let virtual_dev_key := fmt (lit "{}.virtualDev") [name] in
  let network_name_key := fmt (lit "{}.networkName") [name] in
  {| nc_name := name;
     nc_virtual_dev := raw !! virtual_dev_key;
     nc_network_name := raw !! network_name_key |}.

Definition extract_networks `{HashOrder} (raw : gmap str str) : list NetworkConfig :=
  let network_names := omap network_name_of (hash_order raw) in
  let network_names := sort_by str_cmp network_names in
  map (network_of raw) network_names.

(** ** The file *)

Definition parse_vmx_content `{HashOrder} (content : str) : Result VmxConfig :=
  let raw := parse_key_value_pairs content in
  let display_name := default (lit "Unnamed VM") (raw !! lit "displayName") in
  let guest_os := default (lit "other") (raw !! lit "guestOS") in
  let memory_mb := default 1024 (raw !! lit "memsize" ≫= parse_u32) in
  let num_cpus := default 1 (raw !! lit "numvcpus" ≫= parse_u32) in
  let disks := extract_disks raw in
  let networks := extract_networks raw in
  Ok {| vc_display_name := display_name; vc_guest_os := guest_os;
        vc_memory_mb := memory_mb; vc_num_cpus := num_cpus;
        vc_disks := disks; vc_networks := networks; vc_raw := raw |}.

Definition parse_vmx `{FileSystem} `{HashOrder} (path : str) : Result VmxConfig :=
  content ← map_err (fun e => Error.io e path) (read_to_string path);
  parse_vmx_content content.
