(* ===== verification/VmxSpec.v ===== *)
(** * VmxSpec: what a VMX file means

    Text to map (last assignment wins), map to disks and networks, and where
    the order in which a [HashMap] is visited shows in the result. *)
From S2P Require Export Vmx.

#[export] Instance disk_cmp_laws : CmpLaws disk_cmp.
Proof.
  split.
  - intros x y. unfold disk_cmp. rewrite (cmp_opp str_cmp (dc_controller x)).
    destruct (str_cmp _ _); cbn; [apply Z.compare_antisym|done|done].
  - intros x y z. unfold disk_cmp. intros H1 H2.
    pose proof (cmp_le_trans str_cmp (dc_controller x) (dc_controller y) (dc_controller z)) as Ht.
    destruct (str_cmp (dc_controller x) (dc_controller y)) eqn:E1; [apply str_cmp_eq in E1|..].
    + rewrite E1. destruct (str_cmp (dc_controller y) (dc_controller z)); [|done|done].
      rewrite Z.compare_le_iff in *. lia.
    + destruct (str_cmp (dc_controller y) (dc_controller z)) eqn:E2; [apply str_cmp_eq in E2|..].
      * by rewrite <- E2, E1.
      * destruct (str_cmp (dc_controller x) (dc_controller z)) eqn:E3; [|done|by apply Ht].
        apply str_cmp_eq in E3. rewrite E3 in E1. rewrite (cmp_opp str_cmp), E2 in E1. done.
      * done.
    + done.
Qed.

(** ** Disks *)

(** What a map declares: a present disk of a known controller type. *)
Definition disk_declared (raw : gmap str str) (d : DiskConfig) : Prop :=
  exists unit_str v,
    let prefix := dc_controller d ++ [c_colon] ++ unit_str in
    raw !! (prefix ++ lit ".fileName") = Some (dc_file_name d) /\
    raw !! (prefix ++ lit ".present") = Some v /\
    eq_ignore_ascii_case v (lit "TRUE") = true /\
    ends_with (lit ".vmdk") (dc_file_name d) = true /\
    c_colon ∉ dc_controller d /\
    parse_u32 unit_str = Some (dc_unit d) /\
    existsb (fun p => starts_with p prefix) controller_prefixes = true.

Lemma ztake_suffix {A} (p s : list A) : ztake (zlen (p ++ s) - zlen s) (p ++ s) = p.
Proof. rewrite zlen_app, Z.add_simpl_r. rewrite ztake_app_le by lia. by apply ztake_all. Qed.

Lemma fmt_suffix p (s : string) : fmt (123 :: 125 :: lit s) [p] = p ++ fmt (lit s) [].
Proof. reflexivity. Qed.

Lemma disk_of_entry_spec raw key value d :
  raw !! key = Some value ->
  disk_of_entry raw (key, value) = Some d <->
  dc_file_name d = value /\
  exists unit_str v,
    let prefix := dc_controller d ++ [c_colon] ++ unit_str in
    key = prefix ++ lit ".fileName" /\
    raw !! (prefix ++ lit ".present") = Some v /\
    eq_ignore_ascii_case v (lit "TRUE") = true /\
    ends_with (lit ".vmdk") value = true /\
    c_colon ∉ dc_controller d /\
    parse_u32 unit_str = Some (dc_unit d) /\
    existsb (fun p => starts_with p prefix) controller_prefixes = true.
Proof.
  intros Hkey. unfold disk_of_entry. split.
  - destruct (ends_with (lit ".fileName") key) eqn:E1; [|done]. cbn [negb].
    apply ends_with_spec in E1 as [prefix ->]. rewrite ztake_suffix.
    destruct (ends_with (lit ".vmdk") value) eqn:E2; [|done]. cbn [negb].
    destruct (existsb _ controller_prefixes) eqn:E3; [|done]. cbn [negb].
    destruct (find_char c_colon prefix) as [i|] eqn:E4; [|done].
    apply find_char_Some in E4 as (c & u & -> & Hc & ->).
    rewrite ztake_app_le, ztake_all by lia.
    rewrite zdrop_app_ge by lia. replace (zlen c + 1 - zlen c) with 1 by lia.
    change (zdrop 1 (c_colon :: u)) with u.
    destruct (parse_u32 u) as [n|] eqn:E5; [|done].
    rewrite (fmt_hole [] (lit ".present")), fmt_plain by done.
    rewrite app_nil_l.
    destruct (raw !! ((c ++ c_colon :: u) ++ lit ".present")) as [v|] eqn:E6; [|done].
    destruct (eq_ignore_ascii_case v (lit "TRUE")) eqn:E7; [|done].
    intros [= <-]. cbn [dc_file_name dc_controller dc_unit]. split; [done|]. by exists u, v.
  - intros [<- (u & v & -> & Hv & Ht & Hf & Hc & Hu & Hp)].
    rewrite ends_with_app. cbn [negb]. rewrite Hf. cbn [negb].
    rewrite ztake_suffix, Hp. cbn [negb app] in *. rewrite find_char_app by done.
    rewrite ztake_app_le, ztake_all by lia.
    rewrite zdrop_app_ge by lia.
    replace (zlen (dc_controller d) + 1 - zlen (dc_controller d)) with 1 by lia.
    change (zdrop 1 (c_colon :: u)) with u. rewrite Hu.
    rewrite (fmt_hole [] (lit ".present")), fmt_plain by done. rewrite app_nil_l.
    rewrite Hv, Ht. by destruct d.
Qed.

Section orders.
  Context `{HashOrderLaws}.

Lemma elem_of_hash_order m k v : (k, v) ∈ hash_order m <-> m !! k = Some v.
Proof. rewrite hash_order_perm. apply elem_of_map_to_list. Qed.

Lemma elem_of_extract_disks raw d : d ∈ extract_disks raw <-> disk_declared raw d.
Proof.
  unfold extract_disks. rewrite sort_by_perm, list_elem_of_omap. unfold disk_declared. split.
  - intros ([key value] & Hin & Hd). apply elem_of_hash_order in Hin.
    apply disk_of_entry_spec in Hd as (<- & u & v & -> & ?); [|done]. by exists u, v.
  - intros (u & v & Hk & Hr). eexists (_, _). split; [by apply elem_of_hash_order|].
    apply disk_of_entry_spec; [done|]. split; [done|]. by exists u, v.
Qed.

Lemma extract_disks_sorted raw : StronglySorted (cmp_le disk_cmp) (extract_disks raw).
Proof. apply sort_by_sorted, _. Qed.

Lemma network_name_of_spec key value name :
  network_name_of (key, value) = Some name <->
  key = name ++ lit ".present" /\ starts_with (lit "ethernet") key = true /\
  eq_ignore_ascii_case value (lit "TRUE") = true.
Proof.
  unfold network_name_of. split.
  - destruct (starts_with (lit "ethernet") key) eqn:E1; [|done].
    destruct (ends_with (lit ".present") key) eqn:E2; [|done].
    destruct (eq_ignore_ascii_case value (lit "TRUE")) eqn:E3; [|done]. cbn [andb].
    apply ends_with_spec in E2 as [p ->]. rewrite ztake_suffix. by intros [= <-].
  - intros (-> & -> & ->). rewrite ends_with_app. cbn [andb]. by rewrite ztake_suffix.
Qed.
End orders.

Lemma extract_disks_agree (o1 o2 : HashOrder) (L1 : @HashOrderLaws o1) (L2 : @HashOrderLaws o2) raw :
  (forall d1 d2, disk_declared raw d1 -> disk_declared raw d2 ->
     dc_controller d1 = dc_controller d2 -> dc_unit d1 = dc_unit d2 -> d1 = d2) ->
  extract_disks (H:=o1) raw = extract_disks (H:=o2) raw.
Proof.
  intros Hd.
  assert (Hin : forall d, d ∈ omap (disk_of_entry raw) (@hash_order o1 raw) -> disk_declared raw d).
  { intros d Hx. apply (elem_of_extract_disks (H:=o1)). unfold extract_disks. by rewrite sort_by_perm. }
  unfold extract_disks. apply sort_by_permutation; [apply _| |].
  - intros d1 d2 H1 H2. unfold disk_cmp.
    destruct (str_cmp _ _) eqn:E; try done. apply str_cmp_eq in E. intros Hu%Z.compare_eq.
    apply Hd; [by apply Hin|by apply Hin|done|done].
  - apply omap_Permutation. by rewrite (@hash_order_perm o1 L1), (@hash_order_perm o2 L2).
Qed.

(** ** Networks *)

Definition network_declared (raw : gmap str str) (name : str) : Prop :=
  exists v, raw !! (name ++ lit ".present") = Some v /\
    starts_with (lit "ethernet") (name ++ lit ".present") = true /\
    eq_ignore_ascii_case v (lit "TRUE") = true.

Lemma elem_of_extract_networks `{HashOrderLaws} raw n :
  n ∈ extract_networks raw <->
  network_declared raw (nc_name n) /\
  nc_virtual_dev n = raw !! (nc_name n ++ lit ".virtualDev") /\
  nc_network_name n = raw !! (nc_name n ++ lit ".networkName").
Proof.
  unfold extract_networks. rewrite list_elem_of_fmap.
  assert (Hnames : forall name, name ∈ sort_by str_cmp (omap network_name_of (hash_order raw))
                   <-> network_declared raw name).
  { intros name. rewrite sort_by_perm, list_elem_of_omap. unfold network_declared. split.
    - intros ([k v] & Hin & Hs). apply elem_of_hash_order in Hin.
      apply network_name_of_spec in Hs as (-> & ? & ?). by exists v.
    - intros (v & Hk & ? & ?). eexists (_, v). split; [by apply elem_of_hash_order|].
      by apply network_name_of_spec. }
  assert (Hnet : forall name, network_of raw name =
            {| nc_name := name; nc_virtual_dev := raw !! (name ++ lit ".virtualDev");
               nc_network_name := raw !! (name ++ lit ".networkName") |}).
  { intros name. unfold network_of. cbv zeta.
    rewrite (fmt_hole [] (lit ".virtualDev")), (fmt_hole [] (lit ".networkName")), !fmt_plain by done.
    done. }
  split.
  - intros (name & -> & Hin). apply Hnames in Hin. by rewrite Hnet.
  - intros (Hd & Hv & Hn). exists (nc_name n). split; [|by apply Hnames].
    rewrite Hnet, <- Hv, <- Hn. by destruct n.
Qed.

Lemma extract_networks_agree (o1 o2 : HashOrder) (L1 : @HashOrderLaws o1) (L2 : @HashOrderLaws o2) raw :
  extract_networks (H:=o1) raw = extract_networks (H:=o2) raw.
Proof.
  unfold extract_networks. f_equal. apply sort_by_permutation; [apply _| |].
  - intros n1 n2 _ _. apply str_cmp_eq.
  - apply omap_Permutation. by rewrite (@hash_order_perm o1 L1), (@hash_order_perm o2 L2).
Qed.

(** ** The text *)

(** A line as VMware writes it: [key = "value"]. *)
Definition print_kv (kv : str * str) : str :=
  kv.1 ++ lit " = " ++ c_dquote :: kv.2 ++ [c_dquote].

Definition kv_ok (kv : str * str) : Prop :=
  kv.1 <> [] /\ tidy kv.1 /\ c_eq ∉ kv.1 /\ c_nl ∉ kv.1 /\ starts_with [c_hash] kv.1 = false /\
  c_nl ∉ kv.2.

Definition insert_kv (m : gmap str str) (kv : str * str) : gmap str str := <[kv.1 := kv.2]> m.

Lemma print_kv_plain kv : kv_ok kv -> plain_line (print_kv kv).
Proof.
  intros (Hne & [Hh _] & He & Hn & Hc & Hv). unfold print_kv. split; [|].
  - assert (c_nl ∉ lit " = ") by (by apply (bool_decide_unpack _); vm_compute). set_solver.
  - destruct kv as [k v]. cbn [fst snd] in *. destruct k as [|c k]; [done|]. split; [done|].
    replace ((c :: k) ++ lit " = " ++ c_dquote :: v ++ [c_dquote])
      with (((c :: k) ++ lit " = " ++ c_dquote :: v) ++ [c_dquote]) by (by rewrite <- !app_assoc).
    by rewrite rev_app_distr.
Qed.

Lemma kv_line_print m kv : kv_ok kv -> kv_line m (print_kv kv) = insert_kv m kv.
Proof.
  intros Hok. pose proof (print_kv_plain _ Hok) as [_ Ht].
  destruct Hok as (Hne & Hk & He & Hn & Hc & Hv). destruct kv as [k v]. cbn [fst snd] in *.
  unfold kv_line. rewrite trim_tidy by done. cbv zeta.
  assert (Hl : print_kv (k, v) = (k ++ [c_space]) ++ c_eq :: c_space :: c_dquote :: v ++ [c_dquote])
    by (unfold print_kv; cbn [fst snd]; by rewrite <- app_assoc).
  assert (bool_decide (print_kv (k, v) = []) || starts_with [c_hash] (print_kv (k, v)) = false) as ->.
  { unfold print_kv. cbn [fst snd]. by destruct k. }
  rewrite Hl, find_char_app by set_solver. zlen_pos.
  rewrite ztake_app_le, ztake_all by lia. rewrite trim_space_end, trim_tidy by done.
  rewrite zdrop_app_ge by lia.
  replace (zlen (k ++ [c_space]) + 1 - zlen (k ++ [c_space])) with 1 by lia.
  change (zdrop 1 (c_eq :: c_space :: c_dquote :: v ++ [c_dquote]))
    with (c_space :: c_dquote :: v ++ [c_dquote]).
  rewrite trim_space, trim_tidy by apply tidy_quoted. by rewrite unquote_quoted.
Qed.

Lemma parse_printed_kvs kvs :
  Forall kv_ok kvs ->
  parse_key_value_pairs (unlines (map print_kv kvs)) = fold_left insert_kv kvs ∅.
Proof.
  intros Hok. unfold parse_key_value_pairs. rewrite lines_unlines.
  - generalize (∅ : gmap str str). induction Hok as [|kv kvs H _ IH]; intros m; [done|].
    cbn [map fold_left]. by rewrite kv_line_print, IH.
  - apply Forall_map. eapply Forall_impl; [exact Hok|]. intros. by apply print_kv_plain.
Qed.

(** ** The properties *)

(** C36: the disks and networks of a configuration are complete and exact: the
    disks are those with a [<controller>:<unit>.fileName] entry naming a .vmdk
    on a known controller whose [.present] entry is TRUE (case ignored),
    sorted by controller, then unit; the networks are the present ethernet
    entries with the device and network names declared for them. *)
Theorem vmx_devices_complete `{HashOrderLaws} content :
  exists c, parse_vmx_content content = Ok c /\
    (forall d, d ∈ vc_disks c <-> disk_declared (vc_raw c) d) /\
    StronglySorted (cmp_le disk_cmp) (vc_disks c) /\
    (forall n, n ∈ vc_networks c <->
       network_declared (vc_raw c) (nc_name n) /\
       nc_virtual_dev n = vc_raw c !! (nc_name n ++ lit ".virtualDev") /\
       nc_network_name n = vc_raw c !! (nc_name n ++ lit ".networkName")).
Proof.
  eexists. split; [reflexivity|]. cbn [vc_disks vc_raw vc_networks]. split_and!.
  - intros d. apply elem_of_extract_disks.
  - apply extract_disks_sorted.
  - intros n. apply elem_of_extract_networks.
Qed.

(** C38: the parsed configuration does not depend on the order in which the
    [HashMap] is visited, provided no two disks are declared for one
    controller and unit. *)
Theorem vmx_config_order_independent (o1 o2 : HashOrder)
    (L1 : @HashOrderLaws o1) (L2 : @HashOrderLaws o2) content :
  (forall d1 d2, disk_declared (parse_key_value_pairs content) d1 ->
     disk_declared (parse_key_value_pairs content) d2 ->
     dc_controller d1 = dc_controller d2 -> dc_unit d1 = dc_unit d2 -> d1 = d2) ->
  parse_vmx_content (H:=o1) content = parse_vmx_content (H:=o2) content.
Proof.
  intros Hd. unfold parse_vmx_content. cbv zeta.
  rewrite (extract_disks_agree o1 o2 L1 L2) by done.
  by rewrite (extract_networks_agree o1 o2 L1 L2).
Qed.

(** The entries in reverse: another lawful visit. *)
Definition reverse_order : HashOrder := fun m => reverse (map_to_list m).

#[export] Instance key_order_laws : @HashOrderLaws key_order.
Proof. by intros m. Qed.

Lemma vmx_devices_complete_witness :
  exists c, parse_vmx_content (H:=key_order) (lit "ide0:0.fileName = d.vmdk") = Ok c /\
    (forall d, d ∈ vc_disks c <-> disk_declared (vc_raw c) d) /\
    StronglySorted (cmp_le disk_cmp) (vc_disks c) /\
    (forall n, n ∈ vc_networks c <->
       network_declared (vc_raw c) (nc_name n) /\
       nc_virtual_dev n = vc_raw c !! (nc_name n ++ lit ".virtualDev") /\
       nc_network_name n = vc_raw c !! (nc_name n ++ lit ".networkName")).
Proof. apply (vmx_devices_complete (H:=key_order)). Defined.

#[export] Instance reverse_order_laws : @HashOrderLaws reverse_order.
Proof. intros m. apply reverse_Permutation. Qed.

(** Two keys that name the same unit: [scsi0:0] and [scsi0:00]. *)
Definition clashing_vmx : str :=
  unlines (map print_kv
    [(lit "scsi0:0.present", lit "TRUE"); (lit "scsi0:0.fileName", lit "a.vmdk");
     (lit "scsi0:00.present", lit "TRUE"); (lit "scsi0:00.fileName", lit "b.vmdk")]).

Definition config_files (r : Result VmxConfig) : list str :=
  match r with Ok c => map dc_file_name (vc_disks c) | _ => [] end.

(** Without that proviso it does depend on it: unit numbers are compared as
    numbers but keys as text, so one file can declare a unit twice, and the
    order of its disks then follows the hash order of the run. *)
Theorem vmx_disk_order_leaks :
  exists content (o1 o2 : HashOrder), @HashOrderLaws o1 /\ @HashOrderLaws o2 /\
    config_files (parse_vmx_content (H:=o1) content)
      <> config_files (parse_vmx_content (H:=o2) content) /\
    config_files (parse_vmx_content (H:=o1) content)
      ≡ₚ config_files (parse_vmx_content (H:=o2) content).
Proof.
  exists clashing_vmx, key_order, reverse_order.
  split; [apply _|]. split; [apply _|]. split.
  - vm_compute. discriminate.
  - unfold parse_vmx_content, config_files. cbv zeta. cbn [vc_disks].
    unfold extract_disks. rewrite !sort_by_perm. apply Permutation_map, omap_Permutation.
    by rewrite !hash_order_perm.
Qed.

Lemma vmx_config_order_independent_witness :
  let content := unlines (map print_kv
    [(lit "scsi0:1.present", lit "true"); (lit "scsi0:1.fileName", lit "b.vmdk");
     (lit "ide0:0.present", lit "TRUE"); (lit "ide0:0.fileName", lit "a.vmdk")]) in
  parse_vmx_content (H:=key_order) content = parse_vmx_content (H:=reverse_order) content.
Proof.
  apply (vmx_config_order_independent key_order reverse_order _ _).
  intros d1 d2 H1 H2.
  apply (elem_of_extract_disks (H:=key_order)) in H1, H2.
  assert (E : extract_disks (H:=key_order) (parse_key_value_pairs (unlines (map print_kv
    [(lit "scsi0:1.present", lit "true"); (lit "scsi0:1.fileName", lit "b.vmdk");
     (lit "ide0:0.present", lit "TRUE"); (lit "ide0:0.fileName", lit "a.vmdk")])))
    = [{| dc_file_name := lit "a.vmdk"; dc_controller := lit "ide0"; dc_unit := 0 |};
       {| dc_file_name := lit "b.vmdk"; dc_controller := lit "scsi0"; dc_unit := 1 |}])
    by (vm_compute; reflexivity).
  rewrite E in H1, H2.
  apply list_elem_of_In in H1 as [<-|[<-|[]]]; apply list_elem_of_In in H2 as [<-|[<-|[]]];
    cbn; intros; congruence.
Defined.

(** C37: a file of [key = "value"] lines, values with any characters but line
    breaks, parses to the map of its assignments, the last one of a key
    winning; name, guest, memory and processors are its entries, with the
    defaults "Unnamed VM", "other", 1024 and 1 where an entry is missing, is
    not a number, or does not fit 32 bits. *)
Theorem vmx_text_meaning `{HashOrder} kvs :
  Forall kv_ok kvs ->
  let raw := fold_left insert_kv kvs ∅ in
  exists c, parse_vmx_content (unlines (map print_kv kvs)) = Ok c /\ vc_raw c = raw /\
    (forall k, raw !! k = snd <$> last (filter (fun kv => kv.1 = k) kvs)) /\
    vc_display_name c = default (lit "Unnamed VM") (raw !! lit "displayName") /\
    vc_guest_os c = default (lit "other") (raw !! lit "guestOS") /\
    (forall n, 0 <= n < 2 ^ 32 -> raw !! lit "memsize" = Some (show_dec n) -> vc_memory_mb c = n) /\
    (raw !! lit "memsize" ≫= parse_u32 = None -> vc_memory_mb c = 1024) /\
    (forall n, 0 <= n < 2 ^ 32 -> raw !! lit "numvcpus" = Some (show_dec n) -> vc_num_cpus c = n) /\
    (raw !! lit "numvcpus" ≫= parse_u32 = None -> vc_num_cpus c = 1).
Proof.
  intros Hok raw. eexists. split; [reflexivity|].
  cbn [vc_raw vc_display_name vc_guest_os vc_memory_mb vc_num_cpus].
  rewrite parse_printed_kvs by done. fold raw. split_and!; try done.
  - intros k. subst raw. clear Hok.
    assert (Hg : forall m : gmap str str, fold_left insert_kv kvs m !! k =
      match last (filter (fun kv => kv.1 = k) kvs) with Some kv => Some kv.2 | None => m !! k end).
    { induction kvs as [|[k' v] kvs IH]; intros m; [done|]. cbn [fold_left]. rewrite IH, filter_cons.
      unfold insert_kv at 1. cbn [fst snd].
      destruct (decide (k' = k)) as [->|Hne].
      - rewrite last_cons. destruct (last _); [done|]. cbn. by rewrite lookup_insert_eq.
      - destruct (last _); [done|]. by rewrite lookup_insert_ne. }
    rewrite Hg. destruct (last _) as [[]|]; [done|]. by rewrite lookup_empty.
  - intros n Hn ->. cbn. by rewrite parse_u32_show.
  - by intros ->.
  - intros n Hn ->. cbn. by rewrite parse_u32_show.
  - by intros ->.
Qed.

Definition sample_kvs : list (str * str) :=
  [(lit "displayName", lit "old"); (lit "memsize", lit "4294967296");
   (lit "numvcpus", lit "4"); (lit "displayName", lit "My VM = # 1")].

Lemma vmx_text_meaning_witness :
  exists c, parse_vmx_content (H:=key_order) (unlines (map print_kv sample_kvs)) = Ok c /\
    vc_display_name c = lit "My VM = # 1" /\ vc_memory_mb c = 1024 /\ vc_num_cpus c = 4.
Proof.
  destruct (vmx_text_meaning (H:=key_order) sample_kvs) as (c & Hc & _ & _ & Hn & _ & _ & Hm & Hp & _).
  - assert (Hno : forall c (k : str), bool_decide (c ∉ k) = true -> c ∉ k)
      by (by intros c k ?%bool_decide_eq_true).
    repeat apply Forall_cons_2; [..|apply Forall_nil_2];
      (split_and!; first [done|by split|by apply Hno; vm_compute]).
  - exists c. split; [exact Hc|]. split; [rewrite Hn; by vm_compute|].
    split; [apply Hm; by vm_compute|apply (Hp 4); [lia|by vm_compute]].
Defined.
