(* ===== verification/Stream.v ===== *)
(** * Stream: [vmdk/stream.rs], the streamOptimized VMDK writer

    The on-disk structures and their serialisation, and [StreamVmdkWriter] as
    a state machine over any [Write] implementation.  [StreamSpec] holds the
    format specification the writer is proved against. *)
From S2P Require Export Write.

Definition VMDK_MAGIC : Z := 0x564D444B.
Definition SECTOR_SIZE : Z := 512.
Definition DEFAULT_GRAIN_SIZE : Z := 128.
Definition GT_ENTRIES_PER_GT : Z := 512.
Definition STREAM_OPTIMIZED_FLAGS : Z :=
  Z.lor (Z.lor 0x30001 (Z.shiftl 1 16)) (Z.shiftl 1 17).
Definition GD_AT_END : Z := 0xFFFFFFFFFFFFFFFF.
Definition COMPRESS_ALGORITHM_DEFLATE : Z := 1.

(** ** Markers *)

Inductive MarkerType := EndOfStream | GrainTable | GrainDirectory | Footer.

(** [marker_type as u32]. *)
Definition MarkerType_as_u32 (t : MarkerType) : Z :=
  match t with
  | EndOfStream => 0
  | GrainTable => 1
  | GrainDirectory => 2
  | Footer => 3
  end.

Record Marker := {
  m_num_sectors : Z;
  m_size : Z;
  m_marker_type : MarkerType;
}.

Definition Marker_new (marker_type : MarkerType) (num_sectors : Z) : Marker :=
  {| m_num_sectors := num_sectors; m_size := 0; m_marker_type := marker_type |}.

Definition Marker_to_bytes (m : Marker) : bytes :=
  let buf := zeros SECTOR_SIZE in
  let buf := put_at 0 (u64_le (m_num_sectors m)) buf in
  let buf := put_at 8 (u32_le (m_size m)) buf in
  let buf := put_at 12 (u32_le (MarkerType_as_u32 (m_marker_type m))) buf in
  buf.

Record GrainMarker := { gm_lba : Z; gm_size : Z }.

Definition GrainMarker_new (lba size : Z) : GrainMarker :=
  {| gm_lba := lba; gm_size := size |}.

Definition GrainMarker_to_bytes (m : GrainMarker) : bytes :=
  let buf := zeros 12 in
  let buf := put_at 0 (u64_le (gm_lba m)) buf in
  let buf := put_at 8 (u32_le (gm_size m)) buf in
  buf.

(** ** The sparse extent header *)

Record SparseExtentHeader := {
  seh_magic : Z;
  seh_version : Z;
  seh_flags : Z;
  seh_capacity : Z;
  seh_grain_size : Z;
  seh_descriptor_offset : Z;
  seh_descriptor_size : Z;
  seh_num_gtes_per_gt : Z;
  seh_rgd_offset : Z;
  seh_gd_offset : Z;
  seh_overhead : Z;
  seh_unclean_shutdown : Z;
  seh_newline_chars : Z * Z * Z * Z;
  seh_compress_algorithm : Z;
}.

Definition SparseExtentHeader_new (capacity_bytes : Z) : SparseExtentHeader :=
  let capacity_sectors := capacity_bytes / SECTOR_SIZE in
  {| seh_magic := VMDK_MAGIC;
     seh_version := 3;
     seh_flags := STREAM_OPTIMIZED_FLAGS;
     seh_capacity := capacity_sectors;
     seh_grain_size := DEFAULT_GRAIN_SIZE;
     seh_descriptor_offset := 0;
     seh_descriptor_size := 0;
     seh_num_gtes_per_gt := GT_ENTRIES_PER_GT;
     seh_rgd_offset := 0;
     seh_gd_offset := GD_AT_END;
     seh_overhead := 0;
     seh_unclean_shutdown := 0;
     seh_newline_chars := (c_nl, c_space, c_cr, c_nl);
     seh_compress_algorithm := COMPRESS_ALGORITHM_DEFLATE |}.

Definition SparseExtentHeader_to_bytes (h : SparseExtentHeader) : bytes :=
  let '(n0, n1, n2, n3) := seh_newline_chars h in
  let buf := zeros SECTOR_SIZE in
  let buf := put_at 0 (u32_le (seh_magic h)) buf in
  let buf := put_at 4 (u32_le (seh_version h)) buf in
  let buf := put_at 8 (u32_le (seh_flags h)) buf in
  let buf := put_at 12 (u64_le (seh_capacity h)) buf in
  let buf := put_at 20 (u64_le (seh_grain_size h)) buf in
  let buf := put_at 28 (u64_le (seh_descriptor_offset h)) buf in
  let buf := put_at 36 (u64_le (seh_descriptor_size h)) buf in
  let buf := put_at 44 (u32_le (seh_num_gtes_per_gt h)) buf in
  let buf := put_at 48 (u64_le (seh_rgd_offset h)) buf in
  let buf := put_at 56 (u64_le (seh_gd_offset h)) buf in
  let buf := put_at 64 (u64_le (seh_overhead h)) buf in
  let buf := put_at 72 [seh_unclean_shutdown h] buf in
  let buf := put_at 73 [n0] buf in
  let buf := put_at 74 [n1] buf in
  let buf := put_at 75 [n2] buf in
  let buf := put_at 76 [n3] buf in
  let buf := put_at 77 (u16_le (seh_compress_algorithm h)) buf in
  buf.

Definition SparseExtentHeader_as_footer (h : SparseExtentHeader) (gd_offset_sectors : Z)
    : SparseExtentHeader :=
  {| seh_magic := seh_magic h;
     seh_version := seh_version h;
     seh_flags := seh_flags h;
     seh_capacity := seh_capacity h;
     seh_grain_size := seh_grain_size h;
     seh_descriptor_offset := seh_descriptor_offset h;
     seh_descriptor_size := seh_descriptor_size h;
     seh_num_gtes_per_gt := seh_num_gtes_per_gt h;
     seh_rgd_offset := seh_rgd_offset h;
     seh_gd_offset := gd_offset_sectors;
     seh_overhead := seh_overhead h;
     seh_unclean_shutdown := seh_unclean_shutdown h;
     seh_newline_chars := seh_newline_chars h;
     seh_compress_algorithm := seh_compress_algorithm h |}.

(** ** Compression

    DEFLATE is the [flate2] crate: [deflate level data] stands for feeding
    [data] to a [DeflateEncoder] writing to a vector and finishing it (the two
    fallible calls of [compress_grain] with their own messages), and
    [inflate n data] for [DeflateDecoder::read_exact] of [n] bytes. *)
Class Flate2 := {
  deflate_write : Z -> bytes -> io_result ();
  deflate_finish : Z -> bytes -> io_result bytes;
  inflate : Z -> bytes -> io_result bytes;
}.

(** The documented behaviour of the crate: encoding to memory succeeds,
    decoding as many bytes as were encoded gives them back, and a
    [read_exact] that succeeds has filled the buffer. *)
Class Flate2Laws `{Flate2} := {
  deflate_write_ok : forall level data, deflate_write level data = Ok tt;
  deflate_total : forall level data, exists c, deflate_finish level data = Ok c;
  inflate_deflate : forall level data c,
    deflate_finish level data = Ok c -> inflate (zlen data) c = Ok data;
  inflate_exact : forall n c,
    match inflate n c with Ok d => zlen d = n | Err _ => True | Panic | Diverge => False end;
}.

Definition compress_grain `{Flate2} (data : bytes) (level : Z) : Result bytes :=
  _ ← map_err (fun e => Error.vmdk (fmt (lit "Failed to compress grain: {}") [io_text e]))
        (deflate_write level data);
  map_err (fun e => Error.vmdk (fmt (lit "Failed to finish compression: {}") [io_text e]))
    (deflate_finish level data).

(** ** The writer *)

Record StreamVmdkWriter (W : Type) := {
  svw_writer : W;
  svw_header : SparseExtentHeader;
  svw_current_pos : Z;
  svw_grain_offsets : gmap Z Z;
  svw_grain_size_bytes : Z;
}.
Arguments svw_writer {W} _.
Arguments svw_header {W} _.
Arguments svw_current_pos {W} _.
Arguments svw_grain_offsets {W} _.
Arguments svw_grain_size_bytes {W} _.
Arguments Build_StreamVmdkWriter {W} _ _ _ _ _.

Section setters.
  Context {W : Type}.
  Implicit Type s : StreamVmdkWriter W.

Definition set_svw_writer (w : W) s :=
  Build_StreamVmdkWriter w (svw_header s) (svw_current_pos s)
    (svw_grain_offsets s) (svw_grain_size_bytes s).
Definition set_svw_current_pos (p : Z) s :=
  Build_StreamVmdkWriter (svw_writer s) (svw_header s) p
    (svw_grain_offsets s) (svw_grain_size_bytes s).
Definition set_svw_grain_offsets (m : gmap Z Z) s :=
  Build_StreamVmdkWriter (svw_writer s) (svw_header s) (svw_current_pos s)
    m (svw_grain_size_bytes s).
End setters.

(** [while v.len() % SECTOR_SIZE != 0 { v.push(0) }]; at most 511 rounds. *)
Fixpoint pad_sector_rounds (fuel : nat) (v : bytes) : bytes :=
  match fuel with
  | O => v
  | S f => if zlen v mod SECTOR_SIZE =? 0 then v else pad_sector_rounds f (v ++ [0])
  end.

Definition pad_sector (v : bytes) : bytes := pad_sector_rounds 512 v.

(** [for e in es { v.extend_from_slice(&e.to_le_bytes()) }] on [u32]s. *)
Definition le_u32s (es : list Z) : bytes := es ≫= u32_le.

Section writer.
  Context `{Write W}.
  Abbreviation writer_m := (M (StreamVmdkWriter W) Error).

Definition StreamVmdkWriter_new (writer : W) (capacity_bytes : Z)
    : Result (StreamVmdkWriter W) :=
  let header := SparseExtentHeader_new capacity_bytes in
  let header_bytes := SparseExtentHeader_to_bytes header in
  let '(r, writer) := write_all header_bytes writer in
  _ ← map_err (fun e => Error.vmdk (fmt (lit "Failed to write VMDK header: {}") [io_text e])) r;
  let grain_size_bytes := seh_grain_size header * SECTOR_SIZE in
  Ok {| svw_writer := writer;
        svw_header := header;
        svw_current_pos := SECTOR_SIZE;
        svw_grain_offsets := ∅;
        svw_grain_size_bytes := grain_size_bytes |}.

  (** [self.writer.write_all(b).map_err(|e| Error::vmdk(format!(msg, e)))?]. *)
Definition svw_write_all (msg : string) (b : bytes) : writer_m () :=
  on_field svw_writer set_svw_writer
    (map_err_m (fun e => Error.vmdk (fmt (lit msg) [io_text e])) (write_all b)).

  (** [self.current_pos += n]. *)
Definition svw_advance (n : Z) : writer_m () :=
  modify (fun s => set_svw_current_pos (svw_current_pos s + n) s).

Definition write_grain (lba : Z) (compressed_data : bytes) : writer_m () :=
  s ← get;
  let grain_index := lba / seh_grain_size (svw_header s) in
  let marker := GrainMarker_new lba (as_u32 (zlen compressed_data)) in
  _ ← svw_write_all "Failed to write grain marker: {}" (GrainMarker_to_bytes marker);
  let grain_sector := svw_current_pos s / SECTOR_SIZE in
  _ ← modify (fun s => set_svw_grain_offsets (<[grain_index := grain_sector]> (svw_grain_offsets s)) s);
  _ ← svw_write_all "Failed to write grain data: {}" compressed_data;
  _ ← svw_advance (12 + zlen compressed_data);
  s ← get;
  let remainder := svw_current_pos s mod SECTOR_SIZE in
  if negb (remainder =? 0) then
    let padding := SECTOR_SIZE - remainder in
    let pad_bytes := zeros padding in
    _ ← svw_write_all "Failed to write padding: {}" pad_bytes;
    svw_advance padding
  else mret tt.

  (** The entries of one grain table. *)
Definition gt_entries_of (grain_offsets : gmap Z Z) (gt_index : Z) : list Z :=
  let gt_start_grain := gt_index * GT_ENTRIES_PER_GT in
  map (fun i =>
         match grain_offsets !! (gt_start_grain + i) with
         | Some offset => as_u32 offset
         | None => 0
         end) (seqZ 0 GT_ENTRIES_PER_GT).

  (** One round of the grain table loop of [finish]: the offset it pushes. *)
Definition finish_gt (gt_index : Z) : writer_m Z :=
  s ← get;
  let gt_entries := gt_entries_of (svw_grain_offsets s) gt_index in
  let has_entries := existsb (fun e => negb (e =? 0)) gt_entries in
  if negb has_entries then mret 0 else
  let gt_size_sectors := (GT_ENTRIES_PER_GT * 4 + SECTOR_SIZE - 1) / SECTOR_SIZE in
  let gt_marker := Marker_new GrainTable gt_size_sectors in
  _ ← svw_write_all "Failed to write GT marker: {}" (Marker_to_bytes gt_marker);
  s ← get;
  let gt_offset := (svw_current_pos s + SECTOR_SIZE) / SECTOR_SIZE in
  _ ← svw_advance SECTOR_SIZE;
  let gt_bytes := pad_sector (le_u32s gt_entries) in
  _ ← svw_write_all "Failed to write grain table: {}" gt_bytes;
  _ ← svw_advance (zlen gt_bytes);
  mret gt_offset.

Definition finish_body : writer_m () :=
  s ← get;
  let h := svw_header s in
  let total_grains := (seh_capacity h + seh_grain_size h - 1) / seh_grain_size h in
  let num_gts := (total_grains + GT_ENTRIES_PER_GT - 1) / GT_ENTRIES_PER_GT in
  gt_offsets ← mapM finish_gt (seqZ 0 num_gts);
  let gd_size_sectors := (num_gts * 4 + SECTOR_SIZE - 1) / SECTOR_SIZE in
  let gd_marker := Marker_new GrainDirectory gd_size_sectors in
  _ ← svw_write_all "Failed to write GD marker: {}" (Marker_to_bytes gd_marker);
  s ← get;
  let gd_offset := (svw_current_pos s + SECTOR_SIZE) / SECTOR_SIZE in
  _ ← svw_advance SECTOR_SIZE;
  let gd_bytes := pad_sector (le_u32s (map as_u32 gt_offsets)) in
  _ ← svw_write_all "Failed to write grain directory: {}" gd_bytes;
  _ ← svw_advance (zlen gd_bytes);
  let footer_marker := Marker_new Footer 1 in
  _ ← svw_write_all "Failed to write footer marker: {}" (Marker_to_bytes footer_marker);
  _ ← svw_advance SECTOR_SIZE;
  let footer := SparseExtentHeader_as_footer h gd_offset in
  _ ← svw_write_all "Failed to write footer: {}" (SparseExtentHeader_to_bytes footer);
  _ ← svw_advance SECTOR_SIZE;
  let eos_marker := Marker_new EndOfStream 0 in
  _ ← svw_write_all "Failed to write EOS marker: {}" (Marker_to_bytes eos_marker);
  on_field svw_writer set_svw_writer
    (map_err_m (fun e => Error.vmdk (fmt (lit "Failed to flush VMDK: {}") [io_text e])) flush).

  (** [StreamVmdkWriter::finish] consumes the writer and returns the inner one. *)
Definition StreamVmdkWriter_finish (s : StreamVmdkWriter W) : Result W :=
  let '(r, s') := finish_body s in
  _ ← r; Ok (svw_writer s').
End writer.

Definition grain_size_bytes {W} (s : StreamVmdkWriter W) : Z := svw_grain_size_bytes s.
Definition capacity_bytes {W} (s : StreamVmdkWriter W) : Z :=
  seh_capacity (svw_header s) * SECTOR_SIZE.
