(* ===== verification/Sparse.v ===== *)
(** * Sparse: [vmdk/sparse.rs], the reader of hosted sparse VMDKs

    Header parsing, the grain directory, [read_grain] and the chunk iterator
    over the virtual disk. *)
From S2P Require Export Fs Stream.

Definition FLAG_COMPRESSED : Z := Z.shiftl 1 16.
Definition FLAG_MARKERS : Z := Z.shiftl 1 17.

Record SparseHeader := {
  sh_version : Z;
  sh_flags : Z;
  sh_capacity : Z;
  sh_grain_size : Z;
  sh_descriptor_offset : Z;
  sh_descriptor_size : Z;
  sh_num_gtes_per_gt : Z;
  sh_gd_offset : Z;
}.

(** [{:X}]. *)
Definition show_hex_upper (n : Z) : str :=
  map (fun c => if 97 <=? c then c - 32 else c) (show_radix 16 n).

Definition SparseHeader_from_bytes (data : bytes) : Result SparseHeader :=
  if zlen data <? 512 then Err (Error.vmdk (lit "Sparse header too short")) else
  magic ← read_u32 0 data;
  if negb (magic =? VMDK_MAGIC) then
    Err (Error.vmdk (fmt (lit "Invalid VMDK magic: expected 0x{}, got 0x{}")
                       [show_hex_upper VMDK_MAGIC; show_hex_upper magic]))
  else
  version ← read_u32 4 data;
  flags ← read_u32 8 data;
  capacity ← read_u64 12 data;
  grain_size ← read_u64 20 data;
  descriptor_offset ← read_u64 28 data;
  descriptor_size ← read_u64 36 data;
  num_gtes_per_gt ← read_u32 44 data;
  gd_offset ← read_u64 56 data;
  Ok {| sh_version := version;
        sh_flags := flags;
        sh_capacity := capacity;
        sh_grain_size := grain_size;
        sh_descriptor_offset := descriptor_offset;
        sh_descriptor_size := descriptor_size;
        sh_num_gtes_per_gt := num_gtes_per_gt;
        sh_gd_offset := gd_offset |}.

Definition is_compressed (h : SparseHeader) : bool :=
  negb (Z.land (sh_flags h) FLAG_COMPRESSED =? 0).

Definition has_markers (h : SparseHeader) : bool :=
  negb (Z.land (sh_flags h) FLAG_MARKERS =? 0).

Section sparse.
  Context `{BuildProfile}.

Definition num_gd_entries {E} (h : SparseHeader) : outcome E Z :=
  t ← add_u64 (sh_capacity h) (sh_grain_size h);
  t ← sub_u64 t 1;
  grains_total ← div_u64 t (sh_grain_size h);
  t ← add_u64 grains_total (sh_num_gtes_per_gt h);
  t ← sub_u64 t 1;
  div_u64 t (sh_num_gtes_per_gt h).

Record SparseVmdkReader := {
  svr_mmap : bytes;
  svr_header : SparseHeader;
  svr_grain_directory : list Z;
  svr_capacity_bytes : Z;
}.

  (** [SparseVmdkReader::open] once the file is mapped. *)
Definition SparseVmdkReader_from_mmap (mmap : bytes) : Result SparseVmdkReader :=
  header ← SparseHeader_from_bytes mmap;
  if 3 <? sh_version header then
    Err (Error.vmdk (fmt (lit "Unsupported sparse VMDK version: {}")
                       [show_dec (sh_version header)]))
  else if has_markers header then
    Err (Error.vmdk
      (lit "StreamOptimized VMDKs with markers are not supported for reading. Please use a flat or hosted sparse VMDK."))
  else
  gd_offset_bytes ← mul_u64 (sh_gd_offset header) SECTOR_SIZE;
  num_gd_entries ← num_gd_entries header;
  gd_len ← mul_u64 num_gd_entries 4;
  gd_end ← add_u64 gd_offset_bytes gd_len;
  if zlen mmap <? gd_end then Err (Error.vmdk (lit "Grain directory extends beyond file"))
  else
  grain_directory ← mapM (fun i =>
      offset ← add_u64 gd_offset_bytes (i * 4);
      read_u32 offset mmap) (seqZ 0 num_gd_entries);
  capacity_bytes ← mul_u64 (sh_capacity header) SECTOR_SIZE;
  Ok {| svr_mmap := mmap;
        svr_header := header;
        svr_grain_directory := grain_directory;
        svr_capacity_bytes := capacity_bytes |}.

Definition SparseVmdkReader_open `{FileSystem} (path : str) : Result SparseVmdkReader :=
  file ← map_err (fun e => Error.io e path) (file_open path);
  mmap ← map_err (fun e => Error.io e path) (mmap_map file);
  SparseVmdkReader_from_mmap mmap.

Definition capacity (r : SparseVmdkReader) : Z := svr_capacity_bytes r.

Definition svr_grain_size_bytes {E} (r : SparseVmdkReader) : outcome E Z :=
  mul_u64 (sh_grain_size (svr_header r)) SECTOR_SIZE.

Definition read_compressed_grain `{Flate2} (r : SparseVmdkReader) (offset uncompressed_size : Z)
    : Result bytes :=
  if zlen (svr_mmap r) <? offset + 12 then
    Err (Error.vmdk (lit "Compressed grain header extends beyond file"))
  else
  compressed_size ← read_u32 (offset + 8) (svr_mmap r);
  let data_offset := offset + 12 in
  if zlen (svr_mmap r) <? data_offset + compressed_size then
    Err (Error.vmdk (lit "Compressed grain data extends beyond file"))
  else
  compressed_data ← read_slice data_offset (data_offset + compressed_size) (svr_mmap r);
  map_err (fun e => Error.vmdk (fmt (lit "Failed to decompress grain: {}") [io_text e]))
    (inflate uncompressed_size compressed_data).

Definition read_grain `{Flate2} (r : SparseVmdkReader) (grain_index : Z) : Result bytes :=
  grain_size_bytes ← svr_grain_size_bytes r;
  let gtes_per_gt := sh_num_gtes_per_gt (svr_header r) in
  gt_index ← div_u64 grain_index gtes_per_gt;
  gte_index ← rem_u64 grain_index gtes_per_gt;
  match svr_grain_directory r !! Z.to_nat gt_index with
  | None => Ok (zeros grain_size_bytes)
  | Some gt_offset_sectors =>
      if gt_offset_sectors =? 0 then Ok (zeros grain_size_bytes) else
      let gt_offset_bytes := gt_offset_sectors * SECTOR_SIZE in
      let gte_offset := gt_offset_bytes + gte_index * 4 in
      if zlen (svr_mmap r) <? gte_offset + 4 then
        Err (Error.vmdk (lit "Grain table entry extends beyond file"))
      else
      grain_offset_sectors ← read_u32 gte_offset (svr_mmap r);
      if grain_offset_sectors =? 0 then Ok (zeros grain_size_bytes) else
      let grain_offset_bytes := grain_offset_sectors * SECTOR_SIZE in
      if is_compressed (svr_header r) then
        read_compressed_grain r grain_offset_bytes grain_size_bytes
      else
        end_ ← add_u64 grain_offset_bytes grain_size_bytes;
        if zlen (svr_mmap r) <? end_ then Err (Error.vmdk (lit "Grain extends beyond file"))
        else read_slice grain_offset_bytes end_ (svr_mmap r)
  end.

(** ** The chunk iterator *)

Record SparseChunkIterator := {
  sci_reader : SparseVmdkReader;
  sci_chunk_size : Z;
  sci_current_offset : Z;
}.

Definition SparseChunkIterator_new (reader : SparseVmdkReader) (chunk_size : Z) : SparseChunkIterator :=
  {| sci_reader := reader; sci_chunk_size := chunk_size; sci_current_offset := 0 |}.

Definition sparse_chunks (r : SparseVmdkReader) (chunk_size : Z) : SparseChunkIterator :=
  SparseChunkIterator_new r chunk_size.

Definition sparse_count_chunks {E} (it : SparseChunkIterator) : outcome E Z :=
  let cap := svr_capacity_bytes (sci_reader it) in
  if cap =? 0 then Ok 0 else
  full_chunks ← div_u64 cap (sci_chunk_size it);
  remainder ← rem_u64 cap (sci_chunk_size it);
  Ok (full_chunks + if 0 <? remainder then 1 else 0).

  (** The [while bytes_read < chunk_len] loop of [next]; a round that goes on
      reads at least one byte, so [chunk_len] bounds the rounds. *)
Fixpoint read_chunk_loop `{Flate2} (fuel : nat) (r : SparseVmdkReader)
    (current_offset chunk_len grain_size_bytes bytes_read : Z) (chunk_data : bytes)
    : Result bytes :=
  if chunk_len <=? bytes_read then Ok chunk_data else
  match fuel with
  | O => Diverge
  | S f =>
      let current_pos := current_offset + bytes_read in
      grain_index ← div_u64 current_pos grain_size_bytes;
      offset_in_grain ← rem_u64 current_pos grain_size_bytes;
      grain_data ← read_grain r grain_index;
      let bytes_needed := chunk_len - bytes_read in
      let bytes_available := grain_size_bytes - offset_in_grain in
      let bytes_to_take := Z.min bytes_needed bytes_available in
      part ← read_slice offset_in_grain (offset_in_grain + bytes_to_take) grain_data;
      read_chunk_loop f r current_offset chunk_len grain_size_bytes
        (bytes_read + bytes_to_take) (chunk_data ++ part)
  end.

Definition SparseChunkIterator_next `{Flate2} : M SparseChunkIterator Error (option bytes) :=
  it ← get;
  let r := sci_reader it in
  if svr_capacity_bytes r <=? sci_current_offset it then mret None else
  let remaining := svr_capacity_bytes r - sci_current_offset it in
  let chunk_len := Z.min remaining (sci_chunk_size it) in
  grain_size_bytes ← lift (svr_grain_size_bytes r);
  chunk_data ← lift (read_chunk_loop (Z.to_nat chunk_len) r (sci_current_offset it)
                       chunk_len grain_size_bytes 0 []);
  _ ← modify (fun it =>
        {| sci_reader := sci_reader it; sci_chunk_size := sci_chunk_size it;
           sci_current_offset := sci_current_offset it + chunk_len |});
  mret (Some chunk_data).
End sparse.

(** ** [is_sparse_vmdk]: the magic number at the start of a file *)

Definition has_sparse_magic (file : bytes) : bool :=
  if zlen file <? 4 then false else le_val (ztake 4 file) =? VMDK_MAGIC.

Definition is_sparse_vmdk `{FileSystem} (path : str) : Result bool :=
  file ← map_err (fun e => Error.io e path) (file_open path);
  Ok (has_sparse_magic file).
