(* ===== verification/StreamSpec.v ===== *)
(** * StreamSpec: what a streamOptimized VMDK promises, and that the writer
    implements it

    [stream_lookup] is a reader of the format: it goes from the footer to the
    grain directory, to a grain table, to a grain marker and its data, and
    checks the markers on the way.  The abstract state of the writer is the
    map from grain indices to the grain last written there; [rep] relates the
    two, every operation preserves it, and a finished file gives the reader
    exactly that map. *)
From S2P Require Export Sparse.

(** ** The serialised structures *)

(** [fields] rewrites a buffer filled from left to right into the
    concatenation of its fields. *)
Ltac fields :=
  change (zeros SECTOR_SIZE) with ([] ++ zeros 512);
  repeat (rewrite put_at_zeros by (zlens; cbn; lia));
  zlens; cbn [Z.of_nat].

(** [field_at] selects a field of such a concatenation. *)
Ltac field_at :=
  rewrite <- ?app_assoc;
  repeat (erewrite zslice_skip; [|zlens; reflexivity|lia]; cbn [Z.sub Z.add Z.opp Z.of_nat Z.pos_sub Pos.pred_double Pos.of_succ_nat Pos.succ]);
  rewrite zslice_head by (zlens; reflexivity).

Lemma SparseExtentHeader_layout h :
  SparseExtentHeader_to_bytes h =
  u32_le (seh_magic h) ++ u32_le (seh_version h) ++ u32_le (seh_flags h) ++
  u64_le (seh_capacity h) ++ u64_le (seh_grain_size h) ++
  u64_le (seh_descriptor_offset h) ++ u64_le (seh_descriptor_size h) ++
  u32_le (seh_num_gtes_per_gt h) ++ u64_le (seh_rgd_offset h) ++
  u64_le (seh_gd_offset h) ++ u64_le (seh_overhead h) ++
  [seh_unclean_shutdown h] ++ [fst (fst (fst (seh_newline_chars h)))] ++
  [snd (fst (fst (seh_newline_chars h)))] ++ [snd (fst (seh_newline_chars h))] ++
  [snd (seh_newline_chars h)] ++ u16_le (seh_compress_algorithm h) ++ zeros 433.
Proof.
  unfold SparseExtentHeader_to_bytes. destruct (seh_newline_chars h) as [[[n0 n1] n2] n3].
  cbv zeta. fields. cbn [fst snd]. by rewrite <- !app_assoc.
Qed.

(** The ranges of the header's Rust types. *)
Record header_wf (h : SparseExtentHeader) : Prop := {
  hw_magic : is_u32 (seh_magic h);
  hw_version : is_u32 (seh_version h);
  hw_flags : is_u32 (seh_flags h);
  hw_capacity : is_u64 (seh_capacity h);
  hw_grain_size : is_u64 (seh_grain_size h);
  hw_descriptor_offset : is_u64 (seh_descriptor_offset h);
  hw_descriptor_size : is_u64 (seh_descriptor_size h);
  hw_num_gtes : is_u32 (seh_num_gtes_per_gt h);
  hw_gd_offset : is_u64 (seh_gd_offset h);
}.

(** The header the sparse reader parses out of a serialised header. *)
Definition parsed_header (h : SparseExtentHeader) : SparseHeader :=
  {| sh_version := seh_version h;
     sh_flags := seh_flags h;
     sh_capacity := seh_capacity h;
     sh_grain_size := seh_grain_size h;
     sh_descriptor_offset := seh_descriptor_offset h;
     sh_descriptor_size := seh_descriptor_size h;
     sh_num_gtes_per_gt := seh_num_gtes_per_gt h;
     sh_gd_offset := seh_gd_offset h |}.

Lemma zlen_header h : zlen (SparseExtentHeader_to_bytes h) = 512.
Proof. rewrite SparseExtentHeader_layout. by zlens. Qed.

Lemma zlen_marker m : zlen (Marker_to_bytes m) = 512.
Proof. unfold Marker_to_bytes. cbv zeta. fields. lia. Qed.

Lemma zlen_grain_marker m : zlen (GrainMarker_to_bytes m) = 12.
Proof.
  unfold GrainMarker_to_bytes. cbv zeta. change (zeros 12) with ([] ++ zeros 12). fields. lia.
Qed.

#[export] Hint Rewrite zlen_header zlen_marker zlen_grain_marker : zlen.

Lemma Marker_layout m :
  Marker_to_bytes m =
  u64_le (m_num_sectors m) ++ u32_le (m_size m)
  ++ u32_le (MarkerType_as_u32 (m_marker_type m)) ++ zeros 496.
Proof. unfold Marker_to_bytes. cbv zeta. fields. by rewrite <- !app_assoc. Qed.

Lemma GrainMarker_layout m :
  GrainMarker_to_bytes m = u64_le (gm_lba m) ++ u32_le (gm_size m).
Proof.
  unfold GrainMarker_to_bytes. cbv zeta. change (zeros 12) with ([] ++ zeros 12). fields.
  by rewrite app_nil_r.
Qed.

#[local] Opaque SparseExtentHeader_to_bytes Marker_to_bytes GrainMarker_to_bytes.

Ltac read_field :=
  rewrite read_le_ok by (zlens; zlen_pos; lia); cbn [Z.of_nat Pos.of_succ_nat Pos.succ];
  field_at.

(** Every field the sparse reader reads comes back from the serialised header. *)
Lemma header_reads {E} h rest :
  header_wf h ->
  let buf := SparseExtentHeader_to_bytes h ++ rest in
  read_u32 0 buf =@{outcome E Z} Ok (seh_magic h) /\
  read_u32 4 buf =@{outcome E Z} Ok (seh_version h) /\
  read_u32 8 buf =@{outcome E Z} Ok (seh_flags h) /\
  read_u64 12 buf =@{outcome E Z} Ok (seh_capacity h) /\
  read_u64 20 buf =@{outcome E Z} Ok (seh_grain_size h) /\
  read_u64 28 buf =@{outcome E Z} Ok (seh_descriptor_offset h) /\
  read_u64 36 buf =@{outcome E Z} Ok (seh_descriptor_size h) /\
  read_u32 44 buf =@{outcome E Z} Ok (seh_num_gtes_per_gt h) /\
  read_u64 56 buf =@{outcome E Z} Ok (seh_gd_offset h).
Proof.
  intros [] buf. subst buf. rewrite SparseExtentHeader_layout.
  split_and!; read_field; rewrite ?le_val_u32, ?le_val_u64 by done; reflexivity.
Qed.

(** A serialised header parses back, whatever follows it. *)
Lemma header_parse h rest :
  header_wf h ->
  SparseHeader_from_bytes (SparseExtentHeader_to_bytes h ++ rest) =
  if seh_magic h =? VMDK_MAGIC then Ok (parsed_header h)
  else Err (Error.vmdk (fmt (lit "Invalid VMDK magic: expected 0x{}, got 0x{}")
                          [show_hex_upper VMDK_MAGIC; show_hex_upper (seh_magic h)])).
Proof.
  intros Hw. unfold SparseHeader_from_bytes.
  destruct (header_reads (E := Error) h rest Hw) as (-> & -> & -> & -> & -> & -> & -> & -> & ->).
  destruct (Z.ltb_spec (zlen (SparseExtentHeader_to_bytes h ++ rest)) 512); [zsolve|].
  cbn [mbind outcome_bind]. by destruct (seh_magic h =? VMDK_MAGIC).
Qed.

(** ** The format specification *)

(** A marker sector of the given type. *)
Definition expect_marker (t : MarkerType) (off : Z) (file : bytes) : Result () :=
  ty ← read_u32 (off + 12) file;
  if ty =? MarkerType_as_u32 t then Ok tt else Err (Error.vmdk (lit "marker expected")).

(** The grain a reader finds at a grain index: the LBA its marker names and
    its compressed data, [None] where no grain is allocated. *)
Definition stream_lookup (file : bytes) (grain_index : Z) : Result (option (Z * bytes)) :=
  _ ← expect_marker EndOfStream (zlen file - 512) file;
  footer ← SparseHeader_from_bytes (zslice (zlen file - 1024) 512 file);
  _ ← expect_marker Footer (zlen file - 1536) file;
  _ ← expect_marker GrainDirectory ((sh_gd_offset footer - 1) * SECTOR_SIZE) file;
  let gt_index := grain_index / sh_num_gtes_per_gt footer in
  gt_offset ← read_u32 (sh_gd_offset footer * SECTOR_SIZE + 4 * gt_index) file;
  if gt_offset =? 0 then Ok None else
  _ ← expect_marker GrainTable ((gt_offset - 1) * SECTOR_SIZE) file;
  let gte_index := grain_index mod sh_num_gtes_per_gt footer in
  grain_offset ← read_u32 (gt_offset * SECTOR_SIZE + 4 * gte_index) file;
  if grain_offset =? 0 then Ok None else
  lba ← read_u64 (grain_offset * SECTOR_SIZE) file;
  size ← read_u32 (grain_offset * SECTOR_SIZE + 8) file;
  let start := grain_offset * SECTOR_SIZE + 12 in
  data ← read_slice start (start + size) file;
  Ok (Some (lba, data)).

(** The capacities, in sectors, that the header and the footer announce. *)
Definition stream_capacities (file : bytes) : Result (Z * Z) :=
  header ← read_u64 12 file;
  footer ← read_u64 (zlen file - 1024 + 12) file;
  Ok (header, footer).

(** [block_at off b file]: the bytes [b] are in the file at [off]. *)
Definition block_at (off : Z) (b file : bytes) : Prop :=
  0 <= off /\ off + zlen b <= zlen file /\ zslice off (zlen b) file = b.

Lemma block_at_app off b file ext : block_at off b file -> block_at off b (file ++ ext).
Proof.
  intros (H1 & H2 & H3). pose proof (zlen_nonneg b). pose proof (zlen_nonneg ext).
  split_and!; [done|zsolve|]. by rewrite zslice_app_l by lia.
Qed.

Lemma block_at_end file b ext : block_at (zlen file) b (file ++ b ++ ext).
Proof.
  pose proof (zlen_nonneg file). split_and!; [done|zsolve|]. by apply zslice_mid.
Qed.

Lemma block_at_self b : block_at 0 b b.
Proof. split_and!; [lia|lia|by apply zslice_all]. Qed.

Lemma block_at_sub off p b q file :
  block_at off (p ++ b ++ q) file -> block_at (off + zlen p) b file.
Proof.
  intros (H1 & H2 & H3). zlens. zlen_pos. split_and!; [lia|lia|].
  rewrite <- (zslice_zslice off (zlen p + (zlen b + zlen q))) by lia.
  rewrite H3. by apply zslice_mid.
Qed.

Lemma read_block {E} n off v file :
  block_at off (le_bytes n v) file ->
  read_le n off file =@{outcome E Z} Ok (v mod 256 ^ Z.of_nat n).
Proof.
  intros (H1 & H2 & H3). rewrite zlen_le_bytes in *.
  rewrite read_le_ok by lia. by rewrite H3, le_val_bytes.
Qed.

Lemma expect_marker_ok t m off file :
  block_at off (Marker_to_bytes m) file -> m_marker_type m = t ->
  expect_marker t off file = Ok tt.
Proof.
  intros Hb <-. unfold expect_marker. rewrite Marker_layout in Hb.
  rewrite app_assoc in Hb. apply block_at_sub in Hb.
  rewrite zlen_app, !zlen_le_bytes in Hb. erewrite read_block by exact Hb.
  cbn [mbind outcome_bind].
  destruct (m_marker_type m); reflexivity.
Qed.

(** ** The abstract state and its representation *)

Abbreviation grain_map := (gmap Z (Z * bytes)).

Definition grain_bytes (lba : Z) (data : bytes) : bytes :=
  GrainMarker_to_bytes (GrainMarker_new lba (as_u32 (zlen data))) ++ data.

(** The specification of [write_grain]: the last grain written at an index. *)
Definition spec_write_grain (lba : Z) (data : bytes) (m : grain_map) : grain_map :=
  <[lba / DEFAULT_GRAIN_SIZE := (lba, data)]> m.

(** Projections of an updated writer. *)
Ltac svw :=
  cbn [svw_writer svw_header svw_current_pos svw_grain_offsets svw_grain_size_bytes
       set_svw_writer set_svw_current_pos set_svw_grain_offsets] in *.

Section refinement.
  Context `{WriteLaws W}.
  Implicit Types s : StreamVmdkWriter W.

  (** The output so far and the recorded position agree, on a sector boundary. *)
Definition synced s : Prop :=
  wf_writer (svw_writer s) /\
  svw_current_pos s = zlen (contents (svw_writer s)) /\
  svw_current_pos s mod SECTOR_SIZE = 0.

Definition offsets_rep (file : bytes) (offsets : gmap Z Z) (m : grain_map) : Prop :=
  forall gi,
    match offsets !! gi, m !! gi with
    | Some sec, Some (lba, data) => 0 < sec /\ block_at (sec * SECTOR_SIZE) (grain_bytes lba data) file
    | None, None => True
    | _, _ => False
    end.

Record rep (cap : Z) (m : grain_map) s : Prop := {
  rep_synced : synced s;
  rep_header : svw_header s = SparseExtentHeader_new cap;
  rep_start : block_at 0 (SparseExtentHeader_to_bytes (SparseExtentHeader_new cap))
                (contents (svw_writer s));
  rep_offsets : offsets_rep (contents (svw_writer s)) (svw_grain_offsets s) m;
}.

Lemma offsets_rep_app file ext offsets m :
  offsets_rep file offsets m -> offsets_rep (file ++ ext) offsets m.
Proof.
  intros Hr gi. specialize (Hr gi).
  destruct (offsets !! gi), (m !! gi) as [[]|]; try done.
  destruct Hr. auto using block_at_app.
Qed.

Lemma svw_write_all_Ok msg b s u s' :
  wf_writer (svw_writer s) -> svw_write_all msg b s = (Ok u, s') ->
  exists w, s' = set_svw_writer w s /\ wf_writer w /\
            contents w = contents (svw_writer s) ++ b.
Proof.
  intros Hw Hr. unfold svw_write_all in Hr. inv_m. eexists; split; [done|].
  by eapply write_all_Ok.
Qed.

(** Creating a writer on an empty output represents the empty disk. *)
Lemma StreamVmdkWriter_new_Ok w cap s :
  wf_writer w -> contents w = [] ->
  StreamVmdkWriter_new w cap = Ok s ->
  rep cap ∅ s /\ contents (svw_writer s) = SparseExtentHeader_to_bytes (SparseExtentHeader_new cap).
Proof.
  intros Hw Hc. unfold StreamVmdkWriter_new.
  destruct (write_all _ w) as [r w'] eqn:Ew. intros Hr. inv_ok. subst.
  apply write_all_Ok in Ew as [Hw' Hc']; [|done]. rewrite Hc in Hc'. cbn [app] in Hc'.
  split; [|done]. split; cbn.
  - split_and!; cbn; [done|by rewrite Hc', zlen_header|done].
  - done.
  - rewrite Hc'. apply block_at_self.
  - intros gi. by rewrite !lookup_empty.
Qed.

(** [step_m] runs one write of a successful execution. *)
Ltac step_m :=
  match goal with
  | H : svw_advance _ _ = (Ok _, _) |- _ => unfold svw_advance in H; inv_m
  | H : svw_write_all _ _ _ = (Ok _, _) |- _ =>
      let w := fresh "w" in let Hw := fresh "Hw" in let Hc := fresh "Hc" in
      apply svw_write_all_Ok in H as (w & -> & Hw & Hc); [|by svw];
      svw
  end.

Lemma write_grain_Ok lba data s u s' :
  synced s -> seh_grain_size (svw_header s) = DEFAULT_GRAIN_SIZE ->
  write_grain lba data s = (Ok u, s') ->
  synced s' /\ svw_header s' = svw_header s /\
  svw_grain_offsets s' =
    <[lba / DEFAULT_GRAIN_SIZE := svw_current_pos s / SECTOR_SIZE]> (svw_grain_offsets s) /\
  contents (svw_writer s') = contents (svw_writer s) ++ grain_bytes lba data
    ++ zeros (pad_len SECTOR_SIZE (12 + zlen data)).
Proof.
  intros (Hw & Hp & Ha) Hh Hr. unfold write_grain in Hr. inv_m.
  repeat step_m. rewrite Hh in *.
  set (body := 12 + zlen data) in *.
  assert (Hmod : (svw_current_pos st + body) mod SECTOR_SIZE = body mod SECTOR_SIZE).
  { rewrite Z.add_mod, Ha, Z.add_0_l, Zmod_mod by done. done. }
  rewrite Hmod in *. unfold grain_bytes. rewrite <- app_assoc.
  destruct (Z.eqb_spec (body mod SECTOR_SIZE) 0) as [E|E]; cbn [negb] in Hm6; inv_m; svw.
  - rewrite pad_len_aligned by done. change (zeros 0) with (@nil Z). rewrite app_nil_r.
    split_and!; [|done|done|by rewrite Hc0, Hc, <- app_assoc].
    split_and!; svw; [done| |by rewrite Hmod].
    rewrite Hc0, Hc. subst body. zsolve.
  - repeat step_m. rewrite pad_len_unaligned by done.
    pose proof (Z.mod_pos_bound body SECTOR_SIZE ltac:(done)).
    split_and!; [|done|done|by rewrite Hc1, Hc0, Hc, <- !app_assoc].
    split_and!; svw; [done| |].
    + rewrite Hc1, Hc0, Hc. subst body. zlens. lia.
    + replace (svw_current_pos st + body + (SECTOR_SIZE - body mod SECTOR_SIZE))
        with (svw_current_pos st + (body + pad_len SECTOR_SIZE body))
        by (rewrite pad_len_unaligned; lia || done).
      by rewrite Z.add_mod, Ha, pad_len_aligns by done.
Qed.

Lemma synced_sector s :
  synced s -> svw_current_pos s / SECTOR_SIZE * SECTOR_SIZE = zlen (contents (svw_writer s)).
Proof.
  intros (_ & <- & Ha). pose proof (Z.div_mod (svw_current_pos s) SECTOR_SIZE). unfold SECTOR_SIZE in *. lia.
Qed.

Lemma sector_after p :
  (p + SECTOR_SIZE) / SECTOR_SIZE = p / SECTOR_SIZE + 1.
Proof. rewrite <- (Z.mul_1_l SECTOR_SIZE) at 1. by apply Z.div_add. Qed.

(** One write preserves the representation. *)
Lemma write_grain_rep cap m lba data s u s' :
  rep cap m s -> write_grain lba data s = (Ok u, s') ->
  rep cap (spec_write_grain lba data m) s'.
Proof.
  intros [Hs Hh Hst Ho] Hr.
  apply write_grain_Ok in Hr as (Hs' & Hh' & Ho' & Hc); [|done|by rewrite Hh].
  pose proof (synced_sector _ Hs) as Hsec.
  assert (Hpos : 512 <= zlen (contents (svw_writer s))) by (destruct Hst as (_ & Hl & _); zlens; lia).
  split; [done|by rewrite Hh'|rewrite Hc; by apply block_at_app|].
  rewrite Ho', Hc. unfold spec_write_grain. intros gi.
  rewrite !lookup_insert. case_decide.
  - split; [unfold SECTOR_SIZE in *; lia|]. rewrite Hsec. apply block_at_end.
  - by apply offsets_rep_app.
Qed.

(** ** Finishing *)

Definition gt_bytes_of (offsets : gmap Z Z) (gt_index : Z) : bytes :=
  le_u32s (gt_entries_of offsets gt_index).

Lemma pad_sector_spec v : pad_sector v = v ++ zeros (pad_len SECTOR_SIZE (zlen v)).
Proof.
  unfold pad_sector.
  assert (forall fuel v, pad_len SECTOR_SIZE (zlen v) <= Z.of_nat fuel ->
    pad_sector_rounds fuel v = v ++ zeros (pad_len SECTOR_SIZE (zlen v))) as Hgen.
  { induction fuel as [|fuel IH]; intros x Hf; cbn [pad_sector_rounds].
    - pose proof (pad_len_range SECTOR_SIZE (zlen x) ltac:(done)).
      replace (pad_len SECTOR_SIZE (zlen x)) with 0 by lia. by rewrite app_nil_r.
    - destruct (Z.eqb_spec (zlen x mod SECTOR_SIZE) 0).
      { rewrite pad_len_aligned by done. by rewrite app_nil_r. }
      assert (Hx : pad_len SECTOR_SIZE (zlen x) = 1 + pad_len SECTOR_SIZE (zlen (x ++ [0]))).
      { rewrite (pad_len_step SECTOR_SIZE (zlen x)) by done. by rewrite zlen_app. }
      rewrite IH by lia. rewrite <- app_assoc, Hx.
      pose proof (pad_len_range SECTOR_SIZE (zlen (x ++ [0])) ltac:(done)).
      by rewrite <- zrep_app by lia. }
  apply Hgen. pose proof (pad_len_range SECTOR_SIZE (zlen v) ltac:(done)).
  unfold SECTOR_SIZE in *. lia.
Qed.

Lemma zlen_gt_bytes offsets gi : zlen (gt_bytes_of offsets gi) = 2048.
Proof.
  unfold gt_bytes_of, le_u32s. rewrite (zlen_records u32_le 4) by (intros; apply zlen_le_bytes).
  unfold gt_entries_of. rewrite zlen_map. reflexivity.
Qed.

#[local] Opaque pad_sector gt_bytes_of gt_entries_of le_u32s.

(** Where [finish] has put the grain table [gi]: nowhere if it has no entry,
    behind its marker at sector [o] otherwise. *)
Definition gt_placed (file : bytes) (offsets : gmap Z Z) (gi o : Z) : Prop :=
  (o = 0 /\ Forall (eq 0) (gt_entries_of offsets gi)) \/
  (0 < o /\
   block_at ((o - 1) * SECTOR_SIZE) (Marker_to_bytes (Marker_new GrainTable 4)) file /\
   block_at (o * SECTOR_SIZE) (gt_bytes_of offsets gi) file).

Lemma gt_placed_app file ext offsets gi o :
  gt_placed file offsets gi o -> gt_placed (file ++ ext) offsets gi o.
Proof.
  intros [?|(H1 & H2 & H3)]; [by left|right]. auto using block_at_app.
Qed.

(** What the stages of [finish] have in common: they append to the output and
    leave the header and the grain offsets alone. *)
Definition extends s s' : Prop :=
  synced s' /\ svw_header s' = svw_header s /\
  svw_grain_offsets s' = svw_grain_offsets s /\
  exists ext, contents (svw_writer s') = contents (svw_writer s) ++ ext.

Lemma extends_trans s1 s2 s3 : extends s1 s2 -> extends s2 s3 -> extends s1 s3.
Proof.
  intros (? & ? & ? & e1 & E1) (? & ? & ? & e2 & E2).
  split_and!; [done|congruence|congruence|]. exists (e1 ++ e2). by rewrite E2, E1, app_assoc.
Qed.

Lemma finish_gt_Ok gi s o s' :
  synced s -> finish_gt gi s = (Ok o, s') ->
  extends s s' /\ gt_placed (contents (svw_writer s')) (svw_grain_offsets s) gi o.
Proof.
  intros Hs Hr. pose proof (synced_sector _ Hs) as Hsec. destruct Hs as (Hw & Hp & Ha).
  unfold finish_gt in Hr. inv_m.
  destruct (existsb _ _) eqn:Ee; cbn [negb] in *; inv_m.
  - repeat step_m.
    change (le_u32s (gt_entries_of (svw_grain_offsets st) gi))
      with (gt_bytes_of (svw_grain_offsets st) gi) in *.
    pose proof (zlen_gt_bytes (svw_grain_offsets st) gi) as Hgl.
    rewrite pad_sector_spec, Hgl in *. change (pad_len SECTOR_SIZE 2048) with 0 in *.
    rewrite app_nil_r in *.
    pose proof (sector_after (svw_current_pos st)) as Ho.
    assert (Hge : 0 <= svw_current_pos st) by (rewrite Hp; apply zlen_nonneg).
    assert (0 <= svw_current_pos st / SECTOR_SIZE) by (by apply Z.div_pos).
    split.
    + split_and!; svw; [|done|done|].
      * split_and!; svw; [done|rewrite Hc0, Hc; zlens; unfold SECTOR_SIZE; lia|].
        by rewrite Z.add_mod, (Z.add_mod (svw_current_pos st)), Ha, Hgl by done.
      * rewrite Hc0, Hc, <- app_assoc. by eexists.
    + right. rewrite Ho, Z.add_simpl_r, Z.mul_add_distr_r, Hsec, Z.mul_1_l, Hc0, Hc.
      split_and!; [lia|rewrite <- app_assoc; apply block_at_end|].
      pose proof (block_at_end (contents (svw_writer st) ++
        Marker_to_bytes (Marker_new GrainTable 4)) (gt_bytes_of (svw_grain_offsets st) gi) []) as Hb.
      rewrite app_nil_r in Hb. by rewrite zlen_app, zlen_marker in Hb.
  - split; [split_and!; [done|done|done|exists []; by rewrite app_nil_r]|].
    left. split; [done|]. apply Forall_forall. intros e He.
    apply Bool.not_true_iff_false in Ee. rewrite existsb_exists in Ee.
    destruct (Z.eqb_spec e 0); [done|]. destruct Ee. exists e. split; [by apply list_elem_of_In|].
    by destruct (Z.eqb_spec e 0).
Qed.

Lemma finish_gts_Ok l s os s' :
  synced s -> mapM finish_gt l s = (Ok os, s') ->
  extends s s' /\
  Forall2 (gt_placed (contents (svw_writer s')) (svw_grain_offsets s)) l os.
Proof.
  revert s os. induction l as [|gi l IH]; intros s os Hs Hr; cbn in Hr; inv_m.
  - split; [|constructor]. split_and!; [done..|]. exists []. by rewrite app_nil_r.
  - apply finish_gt_Ok in Hm as (He & Hpl); [|done].
    apply IH in Hm1 as (He' & HF); [|apply He].
    pose proof He' as (_ & _ & Hoff & ext & Hext). destruct He as (? & ? & Hoff0 & ?).
    split; [by eapply extends_trans|]. rewrite Hoff0 in HF. constructor; [|done].
    rewrite Hext. by apply gt_placed_app.
Qed.

(** The number of grain tables [finish] writes for a disk of [cap] bytes. *)
Definition num_gts_of (cap : Z) : Z :=
  ((cap / SECTOR_SIZE + DEFAULT_GRAIN_SIZE - 1) / DEFAULT_GRAIN_SIZE
   + GT_ENTRIES_PER_GT - 1) / GT_ENTRIES_PER_GT.

(** The tail of a finished file behind its grains and grain tables [body]. *)
Definition finish_tail (cap gd_sector num_gts : Z) (os : list Z) : bytes :=
  Marker_to_bytes (Marker_new GrainDirectory ((num_gts * 4 + SECTOR_SIZE - 1) / SECTOR_SIZE)) ++
  pad_sector (le_u32s (map as_u32 os)) ++
  Marker_to_bytes (Marker_new Footer 1) ++
  SparseExtentHeader_to_bytes
    (SparseExtentHeader_as_footer (SparseExtentHeader_new cap) gd_sector) ++
  Marker_to_bytes (Marker_new EndOfStream 0).

Inductive finished (cap : Z) (m : grain_map) (file : bytes) : Prop :=
  | finished_intro (body : bytes) (offsets : gmap Z Z) (os : list Z) :
      zlen body mod SECTOR_SIZE = 0 ->
      offsets_rep body offsets m ->
      Forall2 (gt_placed body offsets) (seqZ 0 (num_gts_of cap)) os ->
      file = body ++ finish_tail cap (zlen body / SECTOR_SIZE + 1) (num_gts_of cap) os ->
      finished cap m file.

Lemma finish_body_Ok cap m s u s' :
  rep cap m s -> finish_body s = (Ok u, s') ->
  finished cap m (contents (svw_writer s')) /\
  block_at 0 (SparseExtentHeader_to_bytes (SparseExtentHeader_new cap))
    (contents (svw_writer s')).
Proof.
  intros [Hs Hh Hst Ho] Hr. unfold finish_body in Hr. inv_m. rewrite Hh in *.
  change ((((seh_capacity (SparseExtentHeader_new cap)
             + seh_grain_size (SparseExtentHeader_new cap) - 1)
            / seh_grain_size (SparseExtentHeader_new cap) + GT_ENTRIES_PER_GT - 1)
           / GT_ENTRIES_PER_GT)) with (num_gts_of cap) in *.
  apply finish_gts_Ok in Hm1 as ((Hs0 & Hh0 & Ho0 & ext & Hext) & Hpl); [|done].
  destruct Hs0 as (Hw0 & Hp0 & Ha0). repeat step_m.
  apply flush_law in Hm11 as (_ & Hfl & _); [|done]. rewrite Hfl, Hc3, Hc2, Hc1, Hc0, Hc.
  rewrite <- !app_assoc. split; [|rewrite Hext, <- app_assoc; by apply block_at_app].
  eapply finished_intro; [by rewrite <- Hp0| |exact Hpl|].
  - rewrite Hext. by apply offsets_rep_app.
  - unfold finish_tail. by rewrite sector_after, Hp0.
Qed.

End refinement.

(** ** Reading a finished file *)

Definition sector_entry (offsets : gmap Z Z) (gi : Z) : Z :=
  match offsets !! gi with Some sec => as_u32 sec | None => 0 end.

Lemma gt_entries_lookup offsets gt i :
  0 <= i < GT_ENTRIES_PER_GT ->
  gt_entries_of offsets gt !! Z.to_nat i =
  Some (sector_entry offsets (gt * GT_ENTRIES_PER_GT + i)).
Proof.
  intros. unfold gt_entries_of, sector_entry. apply list_lookup_fmap_Some.
  exists i. split; [done|]. apply lookup_seqZ. lia.
Qed.

Lemma block_at_record es q off i e file :
  block_at off (le_u32s es ++ q) file -> 0 <= i -> es !! Z.to_nat i = Some e ->
  block_at (off + 4 * i) (u32_le e) file.
Proof.
  intros (H1 & H2 & H3) Hi He.
  assert (Hl : i < zlen es) by (apply lookup_lt_Some in He; unfold zlen; lia).
  unfold le_u32s in *.
  pose proof (zlen_records u32_le 4 (zlen_le_bytes 4) es) as Hz.
  pose proof (zlen_nonneg q). rewrite zlen_app in *.
  split_and!; [lia|rewrite zlen_le_bytes; lia|].
  rewrite zlen_le_bytes. change (Z.of_nat 4) with 4.
  rewrite <- (zslice_zslice off (zlen (es ≫= u32_le) + zlen q)) by lia.
  rewrite H3. replace (4 * i) with (4 * Z.of_nat (Z.to_nat i)) by lia.
  apply (zslice_record u32_le 4 (zlen_le_bytes 4)). done.
Qed.

Lemma as_u32_small n : 0 <= n < 2 ^ 32 -> as_u32 n = n.
Proof. apply Z.mod_small. Qed.

Lemma read_u32_block {E} off v file :
  block_at off (u32_le v) file -> 0 <= v < 2 ^ 32 ->
  read_u32 off file =@{outcome E Z} Ok v.
Proof. intros Hb Hv. rewrite (read_block _ _ _ _ Hb). by rewrite Z.mod_small. Qed.

(** Reading the grain a sector entry points to. *)
Lemma read_grain_block lba data off file :
  block_at off (grain_bytes lba data) file -> is_u64 lba -> zlen data < 2 ^ 32 ->
  (lba ← read_u64 off file;
   size ← read_u32 (off + 8) file;
   data ← read_slice (off + 12) (off + 12 + size) file;
   Ok (Some (lba, data))) =@{Result _} Ok (Some (lba, data)).
Proof.
  intros Hb Hl Hd. unfold grain_bytes in Hb. rewrite GrainMarker_layout in Hb.
  cbn [gm_lba gm_size GrainMarker_new] in Hb.
  pose proof (zlen_nonneg data). rewrite as_u32_small in Hb by lia.
  rewrite <- app_assoc in Hb.
  pose proof (block_at_sub off [] _ _ _ Hb) as H1.
  pose proof (block_at_sub off (u64_le lba) (u32_le (zlen data)) data _ Hb) as H2.
  pose proof (block_at_sub off (u64_le lba ++ u32_le (zlen data)) data [] file) as H3.
  rewrite app_nil_r, <- app_assoc in H3. specialize (H3 Hb).
  zlens. rewrite Z.add_0_r in H1. change (Z.of_nat 8) with 8 in *.
  change (8 + Z.of_nat 4) with 12 in *.
  rewrite (read_block _ _ _ _ H1). rewrite Z.mod_small by exact Hl.
  rewrite bind_ret_Ok, (read_u32_block _ _ _ H2), bind_ret_Ok by lia.
  destruct H3 as (? & ? & H3). rewrite read_slice_ok by lia.
  replace (off + 12 + zlen data - (off + 12)) with (zlen data) by lia.
  by rewrite H3.
Qed.

(** The grains of a specification map fit the fields of their markers. *)
Definition grains_fit (m : grain_map) : Prop :=
  forall gi lba data, m !! gi = Some (lba, data) -> is_u64 lba /\ zlen data < 2 ^ 32.

(** Grain table entries count sectors in 32 bits. *)
Definition max_file : Z := 2 ^ 32 * SECTOR_SIZE.

Lemma sector_fits off b file :
  block_at (off * SECTOR_SIZE) b file -> 0 < zlen b -> zlen file <= max_file ->
  0 <= off < 2 ^ 32.
Proof. intros (H1 & H2 & _) ? ?. unfold max_file, SECTOR_SIZE in *. lia. Qed.

(** The part of the reader behind the grain directory. *)
Lemma lookup_in_table (body file ext : bytes) offsets m gt gte o :
  file = body ++ ext -> zlen file <= max_file ->
  offsets_rep body offsets m -> grains_fit m ->
  gt_placed body offsets gt o -> 0 <= gte < GT_ENTRIES_PER_GT ->
  (if o =? 0 then Ok None else
   _ ← expect_marker GrainTable ((o - 1) * SECTOR_SIZE) file;
   grain_offset ← read_u32 (o * SECTOR_SIZE + 4 * gte) file;
   if grain_offset =? 0 then Ok None else
   lba ← read_u64 (grain_offset * SECTOR_SIZE) file;
   size ← read_u32 (grain_offset * SECTOR_SIZE + 8) file;
   data ← read_slice (grain_offset * SECTOR_SIZE + 12)
            (grain_offset * SECTOR_SIZE + 12 + size) file;
   Ok (Some (lba, data))) =@{Result _} Ok (m !! (gt * GT_ENTRIES_PER_GT + gte)).
Proof.
  intros -> Hmax Hrep Hfit Hpl Hg.
  pose proof (gt_entries_lookup offsets gt gte Hg) as He.
  specialize (Hrep (gt * GT_ENTRIES_PER_GT + gte)). unfold sector_entry in He.
  destruct (m !! _) as [[lba data]|] eqn:Em, (offsets !! _) as [sec|]; try done.
  - destruct Hrep as [Hsec Hb]. apply (block_at_app _ _ _ ext) in Hb.
    destruct (Hfit _ _ _ Em) as [Hlba Hdata].
    assert (Hs : 0 <= sec < 2 ^ 32).
    { eapply sector_fits; [exact Hb| |done]. unfold grain_bytes. zsolve. }
    rewrite as_u32_small in He by done.
    destruct Hpl as [[-> Hall]|(Ho & Hmk & Hgt)].
    { rewrite Forall_lookup in Hall. specialize (Hall _ _ He). lia. }
    destruct (Z.eqb_spec o 0); [lia|].
    apply (block_at_app _ _ _ ext) in Hmk, Hgt.
    rewrite (expect_marker_ok _ _ _ _ Hmk) by done. rewrite bind_ret_Ok.
    unfold gt_bytes_of in Hgt. rewrite <- (app_nil_r (le_u32s _)) in Hgt.
    pose proof (block_at_record _ _ _ _ _ _ Hgt (proj1 Hg) He) as Hrec.
    rewrite (read_u32_block _ _ _ Hrec) by done. rewrite bind_ret_Ok.
    destruct (Z.eqb_spec sec 0); [lia|]. by apply read_grain_block.
  - destruct Hpl as [[-> Hall]|(Ho & Hmk & Hgt)]; [done|].
    destruct (Z.eqb_spec o 0); [lia|].
    apply (block_at_app _ _ _ ext) in Hmk, Hgt.
    rewrite (expect_marker_ok _ _ _ _ Hmk) by done. rewrite bind_ret_Ok.
    unfold gt_bytes_of in Hgt. rewrite <- (app_nil_r (le_u32s _)) in Hgt.
    pose proof (block_at_record _ _ _ _ _ _ Hgt (proj1 Hg) He) as Hrec.
    by rewrite (read_u32_block _ _ _ Hrec).
Qed.

Lemma as_footer_wf h gd :
  header_wf h -> is_u64 gd -> header_wf (SparseExtentHeader_as_footer h gd).
Proof.
  intros [A1 A2 A3 A4 A5 A6 A7 A8 A9] Hgd.
  exact (Build_header_wf (SparseExtentHeader_as_footer h gd) A1 A2 A3 A4 A5 A6 A7 A8 Hgd).
Qed.

Lemma new_header_wf cap : is_u64 cap -> header_wf (SparseExtentHeader_new cap).
Proof.
  intros. split; cbn; try done. unfold is_u, SECTOR_SIZE in *. split; [by apply Z.div_pos; lia|].
  apply Z.div_lt_upper_bound; lia.
Qed.

Lemma footer_wf cap gd : is_u64 cap -> is_u64 gd ->
  header_wf (SparseExtentHeader_as_footer (SparseExtentHeader_new cap) gd).
Proof. intros. apply as_footer_wf; [by apply new_header_wf|done]. Qed.

(** The reader's view of the tail. *)
Lemma tail_blocks cap gd n os (body file : bytes) :
  file = body ++ finish_tail cap gd n os ->
  block_at (zlen body) (Marker_to_bytes (Marker_new GrainDirectory ((n * 4 + SECTOR_SIZE - 1) / SECTOR_SIZE))) file /\
  block_at (zlen body + SECTOR_SIZE) (pad_sector (le_u32s (map as_u32 os))) file /\
  block_at (zlen file - 1536) (Marker_to_bytes (Marker_new Footer 1)) file /\
  block_at (zlen file - 1024)
    (SparseExtentHeader_to_bytes (SparseExtentHeader_as_footer (SparseExtentHeader_new cap) gd)) file /\
  block_at (zlen file - 512) (Marker_to_bytes (Marker_new EndOfStream 0)) file.
Proof.
  intros Ef. set (gm := Marker_to_bytes (Marker_new GrainDirectory _)).
  set (g := pad_sector _). set (fm := Marker_to_bytes (Marker_new Footer 1)).
  set (ft := SparseExtentHeader_to_bytes _). set (em := Marker_to_bytes (Marker_new EndOfStream 0)).
  assert (Hlen : zlen gm = 512 /\ zlen fm = 512 /\ zlen ft = 512 /\ zlen em = 512)
    by (subst gm fm ft em; by rewrite !zlen_marker, zlen_header).
  unfold finish_tail in Ef. fold gm g fm ft em in Ef. clearbody gm g fm ft em.
  destruct Hlen as (L1 & L2 & L3 & L4). pose proof (zlen_nonneg g). pose proof (zlen_nonneg body).
  pose proof (block_at_end body gm (g ++ fm ++ ft ++ em)) as B1.
  pose proof (block_at_end (body ++ gm) g (fm ++ ft ++ em)) as B2.
  pose proof (block_at_end (body ++ gm ++ g) fm (ft ++ em)) as B3.
  pose proof (block_at_end (body ++ gm ++ g ++ fm) ft em) as B4.
  pose proof (block_at_end (body ++ gm ++ g ++ fm ++ ft) em []) as B5.
  rewrite app_nil_r in B5. rewrite <- !app_assoc in *. rewrite <- Ef in *.
  assert (Lf : zlen file = zlen body + 512 + zlen g + 1536) by (rewrite Ef; zlens; lia).
  split_and!.
  - exact B1.
  - replace (zlen body + SECTOR_SIZE) with (zlen (body ++ gm)) by (unfold SECTOR_SIZE; zlens; lia).
    exact B2.
  - replace (zlen file - 1536) with (zlen (body ++ gm ++ g)) by (zlens; lia). exact B3.
  - replace (zlen file - 1024) with (zlen (body ++ gm ++ g ++ fm)) by (zlens; lia). exact B4.
  - replace (zlen file - 512) with (zlen (body ++ gm ++ g ++ fm ++ ft)) by (zlens; lia). exact B5.
Qed.

Lemma finished_lookup cap m file gi :
  finished cap m file -> is_u64 cap -> grains_fit m -> zlen file <= max_file ->
  0 <= gi < num_gts_of cap * GT_ENTRIES_PER_GT ->
  stream_lookup file gi = Ok (m !! gi).
Proof.
  intros [body offsets os Hal Hrep Hpl Ef] Hcap Hfit Hmax Hgi.
  destruct (tail_blocks _ _ _ _ _ _ Ef) as (B1 & B2 & B3 & B4 & B5).
  set (gd := zlen body / SECTOR_SIZE + 1) in *.
  assert (Hb : zlen body = (gd - 1) * SECTOR_SIZE).
  { pose proof (Z.div_mod (zlen body) SECTOR_SIZE). unfold gd, SECTOR_SIZE in *. lia. }
  pose proof (zlen_nonneg body) as Hbp.
  assert (Hgd : is_u64 gd).
  { destruct B1 as (_ & HB & _). unfold is_u, max_file, SECTOR_SIZE in *. zlens. lia. }
  unfold stream_lookup.
  destruct B4 as (_ & _ & B4). rewrite zlen_header in B4.
  rewrite (expect_marker_ok _ _ _ _ B5) by done. rewrite bind_ret_Ok, B4.
  rewrite <- (app_nil_r (SparseExtentHeader_to_bytes _)), header_parse by (by apply footer_wf).
  cbn [seh_magic SparseExtentHeader_as_footer SparseExtentHeader_new]. rewrite Z.eqb_refl, bind_ret_Ok.
  rewrite (expect_marker_ok _ _ _ _ B3) by done. rewrite bind_ret_Ok.
  cbn [parsed_header sh_gd_offset sh_num_gtes_per_gt seh_gd_offset seh_num_gtes_per_gt
       SparseExtentHeader_as_footer SparseExtentHeader_new].
  rewrite Hb in B1, B2. rewrite (expect_marker_ok _ _ _ _ B1) by done. rewrite bind_ret_Ok.
  replace ((gd - 1) * SECTOR_SIZE + SECTOR_SIZE) with (gd * SECTOR_SIZE) in B2
    by (unfold SECTOR_SIZE; lia).
  pose proof (Z.div_mod gi GT_ENTRIES_PER_GT ltac:(done)) as Hdm.
  pose proof (Z.mod_pos_bound gi GT_ENTRIES_PER_GT ltac:(done)) as Hmod.
  set (gt := gi / GT_ENTRIES_PER_GT) in *. set (gte := gi mod GT_ENTRIES_PER_GT) in *.
  assert (Hgt : 0 <= gt < num_gts_of cap) by (unfold GT_ENTRIES_PER_GT in *; lia).
  destruct (Forall2_lookup_l _ _ _ (Z.to_nat gt) gt Hpl) as (o & Ho & Hop).
  { apply lookup_seqZ. lia. }
  assert (Hof : 0 <= o < 2 ^ 32).
  { destruct Hop as [[-> _]|(Hp & _ & Hblk)]; [done|].
    apply (block_at_app _ _ _ (finish_tail cap gd (num_gts_of cap) os)) in Hblk.
    rewrite <- Ef in Hblk. eapply sector_fits; [exact Hblk|by rewrite zlen_gt_bytes|done]. }
  rewrite pad_sector_spec in B2.
  assert (Hrec : map as_u32 os !! Z.to_nat gt = Some o).
  { apply list_lookup_fmap_Some. exists o. by rewrite as_u32_small. }
  pose proof (block_at_record _ _ _ _ _ _ B2 (proj1 Hgt) Hrec) as Hent.
  rewrite (read_u32_block _ _ _ Hent) by done. rewrite bind_ret_Ok.
  replace (m !! gi) with (m !! (gt * GT_ENTRIES_PER_GT + gte)) by (f_equal; lia).
  by eapply lookup_in_table.
Qed.

(** ** Whole runs: no panic, success on a writer that does not fail *)

Section runs.
  Context `{WriteLaws W}.
  Implicit Types s : StreamVmdkWriter W.

  (** The calls of [write_grain] a client makes, in order. *)
Fixpoint write_grains (gs : list (Z * bytes)) : M (StreamVmdkWriter W) Error () :=
  match gs with
  | [] => mret tt
  | (lba, data) :: gs' => _ ← write_grain lba data; write_grains gs'
  end.

Definition spec_write_grains (gs : list (Z * bytes)) (m : grain_map) : grain_map :=
  foldl (fun m '(lba, data) => spec_write_grain lba data m) m gs.

Lemma write_grains_rep cap gs m s u s' :
  rep cap m s -> write_grains gs s = (Ok u, s') -> rep cap (spec_write_grains gs m) s'.
Proof.
  revert m s. induction gs as [|[lba data] gs IH]; intros m s Hrep Hr; cbn in Hr; inv_m; [done|].
  eapply IH; [|exact Hm0]. by eapply write_grain_rep.
Qed.

  (** A call that comes back leaves a usable writer; with [strict], it comes
      back with a value, which needs a writer that does not fail. *)
Definition comes_back (strict : bool) {A} (r : outcome Error A) : Prop :=
  match r with Ok _ => True | Err _ => strict = false | Panic | Diverge => False end.

  Variable strict : bool.
  Hypothesis strict_write : strict = true ->
    forall b w, wf_writer w -> exists w', write_all b w = (Ok tt, w').
  Hypothesis strict_flush : strict = true ->
    forall w, wf_writer w -> exists w', flush w = (Ok tt, w').

Definition safe {A} (m : M (StreamVmdkWriter W) Error A) s : Prop :=
  comes_back strict (fst (m s)) /\ wf_writer (svw_writer (snd (m s))).

Lemma safe_bind {A B} (m : M (StreamVmdkWriter W) Error A) (f : A -> M _ Error B) s :
  safe m s -> (forall a s', wf_writer (svw_writer s') -> safe (f a) s') -> safe (m ≫= f) s.
Proof.
  unfold safe, mbind, M_bind. intros [Hm Hw] Hf.
  destruct (m s) as [[a|e| |] s']; cbn in *; [|done..]. by apply Hf.
Qed.

Lemma safe_pure {A} (m : M (StreamVmdkWriter W) Error A) s a s' :
  m s = (Ok a, s') -> wf_writer (svw_writer s') -> safe m s.
Proof. unfold safe. by intros ->. Qed.

Lemma safe_write_all msg b s : wf_writer (svw_writer s) -> safe (svw_write_all msg b) s.
Proof.
  intros Hw. unfold safe, svw_write_all, on_field, map_err_m.
  destruct (write_all b (svw_writer s)) as [r w] eqn:E.
  pose proof E as (Hw' & Hr & _)%write_all_prefix; [|done]. split; [|done].
  destruct r; try done. cbn. destruct strict; [|done].
  destruct (strict_write eq_refl b (svw_writer s) Hw). congruence.
Qed.

Lemma safe_if {A} (b : bool) (m1 m2 : M (StreamVmdkWriter W) Error A) s :
  safe m1 s -> safe m2 s -> safe (if b then m1 else m2) s.
Proof. by destruct b. Qed.

Lemma safe_mapM {A B} (f : A -> M (StreamVmdkWriter W) Error B) l s :
  wf_writer (svw_writer s) ->
  (forall a s, wf_writer (svw_writer s) -> safe (f a) s) -> safe (mapM f l) s.
Proof.
  intros Hw Hf. revert s Hw. induction l as [|a l IH]; intros s Hw; cbn.
  - by eapply safe_pure.
  - apply safe_bind; [by apply Hf|]. intros b s' Hw'.
    apply safe_bind; [by apply IH|]. intros k s'' Hw''. by eapply safe_pure.
Qed.

Ltac safe_step :=
  lazymatch goal with
  | |- wf_writer _ => svw; assumption
  | |- safe (svw_write_all _ _) _ => apply safe_write_all
  | |- safe (if _ then _ else _) _ => apply safe_if
  | |- safe (mapM _ _) _ => apply safe_mapM; [|intros ? ? ?]
  | |- safe (_ ≫= _) _ => apply safe_bind; [|intros ? ? ?]
  | |- safe (svw_advance _) _ => unfold svw_advance
  | |- safe _ _ => eapply safe_pure; [reflexivity|]
  end.

Lemma write_grain_safe lba data s : wf_writer (svw_writer s) -> safe (write_grain lba data) s.
Proof. intros Hw. unfold write_grain. repeat safe_step. Qed.

Lemma finish_gt_safe gi s : wf_writer (svw_writer s) -> safe (finish_gt gi) s.
Proof. intros Hw. unfold finish_gt. repeat safe_step. Qed.

Lemma finish_body_safe s : wf_writer (svw_writer s) -> safe finish_body s.
Proof.
  intros Hw. unfold finish_body.
  repeat lazymatch goal with
    | |- safe (finish_gt _) _ => apply finish_gt_safe
    | |- safe (on_field _ _ _) _ => fail
    | |- _ => safe_step
    end.
  unfold safe, on_field, map_err_m. destruct (flush _) as [r w] eqn:E.
  pose proof E as (? & _ & Hr)%flush_law; [|assumption]. split; [|done].
  destruct r; try done. cbn. destruct strict; [|done].
  match type of E with flush ?w = _ => destruct (strict_flush eq_refl w) end; [assumption|congruence].
Qed.

Lemma write_grains_safe gs s : wf_writer (svw_writer s) -> safe (write_grains gs) s.
Proof.
  revert s. induction gs as [|[lba data] gs IH]; intros s Hw; cbn.
  - by eapply safe_pure.
  - apply safe_bind; [by apply write_grain_safe|]. intros. by apply IH.
Qed.
End runs.

(** A whole run on a fresh output: create, write the grains, finish. *)
Definition write_disk `{Write W} (w : W) (cap : Z) (gs : list (Z * bytes)) : Result W :=
  s ← StreamVmdkWriter_new w cap;
  let '(r, s') := write_grains gs s in
  _ ← r;
  StreamVmdkWriter_finish s'.

Lemma write_disk_finished `{WriteLaws W} w cap gs w' :
  wf_writer w -> contents w = [] -> write_disk w cap gs = Ok w' ->
  finished cap (spec_write_grains gs ∅) (contents w') /\
  block_at 0 (SparseExtentHeader_to_bytes (SparseExtentHeader_new cap)) (contents w').
Proof.
  intros Hw Hc Hr. unfold write_disk in Hr. inv_ok.
  apply StreamVmdkWriter_new_Ok in Hok as [Hrep _]; [|done..].
  destruct (write_grains gs a) as [r s'] eqn:Eg. inv_ok. subst.
  apply (write_grains_rep _ _ _ _ _ _ Hrep) in Eg.
  match goal with H : StreamVmdkWriter_finish _ = _ |- _ =>
    unfold StreamVmdkWriter_finish in H end.
  destruct (finish_body s') as [r s2] eqn:Ef. inv_ok. subst.
  by eapply finish_body_Ok.
Qed.

Lemma write_disk_comes_back `{WriteLaws W} (strict : bool) w cap gs :
  (strict = true -> forall b w, wf_writer w -> exists w', write_all b w = (Ok tt, w')) ->
  (strict = true -> forall w, wf_writer w -> exists w', flush w = (Ok tt, w')) ->
  wf_writer w -> comes_back strict (write_disk w cap gs).
Proof.
  intros Hsw Hsf Hw. unfold write_disk, StreamVmdkWriter_new.
  destruct (write_all _ w) as [r w1] eqn:Ew.
  pose proof Ew as (Hw1 & Hr & _)%write_all_prefix; [|done].
  destruct r as [[]|e| |]; cbn in Hr |- *; try done.
  2: { destruct strict; [|done].
       destruct (Hsw eq_refl (SparseExtentHeader_to_bytes (SparseExtentHeader_new cap)) w Hw).
       congruence. }
  match goal with |- context [write_grains gs ?s] =>
    pose proof (write_grains_safe strict Hsw Hsf gs s Hw1) as Hg; unfold safe in Hg; destruct (write_grains gs s) as [r s'] end.
  destruct Hg as [Hg Hw']. cbn in Hg, Hw'. destruct r as [[]|e| |]; [|exact Hg..]. cbn [mbind outcome_bind].
  pose proof (finish_body_safe strict Hsw Hsf s' Hw') as Hf. unfold safe, StreamVmdkWriter_finish in *.
  destruct (finish_body s') as [r s2]. destruct Hf as [Hf _]. cbn in Hf. by destruct r.
Qed.

Lemma spec_write_grains_fit gs m :
  Forall (fun '(lba, data) => is_u64 lba /\ zlen data < 2 ^ 32) gs ->
  grains_fit m -> grains_fit (spec_write_grains gs m).
Proof.
  intros Hgs. revert m. induction Hgs as [|[lba data] gs Hx _ IH]; intros m Hm; [done|].
  cbn. apply IH. intros gi l d. unfold spec_write_grain. rewrite lookup_insert.
  case_decide; [by intros [= -> ->]|apply Hm].
Qed.

(** ** Properties *)

(** A header in the file announces its capacity. *)
Lemma block_at_capacity {E} h off file :
  header_wf h -> block_at off (SparseExtentHeader_to_bytes h) file ->
  read_u64 (off + 12) file =@{outcome E Z} Ok (seh_capacity h).
Proof.
  intros Hwf Hb. rewrite SparseExtentHeader_layout in Hb.
  rewrite (app_assoc (u32_le _)), (app_assoc (_ ++ _)) in Hb.
  apply block_at_sub, (read_block (E := E)) in Hb.
  rewrite Z.mod_small in Hb by apply Hwf. exact Hb.
Qed.

(** So do the header and the footer of a finished file. *)
Lemma finished_capacities cap m file :
  finished cap m file -> is_u64 cap -> zlen file <= max_file ->
  block_at 0 (SparseExtentHeader_to_bytes (SparseExtentHeader_new cap)) file ->
  stream_capacities file = Ok (cap / SECTOR_SIZE, cap / SECTOR_SIZE).
Proof.
  intros [body offsets os Hal Hrep Hpl Ef] Hcap Hmax Hhead.
  destruct (tail_blocks _ _ _ _ _ _ Ef) as ((_ & HB & _) & _ & _ & B4 & _).
  assert (Hgd : is_u64 (zlen body / SECTOR_SIZE + 1)).
  { pose proof (zlen_nonneg body) as Hbp. pose proof (Z.div_le_upper_bound (zlen body) SECTOR_SIZE (zlen body)).
    pose proof (Z.div_pos (zlen body) SECTOR_SIZE Hbp). rewrite zlen_marker in HB.
    unfold is_u, max_file, SECTOR_SIZE in *. lia. }
  apply (block_at_capacity (E := Error)) in B4; [|by apply footer_wf].
  apply (block_at_capacity (E := Error)) in Hhead; [|by apply new_header_wf].
  unfold stream_capacities. rewrite Z.add_0_l in Hhead. by rewrite Hhead, B4.
Qed.

(** C7: whatever grains are written to an in-memory output, in whatever order
    and with whatever repetitions, the run succeeds, and a reader of the
    format that starts from the footer finds at every grain index the last
    grain written there, with its address and its compressed bytes, and
    nothing at the indices never written; the header and the footer both
    announce the capacity asked for, in whole sectors. *)
Theorem stream_disk_readable `{InfallibleWrite W} w cap gs :
  wf_writer w -> contents w = [] -> is_u64 cap ->
  Forall (fun '(lba, data) => is_u64 lba /\ zlen data < 2 ^ 32) gs ->
  exists w', write_disk w cap gs = Ok w' /\
    (zlen (contents w') <= max_file ->
     stream_capacities (contents w') = Ok (cap / SECTOR_SIZE, cap / SECTOR_SIZE) /\
     forall gi, 0 <= gi < num_gts_of cap * GT_ENTRIES_PER_GT ->
       stream_lookup (contents w') gi = Ok (spec_write_grains gs ∅ !! gi)).
Proof.
  intros Hw Hc Hcap Hgs.
  pose proof (write_disk_comes_back true w cap gs (fun _ => write_all_total) (fun _ => flush_some) Hw) as Hr.
  destruct (write_disk w cap gs) as [w'|e| |] eqn:E; try done.
  exists w'. split; [done|]. intros Hmax.
  apply write_disk_finished in E as [Hf Hb]; [|done..]. split; [by eapply finished_capacities|].
  intros gi Hgi. eapply finished_lookup; try done. by apply spec_write_grains_fit.
Qed.

Definition sample_grains : list (Z * bytes) := [(128, [7; 8]); (0, [1; 2; 3]); (128, [9])].

Lemma stream_disk_readable_witness :
  exists w', write_disk cursor_new 131072 sample_grains = Ok w' /\
    (zlen (contents w') <= max_file ->
     stream_capacities (contents w') = Ok (256, 256) /\
     forall gi, 0 <= gi < num_gts_of 131072 * GT_ENTRIES_PER_GT ->
       stream_lookup (contents w') gi = Ok (spec_write_grains sample_grains ∅ !! gi)).
Proof.
  apply (stream_disk_readable cursor_new 131072 sample_grains); [reflexivity|reflexivity|done|].
  repeat (apply Forall_cons; split; [split_and!; done|]). constructor.
Defined.

(** The run of the witness, evaluated. *)
Example sample_disk_evaluated :
  (w ← write_disk cursor_new 131072 sample_grains;
   l ← mapM (stream_lookup (cursor_buf w)) [0; 1; 2; 511];
   Ok (zlen (cursor_buf w), l)) =
  Ok (7168, [Some (0, [1; 2; 3]); Some (128, [9]); None; None]).
Proof. vm_compute. reflexivity. Qed.

(** A serialised sparse extent header is one sector, and the project's own
    header parser gets every field it keeps back from it, whatever bytes
    follow; the footer differs from the header in the grain directory offset
    only. *)
Theorem stream_header_roundtrip h rest gd :
  header_wf h -> seh_magic h = VMDK_MAGIC -> is_u64 gd ->
  zlen (SparseExtentHeader_to_bytes h) = SECTOR_SIZE /\
  SparseHeader_from_bytes (SparseExtentHeader_to_bytes h ++ rest) = Ok (parsed_header h) /\
  SparseHeader_from_bytes (SparseExtentHeader_to_bytes (SparseExtentHeader_as_footer h gd) ++ rest)
  = Ok {| sh_version := seh_version h; sh_flags := seh_flags h;
          sh_capacity := seh_capacity h; sh_grain_size := seh_grain_size h;
          sh_descriptor_offset := seh_descriptor_offset h;
          sh_descriptor_size := seh_descriptor_size h;
          sh_num_gtes_per_gt := seh_num_gtes_per_gt h;
          sh_gd_offset := gd |}.
Proof.
  intros Hw Hm Hgd. split; [apply zlen_header|]. split.
  - by rewrite header_parse, Hm, Z.eqb_refl.
  - rewrite header_parse by (by apply as_footer_wf).
    cbn [seh_magic SparseExtentHeader_as_footer]. by rewrite Hm, Z.eqb_refl.
Qed.

Lemma stream_header_roundtrip_witness :
  SparseHeader_from_bytes
    (SparseExtentHeader_to_bytes (SparseExtentHeader_new 10737418240) ++ [1; 2; 3])
  = Ok (parsed_header (SparseExtentHeader_new 10737418240)).
Proof.
  apply (stream_header_roundtrip (SparseExtentHeader_new 10737418240) [1; 2; 3] 5);
    [split; done|reflexivity|done].
Defined.

(** C29: one [write_grain] simulates the abstract write: it keeps the output
    sector-aligned and in step with the recorded position, appends exactly the
    12-byte grain marker, the data and the padding, and updates the map of
    grains at the index of the LBA. *)
Theorem write_grain_simulates `{WriteLaws W} cap m lba data (s s' : StreamVmdkWriter W) u :
  rep cap m s -> write_grain lba data s = (Ok u, s') ->
  rep cap (spec_write_grain lba data m) s' /\
  contents (svw_writer s') = contents (svw_writer s) ++ grain_bytes lba data
    ++ zeros (pad_len SECTOR_SIZE (12 + zlen data)) /\
  svw_current_pos s' = zlen (contents (svw_writer s')) /\
  svw_current_pos s' mod SECTOR_SIZE = 0.
Proof.
  intros Hr Hw. pose proof (write_grain_rep _ _ _ _ _ _ _ Hr Hw) as Hr'.
  destruct Hr as [Hs Hh _ _]. apply write_grain_Ok in Hw as (_ & _ & _ & Hc); [|done|by rewrite Hh].
  pose proof (rep_synced _ _ _ Hr') as (_ & ? & ?). done.
Qed.

Lemma write_grain_simulates_witness :
  exists s s', StreamVmdkWriter_new cursor_new 65536 = Ok s /\
    write_grain 0 [5; 6] s = (Ok tt, s') /\ rep 65536 (spec_write_grain 0 [5; 6] ∅) s'.
Proof.
  destruct (StreamVmdkWriter_new cursor_new 65536) as [s|e| |] eqn:E; [|vm_compute in E; discriminate..].
  pose proof (StreamVmdkWriter_new_Ok cursor_new 65536 s eq_refl eq_refl E) as [Hr _].
  destruct (write_grain 0 [5; 6] s) as [r s'] eqn:Ew.
  assert (r = Ok tt) as -> by
    (vm_compute in E; injection E as <-; vm_compute in Ew; by injection Ew as <- _).
  exists s, s'. split_and!; [done|done|].
  exact (proj1 (write_grain_simulates 65536 ∅ 0 [5; 6] s s' tt Hr Ew)).
Defined.

(** On any output that keeps the [Write] contract, however it fails, a run
    returns a value or an error: no panic, no endless loop. *)
Theorem stream_run_returns `{WriteLaws W} w cap gs :
  wf_writer w -> returns (write_disk w cap gs).
Proof.
  intros Hw. pose proof (write_disk_comes_back false w cap gs) as Hc.
  destruct (write_disk w cap gs); try done; by apply Hc.
Qed.

Lemma stream_run_returns_witness :
  returns (write_disk {| disk_data := []; disk_room := 700; disk_burst := 100 |} 65536 sample_grains).
Proof. apply stream_run_returns. done. Defined.

(** C39: the project cannot read back what it writes: the sparse reader refuses
    every file this writer finishes, because of its markers flag. *)
Theorem stream_output_refused `{BuildProfile} `{WriteLaws W} w cap gs w' :
  wf_writer w -> contents w = [] -> is_u64 cap -> write_disk w cap gs = Ok w' ->
  has_sparse_magic (contents w') = true /\
  SparseVmdkReader_from_mmap (contents w') =
  Err (Error.vmdk
    (lit "StreamOptimized VMDKs with markers are not supported for reading. Please use a flat or hosted sparse VMDK.")).
Proof.
  intros Hw Hc Hcap Hr. apply write_disk_finished in Hr as [_ Hb]; [|done..].
  destruct Hb as (_ & Hl & Hs). rewrite zlen_header in *.
  pose proof (new_header_wf cap Hcap) as Hwf.
  set (hd := SparseExtentHeader_to_bytes _) in *.
  assert (Hf : contents w' = hd ++ zdrop 512 (contents w')).
  { rewrite <- Hs. unfold zslice. rewrite zdrop_nonpos by lia. by rewrite ztake_zdrop. }
  rewrite Hf. split.
  - unfold has_sparse_magic. destruct (Z.ltb_spec (zlen (hd ++ zdrop 512 (contents w'))) 4).
    { rewrite zlen_app in *. unfold hd in *. rewrite zlen_header in *. zlen_pos. lia. }
    destruct (header_reads (E := Error) (SparseExtentHeader_new cap) (zdrop 512 (contents w')) Hwf)
      as (Hm & _). fold hd in Hm. apply read_le_inv in Hm as [_ Hm].
    unfold zslice in Hm. rewrite zdrop_nonpos in Hm by lia.
    change (Z.of_nat 4) with 4 in Hm. rewrite <- Hm. reflexivity.
  - unfold SparseVmdkReader_from_mmap, hd. rewrite header_parse by done. reflexivity.
Qed.

Lemma stream_output_refused_witness :
  exists w', write_disk cursor_new 131072 sample_grains = Ok w' /\
    has_sparse_magic (contents w') = true.
Proof.
  assert (Hcap : is_u64 131072) by done.
  destruct (write_disk cursor_new 131072 sample_grains) as [w'|e| |] eqn:E;
    [|vm_compute in E; discriminate..].
  exists w'. split; [reflexivity|].
  exact (proj1 (stream_output_refused (H := release) cursor_new 131072 sample_grains w'
                  eq_refl eq_refl Hcap E)).
Defined.
