(* ===== verification/Ova.v ===== *)
(** * Ova: [ova.rs], the TAR archive with a SHA-256 manifest

    The USTAR header, [OvaWriter], [StreamingFileWriter] and [Sha256Writer].
    [OvaSpec] holds the archive format they are proved against. *)
From S2P Require Export Write.

(** ** SHA-256: the [sha2] crate *)

Class Sha2 := {
  Sha256 : Type;
  sha_new : Sha256;
  sha_update : Sha256 -> bytes -> Sha256;
  sha_finalize : Sha256 -> bytes;
}.

(** What the crate documents: the digest is a function of the bytes fed,
    however they are cut into calls, and has 32 bytes. *)
Class Sha2Laws `{Sha2} := {
  sha_digest : bytes -> bytes;
  sha_chunked : forall parts, sha_finalize (fold_left sha_update parts sha_new) = sha_digest (concat parts);
  sha_digest_len : forall b, zlen (sha_digest b) = 32;
  sha_digest_bytes : forall b, Forall is_byte (sha_digest b);
}.

Definition hex_encode (b : bytes) : str :=
  b ≫= fun x => pad_zero 2 (show_radix 16 x).

Definition compute_sha256 `{Sha2} (data : bytes) : str :=
  let hasher := sha_new in
  let hasher := sha_update hasher data in
  hex_encode (sha_finalize hasher).

(** ** [Sha256Writer] *)

Record Sha256Writer `{Sha2} (W : Type) := {
  shw_inner : W;
  shw_hasher : Sha256;
  shw_bytes_written : Z;
}.
Arguments shw_inner {_ W} _.
Arguments shw_hasher {_ W} _.
Arguments shw_bytes_written {_ W} _.
Arguments Build_Sha256Writer {_ W} _ _ _.

Definition Sha256Writer_new `{Sha2} {W} (inner : W) : Sha256Writer W :=
  {| shw_inner := inner; shw_hasher := sha_new; shw_bytes_written := 0 |}.

Definition Sha256Writer_finish `{Sha2} {W} (s : Sha256Writer W) : W * str * Z :=
  let hash := hex_encode (sha_finalize (shw_hasher s)) in
  (shw_inner s, hash, shw_bytes_written s).

Definition set_shw_inner `{Sha2} {W} (w : W) (s : Sha256Writer W) : Sha256Writer W :=
  Build_Sha256Writer w (shw_hasher s) (shw_bytes_written s).

Definition Sha256Writer_write `{Sha2} `{Write W} (buf : bytes) : M (Sha256Writer W) io_error Z :=
  n ← on_field shw_inner set_shw_inner (write buf);
  part ← lift (read_slice 0 n buf);
  _ ← modify (fun s => Build_Sha256Writer (shw_inner s) (sha_update (shw_hasher s) part)
                         (shw_bytes_written s + n));
  mret n.

#[export] Instance Write_Sha256Writer `{Sha2} `{Write W} : Write (Sha256Writer W) := {
  write := Sha256Writer_write;
  flush := on_field shw_inner set_shw_inner flush;
}.

(** ** The TAR header *)

(** [buf[a..b].copy_from_slice(src)]: panics when the lengths differ. *)
Definition copy_into {E} (a b : Z) (src buf : bytes) : outcome E bytes :=
  if zlen src =? b - a then Ok (put_at a src buf) else Panic.

Definition show_octal (w n : Z) : str := pad_zero w (show_radix 8 n).

Definition sum_bytes (b : bytes) : Z := foldr Z.add 0 b.

Definition create_tar_header_with_mtime {E} (name : str) (size mtime : Z) : outcome E bytes :=
  let header := zeros 512 in
  let name_bytes := utf8_encode name in
  let name_len := Z.min (zlen name_bytes) 99 in
  header ← copy_into 0 name_len (ztake name_len name_bytes) header;
  header ← copy_into 100 107 (lit "0000644") header;
  let header := put_at 107 [0] header in
  header ← copy_into 108 115 (lit "0000000") header;
  let header := put_at 115 [0] header in
  header ← copy_into 116 123 (lit "0000000") header;
  let header := put_at 123 [0] header in
  let size_str := show_octal 11 size in
  header ← copy_into 124 135 size_str header;
  let header := put_at 135 [0] header in
  let mtime_str := show_octal 11 mtime in
  header ← copy_into 136 147 mtime_str header;
  let header := put_at 147 [0] header in
  header ← copy_into 148 156 (lit "        ") header;
  let header := put_at 156 [c_zero] header in
  header ← copy_into 257 263 (lit "ustar" ++ [0]) header;
  header ← copy_into 263 265 (lit "00") header;
  header ← copy_into 265 269 (lit "root") header;
  header ← copy_into 297 301 (lit "root") header;
  let checksum := sum_bytes header in
  let checksum_str := show_octal 6 checksum ++ [0; c_space] in
  copy_into 148 156 checksum_str header.

(** The code repeats the body for the current time; [now] is the clock, in
    seconds from the epoch, and a clock before the epoch counts as zero. *)
Definition create_tar_header {E} (now : Z) (name : str) (size : Z) : outcome E bytes :=
  let mtime := Z.max 0 now in
  create_tar_header_with_mtime name size mtime.

(** ** [OvaWriter] *)

Record ManifestEntry := { me_filename : str; me_hash : str }.

Record OvaWriter (W : Type) := {
  ow_writer : W;
  ow_entries : list ManifestEntry;
  ow_current_position : Z;
}.
Arguments ow_writer {W} _.
Arguments ow_entries {W} _.
Arguments ow_current_position {W} _.
Arguments Build_OvaWriter {W} _ _ _.

Definition OvaWriter_new {W} (writer : W) : Result (OvaWriter W) :=
  Ok {| ow_writer := writer; ow_entries := []; ow_current_position := 0 |}.

Definition set_ow_writer {W} (w : W) (s : OvaWriter W) : OvaWriter W :=
  Build_OvaWriter w (ow_entries s) (ow_current_position s).

Section ova.
  Context `{Write W}.
  Abbreviation ova_m := (M (OvaWriter W) Error).

  (** [self.writer.write_all(b).map_err(|e| Error::ova(format!(msg, e)))?]. *)
Definition ow_write_all (msg : string) (b : bytes) : ova_m () :=
  on_field ow_writer set_ow_writer
    (map_err_m (fun e => Error.ova (fmt (lit msg) [io_text e])) (write_all b)).

  (** [self.current_position += n]. *)
Definition ow_advance (n : Z) : ova_m () :=
  modify (fun s => Build_OvaWriter (ow_writer s) (ow_entries s) (ow_current_position s + n)).

  (** [self.entries.push(entry)]. *)
Definition ow_push (entry : ManifestEntry) : ova_m () :=
  modify (fun s => Build_OvaWriter (ow_writer s) (ow_entries s ++ [entry]) (ow_current_position s)).

Definition add_file `{Sha2} (now : Z) (name : str) (data : bytes) : ova_m () :=
  let hash := compute_sha256 data in
  header ← lift (create_tar_header now name (zlen data));
  _ ← ow_write_all "failed to write TAR header: {}" header;
  _ ← ow_advance 512;
  _ ← ow_write_all "failed to write file data: {}" data;
  _ ← ow_advance (zlen data);
  let padding_needed := (512 - (zlen data mod 512)) mod 512 in
  _ ← (if 0 <? padding_needed then
         let padding := zeros padding_needed in
         _ ← ow_write_all "failed to write padding: {}" padding;
         ow_advance padding_needed
       else mret tt);
  ow_push {| me_filename := name; me_hash := hash |}.

Definition generate_manifest (entries : list ManifestEntry) : str :=
  entries ≫= fun entry =>
    fmt (lit "SHA256({})= {}") [me_filename entry; me_hash entry] ++ [c_nl].

Definition ova_finish_body (now : Z) : ova_m () :=
  s ← get;
  _ ← (if negb (bool_decide (ow_entries s = [])) then
         let manifest := generate_manifest (ow_entries s) in
         let manifest_bytes := utf8_encode manifest in
         header ← lift (create_tar_header now (lit "manifest.mf") (zlen manifest_bytes));
         _ ← ow_write_all "failed to write manifest header: {}" header;
         _ ← ow_write_all "failed to write manifest: {}" manifest_bytes;
         let padding_needed := (512 - (zlen manifest_bytes mod 512)) mod 512 in
         if 0 <? padding_needed then
           let padding := zeros padding_needed in
           ow_write_all "failed to write manifest padding: {}" padding
         else mret tt
       else mret tt);
  let end_marker := zeros 1024 in
  ow_write_all "failed to write TAR end marker: {}" end_marker.

  (** [OvaWriter::finish] consumes the archive and returns the writer. *)
Definition OvaWriter_finish (now : Z) (s : OvaWriter W) : Result W :=
  let '(r, s') := ova_finish_body now s in
  _ ← r; Ok (ow_writer s').

(** ** [StreamingFileWriter]

    It borrows the archive for its lifetime: the archive is the one it holds,
    and its owner sees it again when the writer is gone. *)

Record StreamingFileWriter `{Sha2} := {
  sfw_ova_writer : OvaWriter W;
  sfw_filename : str;
  sfw_expected_size : Z;
  sfw_hasher : Sha256;
  sfw_bytes_written : Z;
}.

Context `{Sha2}.

Definition set_sfw_ova_writer (o : OvaWriter W) (s : StreamingFileWriter) : StreamingFileWriter :=
  Build_StreamingFileWriter _ o (sfw_filename s) (sfw_expected_size s) (sfw_hasher s)
    (sfw_bytes_written s).

Definition add_file_streaming (now : Z) (name : str) (size : Z) : ova_m StreamingFileWriter :=
  header ← lift (create_tar_header now name size);
  _ ← ow_write_all "failed to write TAR header: {}" header;
  _ ← ow_advance 512;
  s ← get;
  mret {| sfw_ova_writer := s;
          sfw_filename := name;
          sfw_expected_size := size;
          sfw_hasher := sha_new;
          sfw_bytes_written := 0 |}.

Definition StreamingFileWriter_finish : M StreamingFileWriter Error () :=
  s ← get;
  if negb (sfw_bytes_written s =? sfw_expected_size s) then
    throw (Error.ova (fmt (lit "expected {} bytes but wrote {} bytes for file '{}'")
      [show_dec (sfw_expected_size s); show_dec (sfw_bytes_written s); sfw_filename s]))
  else
  let hash := hex_encode (sha_finalize (sfw_hasher s)) in
  on_field sfw_ova_writer set_sfw_ova_writer
    (_ ← ow_advance (sfw_bytes_written s);
     let padding_needed := (512 - (sfw_bytes_written s mod 512)) mod 512 in
     _ ← (if 0 <? padding_needed then
            let padding := zeros padding_needed in
            _ ← ow_write_all "failed to write padding: {}" padding;
            ow_advance padding_needed
          else mret tt);
     ow_push {| me_filename := sfw_filename s; me_hash := hash |}).

Definition StreamingFileWriter_write (buf : bytes) : M StreamingFileWriter io_error Z :=
  s ← get;
  if sfw_expected_size s <? sfw_bytes_written s + zlen buf then
    throw {| io_kind := InvalidInput;
             io_text := fmt (lit "write would exceed expected size of {} bytes")
                          [show_dec (sfw_expected_size s)] |}
  else
  n ← on_field sfw_ova_writer set_sfw_ova_writer
        (on_field ow_writer set_ow_writer (write buf));
  part ← lift (read_slice 0 n buf);
  _ ← modify (fun s =>
        Build_StreamingFileWriter _ (sfw_ova_writer s) (sfw_filename s) (sfw_expected_size s)
          (sha_update (sfw_hasher s) part) (sfw_bytes_written s + n));
  mret n.

#[export] Instance Write_StreamingFileWriter : Write StreamingFileWriter := {
  write := StreamingFileWriter_write;
  flush := on_field sfw_ova_writer set_sfw_ova_writer (on_field ow_writer set_ow_writer flush);
}.
End ova.

Arguments StreamingFileWriter W {_}.
