(* ===== verification/Sha256.v ===== *)
(** * Sha256: the digest of FIPS 180-4

    The [sha2] crate is a parameter of the development; this is the function it
    promises to compute, an instance of [Sha2] with its laws, on which the
    unit tests of the repository evaluate.  Words are integers below 2{^32}. *)
From S2P Require Export Ova.

(** ** Words *)

Definition word (n : Z) : Z := n mod 2 ^ 32.
Definition rotr (n x : Z) : Z := Z.lor (Z.shiftr x n) (word (Z.shiftl x (32 - n))).
Definition xor3 (a b c : Z) : Z := Z.lxor a (Z.lxor b c).

Definition choose (x y z : Z) : Z := Z.lxor (Z.land x y) (Z.land (word (Z.lnot x)) z).
Definition majority (x y z : Z) : Z := xor3 (Z.land x y) (Z.land x z) (Z.land y z).
Definition big_sigma0 (x : Z) : Z := xor3 (rotr 2 x) (rotr 13 x) (rotr 22 x).
Definition big_sigma1 (x : Z) : Z := xor3 (rotr 6 x) (rotr 11 x) (rotr 25 x).
Definition small_sigma0 (x : Z) : Z := xor3 (rotr 7 x) (rotr 18 x) (Z.shiftr x 3).
Definition small_sigma1 (x : Z) : Z := xor3 (rotr 17 x) (rotr 19 x) (Z.shiftr x 10).

(** ** Constants: the first bits of the roots of the first primes *)

Definition is_prime (p : Z) : bool := forallb (fun d => negb (p mod d =? 0)) (seqZ 2 (p - 2)).
Definition primes : list Z := List.filter is_prime (seqZ 2 310).

Definition cube_root (n : Z) : Z :=
  fold_left (fun r i => let c := r + 2 ^ i in if c ^ 3 <=? n then c else r) (rev (seqZ 0 40)) 0.

Definition round_constants : list Z :=
  Eval vm_compute in map (fun p => word (cube_root (p * 2 ^ 96))) primes.
Definition initial_hash : list Z :=
  Eval vm_compute in map (fun p => word (Z.sqrt (p * 2 ^ 64))) (take 8 primes).

(** ** Padding and blocks *)

Definition be_bytes (n : nat) (v : Z) : bytes := rev (le_bytes n v).
Definition be_val (b : bytes) : Z := le_val (rev b).

Definition padding (len : Z) : bytes :=
  [128] ++ zeros ((55 - len) mod 64) ++ be_bytes 8 (8 * len).

Definition blocks (message : bytes) : list bytes :=
  split_chunks 64 (message ++ padding (zlen message)).

Definition block_words (block : bytes) : list Z := map be_val (split_chunks 4 block).

(** ** Compression

    The schedule is a window of the next sixteen words; a round takes its first
    and appends the one that enters. *)

Definition next_word (w : list Z) : Z :=
  match w with
  | w0 :: w1 :: _ =>
      word (small_sigma1 (nth 14 w 0) + nth 9 w 0 + small_sigma0 w1 + w0)
  | _ => 0
  end.

Definition sha_round (state : list Z * list Z) (k : Z) : list Z * list Z :=
  let '(h, w) := state in
  match h, w with
  | [a; b; c; d; e; f; g; x], w0 :: rest =>
      let t1 := x + big_sigma1 e + choose e f g + k + w0 in
      let t2 := big_sigma0 a + majority a b c in
      ([word (t1 + t2); a; b; c; word (d + t1); e; f; g], rest ++ [next_word w])
  | _, _ => state
  end.

Definition compress_block (h : list Z) (block : bytes) : list Z :=
  let '(h', _) := fold_left sha_round round_constants (h, block_words block) in
  zip_with (fun a b => word (a + b)) h h'.

Definition sha256 (message : bytes) : bytes :=
  fold_left compress_block (blocks message) initial_hash ≫= be_bytes 4.

(** ** Laws *)

Lemma sha_round_words state k : length (fst state) = 8%nat -> length (fst (sha_round state k)) = 8%nat.
Proof.
  destruct state as [h w]. cbn. intros Hh. repeat (destruct h as [|? h]; [discriminate|]).
  destruct h; [|discriminate]. by destruct w.
Qed.

Lemma compress_block_words h block : length h = 8%nat -> length (compress_block h block) = 8%nat.
Proof.
  intros Hh. unfold compress_block. set (w := block_words block). clearbody w.
  assert (Hf : length (fst (fold_left sha_round round_constants (h, w))) = 8%nat).
  { apply (fold_left_keeps (fun s => length (fst s) = 8%nat)); [apply sha_round_words|exact Hh]. }
  destruct (fold_left sha_round round_constants (h, w)) as [h' w']. cbn in Hf.
  rewrite length_zip_with. lia.
Qed.

Lemma hash_words bs h : length h = 8%nat -> length (fold_left compress_block bs h) = 8%nat.
Proof. apply (fold_left_keeps (fun h => length h = 8%nat)), compress_block_words. Qed.

Lemma zlen_be_bytes n v : zlen (be_bytes n v) = Z.of_nat n.
Proof. unfold be_bytes, zlen. by rewrite length_rev, length_le_bytes. Qed.

Lemma sha256_length message : zlen (sha256 message) = 32.
Proof.
  unfold sha256. pose proof (hash_words (blocks message) initial_hash eq_refl) as Hw.
  set (h := fold_left compress_block (blocks message) initial_hash) in *. clearbody h.
  assert (E : zlen (h ≫= be_bytes 4) = 4 * Z.of_nat (length h)); [|lia].
  clear Hw. induction h as [|x h IH]; [done|]. cbn [mbind list_bind].
  rewrite zlen_app, zlen_be_bytes, IH. cbn [length]. lia.
Qed.

Lemma sha256_bytes message : Forall is_byte (sha256 message).
Proof.
  unfold sha256. generalize (fold_left compress_block (blocks message) initial_hash) as h.
  induction h as [|x h IH]; [constructor|]. cbn [mbind list_bind]. apply Forall_app. split; [|done].
  unfold be_bytes. apply Forall_rev. auto with ova.
Qed.

(** ** The hasher: it keeps what it was fed *)

Definition sha256_sha2 : Sha2 :=
  {| Ova.Sha256 := bytes; sha_new := []; sha_update h b := h ++ b; sha_finalize h := sha256 h |}.

#[refine] Definition sha256_laws : @Sha2Laws sha256_sha2 :=
  @Build_Sha2Laws sha256_sha2 sha256 _ _ _.
Proof.
  - intros parts. cbn. f_equal. by rewrite fold_left_concat.
  - apply sha256_length.
  - apply sha256_bytes.
Defined.

(** The example of the standard, in two blocks. *)
Example sha256_two_blocks :
  hex_encode (sha256 (lit "abcdbcdecdefdefgefghfghighijhijkijkljklmklmnlmnomnopnopq"))
  = lit "248d6a61d20638b8e5c026930c3e6039a33ce45964ff2167f6ecedd419db06c1".
Proof. vm_compute. reflexivity. Qed.
