(* ===== verification/OvaSpec.v ===== *)
(** * OvaSpec: the TAR format and the archive writer

    A reader of USTAR archives written from the format (checksum, magic, octal
    fields, data padded to 512 bytes, two zero blocks at the end), and the
    theorems that what [OvaWriter] produces reads back as the files added,
    followed by the manifest of their digests. *)
From S2P Require Export Ova.

(** ** The format *)

Fixpoint until_nul (b : bytes) : bytes :=
  match b with
  | [] => []
  | x :: b' => if x =? 0 then [] else x :: until_nul b'
  end.

(** A header block: the stored checksum is the sum of the block with the
    checksum field read as spaces. *)
Definition tar_parse_header (b : bytes) : option (bytes * Z) :=
  chk ← digits_value 8 0 (zslice 148 6 b);
  if negb (chk =? sum_bytes (put_at 148 (zrep 8 c_space) b)) then None else
  if negb (bool_decide (zslice 257 6 b = lit "ustar" ++ [0])) then None else
  if negb (bool_decide (zslice 156 1 b = [c_zero])) then None else
  size ← digits_value 8 0 (zslice 124 11 b);
  Some (until_nul (zslice 0 100 b), size).

(** The members from the front of an archive: names and data. *)
Fixpoint tar_members (fuel : nat) (file : bytes) : option (list (bytes * bytes)) :=
  match fuel with
  | O => None
  | S f =>
      if zlen file <? 512 then None else
      if bool_decide (ztake 512 file = zeros 512) then
        if bool_decide (zslice 512 512 file = zeros 512) then Some [] else None
      else
        '(name, size) ← tar_parse_header (ztake 512 file);
        if zlen file <? 512 + size then None else
        cons (name, zslice 512 size file) <$>
          tar_members f (zdrop (512 + size + pad_len 512 size) file)
  end.

(** Every member takes a block, so the length bounds the members. *)
Definition tar_read (file : bytes) : option (list (bytes * bytes)) :=
  tar_members (length file) file.

(** The name a header can hold. *)
Definition tar_name (name : str) : bytes := until_nul (ztake 99 (utf8_encode name)).

(** ** The header block *)

Definition tar_limit : Z := 8 ^ 11.

Definition name_field (name : str) : bytes := ztake 99 (utf8_encode name).

Definition tar_prefix (name : str) (size mtime : Z) : bytes :=
  name_field name ++ zeros (100 - zlen (name_field name)) ++ lit "0000644" ++ [0]
  ++ lit "0000000" ++ [0] ++ lit "0000000" ++ [0]
  ++ show_octal 11 size ++ [0] ++ show_octal 11 mtime ++ [0].

Definition tar_suffix : bytes :=
  [c_zero] ++ zeros 100 ++ (lit "ustar" ++ [0]) ++ lit "00" ++ lit "root" ++ zeros 28
  ++ lit "root" ++ zeros 211.

Definition tar_checksum (name : str) (size mtime : Z) : Z :=
  sum_bytes (tar_prefix name size mtime ++ zrep 8 c_space ++ tar_suffix).

Definition tar_block (name : str) (size mtime : Z) : bytes :=
  tar_prefix name size mtime
  ++ (show_octal 6 (tar_checksum name size mtime) ++ [0; c_space]) ++ tar_suffix.

Lemma sum_bytes_app a b : sum_bytes (a ++ b) = sum_bytes a + sum_bytes b.
Proof.
  induction a as [|x a IH]; [done|].
  change (x + sum_bytes (a ++ b) = x + sum_bytes a + sum_bytes b). lia.
Qed.

Lemma sum_bytes_range b : Forall is_byte b -> 0 <= sum_bytes b <= 255 * zlen b.
Proof.
  induction 1 as [|x b Hx _ IH]; [by cbn|]. unfold is_byte in Hx. change (sum_bytes (x :: b)) with (x + sum_bytes b).
  rewrite zlen_cons. lia.
Qed.

Lemma digit_char_byte d : 0 <= d < 36 -> is_byte (digit_char d).
Proof. unfold is_byte, digit_char. intros. zcase; lia. Qed.

Lemma show_fuel_bytes fuel radix n :
  2 <= radix <= 36 -> 0 <= n -> Forall is_byte (show_fuel fuel radix n).
Proof.
  intros Hr. revert n. induction fuel as [|fuel IH]; intros n Hn; cbn; [constructor|]. zcase.
  - repeat constructor; apply digit_char_byte; lia.
  - pose proof (Z.mod_pos_bound n radix ltac:(lia)). apply Forall_app. split.
    + apply IH. apply Z.div_pos; lia.
    + repeat constructor; apply digit_char_byte; lia.
Qed.

Lemma show_octal_bytes w n : 0 <= n -> Forall is_byte (show_octal w n).
Proof.
  intros. unfold show_octal, pad_zero, show_radix. apply Forall_app. split.
  - by apply Forall_zrep.
  - apply show_fuel_bytes; [lia|done].
Qed.

Lemma zlen_show_octal w n : 0 <= n -> 1 <= w -> zlen (show_octal w n) = w <-> n < 8 ^ w.
Proof.
  intros Hn Hw. unfold show_octal. split.
  - intros Hl. destruct (decide (n < 8 ^ w)); [done|].
    pose proof (zlen_pad_zero_big 8 ltac:(lia) w n Hn Hw ltac:(lia)). lia.
  - intros. apply zlen_pad_zero; lia.
Qed.

Lemma octal_value w n : 0 <= n -> digits_value 8 0 (show_octal w n) = Some n.
Proof. intros. apply digits_value_pad_zero; lia. Qed.

Lemma zlen_name_field name : 0 <= zlen (name_field name) <= 99.
Proof. unfold name_field. zsolve. Qed.

Section header.
  Variables (name : str) (size mtime : Z).
  Hypothesis Hname : is_str name.
  Hypothesis Hsize : 0 <= size < tar_limit.
  Hypothesis Hmtime : 0 <= mtime < tar_limit.

Lemma zlen_prefix : zlen (tar_prefix name size mtime) = 148.
Proof.
  unfold tar_prefix. pose proof (zlen_name_field name). rewrite !zlen_app, !zlen_zrep.
  rewrite (proj2 (zlen_show_octal 11 size ltac:(lia) ltac:(lia))) by apply Hsize.
  rewrite (proj2 (zlen_show_octal 11 mtime ltac:(lia) ltac:(lia))) by apply Hmtime.
  change (zlen (lit "0000644")) with 7. change (zlen (lit "0000000")) with 7.
  change (zlen [0]) with 1. lia.
Qed.

Lemma zlen_suffix : zlen tar_suffix = 356.
Proof. reflexivity. Qed.

Lemma checksum_small : 0 <= tar_checksum name size mtime < 8 ^ 6.
Proof.
  unfold tar_checksum.
  assert (Hb : Forall is_byte (tar_prefix name size mtime ++ zrep 8 c_space ++ tar_suffix)).
  { unfold tar_prefix, name_field.
    repeat (apply Forall_app; split);
      first [by apply all_bytes_spec | apply show_fuel_bytes; lia
            | apply Forall_zrep; unfold is_byte; lia | by apply Forall_ztake, utf8_encode_bytes]. }
  pose proof (sum_bytes_range _ Hb) as Hr.
  rewrite !zlen_app, zlen_prefix, zlen_suffix, zlen_zrep in Hr. lia.
Qed.

Lemma zlen_block : zlen (tar_block name size mtime) = 512.
Proof.
  unfold tar_block. pose proof checksum_small.
  rewrite !zlen_app, zlen_prefix, zlen_suffix.
  by rewrite (proj2 (zlen_show_octal 6 (tar_checksum name size mtime) ltac:(lia) ltac:(lia))) by lia.
Qed.
End header.

Lemma copy_into_ok {E} a b src buf :
  zlen src = b - a -> @copy_into E a b src buf = Ok (put_at a src buf).
Proof. unfold copy_into. intros. by destruct (Z.eqb_spec (zlen src) (b - a)); [|lia]. Qed.

Lemma copy_into_panics {E} a b src buf :
  zlen src <> b - a -> @copy_into E a b src buf = Panic.
Proof. unfold copy_into. intros. by destruct (Z.eqb_spec (zlen src) (b - a)); [lia|]. Qed.

(** Lengths of literals, evaluated. *)
Ltac zlits :=
  repeat match goal with
    | |- context [zlen (lit ?s)] =>
        let n := eval vm_compute in (zlen (lit s)) in change (zlen (lit s)) with n
    | |- context [zlen [?x]] => change (zlen [x]) with 1
    end.
Ltac field gap m :=
  rewrite (put_field _ _ _ gap _ m) by (rewrite ?zlen_app, ?zlen_zrep; zlits; lia).

(** What the code builds, field by field, is the block of the format. *)
Lemma create_tar_header_block {E} name size mtime :
  is_str name -> 0 <= size < tar_limit -> 0 <= mtime < tar_limit ->
  @create_tar_header_with_mtime E name size mtime = Ok (tar_block name size mtime).
Proof.
  intros Hname Hs Hm. unfold create_tar_header_with_mtime. cbn zeta.
  pose proof (proj2 (zlen_show_octal 11 size ltac:(lia) ltac:(lia)) ltac:(apply Hs)) as Hls.
  pose proof (proj2 (zlen_show_octal 11 mtime ltac:(lia) ltac:(lia)) ltac:(apply Hm)) as Hlm.
  pose proof (zlen_prefix name size mtime Hs Hm) as Hlp.
  pose proof (checksum_small name size mtime Hname Hs Hm) as Hchk.
  unfold tar_block, tar_checksum in *. unfold tar_prefix in *.
  assert (Hn : ztake (zlen (utf8_encode name) `min` 99) (utf8_encode name) = name_field name).
  { unfold name_field. destruct (Z.le_ge_cases (zlen (utf8_encode name)) 99).
    - rewrite Z.min_l by done. by rewrite !ztake_all by lia.
    - by rewrite Z.min_r by lia. }
  pose proof (zlen_name_field name) as Hln.
  assert (Hln' : zlen (name_field name) = zlen (utf8_encode name) `min` 99)
    by (rewrite <- Hn; zsolve).
  rewrite Hn. set (nm := name_field name) in *. clearbody nm.
  set (so := show_octal 11 size) in *. set (mo := show_octal 11 mtime) in *.
  clearbody so mo.
  rewrite copy_into_ok by lia. rewrite bind_ret_Ok.
  change (zeros 512) with ([] ++ zeros 512).
  rewrite (put_field [] nm 0 0 512 (512 - zlen nm)) by (zlen_nils; lia).
  change (zeros 0) with (@nil Z). rewrite !app_nil_l.
  do 3 (rewrite copy_into_ok by reflexivity; rewrite bind_ret_Ok).
  field (100 - zlen nm) 405. field 0 404.
  field 0 397. field 0 396. field 0 389. field 0 388.
  rewrite copy_into_ok by lia. rewrite bind_ret_Ok. field 0 377. field 0 376.
  rewrite copy_into_ok by lia. rewrite bind_ret_Ok. field 0 365. field 0 364.
  do 5 (rewrite copy_into_ok by reflexivity; rewrite bind_ret_Ok).
  field 0 356. field 0 355. field 100 249. field 0 247. field 0 243. field 28 211.
  change (zeros 0) with (@nil Z). rewrite !app_nil_l.
  match goal with |- context [sum_bytes ?h] =>
    set (pre := nm ++ zeros (100 - zlen nm) ++ lit "0000644" ++ [0] ++ lit "0000000" ++ [0]
                ++ lit "0000000" ++ [0] ++ so ++ [0] ++ mo ++ [0]) in *;
    replace h with (pre ++ zrep 8 c_space ++ tar_suffix)
      by (subst pre; rewrite <- !app_assoc; reflexivity)
  end.
  clearbody pre. set (chk := sum_bytes (pre ++ _ ++ _)) in *.
  pose proof (proj2 (zlen_show_octal 6 chk ltac:(lia) ltac:(lia)) ltac:(lia)) as Hlc.
  rewrite copy_into_ok by (rewrite zlen_app, Hlc; reflexivity).
  f_equal. apply put_at_mid; [done|]. rewrite zlen_app, Hlc. reflexivity.
Qed.

(** Eleven octal digits are all a size or a time can have. *)
Lemma create_tar_header_panics {E} name size mtime :
  0 <= size -> 0 <= mtime -> tar_limit <= size \/ tar_limit <= mtime ->
  @create_tar_header_with_mtime E name size mtime = Panic.
Proof.
  intros Hs Hm Hbig. unfold create_tar_header_with_mtime. cbn zeta.
  rewrite copy_into_ok by zsolve. rewrite bind_ret_Ok.
  do 3 (rewrite copy_into_ok by reflexivity; rewrite bind_ret_Ok).
  pose proof (zlen_show_octal 11 size Hs ltac:(lia)) as Hls.
  pose proof (zlen_show_octal 11 mtime Hm ltac:(lia)) as Hlm.
  unfold tar_limit in *. change (135 - 124) with 11.
  destruct (decide (zlen (show_octal 11 size) = 11)).
  - rewrite copy_into_ok by lia. rewrite bind_ret_Ok.
    rewrite copy_into_panics by lia. reflexivity.
  - rewrite copy_into_panics by lia. reflexivity.
Qed.

Lemma create_tar_header_inv {E} name size mtime b :
  0 <= size -> 0 <= mtime -> is_str name ->
  @create_tar_header_with_mtime E name size mtime = Ok b ->
  size < tar_limit /\ mtime < tar_limit /\ b = tar_block name size mtime.
Proof.
  intros Hs Hm Hn Hb.
  destruct (decide (tar_limit <= size \/ tar_limit <= mtime)).
  { by rewrite create_tar_header_panics in Hb. }
  rewrite create_tar_header_block in Hb by (done || lia).
  injection Hb as <-. split_and!; [lia..|done].
Qed.

(** ** Reading a member back *)

Lemma until_nul_zeros b k : until_nul (b ++ zeros k) = until_nul b.
Proof.
  induction b as [|x b IH]; cbn [app until_nul].
  - unfold zrep. by destruct (Z.to_nat k).
  - by rewrite IH.
Qed.

Section block.
  Variables (name : str) (size mtime : Z).
  Hypothesis Hname : is_str name.
  Hypothesis Hsize : 0 <= size < tar_limit.
  Hypothesis Hmtime : 0 <= mtime < tar_limit.

Lemma block_type : zslice 156 1 (tar_block name size mtime) = [c_zero].
Proof.
  pose proof (zlen_prefix name size mtime Hsize Hmtime).
  pose proof (checksum_small name size mtime Hname Hsize Hmtime).
  pose proof (proj2 (zlen_show_octal 6 (tar_checksum name size mtime) ltac:(lia) ltac:(lia)) ltac:(lia)) as Hc.
  unfold tar_block. rewrite (zslice_skip 156 148) by lia.
  rewrite (zslice_skip _ 8); [reflexivity| |lia]. rewrite zlen_app, Hc. reflexivity.
Qed.

Lemma tar_block_parses :
  tar_parse_header (tar_block name size mtime) = Some (tar_name name, size).
Proof.
  pose proof (zlen_prefix name size mtime Hsize Hmtime) as Hp.
  pose proof (checksum_small name size mtime Hname Hsize Hmtime) as Hr.
  pose proof (proj2 (zlen_show_octal 6 (tar_checksum name size mtime) ltac:(lia) ltac:(lia)) ltac:(lia)) as Hc.
  unfold tar_parse_header. rewrite block_type.
  assert (E1 : zslice 148 6 (tar_block name size mtime) = show_octal 6 (tar_checksum name size mtime)).
  { unfold tar_block. rewrite (zslice_skip 148 148) by lia. rewrite <- app_assoc.
    rewrite Z.sub_diag. by apply zslice_head. }
  rewrite E1, octal_value by lia. cbn [mbind option_bind].
  assert (E2 : put_at 148 (zrep 8 c_space) (tar_block name size mtime)
               = tar_prefix name size mtime ++ zrep 8 c_space ++ tar_suffix).
  { unfold tar_block. apply put_at_mid; [done|]. rewrite zlen_app, Hc. reflexivity. }
  rewrite E2. fold (tar_checksum name size mtime). rewrite Z.eqb_refl. cbn [negb].
  assert (E3 : zslice 257 6 (tar_block name size mtime) = lit "ustar" ++ [0]).
  { unfold tar_block. rewrite (zslice_skip 257 148) by lia.
    rewrite (zslice_skip _ 8); [reflexivity| |lia]. rewrite zlen_app, Hc. reflexivity. }
  rewrite E3, !bool_decide_true by done. cbn [negb].
  pose proof (zlen_name_field name) as Hln. unfold tar_name. fold (name_field name).
  pose proof (proj2 (zlen_show_octal 11 size ltac:(lia) ltac:(lia)) ltac:(apply Hsize)) as Hls.
  assert (E4 : zslice 124 11 (tar_block name size mtime) = show_octal 11 size).
  { unfold tar_block. rewrite zslice_app_l by lia. unfold tar_prefix.
    rewrite (zslice_skip 124 (zlen (name_field name))) by lia.
    rewrite (zslice_skip _ (100 - zlen (name_field name))) by (rewrite ?zlen_zrep; lia).
    do 6 (rewrite zslice_app_r by (zlits; lia)).
    match goal with |- zslice ?o _ _ = _ => replace o with 0 by (zlits; lia) end. by apply zslice_head. }
  rewrite E4, octal_value by lia. cbn [mbind option_bind]. do 2 f_equal.
  unfold tar_block. rewrite zslice_app_l by lia. unfold tar_prefix.
  rewrite app_assoc, zslice_head by (rewrite zlen_app, zlen_zrep; lia).
  apply until_nul_zeros.
Qed.

Lemma tar_block_not_zero : tar_block name size mtime <> zeros 512.
Proof. intros E. pose proof block_type as Ht. by rewrite E in Ht. Qed.
End block.

(** ** Archives *)

Record member := { mb_name : str; mb_mtime : Z; mb_data : bytes }.

Definition member_wf (m : member) : Prop :=
  is_str (mb_name m) /\ 0 <= mb_mtime m < tar_limit /\ zlen (mb_data m) < tar_limit.

Definition tar_member (m : member) : bytes :=
  tar_block (mb_name m) (zlen (mb_data m)) (mb_mtime m)
  ++ mb_data m ++ zeros (pad_len 512 (zlen (mb_data m))).

Definition tar_archive (ms : list member) : bytes := (ms ≫= tar_member) ++ zeros 1024.

Definition listing (ms : list member) : list (bytes * bytes) :=
  (fun m => (tar_name (mb_name m), mb_data m)) <$> ms.

Lemma tar_members_step f m rest :
  member_wf m ->
  tar_members (S f) (tar_member m ++ rest)
    = cons (tar_name (mb_name m), mb_data m) <$> tar_members f rest.
Proof.
  intros (Hn & Hm & Hd). set (size := zlen (mb_data m)) in *.
  assert (Hs : 0 <= size < tar_limit) by (subst size; zlen_pos; lia).
  pose proof (zlen_block _ _ _ Hn Hs Hm) as Hb.
  pose proof (pad_len_range 512 size ltac:(lia)) as Hpad.
  unfold tar_member. fold size. rewrite <- !app_assoc. cbn [tar_members].
  set (blk := tar_block _ _ _) in *. set (file := blk ++ _).
  assert (Hf : zlen file = 512 + size + pad_len 512 size + zlen rest).
  { subst file. rewrite !zlen_app, Hb, zlen_zrep. fold size. lia. }
  zlen_pos. rewrite if_false by lia.
  assert (Ht : ztake 512 file = blk).
  { subst file. rewrite ztake_app_le by lia. by apply ztake_all; lia. }
  rewrite Ht, bool_decide_false by (by apply tar_block_not_zero).
  subst blk. rewrite tar_block_parses by done. cbn [mbind option_bind].
  rewrite if_false by lia. f_equal.
  - subst file. do 2 f_equal. rewrite zslice_app_r by lia. rewrite Hb. by apply zslice_head.
  - f_equal. subst file. rewrite zdrop_app_ge by lia. rewrite zdrop_app_ge by (fold size; lia).
    rewrite zdrop_app_ge by (rewrite zlen_zrep; fold size; lia). apply zdrop_nonpos.
    rewrite zlen_zrep. fold size. lia.
Qed.

Lemma zlen_tar_member m : member_wf m ->
  zlen (tar_member m) = 512 + zlen (mb_data m) + pad_len 512 (zlen (mb_data m)).
Proof.
  intros (Hn & Hm & Hd). unfold tar_member. zlen_pos.
  rewrite !zlen_app, zlen_block, zlen_zrep by (done || lia).
  pose proof (pad_len_range 512 (zlen (mb_data m)) ltac:(lia)). lia.
Qed.

Lemma tar_members_archive fuel ms :
  Forall member_wf ms -> (length ms < fuel)%nat ->
  tar_members fuel (tar_archive ms) = Some (listing ms).
Proof.
  intros Hwf. revert fuel. induction Hwf as [|m ms Hm _ IH]; intros [|f] Hf; cbn in Hf; try lia.
  - reflexivity.
  - unfold tar_archive. rewrite bind_cons, <- app_assoc.
    rewrite tar_members_step by done. fold (tar_archive ms). by rewrite IH by lia.
Qed.

(** Every archive reads back as its members. *)
Lemma tar_read_archive ms :
  Forall member_wf ms -> tar_read (tar_archive ms) = Some (listing ms).
Proof.
  intros Hwf. apply tar_members_archive; [done|].
  enough (Z.of_nat (length ms) < zlen (tar_archive ms)) by (unfold zlen in *; lia).
  unfold tar_archive. rewrite zlen_app. change (zlen (zeros 1024)) with 1024.
  induction Hwf as [|m ms Hm _ IH]; [by vm_compute|].
  rewrite bind_cons, zlen_app, zlen_tar_member by done. cbn [length].
  pose proof (pad_len_range 512 (zlen (mb_data m)) ltac:(lia)). zlen_pos. lia.
Qed.

(** ** The writer implements the format *)

Section writer.
  Context `{WriteLaws W} `{Sha2Laws}.

Definition entry_of (m : member) : ManifestEntry :=
  {| me_filename := mb_name m; me_hash := hex_encode (sha_digest (mb_data m)) |}.

(** The archive holds the members [ms], behind what the writer held before. *)
Record archive_rep (base : bytes) (ms : list member) (s : OvaWriter W) : Prop := {
  ar_wf : wf_writer (ow_writer s);
  ar_contents : contents (ow_writer s) = base ++ (ms ≫= tar_member);
  ar_entries : ow_entries s = entry_of <$> ms;
  ar_position : ow_current_position s = zlen (ms ≫= tar_member);
  ar_members : Forall member_wf ms;
}.

Lemma sha_whole data : sha_finalize (sha_update sha_new data) = sha_digest data.
Proof. pose proof (sha_chunked [data]) as E. cbn in E. by rewrite app_nil_r in E. Qed.

Lemma ow_write_all_Ok msg b s u s' :
  wf_writer (ow_writer s) -> ow_write_all msg b s = (Ok u, s') ->
  wf_writer (ow_writer s') /\ contents (ow_writer s') = contents (ow_writer s) ++ b /\
  ow_entries s' = ow_entries s /\ ow_current_position s' = ow_current_position s.
Proof.
  intros Hw Hr. unfold ow_write_all in Hr. inv_m.
  destruct (write_all_Ok _ _ _ _ Hw Hm). done.
Qed.

(** The padding step both ways of adding a file end with. *)
Definition pad_member (n : Z) : M (OvaWriter W) Error () :=
  let padding_needed := (512 - (n mod 512)) mod 512 in
  if 0 <? padding_needed then
    let padding := zeros padding_needed in
    _ ← ow_write_all "failed to write padding: {}" padding;
    ow_advance padding_needed
  else mret tt.

Lemma pad_member_Ok n s u s' :
  wf_writer (ow_writer s) -> pad_member n s = (Ok u, s') ->
  wf_writer (ow_writer s') /\
  contents (ow_writer s') = contents (ow_writer s) ++ zeros (pad_len 512 n) /\
  ow_entries s' = ow_entries s /\
  ow_current_position s' = ow_current_position s + pad_len 512 n.
Proof.
  intros Hw. unfold pad_member. fold (pad_len 512 n).
  pose proof (pad_len_range 512 n ltac:(lia)). zcase.
  - intros Hr. inv_m. apply ow_write_all_Ok in Hm as (? & ? & ? & Ep); [|done].
    unfold ow_advance in *. inv_m. cbn. by rewrite Ep.
  - intros Hr. inv_m. replace (pad_len 512 n) with 0 by lia.
    change (zeros 0) with (@nil Z). by rewrite app_nil_r, Z.add_0_r.
Qed.

Lemma add_file_unfold now name data :
  add_file (W:=W) now name data =
    (header ← lift (create_tar_header now name (zlen data));
     _ ← ow_write_all "failed to write TAR header: {}" header;
     _ ← ow_advance 512;
     _ ← ow_write_all "failed to write file data: {}" data;
     _ ← ow_advance (zlen data);
     _ ← pad_member (zlen data);
     ow_push {| me_filename := name; me_hash := compute_sha256 data |}).
Proof. reflexivity. Qed.

(** One more member at the end of the archive. *)
Record appended (m : member) (s s' : OvaWriter W) : Prop := {
  ap_member : member_wf m;
  ap_wf : wf_writer (ow_writer s');
  ap_contents : contents (ow_writer s') = contents (ow_writer s) ++ tar_member m;
  ap_entries : ow_entries s' = ow_entries s ++ [entry_of m];
  ap_position : ow_current_position s' = ow_current_position s + zlen (tar_member m);
}.

Lemma appended_rep base ms m s s' :
  archive_rep base ms s -> appended m s s' -> archive_rep base (ms ++ [m]) s'.
Proof.
  intros [Hw Hc He Hp Hms] [Hm Hw' Hc' He' Hp']. split; [done|..].
  - rewrite Hc', Hc, bind_app, <- app_assoc. cbn. by rewrite app_nil_r.
  - by rewrite He', He, fmap_app.
  - rewrite Hp', Hp, bind_app, zlen_app. cbn. by rewrite app_nil_r.
  - by apply Forall_app_2; [|constructor].
Qed.

Lemma add_file_appends now name data s u s' :
  wf_writer (ow_writer s) -> is_str name -> add_file now name data s = (Ok u, s') ->
  appended {| mb_name := name; mb_mtime := Z.max 0 now; mb_data := data |} s s'.
Proof.
  intros Hw Hn. rewrite add_file_unfold. intros Hr. unfold ow_advance, ow_push in *. inv_m.
  zlen_pos. apply create_tar_header_inv in Hm as (Hs & Ht & ->); [|lia..|done].
  apply ow_write_all_Ok in Hm1 as (W1 & C1 & E1 & P1); [|done].
  apply ow_write_all_Ok in Hm2 as (W2 & C2 & E2 & P2); [|done].
  apply pad_member_Ok in Hm4 as (W4 & C4 & E4 & P4); [|done]. cbn in *.
  assert (member_wf {| mb_name := name; mb_mtime := 0 `max` now; mb_data := data |})
    by (split_and!; cbn; [done|lia|lia|lia]).
  split; [done|done|..]; cbn.
  - rewrite C4, C2, C1, <- !app_assoc. reflexivity.
  - rewrite E4, E2, E1. unfold entry_of, compute_sha256. cbn. by rewrite sha_whole.
  - rewrite P4, P2, P1, zlen_tar_member by done. cbn. lia.
Qed.

(** ** Streaming *)

(** A whole streaming session: the parts are written with [write_all]. *)
Fixpoint write_parts (parts : list bytes) : M (StreamingFileWriter W) Error () :=
  match parts with
  | [] => mret tt
  | p :: parts' => _ ← map_err_m Error.from_io (write_all p); write_parts parts'
  end.

Definition stream_file (now : Z) (name : str) (size : Z) (parts : list bytes)
    : M (OvaWriter W) Error () := fun s =>
  match add_file_streaming now name size s with
  | (Ok f, _) =>
      let '(r, f') := (_ ← write_parts parts; StreamingFileWriter_finish) f in
      (r, sfw_ova_writer f')
  | (Err e, s') => (Err e, s')
  | (Panic, s') => (Panic, s')
  | (Diverge, s') => (Diverge, s')
  end.

#[export, refine] Instance WriteLaws_StreamingFileWriter : WriteLaws (StreamingFileWriter W) := {
  contents f := contents (ow_writer (sfw_ova_writer f));
  wf_writer f := wf_writer (ow_writer (sfw_ova_writer f));
}.
Proof.
  - intros b f r f' Hw. cbn. unfold StreamingFileWriter_write, mbind, M_bind, get, on_field.
    zcase; [by intros [= <- <-]|].
    destruct (write b (ow_writer (sfw_ova_writer f))) as [rn w'] eqn:Ew.
    destruct (write_law _ _ _ _ Hw Ew) as [Hw' Hl].
    destruct rn as [n|e| |]; try done; [|by intros [= <- <-]].
    unfold lift. rewrite read_slice_ok by lia. intros [= <- <-]. done.
  - intros f r f' Hw. cbn. unfold on_field.
    destruct (flush (ow_writer (sfw_ova_writer f))) as [rn w'] eqn:Ew.
    intros [= <- <-]. by apply (flush_law _ _ _ Hw Ew).
Defined.

(** The writer has been fed [b] for a file announced in state [s0]. *)
Record feeding (name : str) (size : Z) (s0 : OvaWriter W) (b : bytes)
    (f : StreamingFileWriter W) : Prop := {
  fd_wf : wf_writer f;
  fd_contents : contents f = contents (ow_writer s0) ++ b;
  fd_entries : ow_entries (sfw_ova_writer f) = ow_entries s0;
  fd_position : ow_current_position (sfw_ova_writer f) = ow_current_position s0;
  fd_name : sfw_filename f = name;
  fd_size : sfw_expected_size f = size;
  fd_hasher : exists ps, concat ps = b /\ sfw_hasher f = fold_left sha_update ps sha_new;
  fd_count : sfw_bytes_written f = zlen b;
  fd_fits : zlen b <= size;
}.

Lemma sfw_write_feeding name size s0 b f buf r f' :
  feeding name size s0 b f -> write buf f = (r, f') ->
  match r with
  | Ok n => 0 <= n <= zlen buf /\ feeding name size s0 (b ++ ztake n buf) f'
  | Err _ => feeding name size s0 b f'
  | Panic | Diverge => False
  end.
Proof.
  intros [Hw Hc He Hp Hn Hs (ps & Hps & Hh) Hk Hf]. cbn.
  unfold StreamingFileWriter_write, mbind, M_bind, get, on_field, lift, throw.
  zcase; [intros [= <- <-]; split; try done; by exists ps|].
  destruct (write buf (ow_writer (sfw_ova_writer f))) as [rn w'] eqn:Ew.
  destruct (write_law (W:=W) _ _ _ _ Hw Ew) as [Hw' Hl].
  destruct rn as [n|e| |]; try done.
  - destruct Hl as [Hnr Hcw]. rewrite read_slice_ok by lia. intros [= <- <-].
    split; [done|]. rewrite Z.sub_0_r. unfold zslice. rewrite zdrop_nonpos by lia.
    split; cbn; try done.
    + rewrite Hcw. cbn in Hc. by rewrite Hc, app_assoc.
    + exists (ps ++ [ztake n buf]). rewrite concat_app, fold_left_app, Hps, Hh. cbn.
      by rewrite app_nil_r.
    + rewrite zlen_app, zlen_ztake. lia.
    + rewrite zlen_app, zlen_ztake. lia.
  - intros [= <- <-]. split; try done; [|by exists ps]. cbn. by rewrite Hl.
Qed.

Lemma sfw_write_all_feeding name size s0 b f buf r f' :
  feeding name size s0 b f -> write_all buf f = (r, f') ->
  returns r /\ exists k, 0 <= k <= zlen buf /\ (r = Ok tt -> k = zlen buf) /\
    feeding name size s0 (b ++ ztake k buf) f'.
Proof.
  intros Hf Hr.
  destruct (write_all_prefix _ _ _ _ (fd_wf _ _ _ _ _ Hf) Hr) as (_ & Hret & k & Hk & Hc & Hall).
  split; [done|]. exists k. split_and!; [lia|lia|done|].
  assert (exists b', feeding name size s0 b' f') as [b' Hf'].
  { apply (write_all_invariant (fun f => exists b, feeding name size s0 b f)) in Hr; [done| |by exists b].
    intros b1 f1 r1 f2 [b0 Hf1] Hw1. pose proof (sfw_write_feeding _ _ _ _ _ _ _ _ Hf1 Hw1) as Hx.
    destruct r1; [destruct Hx as [_ Hx]; by eexists|by eexists|done|done]. }
  enough (b' = b ++ ztake k buf) as <- by done.
  apply (app_inv_head (contents (ow_writer s0))).
  rewrite <- (fd_contents _ _ _ _ _ Hf'), Hc, (fd_contents _ _ _ _ _ Hf). by rewrite app_assoc.
Qed.

(** Whatever happens, the parts written so far are a prefix of the file. *)
Lemma write_parts_feeding name size s0 b parts f r f' :
  feeding name size s0 b f -> write_parts parts f = (r, f') ->
  returns r /\ exists k, 0 <= k <= zlen (concat parts) /\
    (r = Ok tt -> k = zlen (concat parts)) /\
    feeding name size s0 (b ++ ztake k (concat parts)) f'.
Proof.
  revert b f. induction parts as [|p parts IH]; intros b f Hf; cbn [write_parts concat].
  - intros [= <- <-]. split; [done|]. exists 0. by rewrite app_nil_r.
  - unfold mbind, M_bind, map_err_m. destruct (write_all p f) as [r1 f1] eqn:E1.
    destruct (sfw_write_all_feeding _ _ _ _ _ _ _ _ Hf E1) as (Hret & k & Hk & Hall & Hf1).
    destruct r1 as [[]|e| |]; try done; cbn [map_err].
    + specialize (Hall eq_refl). subst k. rewrite ztake_all in Hf1 by lia.
      intros Hr. destruct (IH _ _ Hf1 Hr) as (Hret' & k & Hk' & Hall' & Hf').
      split; [done|]. exists (zlen p + k). rewrite zlen_app. split_and!; [lia|lia| |].
      { intros E. specialize (Hall' E). lia. }
      rewrite ztake_app_ge by lia. by rewrite Z.add_simpl_l, app_assoc.
    + intros [= <- <-]. split; [done|]. exists k. rewrite zlen_app. zlen_pos.
      split_and!; [lia|lia|done|]. rewrite ztake_app_le by lia. done.
Qed.

Lemma StreamingFileWriter_finish_unfold s :
  StreamingFileWriter_finish (W:=W) s =
    if negb (sfw_bytes_written s =? sfw_expected_size s) then
      (Err (Error.ova (fmt (lit "expected {} bytes but wrote {} bytes for file '{}'")
         [show_dec (sfw_expected_size s); show_dec (sfw_bytes_written s); sfw_filename s])), s)
    else
      on_field sfw_ova_writer set_sfw_ova_writer
        (_ ← ow_advance (sfw_bytes_written s);
         _ ← pad_member (sfw_bytes_written s);
         ow_push {| me_filename := sfw_filename s; me_hash := hex_encode (sha_finalize (sfw_hasher s)) |}) s.
Proof.
  unfold StreamingFileWriter_finish. unfold mbind at 1, M_bind at 1, get.
  by destruct (sfw_bytes_written s =? sfw_expected_size s).
Qed.

Lemma add_file_streaming_Ok now name size s f s' :
  wf_writer (ow_writer s) -> is_str name -> 0 <= size ->
  add_file_streaming now name size s = (Ok f, s') ->
  size < tar_limit /\ Z.max 0 now < tar_limit /\
  contents (ow_writer s') = contents (ow_writer s) ++ tar_block name size (Z.max 0 now) /\
  ow_entries s' = ow_entries s /\ ow_current_position s' = ow_current_position s + 512 /\
  sfw_ova_writer f = s' /\ feeding name size s' [] f.
Proof.
  intros Hw Hn Hsz Hr. unfold add_file_streaming, ow_advance in Hr. inv_m.
  apply create_tar_header_inv in Hm as (Hs & Ht & ->); [|lia..|done].
  apply ow_write_all_Ok in Hm1 as (W1 & C1 & E1 & P1); [|done]. cbn in *.
  split_and!; [done|done|done|done|lia|done|].
  split; cbn; try done; [by rewrite app_nil_r|by exists []].
Qed.

Lemma stream_file_appends now name size parts s u s' :
  wf_writer (ow_writer s) -> is_str name -> 0 <= size ->
  stream_file now name size parts s = (Ok u, s') ->
  size = zlen (concat parts) /\
  appended {| mb_name := name; mb_mtime := Z.max 0 now; mb_data := concat parts |} s s'.
Proof.
  intros Hw Hn Hs. unfold stream_file.
  destruct (add_file_streaming now name size s) as [[f|e| |] s1] eqn:Ea; try done.
  destruct (add_file_streaming_Ok _ _ _ _ _ _ Hw Hn Hs Ea)
    as (Hl & Ht & C0 & E0 & P0 & Ef & Hf).
  unfold mbind, M_bind. destruct (write_parts parts f) as [r1 f1] eqn:E1.
  destruct (write_parts_feeding _ _ _ _ _ _ _ _ Hf E1) as (_ & k & Hk & Hall & Hf1).
  destruct r1 as [[]|e| |]; try done. rewrite (Hall eq_refl), app_nil_l, ztake_all in Hf1 by lia.
  destruct Hf1 as [W1 C1 En P1 N1 S1 (ps & Hps & Hh) K1 F1]. cbn in C1, W1.
  rewrite StreamingFileWriter_finish_unfold, K1, S1.
  destruct (Z.eqb_spec (zlen (concat parts)) size) as [<-|]; cbn [negb]; [|done].
  assert (member_wf {| mb_name := name; mb_mtime := 0 `max` now; mb_data := concat parts |})
    by (split_and!; cbn; [done|lia|lia|lia]).
  destruct (on_field _ _ _ f1) as [r2 f2] eqn:E2. intros [= -> <-].
  unfold ow_advance, ow_push in E2. inv_m. apply pad_member_Ok in Hm as (W4 & C4 & E4 & P4); [|done].
  split; [done|]. cbn in *.
  split; [done|done|..]; cbn.
  - rewrite C4, C1, C0, <- !app_assoc. reflexivity.
  - rewrite E4, En, E0, Hh, sha_chunked, Hps. reflexivity.
  - rewrite P4, P1, P0, zlen_tar_member by done. cbn. lia.
Qed.
End writer.

(** ** Finishing *)

Definition manifest_line `{Sha2Laws} (m : member) : str :=
  lit "SHA256(" ++ mb_name m ++ lit ")= " ++ hex_encode (sha_digest (mb_data m)) ++ [c_nl].

(** The members [finish] adds: the manifest, unless the archive is empty. *)
Definition manifest_of `{Sha2Laws} (now : Z) (ms : list member) : list member :=
  match ms with
  | [] => []
  | _ => [{| mb_name := lit "manifest.mf"; mb_mtime := Z.max 0 now;
             mb_data := utf8_encode (ms ≫= manifest_line) |}]
  end.

Lemma manifest_name_str : is_str (lit "manifest.mf").
Proof. by apply is_strb_spec. Qed.

Section finish.
  Context `{WriteLaws W} `{Sha2Laws}.

Lemma generate_manifest_spec ms :
  generate_manifest (entry_of <$> ms) = ms ≫= manifest_line.
Proof.
  unfold generate_manifest. induction ms as [|m ms IH]; [done|].
  cbn [fmap list_fmap]. rewrite !bind_cons, IH. f_equal.
  unfold manifest_line, entry_of. cbn [me_filename me_hash].
  rewrite (fmt_hole (lit "SHA256(") (lit ")= {}")) by done.
  rewrite (fmt_hole (lit ")= ") []) by done. cbn [fmt]. by rewrite app_nil_r, <- !app_assoc.
Qed.

Lemma OvaWriter_finish_Ok base ms now s w' :
  archive_rep base ms s -> OvaWriter_finish now s = Ok w' ->
  wf_writer w' /\ Forall member_wf (ms ++ manifest_of now ms) /\
  contents w' = base ++ tar_archive (ms ++ manifest_of now ms).
Proof.
  intros [Hw Hc He Hp Hms]. unfold OvaWriter_finish.
  destruct (ova_finish_body now s) as [r s'] eqn:Eb. destruct r as [u|e| |]; try done.
  intros [= <-]. unfold ova_finish_body in Eb.
  apply M_bind_Ok in Eb as (? & ? & [= <- <-] & Eb).
  rewrite He, generate_manifest_spec in Eb.
  apply M_bind_Ok in Eb as ([] & s1 & Em & Eb).
  enough (Hx : wf_writer (ow_writer s1) /\ Forall member_wf (ms ++ manifest_of now ms) /\
            contents (ow_writer s1) = base ++ ((ms ++ manifest_of now ms) ≫= tar_member)).
  { destruct Hx as (W1 & F1 & C1).
    destruct (ow_write_all_Ok _ _ _ _ _ W1 Eb) as (W2 & C2 & _ & _).
    split_and!; [done|done|]. rewrite C2, C1. unfold tar_archive. by rewrite app_assoc. }
  destruct ms as [|m ms]; cbn [manifest_of].
  - cbn in Em. injection Em as <-. split_and!; [done..|]. by rewrite Hc.
  - assert (bool_decide (entry_of <$> m :: ms = []) = false) as Hne by done.
    rewrite Hne in Em. cbn [negb] in Em. set (text := utf8_encode _) in *.
    clearbody text. zlen_pos. inv_m. apply create_tar_header_inv in Hm as (Hs & Ht & ->); [|lia|lia|apply manifest_name_str].
    apply ow_write_all_Ok in Hm1 as (W1 & C1 & _ & _); [|done].
    apply ow_write_all_Ok in Hm0 as (W2 & C2 & _ & _); [|done].
    assert (wf_writer (ow_writer s1) /\
            contents (ow_writer s1) = contents (ow_writer st1) ++ zeros (pad_len 512 (zlen text)))
      as [W3 C3].
    { fold (pad_len 512 (zlen text)) in Hm3.
      pose proof (pad_len_range 512 (zlen text) ltac:(lia)).
      destruct (Z.ltb_spec 0 (pad_len 512 (zlen text))).
      - by apply ow_write_all_Ok in Hm3 as (? & ? & _ & _).
      - injection Hm3 as <-. replace (pad_len 512 (zlen text)) with 0 by lia.
        change (zeros 0) with (@nil Z). by rewrite app_nil_r. }
    split_and!; [done| |].
    + apply Forall_app_2; [done|]. constructor; [|done].
      split_and!; cbn; [apply manifest_name_str|lia|lia|lia].
    + rewrite C3, C2, C1, Hc, bind_app, <- !app_assoc. do 2 f_equal.
      cbn [mbind list_bind]. by rewrite app_nil_r.
Qed.
End finish.

(** ** With a writer that never fails *)

Section total.
  Context `{InfallibleWrite W} `{Sha2Laws}.

Lemma ow_write_all_total msg b s :
  wf_writer (ow_writer s) ->
  exists s', ow_write_all msg b s = (Ok tt, s') /\ wf_writer (ow_writer s').
Proof.
  intros Hw. destruct (write_all_total b (ow_writer s) Hw) as [w' Ew].
  destruct (write_all_Ok _ _ _ _ Hw Ew) as [Hw' _].
  exists (set_ow_writer w' s). split; [|done].
  unfold ow_write_all, on_field, map_err_m. by rewrite Ew.
Qed.

Ltac run_write :=
  cbv beta;
  lazymatch goal with
  | |- exists s', (ow_write_all ?msg ?b ≫= _) ?s = (Ok tt, s') =>
      let s1 := fresh "s" in let E1 := fresh "E" in let W1 := fresh "W" in
      destruct (ow_write_all_total msg b s ltac:(done)) as (s1 & E1 & W1);
      rewrite (M_bind_step _ _ _ _ _ E1)
  | |- exists s', (ow_advance ?n ≫= _) ?s = (Ok tt, s') =>
      rewrite (M_bind_step (ow_advance n) _ s tt _ eq_refl)
  end.

Lemma pad_member_total n s :
  wf_writer (ow_writer s) ->
  exists s', pad_member n s = (Ok tt, s').
Proof.
  intros Hw. unfold pad_member. zcase; [|by eexists]. run_write. by eexists.
Qed.

Lemma header_total {E} now name size (s : OvaWriter W) :
  is_str name -> 0 <= size < tar_limit -> Z.max 0 now < tar_limit ->
  lift (E:=E) (create_tar_header now name size) s
    = (Ok (tar_block name size (Z.max 0 now)), s).
Proof.
  intros. unfold lift, create_tar_header. cbn zeta. by rewrite create_tar_header_block by (done || lia).
Qed.

Lemma add_file_total now name data s :
  wf_writer (ow_writer s) -> is_str name -> zlen data < tar_limit -> Z.max 0 now < tar_limit ->
  exists s', add_file now name data s = (Ok tt, s').
Proof.
  intros Hw Hn Hd Ht. zlen_pos. rewrite add_file_unfold.
  rewrite (M_bind_step _ _ _ _ _ (header_total now name (zlen data) s Hn ltac:(lia) Ht)).
  do 4 run_write.
  match goal with |- context [(pad_member ?n ≫= _) ?st] =>
    destruct (pad_member_total n st) as [s2 E2]; [done|] end.
  rewrite (M_bind_step _ _ _ _ _ E2). by eexists.
Qed.

Lemma add_file_streaming_total now name size s :
  wf_writer (ow_writer s) -> is_str name -> 0 <= size < tar_limit -> Z.max 0 now < tar_limit ->
  exists f s', add_file_streaming now name size s = (Ok f, s').
Proof.
  intros Hw Hn Hd Ht. unfold add_file_streaming.
  rewrite (M_bind_step _ _ _ _ _ (header_total now name size s Hn Hd Ht)).
  destruct (ow_write_all_total "failed to write TAR header: {}" (tar_block name size (Z.max 0 now)) s Hw)
    as (s1 & E1 & W1).
  rewrite (M_bind_step _ _ _ _ _ E1). by do 2 eexists.
Qed.

(** Parts that fit are all taken; the part that does not is refused. *)
Lemma sfw_write_all_total name size s0 b f buf :
  feeding name size s0 b f -> zlen b + zlen buf <= size ->
  exists f', write_all buf f = (Ok tt, f').
Proof.
  intros Hf Hfit.
  destruct (write_all_progress
    (fun buf f => exists b, feeding name size s0 b f /\ zlen b + zlen buf <= size) buf f)
    as (f' & E & _); [| |by exists f'].
  - clear f b Hf buf Hfit. intros buf f Hne (b & Hf & Hfit).
    destruct (write_some buf (ow_writer (sfw_ova_writer f)) (fd_wf _ _ _ _ _ Hf) Hne)
      as (n & w' & Ew & Hn).
    destruct (write buf f) as [r f'] eqn:E.
    pose proof (sfw_write_feeding _ _ _ _ _ _ _ _ Hf E) as Hx.
    cbn in E. unfold StreamingFileWriter_write, mbind, M_bind, get, on_field, lift in E.
    rewrite (fd_count _ _ _ _ _ Hf), (fd_size _ _ _ _ _ Hf) in E.
    rewrite if_false in E by lia. rewrite Ew in E.
    destruct (write_law _ _ _ _ (fd_wf _ _ _ _ _ Hf : wf_writer (ow_writer (sfw_ova_writer f))) Ew)
      as [_ [Hr _]].
    rewrite read_slice_ok in E by lia. injection E as <- <-. destruct Hx as [_ Hx].
    eexists _, _. split; [reflexivity|]. split; [lia|]. eexists. split; [exact Hx|].
    rewrite zlen_app, zlen_ztake, zlen_zdrop. lia.
  - by exists b.
Qed.

Lemma sfw_write_all_refused name size s0 b f buf :
  feeding name size s0 b f -> size < zlen b + zlen buf ->
  exists e, write_all buf f = (Err e, f).
Proof.
  intros Hf Hbig. pose proof (fd_fits _ _ _ _ _ Hf).
  destruct buf as [|x buf]; [change (zlen (@nil Z)) with 0 in *; lia|].
  unfold write_all. cbn [length write_all_rounds]. unfold mbind at 1, M_bind at 1.
  cbn [write Write_StreamingFileWriter]. unfold StreamingFileWriter_write.
  rewrite (M_bind_step get _ f f f eq_refl).
  rewrite (fd_count _ _ _ _ _ Hf), (fd_size _ _ _ _ _ Hf).
  rewrite if_true by lia. by eexists.
Qed.

Lemma write_parts_total name size s0 b f parts :
  feeding name size s0 b f -> zlen b + zlen (concat parts) <= size ->
  exists f', write_parts parts f = (Ok tt, f').
Proof.
  revert b f. induction parts as [|p parts IH]; intros b f Hf Hfit; cbn [write_parts].
  - by eexists.
  - cbn [concat] in Hfit. rewrite zlen_app in Hfit. zlen_pos.
    destruct (sfw_write_all_total _ _ _ _ _ p Hf ltac:(lia)) as [f1 E1].
    destruct (sfw_write_all_feeding _ _ _ _ _ _ _ _ Hf E1) as (_ & k & Hk & Hall & Hf1).
    rewrite (Hall eq_refl), ztake_all in Hf1 by lia.
    unfold mbind, M_bind, map_err_m. rewrite E1. cbn [map_err].
    apply (IH _ _ Hf1). rewrite zlen_app. lia.
Qed.

Lemma write_parts_refused name size s0 b f parts :
  feeding name size s0 b f -> size < zlen b + zlen (concat parts) ->
  exists e f', write_parts parts f = (Err e, f').
Proof.
  revert b f. induction parts as [|p parts IH]; intros b f Hf Hbig; cbn [write_parts].
  - pose proof (fd_fits _ _ _ _ _ Hf). change (zlen (concat (@nil bytes))) with 0 in Hbig. lia.
  - cbn [concat] in Hbig. rewrite zlen_app in Hbig.
    unfold mbind, M_bind, map_err_m.
    destruct (decide (zlen b + zlen p <= size)) as [Hfit|].
    + destruct (sfw_write_all_total _ _ _ _ _ p Hf Hfit) as [f1 E1].
      destruct (sfw_write_all_feeding _ _ _ _ _ _ _ _ Hf E1) as (_ & k & Hk & Hall & Hf1).
      rewrite (Hall eq_refl), ztake_all in Hf1 by lia.
      rewrite E1. cbn [map_err]. apply (IH _ _ Hf1). rewrite zlen_app. lia.
    + destruct (sfw_write_all_refused _ _ _ _ _ p Hf ltac:(lia)) as [e E1].
      rewrite E1. cbn [map_err]. by do 2 eexists.
Qed.

Lemma stream_file_total now name parts s :
  wf_writer (ow_writer s) -> is_str name -> zlen (concat parts) < tar_limit ->
  Z.max 0 now < tar_limit ->
  exists s', stream_file now name (zlen (concat parts)) parts s = (Ok tt, s').
Proof.
  intros Hw Hn Hd Ht. zlen_pos. unfold stream_file.
  destruct (add_file_streaming_total now name (zlen (concat parts)) s Hw Hn ltac:(lia) Ht)
    as (f & s1 & Ea). rewrite Ea.
  destruct (add_file_streaming_Ok _ _ _ _ _ _ Hw Hn (zlen_nonneg _) Ea)
    as (_ & _ & _ & _ & _ & _ & Hf).
  destruct (write_parts_total _ _ _ _ _ parts Hf) as [f1 E1]; [zlen_nils; lia|].
  destruct (write_parts_feeding _ _ _ _ _ _ _ _ Hf E1) as (_ & k & _ & Hall & Hf1).
  rewrite (Hall eq_refl), ztake_all in Hf1 by lia.
  rewrite (M_bind_step _ _ _ _ _ E1), StreamingFileWriter_finish_unfold.
  rewrite (fd_count _ _ _ _ _ Hf1), (fd_size _ _ _ _ _ Hf1), app_nil_l, Z.eqb_refl. cbn [negb].
  unfold on_field. rewrite (M_bind_step (ow_advance _) _ _ tt _ eq_refl).
  match goal with |- context [(pad_member ?n ≫= _) ?st] =>
    destruct (pad_member_total n st) as [s2 E2]; [by apply (fd_wf _ _ _ _ _ Hf1)|] end.
  rewrite (M_bind_step _ _ _ _ _ E2). by eexists.
Qed.

(** A session whose parts do not add up to the announced size. *)
Lemma stream_file_wrong_size now name size parts s :
  wf_writer (ow_writer s) -> is_str name -> 0 <= size < tar_limit -> Z.max 0 now < tar_limit ->
  zlen (concat parts) <> size ->
  exists e s' k, stream_file now name size parts s = (Err e, s') /\
    0 <= k <= size /\ k <= zlen (concat parts) /\
    contents (ow_writer s') = contents (ow_writer s)
      ++ tar_block name size (Z.max 0 now) ++ ztake k (concat parts) /\
    ow_entries s' = ow_entries s.
Proof.
  intros Hw Hn Hsz Ht Hne. unfold stream_file.
  destruct (add_file_streaming_total now name size s Hw Hn ltac:(lia) Ht) as (f & s1 & Ea).
  rewrite Ea.
  destruct (add_file_streaming_Ok _ _ size _ _ _ Hw Hn ltac:(lia) Ea)
    as (_ & _ & C0 & E0 & _ & _ & Hf).
  destruct (write_parts parts f) as [r1 f1] eqn:E1.
  destruct (write_parts_feeding _ _ _ _ _ _ _ _ Hf E1) as (_ & k & Hk & Hall & Hf1).
  rewrite app_nil_l in Hf1.
  assert (Hend : exists e, (_ ← write_parts parts; StreamingFileWriter_finish) f = (Err e, f1)).
  { destruct (decide (zlen (concat parts) < size)).
    - destruct (write_parts_total _ _ _ _ _ parts Hf) as [f1' E1']; [zlen_nils; lia|].
      rewrite E1' in E1. injection E1 as <- <-. rewrite (M_bind_step _ _ _ _ _ E1').
      rewrite (Hall eq_refl), ztake_all in Hf1 by lia.
      rewrite StreamingFileWriter_finish_unfold.
      rewrite (fd_count _ _ _ _ _ Hf1), (fd_size _ _ _ _ _ Hf1).
      destruct (Z.eqb_spec (zlen (concat parts)) size); [done|]. by eexists.
    - destruct (write_parts_refused _ _ _ _ _ parts Hf) as (e & f1' & E1'); [zlen_nils; lia|].
      rewrite E1' in E1. injection E1 as <- <-. exists e. unfold mbind, M_bind. by rewrite E1'. }
  destruct Hend as [e ->]. exists e, (sfw_ova_writer f1), k.
  pose proof (fd_fits _ _ _ _ _ Hf1) as Hfits. rewrite zlen_ztake in Hfits.
  split_and!; [done|lia|lia|lia| |].
  - pose proof (fd_contents _ _ _ _ _ Hf1) as Hc. cbn in Hc. by rewrite Hc, C0, <- app_assoc.
  - by rewrite (fd_entries _ _ _ _ _ Hf1).
Qed.

Lemma OvaWriter_finish_total ms now s :
  ow_entries s = entry_of <$> ms -> wf_writer (ow_writer s) ->
  zlen (utf8_encode (ms ≫= manifest_line)) < tar_limit -> Z.max 0 now < tar_limit ->
  exists w', OvaWriter_finish now s = Ok w'.
Proof.
  intros He Hw Hl Ht. unfold OvaWriter_finish.
  enough (exists s', ova_finish_body now s = (Ok tt, s')) as [s' ->] by (by eexists).
  unfold ova_finish_body. rewrite (M_bind_step get _ s s s eq_refl).
  rewrite He, generate_manifest_spec. destruct ms as [|m ms].
  - destruct (ow_write_all_total "failed to write TAR end marker: {}" (zeros 1024) s Hw) as (s' & E & _).
    exists s'. exact E.
  - assert (bool_decide (entry_of <$> m :: ms = []) = false) as -> by done. cbn [negb].
    set (text := utf8_encode _) in *. clearbody text. zlen_pos.
    match goal with |- exists s', (?m ≫= ?k) s = _ =>
      enough (exists s', m s = (Ok tt, s') /\ wf_writer (ow_writer s')) as (s' & E & W1) end.
    { rewrite (M_bind_step _ _ _ _ _ E). cbv beta.
      edestruct ow_write_all_total as (s2 & E2 & _); [exact W1|]. exists s2. exact E2. }
    rewrite (M_bind_step _ _ _ _ _ (header_total now _ (zlen text) s manifest_name_str ltac:(lia) Ht)).
    edestruct (ow_write_all_total "failed to write manifest header: {}") as (s2 & E2 & W2); [exact Hw|].
    rewrite (M_bind_step _ _ _ _ _ E2).
    edestruct (ow_write_all_total "failed to write manifest: {}") as (s3 & E3 & W3); [exact W2|].
    rewrite (M_bind_step _ _ _ _ _ E3). cbn zeta. zcase; [|by eexists].
    by apply ow_write_all_total.
Qed.
End total.

(** ** Whole archives *)

(** One file of an archive, added whole or streamed in parts. *)
Inductive addition :=
  | AddFile (now : Z) (name : str) (data : bytes)
  | AddStreamed (now : Z) (name : str) (parts : list bytes).

Definition member_of (a : addition) : member :=
  match a with
  | AddFile now name data => {| mb_name := name; mb_mtime := Z.max 0 now; mb_data := data |}
  | AddStreamed now name parts =>
      {| mb_name := name; mb_mtime := Z.max 0 now; mb_data := concat parts |}
  end.

Section archives.
  Context `{Write W} `{Sha2}.

Definition run_addition (a : addition) : M (OvaWriter W) Error () :=
  match a with
  | AddFile now name data => add_file now name data
  | AddStreamed now name parts => stream_file now name (zlen (concat parts)) parts
  end.

Fixpoint run_additions (l : list addition) : M (OvaWriter W) Error () :=
  match l with
  | [] => mret tt
  | a :: l' => _ ← run_addition a; run_additions l'
  end.

(** [OvaWriter::new], the files, [OvaWriter::finish]. *)
Definition build_ova (w : W) (l : list addition) (now : Z) : Result W :=
  o ← OvaWriter_new w;
  let '(r, o') := run_additions l o in
  _ ← r; OvaWriter_finish now o'.
End archives.

Lemma run_addition_appends `{WriteLaws W} `{Sha2Laws} a s u s' :
  wf_writer (ow_writer s) -> is_str (mb_name (member_of a)) -> run_addition a s = (Ok u, s') ->
  appended (member_of a) s s'.
Proof.
  destruct a; cbn; intros Hw Hn Hr.
  - by apply (add_file_appends _ _ _ _ _ _ Hw Hn Hr).
  - by apply (stream_file_appends _ _ _ _ _ _ _ Hw Hn (zlen_nonneg _) Hr).
Qed.

Lemma run_addition_total `{InfallibleWrite W} `{Sha2Laws} a s :
  wf_writer (ow_writer s) -> member_wf (member_of a) ->
  exists s', run_addition a s = (Ok tt, s').
Proof.
  destruct a; intros Hw (Hn & Ht & Hd); cbn in *.
  - apply add_file_total; lia || done.
  - apply stream_file_total; lia || done.
Qed.

Lemma run_additions_rep `{InfallibleWrite W} `{Sha2Laws} base ms l s :
  archive_rep base ms s -> Forall member_wf (member_of <$> l) ->
  exists s', run_additions l s = (Ok tt, s') /\ archive_rep base (ms ++ (member_of <$> l)) s'.
Proof.
  revert ms s. induction l as [|a l IH]; intros ms s Hrep Hl; cbn [run_additions fmap list_fmap].
  - exists s. by rewrite app_nil_r.
  - apply Forall_cons in Hl as [Ha Hl].
    destruct (run_addition_total a s (ar_wf _ _ _ Hrep) Ha) as [s1 E1].
    pose proof (run_addition_appends _ _ _ _ (ar_wf _ _ _ Hrep) (proj1 Ha) E1) as Hap.
    rewrite (M_bind_step _ _ _ _ _ E1).
    destruct (IH _ _ (appended_rep _ _ _ _ _ Hrep Hap) Hl) as (s' & E & Hrep').
    exists s'. split; [done|]. by rewrite <- app_assoc in Hrep'.
Qed.

Lemma archive_rep_new `{WriteLaws W} `{Sha2Laws} w :
  wf_writer w ->
  archive_rep (contents w) [] {| ow_writer := w; ow_entries := []; ow_current_position := 0 |}.
Proof. intros. split; cbn; try done. by rewrite app_nil_r. Qed.

Lemma aligned_archive ms : Forall member_wf ms -> zlen (tar_archive ms) mod 512 = 0.
Proof.
  intros Hwf. unfold tar_archive. rewrite zlen_app. change (zlen (zeros 1024)) with (2 * 512).
  rewrite Z.mod_add by lia. induction Hwf as [|m ms Hm _ IH]; [done|].
  rewrite bind_cons, zlen_app, zlen_tar_member by done.
  pose proof (pad_len_aligns 512 (zlen (mb_data m)) ltac:(lia)).
  Z.to_euclidean_division_equations; lia.
Qed.

(** ** The properties *)

(** C8: an archive built by [OvaWriter] on a writer that does not fail, from any
    mix of whole and streamed files within the header's limits, is a sequence
    of 512-byte blocks that a TAR reader (checksum, magic, octal fields and
    padding verified) lists as exactly the files added, in order, with their
    bytes, followed by manifest.mf holding one SHA256 line per file with the
    digest of its data; an archive of no files has no manifest. *)
Theorem ova_archive_readable `{InfallibleWrite W} `{Sha2Laws} (w : W) l now :
  wf_writer w -> contents w = [] ->
  Forall member_wf (member_of <$> l) -> Z.max 0 now < tar_limit ->
  zlen (utf8_encode ((member_of <$> l) ≫= manifest_line)) < tar_limit ->
  exists w', build_ova w l now = Ok w' /\
    zlen (contents w') mod 512 = 0 /\
    tar_read (contents w') =
      Some ((((fun m => (tar_name (mb_name m), mb_data m)) <$> (member_of <$> l))
             ++ if bool_decide (l = []) then [] else
                [(lit "manifest.mf", utf8_encode ((member_of <$> l) ≫= manifest_line))])).
Proof.
  intros Hw Hc Hl Ht Hm. unfold build_ova, OvaWriter_new. rewrite bind_ret_Ok.
  destruct (run_additions_rep _ _ l _ (archive_rep_new w Hw) Hl) as (s & E & Hrep). rewrite E.
  rewrite bind_ret_Ok, app_nil_l in *.
  destruct (OvaWriter_finish_total _ now s (ar_entries _ _ _ Hrep) (ar_wf _ _ _ Hrep) Hm Ht)
    as [w' Ew]. exists w'. split; [done|].
  destruct (OvaWriter_finish_Ok _ _ _ _ _ Hrep Ew) as (_ & Hms & Hc').
  rewrite Hc', Hc, app_nil_l. split; [by apply aligned_archive|].
  rewrite tar_read_archive by done. f_equal. unfold listing. rewrite fmap_app. f_equal.
  by destruct l.
Qed.

(** A digest that adds the bytes up, standing for the [sha2] crate in the
    concrete runs. *)
Definition sum_sha2 : Sha2 :=
  {| Sha256 := bytes; sha_new := []; sha_update h b := h ++ b;
     sha_finalize h := le_bytes 32 (sum_bytes h) |}.

#[refine] Definition sum_sha2_laws : @Sha2Laws sum_sha2 :=
  @Build_Sha2Laws sum_sha2 (fun b => le_bytes 32 (sum_bytes b)) _ _ _.
Proof.
  - intros parts. cbn. by rewrite fold_left_concat.
  - intros. apply zlen_le_bytes.
  - intros. apply le_bytes_is_byte.
Defined.

Definition sample_files : list addition :=
  [AddFile 1700000000 (lit "disk.vmdk") [1; 2; 3];
   AddStreamed (-5) (lit "vm.ovf") [[60]; []; [118; 109]]].

Lemma sample_files_wf : Forall member_wf (member_of <$> sample_files).
Proof.
  repeat constructor; cbn; try (by apply is_strb_spec); unfold tar_limit; cbn; lia.
Qed.

(** The sample archive, evaluated end to end. *)
Example sample_archive_evaluated :
  (w' ← build_ova (W:=Cursor) (H0:=sum_sha2) cursor_new sample_files 7; Ok (fst <$> default [] (tar_read (cursor_buf w'))))
  = Ok [lit "disk.vmdk"; lit "vm.ovf"; lit "manifest.mf"].
Proof. vm_compute. reflexivity. Qed.

Lemma ova_archive_readable_witness :
  exists w', build_ova (H0:=sum_sha2) cursor_new sample_files 7 = Ok w' /\
    zlen (contents w') mod 512 = 0 /\
    tar_read (contents w') =
      Some ((((fun m => (tar_name (mb_name m), mb_data m)) <$> (member_of <$> sample_files))
             ++ if bool_decide (sample_files = []) then [] else
                [(lit "manifest.mf",
                  utf8_encode ((member_of <$> sample_files) ≫= manifest_line (H0:=sum_sha2_laws)))])).
Proof.
  apply (ova_archive_readable (H3:=sum_sha2_laws) cursor_new sample_files 7).
  - reflexivity.
  - reflexivity.
  - apply sample_files_wf.
  - by vm_compute.
  - by vm_compute.
Defined.

(** C28: the header functions have twelve octal bytes for the size and for the
    time: they return a 512-byte block that a TAR reader accepts with the name
    (cut at 99 bytes) and the exact size, for every size and time below
    8{^11} (8 GiB), and panic from there on. *)
Theorem tar_header_limits name size mtime :
  is_str name -> 0 <= size -> 0 <= mtime ->
  if (size <? 8 ^ 11) && (mtime <? 8 ^ 11)
  then exists b, @create_tar_header_with_mtime Error name size mtime = Ok b /\
         zlen b = 512 /\ tar_parse_header b = Some (tar_name name, size)
  else @create_tar_header_with_mtime Error name size mtime = Panic.
Proof.
  intros Hn Hs Hm. fold tar_limit.
  destruct (Z.ltb_spec size tar_limit); [destruct (Z.ltb_spec mtime tar_limit)|]; cbn [andb].
  - eexists. split; [by apply create_tar_header_block|].
    split; [by apply zlen_block|by apply tar_block_parses].
  - apply create_tar_header_panics; lia.
  - apply create_tar_header_panics; lia.
Qed.

Lemma tar_header_limits_witness :
  (exists b, @create_tar_header_with_mtime Error (lit "disk.vmdk") 5 0 = Ok b /\
     zlen b = 512 /\ tar_parse_header b = Some (lit "disk.vmdk", 5)) /\
  @create_tar_header_with_mtime Error (lit "disk.vmdk") (8 ^ 11) 0 = Panic.
Proof.
  assert (is_str (lit "disk.vmdk")) by (by apply is_strb_spec).
  split; [apply (tar_header_limits (lit "disk.vmdk") 5 0)
         |apply (tar_header_limits (lit "disk.vmdk") (8 ^ 11) 0)]; done.
Defined.

(** C26: on a writer that does not fail, streaming a file in parts of any sizes
    leaves the archive with the bytes, the manifest entries and the position
    that adding the same bytes at once leaves. *)
Theorem streaming_matches_add_file `{InfallibleWrite W} `{Sha2Laws} (s : OvaWriter W) now name parts :
  wf_writer (ow_writer s) -> is_str name -> Z.max 0 now < tar_limit ->
  zlen (concat parts) < tar_limit ->
  exists s1 s2,
    stream_file now name (zlen (concat parts)) parts s = (Ok tt, s1) /\
    add_file now name (concat parts) s = (Ok tt, s2) /\
    contents (ow_writer s1) = contents (ow_writer s2) /\
    ow_entries s1 = ow_entries s2 /\ ow_current_position s1 = ow_current_position s2.
Proof.
  intros Hw Hn Ht Hd.
  destruct (stream_file_total now name parts s Hw Hn Hd Ht) as [s1 E1].
  destruct (add_file_total now name (concat parts) s Hw Hn Hd Ht) as [s2 E2].
  destruct (stream_file_appends _ _ _ _ _ _ _ Hw Hn (zlen_nonneg _) E1) as [_ [_ _ C1 M1 P1]].
  destruct (add_file_appends _ _ _ _ _ _ Hw Hn E2) as [_ _ C2 M2 P2].
  exists s1, s2. split_and!; [done|done|by rewrite C1, C2|by rewrite M1, M2|by rewrite P1, P2].
Qed.

Lemma streaming_matches_add_file_witness :
  exists s1 s2,
    stream_file (H1:=sum_sha2) 5 (lit "d") 3 [[1]; [2; 3]] (Build_OvaWriter cursor_new [] 0) = (Ok tt, s1) /\
    add_file (H0:=sum_sha2) 5 (lit "d") [1; 2; 3] (Build_OvaWriter cursor_new [] 0) = (Ok tt, s2) /\
    contents (ow_writer s1) = contents (ow_writer s2) /\
    ow_entries s1 = ow_entries s2 /\ ow_current_position s1 = ow_current_position s2.
Proof.
  apply (streaming_matches_add_file (H3:=sum_sha2_laws) (Build_OvaWriter cursor_new [] 0) 5 (lit "d") [[1]; [2; 3]]);
    [done|by apply is_strb_spec|done|done].
Defined.

(** C27: a streaming session whose parts do not add up to the announced size
    fails: a write that would exceed it is refused before any byte of it is
    taken, and finishing early is an error.  The manifest gets no entry and
    never more than the announced bytes of data follow the header; the header
    itself stays in the archive. *)
Theorem streaming_wrong_size_rejected `{InfallibleWrite W} `{Sha2Laws} (s : OvaWriter W) now name size parts :
  wf_writer (ow_writer s) -> is_str name -> 0 <= size < tar_limit -> Z.max 0 now < tar_limit ->
  zlen (concat parts) <> size ->
  exists e s' k, stream_file now name size parts s = (Err e, s') /\
    0 <= k <= size /\ k <= zlen (concat parts) /\
    contents (ow_writer s') = contents (ow_writer s)
      ++ tar_block name size (Z.max 0 now) ++ ztake k (concat parts) /\
    ow_entries s' = ow_entries s.
Proof. apply stream_file_wrong_size. Qed.

Lemma streaming_wrong_size_rejected_witness :
  let s := Build_OvaWriter cursor_new [] 0 in
  exists e s' k, stream_file (H1:=sum_sha2) 5 (lit "d") 2 [[1]; [2; 3]] s = (Err e, s') /\
    0 <= k <= 2 /\ k <= 3 /\
    contents (ow_writer s') = contents (ow_writer s)
      ++ tar_block (lit "d") 2 (Z.max 0 5) ++ ztake k [1; 2; 3] /\
    ow_entries s' = ow_entries s.
Proof.
  apply (streaming_wrong_size_rejected (H3:=sum_sha2_laws) (Build_OvaWriter cursor_new [] 0) 5 (lit "d") 2 [[1]; [2; 3]]);
    [done|by apply is_strb_spec|unfold tar_limit; lia|done|done].
Defined.

(** ** [Sha256Writer] and the hexadecimal digests *)

Fixpoint hex_decode (s : str) : option bytes :=
  match s with
  | [] => Some []
  | [_] => None
  | a :: b :: s' =>
      x ← digit_val 16 a; y ← digit_val 16 b; cons (x * 16 + y) <$> hex_decode s'
  end.

Lemma hex_byte x : is_byte x ->
  pad_zero 2 (show_radix 16 x) = [digit_char (x / 16); digit_char (x mod 16)].
Proof.
  intros Hx.
  assert (Hall : forallb (fun x => bool_decide (pad_zero 2 (show_radix 16 x)
            = [digit_char (x / 16); digit_char (x mod 16)])) (seqZ 0 256) = true)
    by (vm_compute; reflexivity).
  rewrite forallb_forall in Hall. specialize (Hall x).
  rewrite bool_decide_eq_true in Hall. apply Hall.
  apply list_elem_of_In, elem_of_seqZ. unfold is_byte in Hx. lia.
Qed.

Lemma hex_encode_decode b : Forall is_byte b -> hex_decode (hex_encode b) = Some b.
Proof.
  induction 1 as [|x b Hx _ IH]; [done|]. unfold hex_encode. rewrite bind_cons, hex_byte by done.
  unfold is_byte in Hx. cbn [app hex_decode].
  rewrite !digit_val_char by (Z.to_euclidean_division_equations; lia). cbn [mbind option_bind].
  fold (hex_encode b). rewrite IH. cbn. do 2 f_equal. Z.to_euclidean_division_equations; lia.
Qed.

Lemma zlen_hex_encode b : Forall is_byte b -> zlen (hex_encode b) = 2 * zlen b.
Proof.
  induction 1 as [|x b Hx _ IH]; [done|]. unfold hex_encode in *.
  rewrite bind_cons, hex_byte by done. rewrite zlen_app, IH, !zlen_cons. zlen_nils. lia.
Qed.

(** The digest strings of the manifest are lossless: [compute_sha256]
    returns 64 characters that decode to the 32 bytes of the digest, so two
    files get the same string only if their digests are the same. *)
Theorem compute_sha256_decodes `{Sha2Laws} data :
  zlen (compute_sha256 data) = 64 /\ hex_decode (compute_sha256 data) = Some (sha_digest data).
Proof.
  unfold compute_sha256. cbn zeta. rewrite sha_whole.
  rewrite zlen_hex_encode, sha_digest_len by apply sha_digest_bytes.
  split; [done|]. apply hex_encode_decode, sha_digest_bytes.
Qed.

Section sha256_writer.
  Context `{WriteLaws W} `{Sha2Laws}.

(** Any sequence of [write] calls, whatever they answer. *)
Fixpoint write_calls (l : list bytes) : M (Sha256Writer W) io_error () :=
  match l with
  | [] => mret tt
  | b :: l' => fun s => let '(_, s') := write b s in write_calls l' s'
  end.

Record hashing (w0 : W) (fed : bytes) (s : Sha256Writer W) : Prop := {
  hs_wf : wf_writer (shw_inner s);
  hs_contents : contents (shw_inner s) = contents w0 ++ fed;
  hs_hasher : exists ps, concat ps = fed /\ shw_hasher s = fold_left sha_update ps sha_new;
  hs_count : shw_bytes_written s = zlen fed;
}.

Lemma Sha256Writer_write_hashing w0 fed s b r s' :
  hashing w0 fed s -> write b s = (r, s') ->
  exists k, 0 <= k <= zlen b /\ hashing w0 (fed ++ ztake k b) s'.
Proof.
  intros [Hw Hc (ps & Hps & Hh) Hk]. cbn.
  unfold Sha256Writer_write, mbind, M_bind, on_field, lift.
  destruct (write b (shw_inner s)) as [rn w'] eqn:Ew.
  destruct (write_law _ _ _ _ Hw Ew) as [Hw' Hl]. zlen_pos.
  destruct rn as [n|e| |]; try done.
  - destruct Hl as [Hn Hc']. rewrite read_slice_ok by lia. intros [= <- <-].
    exists n. split; [lia|]. rewrite Z.sub_0_r. unfold zslice. rewrite zdrop_nonpos by lia.
    split; cbn; [done|by rewrite Hc', Hc, app_assoc| |rewrite zlen_app, zlen_ztake; lia].
    exists (ps ++ [ztake n b]). rewrite concat_app, fold_left_app, Hps, Hh. cbn.
    by rewrite app_nil_r.
  - intros [= <- <-]. exists 0. split; [lia|]. rewrite ztake_nonpos, app_nil_r by lia.
    split; cbn; [done|by rewrite Hl|by exists ps|done].
Qed.
End sha256_writer.

(** A [Sha256Writer] is transparent: after any [write] calls, short and
    failing ones included, [finish] gives back the inner writer with exactly
    the accepted bytes appended, the digest of exactly those bytes, and their
    number. *)
Theorem sha256_writer_transparent `{WriteLaws W} `{Sha2Laws} (w : W) l :
  wf_writer w ->
  let '(w', hash, n) := Sha256Writer_finish (snd (write_calls l (Sha256Writer_new w))) in
  exists fed, contents w' = contents w ++ fed /\ hash = compute_sha256 fed /\ n = zlen fed.
Proof.
  intros Hw. cbn.
  assert (Hs : hashing w [] (Sha256Writer_new w)).
  { split; cbn; [done|by rewrite app_nil_r|by exists []|done]. }
  revert Hs. generalize (Sha256Writer_new w), (@nil Z). intros s fed Hs.
  enough (exists fed', hashing w fed' (snd (write_calls l s))) as [fed' [_ Hc (ps & Hps & Hh) Hn]].
  { exists fed'. split_and!; [done| |done]. unfold compute_sha256. cbn zeta.
    by rewrite sha_whole, Hh, sha_chunked, Hps. }
  revert s fed Hs. induction l as [|b l IH]; intros s fed Hs; cbn [write_calls]; [by exists fed|].
  destruct (write b s) as [r s1] eqn:E1.
  destruct (Sha256Writer_write_hashing _ _ _ _ _ _ Hs E1) as (k & _ & Hs1). by apply (IH s1 _ Hs1).
Qed.

Lemma sha256_writer_transparent_witness :
  let d := {| disk_data := [9]; disk_room := 3; disk_burst := 2 |} in
  let '(w', hash, n) :=
    Sha256Writer_finish (snd (write_calls [[1; 2; 3]; [4]; [5]] (Sha256Writer_new (H:=sum_sha2) d))) in
  exists fed, contents w' = contents d ++ fed /\
    hash = compute_sha256 (H:=sum_sha2) fed /\ n = zlen fed.
Proof.
  apply (sha256_writer_transparent (H2:=sum_sha2_laws)
           {| disk_data := [9]; disk_room := 3; disk_burst := 2 |} [[1; 2; 3]; [4]; [5]]).
  reflexivity.
Defined.
