(* ===== verification/SparseSpec.v ===== *)
(** * SparseSpec: the hosted sparse reader

    Opening a file with a sane geometry never panics and records the grain
    directory of the file; a geometry with a zero panics; a grain read comes
    back with the grain's size; draining the chunk iterator cuts the virtual
    disk, and what the stream writer's compression puts in a grain is what the
    reader gets out. *)
From S2P Require Export Sparse StreamSpec ReaderSpec.

(** ** Geometry *)

Definition grains_of (h : SparseHeader) : Z := ceil_div (sh_capacity h) (sh_grain_size h).
Definition gd_entries (h : SparseHeader) : Z := ceil_div (grains_of h) (sh_num_gtes_per_gt h).
Definition gd_offset_bytes (h : SparseHeader) : Z := sh_gd_offset h * SECTOR_SIZE.

(** The sizes the header announces are not zero and fit the machine. *)
Record geometry (h : SparseHeader) : Prop := {
  geo_grain : 0 < sh_grain_size h;
  geo_gtes : 0 < sh_num_gtes_per_gt h < 2 ^ 32;
  geo_capacity : 0 <= sh_capacity h;
  geo_capacity_bytes : sh_capacity h * SECTOR_SIZE < 2 ^ 64;
  geo_grain_bytes : sh_grain_size h * SECTOR_SIZE < 2 ^ 63;
  geo_gd : 0 <= sh_gd_offset h;
  geo_gd_end : gd_offset_bytes h + gd_entries h * 4 < 2 ^ 64;
}.

Definition u32_at (off : Z) (file : bytes) : Z := le_val (zslice off 4 file).

Lemma read_u32_at {E} off file :
  off + 4 <= zlen file -> read_u32 off file =@{outcome E Z} Ok (u32_at off file).
Proof. intros. by rewrite read_le_ok by lia. Qed.

Section open.
  Context `{BuildProfile}.

Lemma num_gd_entries_geometry {E} h : geometry h -> num_gd_entries (E:=E) h = Ok (gd_entries h).
Proof.
  intros []. unfold SECTOR_SIZE in *. unfold num_gd_entries, add_u64, sub_u64.
  assert (0 <= grains_of h) by (apply ceil_div_nonneg; lia).
  pose proof (ceil_div_bounds (sh_capacity h) (sh_grain_size h) ltac:(lia) ltac:(lia)).
  fold (grains_of h) in *. assert (grains_of h < 2 ^ 56) by nia.
  rewrite !checked_ok, bind_ret_Ok, checked_ok, bind_ret_Ok by (unfold is_u; lia).
  rewrite div_u64_ok, bind_ret_Ok by lia. rewrite <- ceil_div_alt by lia. fold (grains_of h).
  rewrite !checked_ok, bind_ret_Ok, checked_ok, bind_ret_Ok by (unfold is_u; lia).
  rewrite div_u64_ok by lia. unfold gd_entries. by rewrite (ceil_div_alt (grains_of h)) by lia.
Qed.

Definition directory_of (h : SparseHeader) (file : bytes) : list Z :=
  (fun i => u32_at (gd_offset_bytes h + i * 4) file) <$> seqZ 0 (gd_entries h).

(** [open] of a mapped file, every branch. *)
Lemma SparseVmdkReader_from_mmap_spec file h :
  SparseHeader_from_bytes file = Ok h -> geometry h ->
  SparseVmdkReader_from_mmap file =
    if 3 <? sh_version h then
      Err (Error.vmdk (fmt (lit "Unsupported sparse VMDK version: {}") [show_dec (sh_version h)]))
    else if has_markers h then
      Err (Error.vmdk
        (lit "StreamOptimized VMDKs with markers are not supported for reading. Please use a flat or hosted sparse VMDK."))
    else if zlen file <? gd_offset_bytes h + gd_entries h * 4 then
      Err (Error.vmdk (lit "Grain directory extends beyond file"))
    else Ok {| svr_mmap := file; svr_header := h;
               svr_grain_directory := directory_of h file;
               svr_capacity_bytes := sh_capacity h * SECTOR_SIZE |}.
Proof.
  intros Hh Hg. pose proof Hg as []. unfold SparseVmdkReader_from_mmap.
  rewrite Hh, bind_ret_Ok. destruct (3 <? sh_version h); [done|].
  destruct (has_markers h); [done|].
  unfold mul_u64, add_u64. fold (gd_offset_bytes h).
  assert (0 <= gd_entries h).
  { apply ceil_div_nonneg; [lia|]. apply ceil_div_nonneg; lia. }
  assert (0 <= gd_offset_bytes h) by (unfold gd_offset_bytes, SECTOR_SIZE; lia).
  rewrite (checked_ok 64 (gd_offset_bytes h)), bind_ret_Ok by (unfold is_u; lia).
  rewrite num_gd_entries_geometry, bind_ret_Ok by done.
  rewrite (checked_ok 64 (gd_entries h * 4)), bind_ret_Ok by (unfold is_u; lia).
  rewrite (checked_ok 64 (gd_offset_bytes h + gd_entries h * 4)), bind_ret_Ok by (unfold is_u; lia).
  destruct (Z.ltb_spec (zlen file) (gd_offset_bytes h + gd_entries h * 4)); [done|].
  rewrite (mapM_all_Ok _ (fun i => u32_at (gd_offset_bytes h + i * 4) file)).
  - rewrite bind_ret_Ok, checked_ok by (unfold is_u, SECTOR_SIZE in *; lia). done.
  - intros i [Hi1 Hi2]%elem_of_seqZ. rewrite checked_ok, bind_ret_Ok by (unfold is_u; lia).
    by rewrite read_u32_at by lia.
Qed.

(** What [open] establishes. *)
Record svr_wf (r : SparseVmdkReader) : Prop := {
  svr_bytes : Forall is_byte (svr_mmap r);
  svr_geometry : geometry (svr_header r);
  svr_directory : svr_grain_directory r = directory_of (svr_header r) (svr_mmap r);
  svr_gd_inside : gd_offset_bytes (svr_header r) + gd_entries (svr_header r) * 4 <= zlen (svr_mmap r);
  svr_capacity : svr_capacity_bytes r = sh_capacity (svr_header r) * SECTOR_SIZE;
}.

Lemma from_mmap_wf file h r :
  Forall is_byte file -> SparseHeader_from_bytes file = Ok h -> geometry h ->
  SparseVmdkReader_from_mmap file = Ok r -> svr_wf r /\ svr_header r = h /\ svr_mmap r = file.
Proof.
  intros Hb Hh Hg. rewrite (SparseVmdkReader_from_mmap_spec _ _ Hh Hg).
  destruct (3 <? sh_version h); [done|]. destruct (has_markers h); [done|].
  destruct (Z.ltb_spec (zlen file) (gd_offset_bytes h + gd_entries h * 4)); [done|].
  intros [= <-]. by split_and!.
Qed.

(** ** Grains *)

Definition grain_bytes_of (r : SparseVmdkReader) : Z := sh_grain_size (svr_header r) * SECTOR_SIZE.

Lemma u32_at_range off file :
  Forall is_byte file -> 0 <= off -> off + 4 <= zlen file -> 0 <= u32_at off file < 2 ^ 32.
Proof.
  intros Hb Ho Hl. unfold u32_at.
  pose proof (le_val_range _ (Forall_zslice is_byte off 4 file Hb)) as Hr.
  rewrite zlen_zslice in Hr by lia. apply Hr.
Qed.

Lemma directory_lookup r g e :
  svr_wf r -> svr_grain_directory r !! Z.to_nat g = Some e -> 0 <= g ->
  0 <= e < 2 ^ 32 /\ g < gd_entries (svr_header r) /\
  e = u32_at (gd_offset_bytes (svr_header r) + g * 4) (svr_mmap r).
Proof.
  intros [Hb [] Hd Hi _]. rewrite Hd. unfold directory_of.
  rewrite list_lookup_fmap_Some. intros (i & -> & Hl) Hg.
  apply lookup_seqZ in Hl as [-> Hlt].
  assert (0 <= gd_offset_bytes (svr_header r)) by (unfold gd_offset_bytes, SECTOR_SIZE; lia).
  rewrite Z2Nat.id in * by lia. rewrite Z.add_0_l in *.
  split_and!; [apply u32_at_range; [done|lia|lia]..|lia|done].
Qed.

(** A table of no entries, or grains of no sectors. *)
Lemma zero_geometry_panics file h :
  SparseHeader_from_bytes file = Ok h -> sh_version h <= 3 -> has_markers h = false ->
  sh_grain_size h = 0 \/ sh_num_gtes_per_gt h = 0 ->
  SparseVmdkReader_from_mmap file = Panic.
Proof.
  intros Hh Hv Hm Hz. unfold SparseVmdkReader_from_mmap. rewrite Hh, bind_ret_Ok.
  rewrite if_false by lia. rewrite Hm. apply checked_bind_panics. intros gd.
  enough (num_gd_entries h = (Panic : Result Z)) as -> by done. unfold num_gd_entries.
  apply checked_bind_panics. intros t1. apply checked_bind_panics. intros t2.
  destruct (decide (sh_grain_size h = 0)) as [->|Hg]; [done|].
  destruct Hz as [|Hz]; [done|]. rewrite div_u64_ok, bind_ret_Ok by done.
  apply checked_bind_panics. intros t3. apply checked_bind_panics. intros t4. by rewrite Hz.
Qed.

Section grains.
  Context `{Flate2Laws}.
  Context (r : SparseVmdkReader).
  Hypothesis Hwf : svr_wf r.

Lemma read_compressed_grain_sized off n :
  0 <= off ->
  match read_compressed_grain r off n with
  | Ok g => zlen g = n | Err _ => True | Panic | Diverge => False
  end.
Proof.
  intros Ho. unfold read_compressed_grain. zcase; [done|].
  rewrite read_u32_at, bind_ret_Ok by lia. cbn zeta.
  pose proof (u32_at_range (off + 8) (svr_mmap r) (svr_bytes _ Hwf) ltac:(lia) ltac:(lia)).
  zcase; [done|]. rewrite read_slice_ok, bind_ret_Ok by lia.
  pose proof (inflate_exact n (zslice (off + 12) (off + 12 + u32_at (off + 8) (svr_mmap r) - (off + 12)) (svr_mmap r))) as Hi.
  by destruct (inflate n _).
Qed.

(** Reading a grain comes back, and a grain it returns has the grain size. *)
Lemma read_grain_sized g :
  0 <= g ->
  match read_grain r g with
  | Ok d => zlen d = grain_bytes_of r | Err _ => True | Panic | Diverge => False
  end.
Proof.
  intros Hg. pose proof (svr_geometry _ Hwf) as [Hgs Hgt Hc Hcb Hgb Hgo Hge].
  unfold read_grain, svr_grain_size_bytes, mul_u64.
  assert (0 <= grain_bytes_of r) by (unfold grain_bytes_of, SECTOR_SIZE in *; lia).
  rewrite checked_ok, bind_ret_Ok by (unfold is_u, SECTOR_SIZE in *; lia).
  fold (grain_bytes_of r).
  rewrite div_u64_ok, rem_u64_ok, !bind_ret_Ok by lia.
  set (gtes := sh_num_gtes_per_gt (svr_header r)) in *.
  pose proof (Z.mod_pos_bound g gtes ltac:(lia)) as Hm.
  assert (Hz : zlen (zeros (grain_bytes_of r)) = grain_bytes_of r) by (rewrite zlen_zrep; lia).
  destruct (svr_grain_directory r !! Z.to_nat (g / gtes)) as [e|] eqn:He; [|done].
  apply directory_lookup in He as (Hr & _ & _); [|done|apply Z.div_pos; lia].
  destruct (e =? 0); [done|]. unfold SECTOR_SIZE. zcase; [done|].
  rewrite read_u32_at, bind_ret_Ok by lia.
  pose proof (u32_at_range (e * 512 + g mod gtes * 4) (svr_mmap r) (svr_bytes _ Hwf) ltac:(lia) ltac:(lia)).
  set (s := u32_at _ _) in *. destruct (s =? 0); [done|].
  destruct (is_compressed (svr_header r)).
  - apply read_compressed_grain_sized. lia.
  - unfold add_u64. rewrite checked_ok, bind_ret_Ok by (unfold is_u, grain_bytes_of, SECTOR_SIZE in *; lia).
    zcase; [done|]. rewrite read_slice_ok by lia. rewrite zlen_zslice; lia.
Qed.

(** The grain as bytes; only used where reading it succeeds. *)
Definition grain_data (g : Z) : bytes :=
  match read_grain r g with Ok d => d | _ => [] end.

Definition grains_readable (n : Z) : Prop :=
  forall g, 0 <= g < n -> is_ok (read_grain r g) = true.

(** The virtual disk: the grains one after the other, up to the capacity. *)
Definition virtual_disk : bytes :=
  ztake (svr_capacity_bytes r) (seqZ 0 (grains_of (svr_header r)) ≫= grain_data).

Hypothesis Hread : grains_readable (grains_of (svr_header r)).

Lemma grain_data_ok g :
  0 <= g < grains_of (svr_header r) ->
  read_grain r g = Ok (grain_data g) /\ zlen (grain_data g) = grain_bytes_of r.
Proof.
  intros Hg. specialize (Hread g Hg). pose proof (read_grain_sized g ltac:(lia)) as Hs.
  unfold grain_data. by destruct (read_grain r g).
Qed.

Lemma capacity_in_grains :
  0 < grain_bytes_of r /\ 0 <= svr_capacity_bytes r <= grain_bytes_of r * grains_of (svr_header r).
Proof.
  pose proof (svr_geometry _ Hwf) as []. rewrite (svr_capacity _ Hwf).
  unfold grain_bytes_of, SECTOR_SIZE in *.
  pose proof (ceil_div_bounds (sh_capacity (svr_header r)) (sh_grain_size (svr_header r)) ltac:(lia) ltac:(lia)).
  unfold grains_of. nia.
Qed.

Lemma zlen_virtual_disk : zlen virtual_disk = svr_capacity_bytes r.
Proof.
  pose proof capacity_in_grains as [Hg Hc]. unfold virtual_disk. rewrite zlen_ztake.
  rewrite (zlen_records_in _ (grain_bytes_of r)).
  - unfold zlen. rewrite length_seqZ. nia.
  - intros g [??]%elem_of_seqZ. apply grain_data_ok. lia.
Qed.

(** A piece of a grain is the piece of the virtual disk at its position. *)
Lemma grain_piece p n :
  0 <= p -> 0 <= n -> p mod grain_bytes_of r + n <= grain_bytes_of r ->
  p + n <= svr_capacity_bytes r -> p < svr_capacity_bytes r ->
  zslice (p mod grain_bytes_of r) n (grain_data (p / grain_bytes_of r)) = zslice p n virtual_disk.
Proof.
  intros Hp Hn Hin Hcap Hlt. pose proof capacity_in_grains as [Hg Hc].
  set (gs := grain_bytes_of r) in *. pose proof (Z.mod_pos_bound p gs Hg).
  pose proof (Z.div_mod p gs ltac:(lia)) as Hd. pose proof (Z.div_pos p gs Hp Hg).
  assert (p / gs < grains_of (svr_header r)) by nia.
  unfold virtual_disk. rewrite zslice_ztake by lia.
  rewrite <- (app_nil_r (_ ≫= _)).
  rewrite <- (zslice_record_in grain_data gs (seqZ 0 (grains_of (svr_header r))) (Z.to_nat (p / gs)) (p / gs) []).
  - rewrite Z2Nat.id by lia. rewrite zslice_zslice by nia. f_equal. lia.
  - intros g [??]%elem_of_seqZ. apply grain_data_ok. lia.
  - apply lookup_seqZ. lia.
Qed.

Lemma read_chunk_loop_spec fuel off len br data :
  0 <= off -> 0 <= br <= len -> off + len <= svr_capacity_bytes r ->
  len - br <= Z.of_nat fuel ->
  read_chunk_loop fuel r off len (grain_bytes_of r) br data
    = Ok (data ++ zslice (off + br) (len - br) virtual_disk).
Proof.
  pose proof capacity_in_grains as [Hg Hc].
  revert br data. induction fuel as [|f IH]; intros br data Ho Hb Hcap Hf;
    cbn [read_chunk_loop]; destruct (Z.leb_spec len br); try lia.
  - replace (len - br) with 0 by lia. by rewrite zslice_0, app_nil_r.
  - replace (len - br) with 0 by lia. by rewrite zslice_0, app_nil_r.
  - rewrite div_u64_ok, rem_u64_ok, !bind_ret_Ok by lia. set (p := off + br).
    pose proof (Z.mod_pos_bound p (grain_bytes_of r) Hg).
    pose proof (Z.div_mod p (grain_bytes_of r) ltac:(lia)).
    pose proof (Z.div_pos p (grain_bytes_of r) ltac:(lia) Hg).
    destruct (grain_data_ok (p / grain_bytes_of r)) as [-> Hl]; [subst p; nia|].
    rewrite bind_ret_Ok. set (t := Z.min (len - br) (grain_bytes_of r - p mod grain_bytes_of r)).
    rewrite read_slice_ok, bind_ret_Ok by lia. rewrite Z.add_simpl_l.
    rewrite grain_piece by lia. rewrite IH by lia. rewrite <- app_assoc. do 2 f_equal.
    subst p. rewrite Z.add_assoc, zslice_join by lia. f_equal. lia.
Qed.

Definition sci_at (cs off : Z) : SparseChunkIterator :=
  {| sci_reader := r; sci_chunk_size := cs; sci_current_offset := off |}.

Lemma SparseChunkIterator_next_at cs off :
  0 <= off -> 0 < cs ->
  SparseChunkIterator_next (sci_at cs off) =
    if svr_capacity_bytes r <=? off then (Ok None, sci_at cs off)
    else (Ok (Some (ztake cs (zdrop off virtual_disk))),
          sci_at cs (off + Z.min (svr_capacity_bytes r - off) cs)).
Proof.
  intros Ho Hc. unfold SparseChunkIterator_next.
  rewrite (M_bind_step get _ _ (sci_at cs off) _ eq_refl).
  cbn [sci_at sci_reader sci_chunk_size sci_current_offset]. fold (sci_at cs off).
  destruct (Z.leb_spec (svr_capacity_bytes r) off); [done|].
  pose proof (svr_geometry _ Hwf) as []. unfold svr_grain_size_bytes, mul_u64.
  rewrite checked_ok by (unfold is_u, SECTOR_SIZE in *; lia). fold (grain_bytes_of r).
  rewrite (M_bind_step (lift _) _ _ _ _ eq_refl).
  rewrite read_chunk_loop_spec by lia.
  rewrite (M_bind_step (lift _) _ _ _ _ eq_refl), (M_bind_step (modify _) _ _ tt _ eq_refl).
  unfold mret, M_ret. do 3 f_equal. rewrite app_nil_l, Z.add_0_r, Z.sub_0_r. unfold zslice.
  destruct (Z.le_ge_cases cs (svr_capacity_bytes r - off)); [by rewrite Z.min_r|].
  rewrite Z.min_l by done. by rewrite !ztake_all by (rewrite zlen_zdrop, zlen_virtual_disk; lia).
Qed.

Lemma drain_sparse_chunks cs fuel off :
  0 < cs -> 0 <= off -> svr_capacity_bytes r - off <= Z.of_nat fuel ->
  drain_from (S fuel) SparseChunkIterator_next (sci_at cs off)
    = Ok (split_chunks cs (zdrop off virtual_disk)).
Proof.
  intros Hc. pose proof zlen_virtual_disk as Hl.
  revert off. induction fuel as [|f IH]; intros off Ho Hf;
    rewrite drain_from_S, SparseChunkIterator_next_at by lia;
    destruct (Z.leb_spec (svr_capacity_bytes r) off); try (by rewrite zdrop_all by lia); [lia|].
  rewrite IH by lia. rewrite (split_chunks_step cs Hc (zdrop off virtual_disk)).
  - cbn [fmap outcome_fmap]. do 2 f_equal. rewrite zdrop_zdrop by lia.
    destruct (Z.le_ge_cases cs (svr_capacity_bytes r - off)); [by rewrite Z.min_r|].
    rewrite Z.min_l by done. by rewrite !zdrop_all by lia.
  - intros E. apply (f_equal zlen) in E. rewrite zlen_zdrop in E. zlen_nils. lia.
Qed.
End grains.
End open.

(** ** Compressed grains *)

Lemma compressed_grain_at `{Flate2Laws} r pre post lba data level c :
  svr_mmap r = pre ++ GrainMarker_to_bytes (GrainMarker_new lba (as_u32 (zlen c))) ++ c ++ post ->
  compress_grain data level = Ok c -> zlen c < 2 ^ 32 ->
  read_compressed_grain r (zlen pre) (zlen data) = Ok data.
Proof.
  intros Hm Hc Hl. unfold read_compressed_grain. rewrite Hm.
  assert (Hf : zlen (pre ++ GrainMarker_to_bytes (GrainMarker_new lba (as_u32 (zlen c))) ++ c ++ post)
               = zlen pre + 12 + zlen c + zlen post)
    by (rewrite !zlen_app, zlen_grain_marker; lia).
  zlen_pos. rewrite Hf. rewrite if_false by lia.
  rewrite read_u32_at, bind_ret_Ok by lia.
  assert (Hs : u32_at (zlen pre + 8) (pre ++ GrainMarker_to_bytes (GrainMarker_new lba (as_u32 (zlen c))) ++ c ++ post) = zlen c).
  { unfold u32_at. rewrite zslice_app_r by lia. rewrite Z.add_simpl_l, GrainMarker_layout.
    rewrite <- app_assoc, (zslice_skip 8 8) by (rewrite ?zlen_le_bytes; lia).
    rewrite Z.sub_diag, zslice_head by apply zlen_le_bytes. cbn [gm_size GrainMarker_new].
    rewrite as_u32_small by lia. apply le_val_u32. unfold is_u; lia. }
  rewrite Hs. cbn zeta. rewrite if_false by lia.
  rewrite read_slice_ok, bind_ret_Ok by lia. rewrite Z.add_simpl_l.
  rewrite app_assoc, zslice_mid by (rewrite ?zlen_app, ?zlen_grain_marker; lia).
  unfold compress_grain in Hc. rewrite deflate_write_ok in Hc.
  cbn [map_err mbind outcome_bind] in Hc. apply map_err_Ok in Hc.
  by rewrite (inflate_deflate _ _ _ Hc).
Qed.

(** ** The properties *)

(** C31: opening a sparse VMDK whose header announces a sane geometry always
    comes back: it succeeds exactly when the version is at most 3, there are
    no markers and the grain directory lies in the file, and then the reader
    holds the header, the capacity and the directory of the file. *)
Theorem sparse_open_complete `{BuildProfile} file h :
  Forall is_byte file -> SparseHeader_from_bytes file = Ok h -> geometry h ->
  if (sh_version h <=? 3) && negb (has_markers h)
     && (gd_offset_bytes h + gd_entries h * 4 <=? zlen file)
  then exists r, SparseVmdkReader_from_mmap file = Ok r /\ svr_wf r /\
         svr_header r = h /\ svr_mmap r = file
  else exists e, SparseVmdkReader_from_mmap file = Err e.
Proof.
  intros Hb Hh Hg.
  destruct (SparseVmdkReader_from_mmap file) as [r|e| |] eqn:Ho;
    pose proof Ho as Ho'; rewrite (SparseVmdkReader_from_mmap_spec _ _ Hh Hg) in Ho;
    destruct (Z.ltb_spec 3 (sh_version h)), (Z.leb_spec (sh_version h) 3); try lia;
    destruct (has_markers h);
    destruct (Z.ltb_spec (zlen file) (gd_offset_bytes h + gd_entries h * 4)),
      (Z.leb_spec (gd_offset_bytes h + gd_entries h * 4) (zlen file)); try lia; cbn [negb andb];
    try discriminate Ho; by eexists.
Qed.

(** A header with a grain size or a grain table size of zero makes opening
    panic, in every build, instead of returning an error. *)
Theorem sparse_zero_geometry_panics `{BuildProfile} file h :
  SparseHeader_from_bytes file = Ok h -> sh_version h <= 3 -> has_markers h = false ->
  sh_grain_size h = 0 \/ sh_num_gtes_per_gt h = 0 ->
  SparseVmdkReader_from_mmap file = Panic.
Proof. apply zero_geometry_panics. Qed.

(** On an opened reader, reading any grain, allocated or not, compressed or
    not, comes back with an error or with a buffer of exactly the grain size. *)
Theorem sparse_read_grain_sized `{BuildProfile} `{Flate2Laws} r g :
  svr_wf r -> 0 <= g ->
  match read_grain r g with
  | Ok d => zlen d = sh_grain_size (svr_header r) * SECTOR_SIZE
  | Err _ => True
  | Panic | Diverge => False
  end.
Proof. intros. by apply read_grain_sized. Qed.

(** Draining the chunk iterator of a reader whose grains can be read yields
    the virtual disk: as many bytes as the capacity, the grains one after the
    other, cut into pieces of the chunk size however it relates to the grain
    size, as many as [count_chunks] says. *)
Theorem sparse_chunks_cut_disk `{BuildProfile} `{Flate2Laws} r cs fuel :
  svr_wf r -> grains_readable r (grains_of (svr_header r)) ->
  0 < cs -> svr_capacity_bytes r <= Z.of_nat fuel ->
  exists l, drain_from (S fuel) SparseChunkIterator_next (sparse_chunks r cs) = Ok l /\
    concat l = virtual_disk r /\ zlen (concat l) = capacity r /\
    l = split_chunks cs (virtual_disk r) /\
    sparse_count_chunks (E:=Error) (sparse_chunks r cs) = Ok (zlen l).
Proof.
  intros Hwf Hr Hc Hf. exists (split_chunks cs (virtual_disk r)).
  change (sparse_chunks r cs) with (sci_at r cs 0).
  rewrite drain_sparse_chunks by (done || lia). rewrite zdrop_nonpos by lia.
  rewrite split_chunks_concat by done. rewrite zlen_virtual_disk by done.
  split_and!; try done. unfold sparse_count_chunks. cbn [sci_at sci_reader sci_chunk_size].
  rewrite count_expr by done. by rewrite split_chunks_length, zlen_virtual_disk by done.
Qed.

(** C32: what [compress_grain] produces, stored behind the grain marker the
    stream writer puts in front of it, is what [read_compressed_grain] gives
    back, whatever surrounds it in the file. *)
Theorem compressed_grain_roundtrip `{Flate2Laws} r pre post lba data level c :
  compress_grain data level = Ok c -> zlen c < 2 ^ 32 ->
  svr_mmap r = pre ++ GrainMarker_to_bytes (GrainMarker_new lba (as_u32 (zlen c))) ++ c ++ post ->
  read_compressed_grain r (zlen pre) (zlen data) = Ok data.
Proof. intros Hc Hl Hm. by apply (compressed_grain_at r pre post lba data level c). Qed.

(** ** A sample disk

    Three grains of one sector, two entries a table: the first grain is stored,
    the second has no entry, the third no table. *)

(** DEFLATE's stored form, standing for the [flate2] crate in the concrete
    runs. *)
Definition stored_flate2 : Flate2 :=
  {| deflate_write := fun _ _ => Ok tt;
     deflate_finish := fun _ data => Ok data;
     inflate n c :=
       if (0 <=? n) && (n <=? zlen c) then Ok (ztake n c)
       else Err {| io_kind := UnexpectedEof; io_text := lit "failed to fill whole buffer" |} |}.

#[refine] Definition stored_flate2_laws : @Flate2Laws stored_flate2 :=
  @Build_Flate2Laws stored_flate2 _ _ _ _.
Proof.
  - done.
  - intros. by eexists.
  - intros level data c [= <-]. cbn. zlen_pos.
    rewrite if_true by (rewrite Z.leb_refl; lia). by rewrite ztake_all by lia.
  - intros n c. cbn. destruct (Z.leb_spec 0 n), (Z.leb_spec n (zlen c)); cbn; try done.
    rewrite zlen_ztake. lia.
Defined.

Definition sample_header : SparseExtentHeader :=
  {| seh_magic := VMDK_MAGIC; seh_version := 1; seh_flags := 3; seh_capacity := 3;
     seh_grain_size := 1; seh_descriptor_offset := 0; seh_descriptor_size := 0;
     seh_num_gtes_per_gt := 2; seh_rgd_offset := 0; seh_gd_offset := 1; seh_overhead := 0;
     seh_unclean_shutdown := 0; seh_newline_chars := (10, 32, 13, 10);
     seh_compress_algorithm := 0 |}.

Definition sample_sparse : bytes :=
  SparseExtentHeader_to_bytes sample_header ++ pad_sector (le_u32s [2; 0])
  ++ pad_sector (le_u32s [3; 0]) ++ pad_sector [1; 2; 3].

Definition sample_reader : SparseVmdkReader :=
  {| svr_mmap := sample_sparse; svr_header := parsed_header sample_header;
     svr_grain_directory := [2; 0]; svr_capacity_bytes := 1536 |}.

Lemma sample_geometry : geometry (parsed_header sample_header).
Proof. by split; vm_compute. Qed.

Lemma sample_bytes : Forall is_byte sample_sparse.
Proof. apply all_bytes_spec. by vm_compute. Qed.

Lemma sample_parses : SparseHeader_from_bytes sample_sparse = Ok (parsed_header sample_header).
Proof. by vm_compute. Qed.

Lemma sample_reader_wf : svr_wf sample_reader.
Proof.
  split; [exact sample_bytes|exact sample_geometry|by vm_compute|by vm_compute|by vm_compute].
Qed.

Lemma sparse_open_complete_witness :
  exists r, SparseVmdkReader_from_mmap (H:=debug) sample_sparse = Ok r /\ svr_wf r /\
    svr_header r = parsed_header sample_header /\ svr_mmap r = sample_sparse.
Proof.
  pose proof (sparse_open_complete (H:=debug) sample_sparse (parsed_header sample_header)
                sample_bytes sample_parses sample_geometry) as Ho.
  assert (Hc : (sh_version (parsed_header sample_header) <=? 3)
               && negb (has_markers (parsed_header sample_header))
               && (gd_offset_bytes (parsed_header sample_header)
                   + gd_entries (parsed_header sample_header) * 4 <=? zlen sample_sparse) = true)
    by (by vm_compute).
  rewrite Hc in Ho. exact Ho.
Defined.

Lemma sparse_zero_geometry_panics_witness :
  SparseVmdkReader_from_mmap (H:=release)
    (SparseExtentHeader_to_bytes (SparseExtentHeader_as_footer
       {| seh_magic := VMDK_MAGIC; seh_version := 1; seh_flags := 3; seh_capacity := 3;
          seh_grain_size := 0; seh_descriptor_offset := 0; seh_descriptor_size := 0;
          seh_num_gtes_per_gt := 512; seh_rgd_offset := 0; seh_gd_offset := 1; seh_overhead := 0;
          seh_unclean_shutdown := 0; seh_newline_chars := (10, 32, 13, 10);
          seh_compress_algorithm := 0 |} 1)) = Panic.
Proof.
  eapply (sparse_zero_geometry_panics (H:=release));
    [by vm_compute|by vm_compute|by vm_compute|left; by vm_compute].
Defined.

Lemma sparse_read_grain_sized_witness :
  match read_grain (H:=debug) (H0:=stored_flate2) sample_reader 0 with
  | Ok d => zlen d = 1 * 512 | Err _ => True | Panic | Diverge => False
  end.
Proof.
  apply (sparse_read_grain_sized (H:=debug) (H1:=stored_flate2_laws) sample_reader 0 sample_reader_wf).
  lia.
Defined.

Lemma sparse_chunks_cut_disk_witness :
  let next := SparseChunkIterator_next (H:=debug) (H0:=stored_flate2) in
  exists l, drain_from (S 1536) next (sparse_chunks sample_reader 1000) = Ok l /\
    concat l = virtual_disk (H:=debug) (H0:=stored_flate2) sample_reader /\
    zlen (concat l) = capacity sample_reader /\
    l = split_chunks 1000 (virtual_disk (H:=debug) (H0:=stored_flate2) sample_reader) /\
    sparse_count_chunks (E:=Error) (sparse_chunks sample_reader 1000) = Ok (zlen l).
Proof.
  apply (sparse_chunks_cut_disk (H:=debug) (H1:=stored_flate2_laws) sample_reader 1000 1536 sample_reader_wf).
  - intros g Hg. change (grains_of _) with 3 in Hg.
    assert (g = 0 \/ g = 1 \/ g = 2) as [->|[->| ->]] by lia; by vm_compute.
  - lia.
  - by vm_compute.
Defined.

Lemma compressed_grain_roundtrip_witness :
  read_compressed_grain (H0:=stored_flate2)
    {| svr_mmap := [0; 0] ++ GrainMarker_to_bytes (GrainMarker_new 128 3) ++ [7; 8; 9] ++ [1];
       svr_header := parsed_header sample_header; svr_grain_directory := [];
       svr_capacity_bytes := 0 |} 2 3 = Ok [7; 8; 9].
Proof.
  by apply (compressed_grain_roundtrip (H0:=stored_flate2_laws) _ [0; 0] [1] 128 [7; 8; 9] 6 [7; 8; 9]).
Defined.
