(* ===== verification/Pipeline.v ===== *)
(** * Pipeline: [pipeline.rs], parallel compression

    [Pipeline::process] hands the numbered chunks to [rayon] and collects the
    results in a [BTreeMap].  The order in which the items complete is a
    parameter ([Rayon]): any permutation.  The mutex of [ProgressTracker] makes
    an update one step, so a run is the sequence of its items in completion
    order. *)
From S2P Require Export Float Write.

Inductive CompressionLevel := Fast | Balanced | Max.

Definition CompressionLevel_default : CompressionLevel := Balanced.

Definition to_zlib_level (l : CompressionLevel) : Z :=
  match l with Fast => 1 | Balanced => 6 | Max => 9 end.

Record PipelineConfig := {
  pc_chunk_size : Z;
  pc_compression_level : CompressionLevel;
  pc_num_threads : Z;
}.

Definition PipelineConfig_default : PipelineConfig :=
  {| pc_chunk_size := 1024 * 1024; pc_compression_level := CompressionLevel_default;
     pc_num_threads := 0 |}.

Definition PipelineConfig_new (chunk_size : Z) (compression_level : CompressionLevel)
    (num_threads : Z) : PipelineConfig :=
  {| pc_chunk_size := chunk_size; pc_compression_level := compression_level;
     pc_num_threads := num_threads |}.

(** ** Progress *)

Record PipelineProgress := {
  pp_total_chunks : Z;
  pp_processed_chunks : Z;
  pp_total_bytes : Z;
  pp_processed_bytes : Z;
  pp_compressed_bytes : Z;
}.

Definition PipelineProgress_new (total_chunks total_bytes : Z) : PipelineProgress :=
  {| pp_total_chunks := total_chunks; pp_processed_chunks := 0; pp_total_bytes := total_bytes;
     pp_processed_bytes := 0; pp_compressed_bytes := 0 |}.

Definition PipelineProgress_percent_complete (p : PipelineProgress) : f64 :=
  if pp_total_chunks p =? 0 then f64_lit 100
  else f64_mul (f64_div (f64_of_u64 (pp_processed_chunks p)) (f64_of_u64 (pp_total_chunks p))) (f64_lit 100).

Definition compression_ratio (p : PipelineProgress) : f64 :=
  if pp_processed_bytes p =? 0 then f64_lit 1
  else f64_div (f64_of_u64 (pp_compressed_bytes p)) (f64_of_u64 (pp_processed_bytes p)).

(** The tracker is its protected value. *)
Definition ProgressTracker : Type := PipelineProgress.

Definition ProgressTracker_new (total_chunks total_bytes : Z) : ProgressTracker :=
  PipelineProgress_new total_chunks total_bytes.

(** One critical section; a sum that overflows panics or wraps. *)
Definition tracker_update `{BuildProfile} {E} (input_bytes output_bytes : Z)
    : M ProgressTracker E () :=
  p ← get;
  chunks ← lift (add_u64 (pp_processed_chunks p) 1);
  processed ← lift (add_u64 (pp_processed_bytes p) input_bytes);
  compressed ← lift (add_u64 (pp_compressed_bytes p) output_bytes);
  modify (fun p =>
    {| pp_total_chunks := pp_total_chunks p; pp_processed_chunks := chunks;
       pp_total_bytes := pp_total_bytes p; pp_processed_bytes := processed;
       pp_compressed_bytes := compressed |}).

Definition snapshot (t : ProgressTracker) : PipelineProgress := t.

Definition is_complete (t : ProgressTracker) : bool :=
  pp_total_chunks t <=? pp_processed_chunks t.

(** ** [rayon] *)

Class Rayon := {
  ThreadPool : Type;
  build_pool : Z -> option ThreadPool;
  schedule : option ThreadPool -> nat -> list nat;
}.

(** A parallel iterator processes every item once. *)
Class RayonLaws `{Rayon} := schedule_perm : forall pool n, schedule pool n ≡ₚ seq 0 n.

(** ** [BTreeMap<usize, T>]: the entries in key order *)

Fixpoint btree_insert {T} (k : nat) (v : T) (m : list (nat * T)) : list (nat * T) :=
  match m with
  | [] => [(k, v)]
  | (k', v') :: m' =>
      match (k ?= k')%nat with
      | Lt => (k, v) :: m
      | Eq => (k, v) :: m'
      | Gt => (k', v') :: btree_insert k v m'
      end
  end.

Definition into_values {T} (m : list (nat * T)) : list T := map snd m.

(** ** The pipeline *)

Record Pipeline `{Rayon} := {
  pl_config : PipelineConfig;
  pl_thread_pool : option ThreadPool;
}.

Section pipeline.
  Context `{Rayon}.

(** [expect] panics when the pool cannot be built. *)
Definition Pipeline_new {E} (config : PipelineConfig) : outcome E Pipeline :=
  if 0 <? pc_num_threads config then
    match build_pool (pc_num_threads config) with
    | Some pool => Ok {| pl_config := config; pl_thread_pool := Some pool |}
    | None => Panic
    end
  else Ok {| pl_config := config; pl_thread_pool := None |}.

Definition Pipeline_default {E} : outcome E Pipeline := Pipeline_new PipelineConfig_default.

Definition compression_level (p : Pipeline) : Z := to_zlib_level (pc_compression_level (pl_config p)).

Definition pl_chunk_size (p : Pipeline) : Z := pc_chunk_size (pl_config p).

Section process.
  Context {S T : Type}.

(** The closure of [map], run on the item at [idx]: the pair it collects. *)
Definition run_item (item : nat -> bytes -> M S Error T) (indexed_chunks : list (nat * bytes)) (i : nat)
    : M S Error (option (nat * T)) :=
  match indexed_chunks !! i with
  | None => mret None
  | Some (idx, chunk) => result ← item idx chunk; mret (Some (idx, result))
  end.

(** [collect::<Result<BTreeMap<_, _>, _>>()]: the items in completion order,
    up to the first failure. *)
Fixpoint par_collect (item : nat -> bytes -> M S Error T) (indexed_chunks : list (nat * bytes))
    (order : list nat) (m : list (nat * T)) : M S Error (list (nat * T)) :=
  match order with
  | [] => mret m
  | i :: order' =>
      r ← run_item item indexed_chunks i;
      par_collect item indexed_chunks order'
        (match r with Some (idx, v) => btree_insert idx v m | None => m end)
  end.

Definition process_indexed (p : Pipeline) (item : nat -> bytes -> M S Error T) (chunks : list bytes)
    : M S Error (list T) :=
  let indexed_chunks := imap pair chunks in
  ordered_map ← par_collect item indexed_chunks
                  (schedule (pl_thread_pool p) (length indexed_chunks)) [];
  mret (into_values ordered_map).
End process.

Definition process {T} (p : Pipeline) (chunks : list bytes) (processor : nat -> bytes -> Result T)
    : Result (list T) :=
  if bool_decide (chunks = []) then Ok [] else
  fst (process_indexed (S:=()) p (fun idx chunk => lift (processor idx chunk)) chunks tt).

Definition process_with_progress `{BuildProfile} {T} (p : Pipeline) (chunks : list bytes)
    (processor : nat -> bytes -> Result (T * Z)) : M ProgressTracker Error (list T) :=
  if bool_decide (chunks = []) then mret [] else
  process_indexed p (fun idx chunk =>
    let input_len := zlen chunk in
    '(result, output_len) ← lift (processor idx chunk);
    _ ← tracker_update input_len output_len;
    mret result) chunks.
End pipeline.
