(* ===== verification/PipelineSpec.v ===== *)
(** * PipelineSpec: the parallel pipeline is the sequential one

    Whatever the completion order, the results come back in the order of the
    input; a failure is the failure of some item; the progress of a run that
    succeeds is exact and complete, of one that fails never complete. *)
From S2P Require Export Pipeline.

(** ** The [BTreeMap] *)

Definition key_lt {T} (a b : nat * T) : Prop := (a.1 < b.1)%nat.

Definition btree_of {T} (l m : list (nat * T)) : list (nat * T) :=
  fold_left (fun m p => btree_insert p.1 p.2 m) l m.

Lemma btree_insert_elem {T} k v (m : list (nat * T)) p :
  p ∈ btree_insert k v m -> p = (k, v) \/ p ∈ m.
Proof.
  induction m as [|[k' v'] m IH]; cbn; [set_solver|].
  destruct (Nat.compare_spec k k'); set_solver.
Qed.

Lemma btree_insert_sorted {T} k v (m : list (nat * T)) :
  StronglySorted key_lt m -> StronglySorted key_lt (btree_insert k v m).
Proof.
  induction 1 as [|[k' v'] m Hs IH Hm]; cbn; [by repeat constructor|].
  rewrite Forall_forall in Hm.
  destruct (Nat.compare_spec k k') as [->|Hlt|Hlt]; constructor; try done.
  - by apply Forall_forall.
  - by constructor; [|apply Forall_forall].
  - apply Forall_forall. intros p [->|Hp]%elem_of_cons; [done|]. specialize (Hm _ Hp).
    unfold key_lt in *. cbn in *. lia.
  - apply Forall_forall. intros p [->|Hp]%btree_insert_elem; [done|by apply Hm].
Qed.

Lemma btree_insert_perm {T} k v (m : list (nat * T)) :
  k ∉ m.*1 -> btree_insert k v m ≡ₚ (k, v) :: m.
Proof.
  induction m as [|[k' v'] m IH]; intros Hk; cbn in *; [done|].
  destruct (Nat.compare_spec k k'); [set_solver|done|].
  rewrite IH by set_solver. apply Permutation_swap.
Qed.

Lemma btree_of_perm {T} (l m : list (nat * T)) :
  NoDup (l.*1 ++ m.*1) -> btree_of l m ≡ₚ l ++ m.
Proof.
  revert m. induction l as [|[k v] l IH]; intros m Hnd; [done|]. cbn in *.
  apply NoDup_cons in Hnd as [Hk Hnd]. unfold btree_of in *. cbn [fold_left fst snd].
  assert (Hp : btree_insert k v m ≡ₚ (k, v) :: m) by (apply btree_insert_perm; set_solver).
  rewrite IH.
  - rewrite Hp. symmetry. apply Permutation_middle.
  - assert (Hpk : (btree_insert k v m).*1 ≡ₚ k :: m.*1) by (by rewrite Hp).
    rewrite Hpk, <- Permutation_middle. by constructor.
Qed.

Lemma btree_of_sorted {T} (l m : list (nat * T)) :
  StronglySorted key_lt m -> StronglySorted key_lt (btree_of l m).
Proof.
  revert m. induction l as [|[k v] l IH]; intros m Hm; [done|].
  apply IH. by apply btree_insert_sorted.
Qed.

(** The entries numbered in order. *)
Definition numbered {T} (vs : list T) : list (nat * T) := imap pair vs.

Lemma numbered_from {T} (f : nat -> nat) (vs : list T) :
  (forall i j, (i < j)%nat -> (f i < f j)%nat) ->
  StronglySorted key_lt (imap (fun i v => (f i, v)) vs).
Proof.
  revert f. induction vs as [|v vs IH]; intros f Hf; cbn; [constructor|]. constructor.
  - apply (IH (f ∘ S)). intros. apply Hf. lia.
  - apply Forall_forall. intros p. rewrite elem_of_lookup_imap. intros (j & w & -> & _).
    unfold key_lt. cbn. apply Hf. lia.
Qed.

(** Numbered results inserted in any order come out in the order of their
    numbers. *)
Lemma btree_reorders {T} (vs : list T) l :
  l ≡ₚ numbered vs -> into_values (btree_of l []) = vs.
Proof.
  intros Hl.
  assert (Hfst : (numbered vs).*1 = seq 0 (length vs)).
  { unfold numbered. rewrite fmap_imap. unfold compose. cbn. apply list_eq. intros i.
    rewrite list_lookup_imap. destruct (vs !! i) eqn:E; cbn.
    - symmetry. apply lookup_seq. split; [lia|by eapply lookup_lt_Some].
    - symmetry. apply lookup_ge_None in E. apply lookup_ge_None. by rewrite length_seq. }
  assert (Heq : btree_of l [] = numbered vs).
  { apply (StronglySorted_unique_strong key_lt).
    - intros x y _ _ Hxy Hyx. unfold key_lt in *. lia.
    - apply btree_of_sorted. constructor.
    - apply (numbered_from (fun i => i)). done.
    - rewrite btree_of_perm, app_nil_r; [done|]. rewrite app_nil_r.
      rewrite Hl, Hfst. apply NoDup_seq. }
  rewrite Heq. unfold into_values, numbered. change (map snd) with (fmap (M:=list) (snd (A:=nat) (B:=T))).
  rewrite fmap_imap. apply list_eq. intros i. rewrite list_lookup_imap. by destruct (vs !! i).
Qed.

(** ** Runs *)

Section runs.
  Context {S T : Type}.
  Implicit Type item : nat -> bytes -> M S Error T.

(** The pairs a run collects, in completion order. *)
Fixpoint run_order item (chunks : list bytes) (order : list nat) : M S Error (list (nat * T)) :=
  match order with
  | [] => mret []
  | i :: order' =>
      match chunks !! i with
      | None => run_order item chunks order'
      | Some chunk =>
          v ← item i chunk;
          l ← run_order item chunks order';
          mret ((i, v) :: l)
      end
  end.

Lemma par_collect_run item chunks order m s :
  par_collect item (imap pair chunks) order m s =
    match run_order item chunks order s with
    | (Ok l, s') => (Ok (btree_of l m), s')
    | (Err e, s') => (Err e, s')
    | (Panic, s') => (Panic, s')
    | (Diverge, s') => (Diverge, s')
    end.
Proof.
  revert m s. induction order as [|i order IH]; intros m s; [done|].
  cbn [par_collect run_order]. unfold run_item. rewrite list_lookup_imap.
  destruct (chunks !! i) as [c|]; cbn [fmap option_fmap option_map].
  - unfold mbind, M_bind. destruct (item i c s) as [[v|e| |] s1]; try done.
    unfold mret, M_ret at 1. rewrite IH. by destruct (run_order item chunks order s1) as [[] ?].
  - unfold mbind, M_bind, mret, M_ret. apply IH.
Qed.

(** The first item that does not succeed ends the run. *)
Lemma run_order_failure item chunks order s r s' :
  run_order item chunks order s = (r, s') -> is_ok r = false ->
  exists i c si, i ∈ order /\ chunks !! i = Some c /\ same_failure r (item i c si).1.
Proof.
  revert s r. induction order as [|i order IH]; intros s r; cbn [run_order]; [by intros [= <- <-]|].
  destruct (chunks !! i) as [c|] eqn:Hc.
  - unfold mbind, M_bind. destruct (item i c s) as [[v|e| |] s1] eqn:Ei;
      [|intros [= <- <-] _; exists i, c, s; rewrite Ei; split_and!; [set_solver|done|done]..].
    destruct (run_order item chunks order s1) as [r1 s2] eqn:E. intros Hr Hno.
    assert (Hno1 : is_ok r1 = false) by (destruct r1; injection Hr as <- <-; done).
    destruct r1; injection Hr as <- <-; try done;
      destruct (IH s1 _ E Hno1) as (j & d & si & Hj & Hd & Hit);
      exists j, d, si; (split_and!; [set_solver|done|done]).
  - intros Hr Hno. destruct (IH s r Hr Hno) as (j & d & si & Hj & ?).
    exists j, d, si. split; [set_solver|done].
Qed.

(** In a run that succeeds every item did, with the value collected. *)
Lemma run_order_values (f : nat -> bytes -> outcome Error T) chunks order s l s' :
  run_order (fun i c => lift (f i c)) chunks order s = (Ok l, s') ->
  forall i c, i ∈ order -> chunks !! i = Some c -> exists v, f i c = Ok v.
Proof.
  revert l. induction order as [|j order IH]; intros l Hr i c Hi Hc; [set_solver|].
  cbn [run_order] in Hr. apply elem_of_cons in Hi as [->|Hi].
  - rewrite Hc in Hr. unfold mbind, M_bind, lift at 1 in Hr.
    destruct (f j c) as [v|e| |]; [by exists v|done..].
  - destruct (chunks !! j) as [d|]; [|by eapply IH].
    unfold mbind, M_bind, lift at 1 in Hr. destruct (f j d) as [v|e| |]; [|done..].
    destruct (run_order _ chunks order s) as [[l'|e| |] s2] eqn:E; [|done..].
    unfold mret, M_ret in Hr. injection Hr as _ <-. by eapply IH.
Qed.
End runs.

(** The items of [process] have no state. *)
Lemma run_order_pure {T} (f : nat -> bytes -> Result T) (vs : list T) chunks order :
  imap f chunks = Ok <$> vs ->
  run_order (fun i c => lift (f i c)) chunks order tt
    = (Ok (omap (fun i => pair i <$> vs !! i) order), tt).
Proof.
  intros Hf. assert (Hi : forall i, f i <$> chunks !! i = Ok <$> vs !! i).
  { intros i. by rewrite <- list_lookup_imap, Hf, list_lookup_fmap. }
  induction order as [|i order IH]; [done|]. cbn [run_order].
  change (omap (fun i => pair i <$> vs !! i) (i :: order)) with
    (match pair i <$> vs !! i with
     | Some p => p :: omap (fun i => pair i <$> vs !! i) order
     | None => omap (fun i => pair i <$> vs !! i) order
     end).
  specialize (Hi i). destruct (chunks !! i) as [c|], (vs !! i) as [v|]; cbn in Hi; try done.
  injection Hi as Hv.
  rewrite (M_bind_step (lift (f i c)) _ tt v tt) by (unfold lift; by rewrite Hv).
  by rewrite (M_bind_step _ _ _ _ _ IH).
Qed.

Lemma omap_seq_numbered {T} (vs : list T) :
  omap (fun i => pair i <$> vs !! i) (seq 0 (length vs)) = numbered vs.
Proof.
  unfold numbered. induction vs as [|v vs IH] using rev_ind; [done|].
  rewrite length_app, Nat.add_comm. cbn [length Nat.add].
  rewrite seq_S, omap_app, imap_app. cbn [imap]. f_equal.
  - rewrite <- IH. apply list_omap_ext. apply Forall2_same_length_lookup_2; [done|].
    intros i x y Hx Hy. rewrite Hx in Hy. injection Hy as <-.
    apply lookup_seq in Hx as [-> Hlt]. cbn. by rewrite lookup_app_l by done.
  - cbn. rewrite lookup_app_r by done. rewrite Nat.sub_diag. cbn. by rewrite Nat.add_0_r.
Qed.

Section process.
  Context `{RayonLaws}.

Lemma process_ok {T} p chunks (f : nat -> bytes -> Result T) vs :
  collect (imap f chunks) = Ok vs -> process p chunks f = Ok vs.
Proof.
  intros Hc. apply collect_Ok in Hc. unfold process. case_bool_decide as Hn.
  { subst chunks. cbn in Hc. by destruct vs. }
  unfold process_indexed. cbv zeta. unfold mbind, M_bind.
  rewrite par_collect_run, (run_order_pure f vs) by done. cbn [fst mret M_ret]. f_equal.
  unfold mret, M_ret. cbn [fst]. apply (f_equal (@length _)) in Hc as Hl.
  rewrite length_imap, length_fmap in Hl. rewrite length_imap.
  apply btree_reorders. rewrite <- omap_seq_numbered, <- Hl. apply omap_Permutation.
  apply schedule_perm.
Qed.

Lemma process_failure {T} p chunks (f : nat -> bytes -> Result T) r :
  process p chunks f = r -> is_ok r = false ->
  exists i c, chunks !! i = Some c /\ same_failure r (f i c).
Proof.
  unfold process. case_bool_decide; [by intros <-|]. unfold process_indexed. cbv zeta.
  unfold mbind, M_bind. rewrite par_collect_run.
  destruct (run_order _ _ _ _) as [r1 s1] eqn:E. intros <- Hno.
  assert (Hno1 : is_ok r1 = false) by (by destruct r1).
  destruct (run_order_failure _ _ _ _ _ _ E Hno1) as (i & c & si & _ & Hc & Hi).
  exists i, c. split; [done|]. unfold lift in Hi. by destruct r1.
Qed.

Lemma process_succeeds {T} p chunks (f : nat -> bytes -> Result T) vs :
  process p chunks f = Ok vs ->
  forall i c, chunks !! i = Some c -> exists v, f i c = Ok v.
Proof.
  unfold process. case_bool_decide; [by subst|]. unfold process_indexed. cbv zeta.
  unfold mbind, M_bind. rewrite par_collect_run.
  destruct (run_order _ _ _ _) as [[l|e| |] s1] eqn:E; [|done..]. intros _ i c Hc.
  eapply run_order_values; [exact E| |exact Hc]. rewrite schedule_perm, length_imap.
  apply elem_of_seq. apply lookup_lt_Some in Hc. lia.
Qed.
End process.

(** ** Progress *)

Section progress.
  Context `{BuildProfile} {T : Type} (f : nat -> bytes -> Result (T * Z)) (chunks : list bytes).

Definition progress_item (idx : nat) (chunk : bytes) : M ProgressTracker Error T :=
  let input_len := zlen chunk in
  '(result, output_len) ← lift (f idx chunk);
  _ ← tracker_update input_len output_len;
  mret result.

Definition in_len (i : nat) : Z := match chunks !! i with Some c => zlen c | None => 0 end.

Definition out_len (i : nat) : Z :=
  match chunks !! i with
  | Some c => match f i c with Ok (_, o) => o | _ => 0 end
  | None => 0
  end.

Definition sum_over (g : nat -> Z) (l : list nat) : Z := foldr (fun i n => g i + n) 0 l.

(** The tracker after the items [l] have finished. *)
Definition advanced (p : PipelineProgress) (l : list nat) : PipelineProgress :=
  {| pp_total_chunks := pp_total_chunks p;
     pp_processed_chunks := pp_processed_chunks p + zlen l;
     pp_total_bytes := pp_total_bytes p;
     pp_processed_bytes := pp_processed_bytes p + sum_over in_len l;
     pp_compressed_bytes := pp_compressed_bytes p + sum_over out_len l |}.

(** Room for the items [l] in 64 bits. *)
Definition room (p : PipelineProgress) (l : list nat) : Prop :=
  0 <= pp_processed_chunks p /\ pp_processed_chunks p + zlen l < 2 ^ 64 /\
  0 <= pp_processed_bytes p /\ pp_processed_bytes p + sum_over in_len l < 2 ^ 64 /\
  0 <= pp_compressed_bytes p /\ pp_compressed_bytes p + sum_over out_len l < 2 ^ 64.

Hypothesis out_nonneg : forall i, 0 <= out_len i.

Lemma sum_over_nonneg g l : (forall i, 0 <= g i) -> 0 <= sum_over g l.
Proof.
  intros Hg. induction l as [|i l IH]; [by cbn|].
  change (0 <= g i + sum_over g l). specialize (Hg i). lia.
Qed.

Lemma in_len_nonneg i : 0 <= in_len i.
Proof. unfold in_len. destruct (chunks !! i); zlen_pos; lia. Qed.

Lemma sum_over_perm g l1 l2 : l1 ≡ₚ l2 -> sum_over g l1 = sum_over g l2.
Proof. unfold sum_over. induction 1; cbn; lia. Qed.

Lemma sum_over_app g l1 l2 : sum_over g (l1 ++ l2) = sum_over g l1 + sum_over g l2.
Proof. unfold sum_over. induction l1; cbn in *; lia. Qed.

Lemma sum_over_take g l k : (forall i, 0 <= g i) -> sum_over g (take k l) <= sum_over g l.
Proof.
  intros Hg. rewrite <- (take_drop k l) at 2. rewrite sum_over_app.
  pose proof (sum_over_nonneg g (drop k l) Hg). lia.
Qed.

Lemma progress_item_step i c p l r p1 :
  chunks !! i = Some c -> room p (i :: l) -> progress_item i c p = (r, p1) ->
  if is_ok r then p1 = advanced p [i] /\ room p1 l /\ exists v o, r = Ok v /\ f i c = Ok (v, o)
  else p1 = p /\ same_failure r (f i c).
Proof.
  intros Hc (H1 & H2 & H3 & H4 & H5 & H6). unfold progress_item. cbv zeta.
  pose proof (out_nonneg i) as Ho. pose proof (in_len_nonneg i) as Hi.
  pose proof (sum_over_nonneg in_len l in_len_nonneg). pose proof (sum_over_nonneg out_len l out_nonneg).
  cbn [sum_over foldr] in H4, H6. fold (sum_over in_len l) in H4. fold (sum_over out_len l) in H6.
  rewrite zlen_cons in H2. zlen_pos.
  assert (Hin : in_len i = zlen c) by (unfold in_len; by rewrite Hc).
  assert (Hout : out_len i = match f i c with Ok (_, o) => o | _ => 0 end) by (unfold out_len; by rewrite Hc).
  destruct (f i c) as [[v o]|e| |] eqn:Ef; try (by intros [= <- <-]).
  rewrite (M_bind_step (lift _) _ p _ p eq_refl). cbv iota beta.
  unfold tracker_update. unfold add_u64.
  assert (Hup : (p0 ← get;
    chunks0 ← lift (checked 64 (pp_processed_chunks p0 + 1));
    processed ← lift (checked 64 (pp_processed_bytes p0 + zlen c));
    compressed ← lift (checked 64 (pp_compressed_bytes p0 + o));
    modify (fun p1 => {| pp_total_chunks := pp_total_chunks p1; pp_processed_chunks := chunks0;
       pp_total_bytes := pp_total_bytes p1; pp_processed_bytes := processed;
       pp_compressed_bytes := compressed |})) p = (Ok tt : Result (), advanced p [i])).
  { rewrite (M_bind_step get _ p p p eq_refl). rewrite !checked_ok by (unfold is_u; lia).
    do 3 rewrite (M_bind_step (lift _) _ p _ p eq_refl).
    unfold modify, advanced, sum_over. cbn [foldr]. by rewrite Hin, Hout, !Z.add_0_r. }
  rewrite (M_bind_step _ _ _ _ _ Hup). intros [= <- <-]. cbn [is_ok]. split; [done|]. split; [|by exists v, o].
  unfold room, advanced. cbn. change (zlen [i]) with 1. split_and!; lia.
Qed.

Lemma run_order_progress order p r p' :
  Forall (fun i => is_Some (chunks !! i)) order -> room p order ->
  run_order progress_item chunks order p = (r, p') ->
  exists k, (k <= length order)%nat /\ p' = advanced p (take k order) /\
    match r with
    | Ok l => k = length order /\ l.*1 = order /\
        forall i v, (i, v) ∈ l -> exists c o, chunks !! i = Some c /\ f i c = Ok (v, o)
    | _ => (k < length order)%nat /\ exists i c, chunks !! i = Some c /\ same_failure r (f i c)
    end.
Proof.
  intros Hv. revert p r p'. induction Hv as [|i order [c Hc] Hv IH]; intros p r p' Hroom; cbn [run_order].
  - intros [= <- <-]. exists O. split_and!; [done| |done|done|set_solver].
    unfold advanced. cbn. rewrite ?Z.add_0_r. by destruct p.
  - rewrite Hc. unfold mbind, M_bind. destruct (progress_item i c p) as [r1 p1] eqn:E1.
    pose proof (progress_item_step _ _ _ order _ _ Hc Hroom E1) as Hs.
    assert (Hnil : advanced p [] = p).
    { unfold advanced. cbn. rewrite ?Z.add_0_r. by destruct p. }
    destruct r1 as [v|e| |]; cbn [is_ok] in Hs;
      [|intros [= <- <-]; destruct Hs as [-> Hs]; exists O;
        (split_and!; [lia|symmetry; exact Hnil|cbn; lia|by exists i, c])..].
    destruct Hs as (-> & Hroom1 & v' & o & [= <-] & Hf).
    destruct (run_order progress_item chunks order (advanced p [i])) as [r2 p2] eqn:E2.
    destruct (IH _ _ _ Hroom1 E2) as (k & Hk & -> & Hr). intros Hres.
    assert (Hadv : forall l, advanced (advanced p [i]) l = advanced p (i :: l)).
    { intros l. unfold advanced, sum_over. cbn [pp_total_chunks pp_processed_chunks pp_total_bytes
        pp_processed_bytes pp_compressed_bytes foldr]. rewrite (zlen_cons i l).
      change (zlen [i]) with 1. f_equal; lia. }
    exists (Datatypes.S k). rewrite Hadv in Hres.
    destruct r2 as [l|e| |]; injection Hres as <- <-; (split; [cbn; lia|]); (split; [done|]);
      cbn; try (by destruct Hr; split; [lia|]).
    destruct Hr as (-> & Hl1 & Hl2). split_and!; [done|by rewrite Hl1|].
    intros j w [[= -> ->]|Hj]%elem_of_cons; [by exists c, o|by apply Hl2].
Qed.
End progress.

(** Pairs whose numbers are those of [n] items are a numbered list. *)
Lemma numbered_of_keys {T} (l : list (nat * T)) n :
  l.*1 ≡ₚ seq 0 n -> exists vs, l ≡ₚ numbered vs /\ length vs = n.
Proof.
  intros Hl. set (m := btree_of l []).
  assert (Hm : m ≡ₚ l).
  { unfold m. rewrite btree_of_perm, app_nil_r; [done|]. rewrite app_nil_r, Hl. apply NoDup_seq. }
  assert (Hs : StronglySorted key_lt m) by (apply btree_of_sorted; constructor).
  assert (Hk : m.*1 = seq 0 n).
  { apply (StronglySorted_unique_strong lt).
    - intros x y _ _. lia.
    - clear - Hs. induction Hs as [|p m Hs IH Hp]; cbn; constructor; [done|].
      apply Forall_fmap. eapply Forall_impl; [exact Hp|]. done.
    - clear. generalize 0%nat. induction n as [|n IH]; intros b; cbn; constructor; [apply IH|].
      apply Forall_forall. intros x Hx%elem_of_seq. lia.
    - by rewrite Hm. }
  assert (Hn : m = numbered m.*2).
  { apply list_eq. intros i. unfold numbered. rewrite list_lookup_imap, list_lookup_fmap.
    destruct (m !! i) as [[j v]|] eqn:E; cbn; [|done]. do 2 f_equal.
    apply (f_equal (lookup i)) in Hk. rewrite list_lookup_fmap, E in Hk. cbn in Hk.
    symmetry in Hk. apply lookup_seq in Hk. lia. }
  exists m.*2. split.
  - rewrite <- Hn. by symmetry.
  - rewrite length_fmap, <- (length_fmap fst m), Hk. apply length_seq.
Qed.

Lemma sum_in_len chunks : sum_over (in_len chunks) (seq 0 (length chunks)) = zlen (concat chunks).
Proof.
  induction chunks as [|c chunks IH] using rev_ind; [done|].
  rewrite length_app, Nat.add_comm, seq_S, sum_over_app, concat_app, zlen_app, <- IH. f_equal.
  - assert (Heq : forall l, Forall (fun i => (i < length chunks)%nat) l ->
      sum_over (in_len (chunks ++ [c])) l = sum_over (in_len chunks) l).
    { induction 1 as [|i l Hi _ IHl]; [done|]. unfold sum_over in *. cbn [foldr]. rewrite IHl.
      unfold in_len. by rewrite lookup_app_l by done. }
    apply Heq. apply Forall_forall. intros i Hi%elem_of_seq. lia.
  - unfold sum_over, in_len. cbn. rewrite lookup_app_r by done. rewrite Nat.sub_diag. cbn.
    by rewrite app_nil_r, Z.add_0_r.
Qed.

Lemma sum_over_fmap g l : sum_over g l = foldr Z.add 0 (g <$> l).
Proof. induction l as [|i l IH]; [done|]. unfold sum_over in *. cbn in *. lia. Qed.

Lemma imap_outcomes {T} (f : nat -> bytes -> Result (T * Z)) chunks vs :
  length vs = length chunks ->
  (forall i v, (i, v) ∈ numbered vs -> exists c o, chunks !! i = Some c /\ f i c = Ok (v, o)) ->
  imap f chunks = Ok <$> zip vs (out_len f chunks <$> seq 0 (length chunks)).
Proof.
  intros Hlen Hvals. apply list_eq. intros i. rewrite list_lookup_imap, list_lookup_fmap.
  destruct (chunks !! i) as [c|] eqn:Hc.
  - assert (Hi : (i < length chunks)%nat) by (by eapply lookup_lt_Some).
    destruct (vs !! i) as [v|] eqn:Hv; [|apply lookup_ge_None in Hv; lia].
    destruct (Hvals i v) as (c' & o & Hc' & Hf); [apply elem_of_lookup_imap; by exists i, v|].
    assert (Ho : (out_len f chunks <$> seq 0 (length chunks)) !! i = Some o).
    { rewrite list_lookup_fmap, (proj2 (lookup_seq 0 (length chunks) i i)) by (split; [lia|done]).
      cbn. unfold out_len. by rewrite Hc', Hf. }
    rewrite lookup_zip_with, Hv, Ho. cbn. congruence.
  - rewrite lookup_zip_with. apply lookup_ge_None in Hc.
    by rewrite (proj2 (lookup_ge_None vs i)) by lia.
Qed.

(** What the tracker says after a part of the items. *)
Lemma advanced_part {T} (f : nat -> bytes -> Result (T * Z)) chunks total order k :
  order ≡ₚ seq 0 (length chunks) -> (k < length order)%nat ->
  let t := advanced f chunks (ProgressTracker_new (zlen chunks) total) (take k order) in
  is_complete t = false /\ pp_processed_bytes t <= zlen (concat chunks).
Proof.
  intros Hperm Hk. cbv zeta. assert (Hlen : length order = length chunks) by (by rewrite Hperm, length_seq).
  unfold is_complete, advanced. cbn [pp_total_chunks pp_processed_chunks pp_processed_bytes
    ProgressTracker_new PipelineProgress_new]. split.
  - apply Z.leb_gt. unfold zlen. rewrite length_take. lia.
  - rewrite Z.add_0_l, <- sum_in_len, <- (sum_over_perm _ _ _ Hperm).
    apply sum_over_take, in_len_nonneg.
Qed.

(** ** The properties *)

(** C12: whatever order the worker threads finish in, [process] returns exactly
    what mapping the processor over the chunks one after the other returns,
    in the order of the chunks; it succeeds only if every item does, and any
    failure it reports is the failure of one of the items. *)
Theorem process_is_sequential `{RayonLaws} {T} p chunks (f : nat -> bytes -> Result T) :
  (forall vs, process p chunks f = Ok vs <-> imap f chunks = Ok <$> vs) /\
  (is_ok (process p chunks f) = false ->
     exists i c, chunks !! i = Some c /\ same_failure (process p chunks f) (f i c)).
Proof.
  split; [|by intros Hno; apply (process_failure p)]. intros vs. rewrite <- collect_Ok.
  split; [|by apply process_ok]. intros Hp.
  destruct (collect (imap f chunks)) as [ws|e| |] eqn:Hc;
    [pose proof (process_ok p _ _ _ Hc); congruence|exfalso..].
  all: destruct (imap_all_Ok _ _ (process_succeeds _ _ _ _ Hp)) as [ws Hws%collect_Ok]; congruence.
Qed.

(** The last item finishes first. *)
Definition backwards : Rayon :=
  {| ThreadPool := (); build_pool := fun _ => Some tt; schedule := fun _ n => rev (seq 0 n) |}.

Lemma backwards_laws : RayonLaws (H:=backwards).
Proof. intros pool n. cbn. symmetry. apply Permutation_rev. Qed.

Definition number_chunk (i : nat) (c : bytes) : Result (bytes * Z) :=
  if bool_decide (i = 7%nat) then Panic else Ok (Z.of_nat i :: c, 1 + zlen c).

Lemma process_is_sequential_witness :
  let p := {| pl_config := PipelineConfig_default; pl_thread_pool := None |} : Pipeline (H:=backwards) in
  process p [[10]; [11; 12]; [13]] number_chunk = Ok [([0; 10], 2); ([1; 11; 12], 3); ([2; 13], 2)].
Proof.
  cbv zeta. apply (process_is_sequential (H0:=backwards_laws)). vm_compute. reflexivity.
Defined.

(** C24: the progress of a parallel run is exact.  When the run succeeds, every
    chunk is counted once, in whatever order the items finished: the tracker
    is complete and holds the sums of the input and output lengths, and the
    results are in order.  When it fails, some item failed that way, and the
    tracker never reports completion, nor more input than there is. *)
Theorem progress_exact `{RayonLaws, BuildProfile} {T} p chunks
    (f : nat -> bytes -> Result (T * Z)) total r t :
  (forall i c v o, f i c = Ok (v, o) -> 0 <= o) ->
  zlen chunks < 2 ^ 64 -> zlen (concat chunks) < 2 ^ 64 ->
  sum_over (out_len f chunks) (seq 0 (length chunks)) < 2 ^ 64 ->
  process_with_progress p chunks f (ProgressTracker_new (zlen chunks) total) = (r, t) ->
  match r with
  | Ok vs => exists os, imap f chunks = Ok <$> zip vs os /\ length os = length vs /\
      t = {| pp_total_chunks := zlen chunks; pp_processed_chunks := zlen chunks;
             pp_total_bytes := total; pp_processed_bytes := zlen (concat chunks);
             pp_compressed_bytes := foldr Z.add 0 os |} /\
      is_complete t = true
  | _ => (exists i c, chunks !! i = Some c /\ same_failure r (f i c)) /\
      is_complete t = false /\ pp_processed_bytes t <= zlen (concat chunks)
  end.
Proof.
  intros Ho Hn Hin Hout. unfold process_with_progress. case_bool_decide as Hne.
  { subst chunks. intros [= <- <-]. by exists []. }
  unfold process_indexed. cbv zeta. rewrite length_imap.
  set (order := schedule _ _). assert (Hperm : order ≡ₚ seq 0 (length chunks)) by apply schedule_perm.
  change (fun idx chunk => _) with (progress_item f).
  unfold mbind, M_bind. rewrite par_collect_run.
  destruct (run_order (progress_item f) chunks order (ProgressTracker_new (zlen chunks) total))
    as [r1 t1] eqn:E.
  assert (Hlen : length order = length chunks) by (by rewrite Hperm, length_seq).
  assert (Hout0 : forall i, 0 <= out_len f chunks i).
  { intros i. unfold out_len. destruct (chunks !! i) as [c|]; [|done].
    destruct (f i c) as [[v o]|e| |] eqn:Ef; try done. by eapply Ho. }
  apply run_order_progress in E as (k & Hk & Ht & Hr); [|done|..].
  2: { apply Forall_forall. intros i. rewrite Hperm. intros Hi%elem_of_seq. apply lookup_lt_is_Some. lia. }
  2: { unfold room. cbn. rewrite !Z.add_0_l, !(sum_over_perm _ _ _ Hperm), sum_in_len.
       unfold zlen in *. rewrite Hlen. split_and!; try lia; exact Hout. }
  destruct r1 as [l|e| |]; intros [= <- <-];
    [|destruct Hr as [Hlt Hf]; rewrite Ht; (split; [exact Hf|by apply advanced_part])..].
  destruct Hr as (-> & Hkeys & Hvals). rewrite take_ge in Ht by lia.
  destruct (numbered_of_keys l (length chunks)) as (vs & Hl & Hvs); [by rewrite Hkeys|].
  rewrite (btree_reorders vs l Hl). exists (out_len f chunks <$> seq 0 (length chunks)). split_and!.
  - apply imap_outcomes; [done|]. intros i v Hi. apply Hvals. by rewrite Hl.
  - by rewrite length_fmap, length_seq.
  - rewrite Ht. unfold advanced. cbn. rewrite !(sum_over_perm _ _ _ Hperm), sum_in_len, !Z.add_0_l.
    rewrite sum_over_fmap. f_equal. unfold zlen. by rewrite Hlen.
  - rewrite Ht. unfold is_complete, advanced. cbn. apply Z.leb_le. unfold zlen. rewrite Hlen. lia.
Qed.

Lemma progress_exact_witness :
  let p := {| pl_config := PipelineConfig_default; pl_thread_pool := None |} : Pipeline (H:=backwards) in
  let f i c := r ← number_chunk i c; Ok r in
  exists os, imap f [[10]; [11; 12]] = Ok <$> zip [[0; 10]; [1; 11; 12]] os /\
    length os = 2%nat /\
    {| pp_total_chunks := 2; pp_processed_chunks := 2; pp_total_bytes := 3;
       pp_processed_bytes := 3; pp_compressed_bytes := 5 |} =
    {| pp_total_chunks := 2; pp_processed_chunks := 2; pp_total_bytes := 3;
       pp_processed_bytes := 3; pp_compressed_bytes := foldr Z.add 0 os |} /\ true = true.
Proof.
  cbv zeta.
  apply (progress_exact (H0:=backwards_laws) (H1:=debug)
    {| pl_config := PipelineConfig_default; pl_thread_pool := None |} [[10]; [11; 12]]
    (fun i c => r ← number_chunk i c; Ok r) 3 (Ok [[0; 10]; [1; 11; 12]])).
  - intros i c v o. unfold number_chunk. case_bool_decide; [done|]. cbn. intros [= <- <-]. zlen_pos. lia.
  - done.
  - done.
  - vm_compute. done.
  - vm_compute. reflexivity.
Defined.
