(* ===== verification/Ovf.v ===== *)
(** * Ovf: [ovf.rs], the OVF descriptor

    Every [build_*] method is the text its [push_str] calls put together.  The
    templates are the code's, with a backquote for a double quote and [ln] for
    the newline that ends each of them.  Counting disks and adapters stays far
    below 64 bits, since each occupies memory. *)
From S2P Require Export Vmx.

(** A template that ends in a newline. *)
Definition ln (s : string) : str := raw s ++ [c_nl].
Arguments ln _%_string.

Record DiskInfo := {
  di_id : str;
  di_file_ref : str;
  di_capacity_bytes : Z;
  di_file_size_bytes : Z;
}.

(** The builder borrows the configuration. *)
Record OvfBuilder := { ob_config : VmxConfig }.

Definition OvfBuilder_new (config : VmxConfig) : OvfBuilder := {| ob_config := config |}.

Definition escape_xml (s : str) : str :=
  let s := replace_char c_amp (lit "&amp;") s in
  let s := replace_char c_lt (lit "&lt;") s in
  let s := replace_char c_gt (lit "&gt;") s in
  let s := replace_char c_dquote (lit "&quot;") s in
  replace_char c_apos (lit "&apos;") s.

Definition sanitize_id `{UnicodeTables} (s : str) : str :=
  map (fun c => if is_alphanumeric c || (c =? c_underscore) || (c =? c_minus) then c
                else c_underscore) s.

(** ** Guest systems *)

(** The arms of the [match], in order. *)
Definition guest_os_arms : list (list string * (Z * string)) := [
  (["ubuntu-64"; "ubuntu64"], (96, "ubuntu64Guest"));
  (["ubuntu"; "ubuntu-32"], (93, "ubuntuGuest"));
  (["debian-64"; "debian64"; "debian10-64"; "debian11-64"; "debian12-64"], (96, "debian10_64Guest"));
  (["debian"; "debian-32"; "debian10"; "debian11"; "debian12"], (95, "debian10Guest"));
  (["centos-64"; "centos64"; "centos7-64"; "centos8-64"; "centos9-64"], (107, "centos64Guest"));
  (["centos"; "centos-32"; "centos7"; "centos8"; "centos9"], (107, "centosGuest"));
  (["rhel-64"; "rhel64"; "rhel7-64"; "rhel8-64"; "rhel9-64"], (80, "rhel7_64Guest"));
  (["rhel"; "rhel-32"; "rhel7"; "rhel8"; "rhel9"], (79, "rhel7Guest"));
  (["windows10-64"; "windows10_64"; "win10-64"], (109, "windows9_64Guest"));
  (["windows10"; "windows10-32"; "win10"], (108, "windows9Guest"));
  (["windows11-64"; "windows11_64"; "win11-64"; "win11"], (109, "windows9_64Guest"));
  (["windows7-64"; "windows7_64"; "win7-64"], (105, "windows7_64Guest"));
  (["windows7"; "windows7-32"; "win7"], (104, "windows7Guest"));
  (["windows8-64"; "windows8_64"; "win8-64"], (107, "windows8_64Guest"));
  (["windows8"; "windows8-32"; "win8"], (106, "windows8Guest"));
  (["windowsserver2016-64"; "windows2016-64"; "win2016-64"], (112, "windows9Server64Guest"));
  (["windowsserver2019-64"; "windows2019-64"; "win2019-64"], (112, "windows9Server64Guest"));
  (["windowsserver2022-64"; "windows2022-64"; "win2022-64"], (112, "windows9Server64Guest"));
  (["freebsd-64"; "freebsd64"], (114, "freebsd64Guest"));
  (["freebsd"; "freebsd-32"], (42, "freebsdGuest"));
  (["darwin-64"; "darwin64"; "macos"; "darwin"], (101, "darwin64Guest"));
  (["linux-64"; "other-linux-64"; "otherlinux-64"], (101, "otherLinux64Guest"));
  (["linux"; "other-linux"; "otherlinux"], (36, "otherLinuxGuest"));
  (["other-64"; "other64"], (102, "other64Guest"))
]%string.

Definition map_guest_os `{UnicodeTables} (guest_os : str) : Z * str :=
  let guest := to_lowercase guest_os in
  match find (fun arm => existsb (fun n => str_eqb guest (lit n)) (fst arm)) guest_os_arms with
  | Some (_, (os_id, os_type)) => (os_id, lit os_type)
  | None => (1, lit "otherGuest")
  end.

(** ** Sections of the document *)

Section builder.
  Context (self : OvfBuilder).
  Abbreviation config := (ob_config self).

Definition build_envelope_open : str :=
  ln "<ovf:Envelope xmlns:ovf=`http://schemas.dmtf.org/ovf/envelope/1`"
  ++ ln "    xmlns:rasd=`http://schemas.dmtf.org/wbem/wscim/1/cim-schema/2/CIM_ResourceAllocationSettingData`"
  ++ ln "    xmlns:vssd=`http://schemas.dmtf.org/wbem/wscim/1/cim-schema/2/CIM_VirtualSystemSettingData`"
  ++ ln "    xmlns:vmw=`http://www.vmware.com/schema/ovf`"
  ++ ln "    xmlns:xsi=`http://www.w3.org/2001/XMLSchema-instance`>".

(** The body of the loop of [build_references]. *)
Definition reference_entry (i : nat) (disk : DiskInfo) : str :=
  let filename :=
    match vc_disks config !! i with
    | Some d => dc_file_name d
    | None => lit "disk.vmdk"
    end in
  fmt (ln "    <ovf:File ovf:href=`{}` ovf:id=`{}` ovf:size=`{}`/>")
    [filename; di_file_ref disk; show_dec (di_file_size_bytes disk)].

Definition build_references (disks : list DiskInfo) : str :=
  ln "  <ovf:References>"
  ++ concat (imap reference_entry disks)
  ++ ln "  </ovf:References>".

Definition disk_entry (disk : DiskInfo) : str :=
  fmt (ln "    <ovf:Disk ovf:capacity=`{}` ovf:capacityAllocationUnits=`byte` ovf:diskId=`{}` ovf:fileRef=`{}` ovf:format=`http://www.vmware.com/interfaces/specifications/vmdk.html#streamOptimized`/>")
    [show_dec (di_capacity_bytes disk); escape_xml (di_id disk); di_file_ref disk].

Definition build_disk_section (disks : list DiskInfo) : str :=
  ln "  <ovf:DiskSection>"
  ++ ln "    <ovf:Info>Virtual disk information</ovf:Info>"
  ++ concat (map disk_entry disks)
  ++ ln "  </ovf:DiskSection>".

Definition network_entry (network : NetworkConfig) : str :=
  let network_name := default (lit "VM Network") (nc_network_name network) in
  fmt (ln "    <ovf:Network ovf:name=`{}`>") [escape_xml network_name]
  ++ fmt (ln "      <ovf:Description>The {} network</ovf:Description>") [escape_xml network_name]
  ++ ln "    </ovf:Network>".

Definition build_network_section : str :=
  ln "  <ovf:NetworkSection>"
  ++ ln "    <ovf:Info>Network configuration</ovf:Info>"
  ++ (if bool_decide (vc_networks config = []) then
        ln "    <ovf:Network ovf:name=`VM Network`>"
        ++ ln "      <ovf:Description>The VM Network</ovf:Description>"
        ++ ln "    </ovf:Network>"
      else concat (map network_entry (vc_networks config)))
  ++ ln "  </ovf:NetworkSection>".

Definition build_os_section `{UnicodeTables} : str :=
  let '(os_id, os_type) := map_guest_os (vc_guest_os config) in
  fmt (ln "    <ovf:OperatingSystemSection ovf:id=`{}` vmw:osType=`{}`>") [show_dec os_id; os_type]
  ++ ln "      <ovf:Info>The guest operating system</ovf:Info>"
  ++ fmt (ln "      <ovf:Description>{}</ovf:Description>") [escape_xml (vc_guest_os config)]
  ++ ln "    </ovf:OperatingSystemSection>".

(** ** Hardware items *)

Definition build_system_item : str :=
  ln "      <ovf:System>"
  ++ ln "        <vssd:ElementName>Virtual Hardware Family</vssd:ElementName>"
  ++ ln "        <vssd:InstanceID>0</vssd:InstanceID>"
  ++ fmt (ln "        <vssd:VirtualSystemIdentifier>{}</vssd:VirtualSystemIdentifier>")
       [escape_xml (vc_display_name config)]
  ++ ln "        <vssd:VirtualSystemType>vmx-21</vssd:VirtualSystemType>"
  ++ ln "      </ovf:System>".

Definition build_cpu_item : str :=
  ln "      <ovf:Item>"
  ++ ln "        <rasd:AllocationUnits>hertz * 10^6</rasd:AllocationUnits>"
  ++ ln "        <rasd:Description>Number of Virtual CPUs</rasd:Description>"
  ++ ln "        <rasd:ElementName>CPU</rasd:ElementName>"
  ++ ln "        <rasd:InstanceID>1</rasd:InstanceID>"
  ++ ln "        <rasd:ResourceType>3</rasd:ResourceType>"
  ++ fmt (ln "        <rasd:VirtualQuantity>{}</rasd:VirtualQuantity>") [show_dec (vc_num_cpus config)]
  ++ ln "      </ovf:Item>".

Definition build_memory_item : str :=
  ln "      <ovf:Item>"
  ++ ln "        <rasd:AllocationUnits>byte * 2^20</rasd:AllocationUnits>"
  ++ ln "        <rasd:Description>Memory Size</rasd:Description>"
  ++ ln "        <rasd:ElementName>Memory</rasd:ElementName>"
  ++ ln "        <rasd:InstanceID>2</rasd:InstanceID>"
  ++ ln "        <rasd:ResourceType>4</rasd:ResourceType>"
  ++ fmt (ln "        <rasd:VirtualQuantity>{}</rasd:VirtualQuantity>") [show_dec (vc_memory_mb config)]
  ++ ln "      </ovf:Item>".

Definition build_scsi_controller : str :=
  ln "      <ovf:Item>"
  ++ ln "        <rasd:Address>0</rasd:Address>"
  ++ ln "        <rasd:Description>SCSI Controller</rasd:Description>"
  ++ ln "        <rasd:ElementName>SCSI Controller 0</rasd:ElementName>"
  ++ ln "        <rasd:InstanceID>3</rasd:InstanceID>"
  ++ ln "        <rasd:ResourceSubType>lsilogic</rasd:ResourceSubType>"
  ++ ln "        <rasd:ResourceType>6</rasd:ResourceType>"
  ++ ln "      </ovf:Item>".

Definition build_disk_item (index : nat) (disk : DiskInfo) : str :=
  let index := Z.of_nat index in
  let instance_id := 4 + index in
  ln "      <ovf:Item>"
  ++ fmt (ln "        <rasd:AddressOnParent>{}</rasd:AddressOnParent>") [show_dec index]
  ++ ln "        <rasd:Description>Hard Disk</rasd:Description>"
  ++ fmt (ln "        <rasd:ElementName>Hard Disk {}</rasd:ElementName>") [show_dec (index + 1)]
  ++ fmt (ln "        <rasd:HostResource>ovf:/disk/{}</rasd:HostResource>") [escape_xml (di_id disk)]
  ++ fmt (ln "        <rasd:InstanceID>{}</rasd:InstanceID>") [show_dec instance_id]
  ++ ln "        <rasd:Parent>3</rasd:Parent>"
  ++ ln "        <rasd:ResourceType>17</rasd:ResourceType>"
  ++ ln "      </ovf:Item>".

(** Indexing the adapters panics out of range. *)
Definition build_network_item (index : nat) : Result str :=
  let instance_id := 4 + zlen (vc_disks config) + Z.of_nat index in
  match vc_networks config !! index with
  | None => Panic
  | Some network =>
      let network_name := default (lit "VM Network") (nc_network_name network) in
      let adapter_type := default (lit "E1000") (nc_virtual_dev network) in
      Ok (ln "      <ovf:Item>"
          ++ ln "        <rasd:AddressOnParent>0</rasd:AddressOnParent>"
          ++ ln "        <rasd:AutomaticAllocation>true</rasd:AutomaticAllocation>"
          ++ fmt (ln "        <rasd:Connection>{}</rasd:Connection>") [escape_xml network_name]
          ++ ln "        <rasd:Description>Network Adapter</rasd:Description>"
          ++ fmt (ln "        <rasd:ElementName>Network Adapter {}</rasd:ElementName>")
               [show_dec (Z.of_nat index + 1)]
          ++ fmt (ln "        <rasd:InstanceID>{}</rasd:InstanceID>") [show_dec instance_id]
          ++ fmt (ln "        <rasd:ResourceSubType>{}</rasd:ResourceSubType>") [escape_xml adapter_type]
          ++ ln "        <rasd:ResourceType>10</rasd:ResourceType>"
          ++ ln "      </ovf:Item>")
  end.

Definition build_default_network_item : str :=
  let instance_id := 4 + zlen (vc_disks config) in
  ln "      <ovf:Item>"
  ++ ln "        <rasd:AddressOnParent>0</rasd:AddressOnParent>"
  ++ ln "        <rasd:AutomaticAllocation>true</rasd:AutomaticAllocation>"
  ++ ln "        <rasd:Connection>VM Network</rasd:Connection>"
  ++ ln "        <rasd:Description>Network Adapter</rasd:Description>"
  ++ ln "        <rasd:ElementName>Network Adapter 1</rasd:ElementName>"
  ++ fmt (ln "        <rasd:InstanceID>{}</rasd:InstanceID>") [show_dec instance_id]
  ++ ln "        <rasd:ResourceSubType>E1000</rasd:ResourceSubType>"
  ++ ln "        <rasd:ResourceType>10</rasd:ResourceType>"
  ++ ln "      </ovf:Item>".

Definition build_hardware_section (disks : list DiskInfo) : Result str :=
  network_items ← collect (imap (fun i _ => build_network_item i) (vc_networks config));
  Ok (ln "    <ovf:VirtualHardwareSection>"
      ++ ln "      <ovf:Info>Virtual hardware requirements</ovf:Info>"
      ++ build_system_item
      ++ build_cpu_item
      ++ build_memory_item
      ++ build_scsi_controller
      ++ concat (imap build_disk_item disks)
      ++ concat network_items
      ++ (if bool_decide (vc_networks config = []) then build_default_network_item else [])
      ++ ln "    </ovf:VirtualHardwareSection>").

Definition build_virtual_system `{UnicodeTables} (disks : list DiskInfo) : Result str :=
  let vm_id := sanitize_id (vc_display_name config) in
  hardware ← build_hardware_section disks;
  Ok (fmt (ln "  <ovf:VirtualSystem ovf:id=`{}`>") [escape_xml vm_id]
      ++ ln "    <ovf:Info>A virtual machine</ovf:Info>"
      ++ fmt (ln "    <ovf:Name>{}</ovf:Name>") [escape_xml (vc_display_name config)]
      ++ build_os_section
      ++ hardware
      ++ ln "  </ovf:VirtualSystem>").

Definition build `{UnicodeTables} (disks : list DiskInfo) : Result str :=
  virtual_system ← build_virtual_system disks;
  Ok (ln "<?xml version=`1.0` encoding=`UTF-8`?>"
      ++ build_envelope_open
      ++ build_references disks
      ++ build_disk_section disks
      ++ build_network_section
      ++ virtual_system
      ++ ln "</ovf:Envelope>").
End builder.
