(* ===== verification/StrSpec.v ===== *)
(** * StrSpec: the strings of the program are strings

    A Rust [String] holds scalar values only, which is what makes its UTF-8
    encoding decode again.  [is_str] states it; the operations of [Text] keep
    it, so that the strings the parsers take out of a text, and the descriptor
    built from them, have it whenever the text has. *)
From S2P Require Export VmxSpec Descriptor Ovf.

Create HintDb str discriminated.

(** ** The operations on strings *)

Lemma is_str_app a b : is_str a -> is_str b -> is_str (a ++ b).
Proof. apply Forall_app_2. Qed.

Lemma is_str_ztake n s : is_str s -> is_str (ztake n s).
Proof. apply Forall_ztake. Qed.

Lemma is_str_zdrop n s : is_str s -> is_str (zdrop n s).
Proof. apply Forall_zdrop. Qed.

Lemma is_str_zslice o n s : is_str s -> is_str (zslice o n s).
Proof. apply Forall_zslice. Qed.

Lemma is_str_rev s : is_str s -> is_str (rev s).
Proof. apply List.Forall_rev. Qed.

Lemma is_str_cons c s : is_scalar c -> is_str s -> is_str (c :: s).
Proof. by constructor. Qed.

Lemma is_str_concat l : Forall is_str l -> is_str (concat l).
Proof. induction 1; [constructor|by apply is_str_app]. Qed.

#[export] Hint Resolve is_str_app is_str_ztake is_str_zdrop is_str_zslice is_str_rev is_str_concat : str.

Lemma is_str_trim s : is_str s -> is_str (trim s).
Proof.
  assert (Ht : forall s, is_str s -> is_str (trim_start s)).
  { induction 1 as [|c s' Hc Hs IH]; cbn [trim_start]; [constructor|].
    destruct (is_whitespace c); [done|by apply is_str_cons]. }
  intros Hs. unfold trim, trim_end. auto with str.
Qed.

Lemma is_str_unquote s : is_str s -> is_str (unquote s).
Proof. intros Hs. unfold unquote. destruct (_ && _); auto with str. Qed.

Lemma is_str_strip_cr s : is_str s -> is_str (strip_cr s).
Proof.
  intros Hs. unfold strip_cr. pose proof (is_str_rev s Hs) as Hr.
  destruct (rev s) as [|c r]; [done|]. destruct (c =? c_cr); [|done].
  inversion Hr. by apply is_str_rev.
Qed.

Lemma is_str_lines s : is_str s -> Forall is_str (lines s).
Proof.
  unfold lines. intros Hs. assert (Hn : is_str []) by constructor. revert Hn. generalize (@nil Z) as acc.
  induction Hs as [|c s Hc Hs IH]; intros acc Ha; cbn [lines_from].
  - destruct acc; constructor; [by apply is_str_rev|constructor].
  - destruct (c =? c_nl); [|by apply IH, is_str_cons].
    constructor; [by apply is_str_strip_cr, is_str_rev|]. apply IH. constructor.
Qed.

Lemma is_str_split_whitespace s : is_str s -> Forall is_str (split_whitespace s).
Proof.
  unfold split_whitespace. intros Hs. assert (Hn : is_str []) by constructor. revert Hn. generalize (@nil Z) as acc.
  induction Hs as [|c s Hc Hs IH]; intros acc Ha; cbn [split_ws_from].
  - destruct acc; constructor; [by apply is_str_rev|constructor].
  - destruct (is_whitespace c); [|by apply IH, is_str_cons].
    destruct acc; [by apply IH|]. constructor; [by apply is_str_rev|]. apply IH. constructor.
Qed.

Lemma is_str_join sep l : is_str sep -> Forall is_str l -> is_str (join sep l).
Proof.
  intros Hs. induction 1 as [|p l Hp Hl IH]; cbn [join]; [constructor|].
  destruct l; [done|]. auto with str.
Qed.

Lemma is_str_replace_char c w s : is_str w -> is_str s -> is_str (replace_char c w s).
Proof.
  intros Hw Hs. apply Forall_bind. eapply Forall_impl; [exact Hs|]. intros d Hd.
  unfold compose. destruct (d =? c); [exact Hw|apply is_str_cons; [exact Hd|constructor]].
Qed.

Lemma fmt_brace d t args : d <> 125 -> fmt (123 :: d :: t) args = 123 :: fmt (d :: t) args.
Proof. intros Hd. destruct d as [|p|p]; [done| |done]. do 7 (destruct p as [p|p|]; try done). Qed.

Lemma is_str_fmt t args : is_str t -> Forall is_str args -> is_str (fmt t args).
Proof.
  remember (length t) as n eqn:Hn. assert (Hle : (length t <= n)%nat) by lia. clear Hn.
  revert t args Hle. induction n as [|n IH]; intros [|c t] args Hle Ht Ha; cbn in Hle; try lia; try constructor.
  inversion_clear Ht as [|? ? Hc Ht'].
  destruct (decide (c = 123 /\ head t = Some 125)) as [[-> Hh]|Hno].
  - destruct t as [|d t]; [done|]. injection Hh as ->. cbn [fmt]. inversion_clear Ht' as [|? ? _ Ht''].
    cbn in Hle. destruct Ha as [|a args Ha Hargs]; [apply IH; [lia|done|constructor]|].
    apply is_str_app; [done|]. apply IH; [lia|done|done].
  - assert (E : fmt (c :: t) args = c :: fmt t args).
    { destruct (decide (c = 123)) as [->|Hc']; [|by apply fmt_cons].
      destruct t as [|d t]; [done|]. apply fmt_brace. intros ->. by destruct Hno. }
    rewrite E. apply is_str_cons; [done|]. apply IH; [lia|done|done].
Qed.

Lemma is_str_show n : 0 <= n -> is_str (show_dec n).
Proof.
  unfold show_dec, show_radix. generalize (Z.to_nat (Z.log2 n + 1)) as f. intros f.
  assert (Hd : forall d, 0 <= d < 10 -> is_str [digit_char d]).
  { intros d Hd. apply is_str_cons; [|constructor]. unfold digit_char, is_scalar. zcase; lia. }
  revert n. induction f as [|f IH]; intros n Hn; cbn [show_fuel]; [constructor|].
  zcase; [apply Hd; lia|]. apply is_str_app; [apply IH, Z.div_pos; lia|].
  apply Hd. apply Z.mod_pos_bound. lia.
Qed.

Lemma is_str_map f s : (forall c, is_scalar c -> is_scalar (f c)) -> is_str s -> is_str (map f s).
Proof. intros Hf Hs. apply Forall_fmap. eapply Forall_impl; [exact Hs|]. exact Hf. Qed.

#[export] Hint Resolve is_str_trim is_str_unquote is_str_replace_char is_str_show : str.

(** Decoding yields a string. *)
Lemma utf8_decode_is_str b s : Forall is_byte b -> utf8_decode b = Some s -> is_str s.
Proof.
  assert (Hn : forall n b s, (length b <= n)%nat -> Forall is_byte b -> utf8_decode b = Some s -> is_str s);
    [|intros Hb; by apply (Hn (length b))].
  clear. intros n. induction n as [|n IH]; intros [|b0 t] s Hl Hb; cbn [length] in Hl; try lia;
    cbn [utf8_decode]; try (intros [= <-]; constructor).
  assert (Hc : forall c u, is_scalar c -> (length u <= n)%nat -> Forall is_byte u ->
            cons c <$> utf8_decode u = Some s -> is_str s).
  { intros c u Hc Hu Hub E. destruct (utf8_decode u) as [v|] eqn:Ev; [|done]. injection E as <-.
    apply is_str_cons; [done|]. by eapply IH. }
  unfold in_range, is_cont, in_range. inversion_clear Hb as [|? ? H0 Ht]. unfold is_byte in H0.
  destruct (_ && _) eqn:E0; [apply Hc; [unfold is_scalar; lia|lia|done]|].
  destruct t as [|b1 t1]; [done|]. inversion_clear Ht as [|? ? H1 Ht1]. cbn [length] in Hl. clear E0.
  destruct (_ && _) eqn:E1; [apply Hc; [unfold is_scalar; lia|lia|done]|]. clear E1.
  destruct t1 as [|b2 t2]; [done|]. inversion_clear Ht1 as [|? ? H2 Ht2]. cbn [length] in Hl.
  destruct (_ && _) eqn:E2; [apply Hc; [unfold is_scalar; lia|lia|done]|]. clear E2.
  destruct t2 as [|b3 t3]; [done|]. inversion_clear Ht2 as [|? ? H3 Ht3]. cbn [length] in Hl.
  destruct (_ && _) eqn:E3; [apply Hc; [unfold is_scalar; lia|lia|done]|done].
Qed.

(** Literals and lines of templates. *)
Ltac lit_str :=
  lazymatch goal with
  | |- is_str (lit _) => apply is_strb_spec; vm_compute; reflexivity
  | |- is_str (ln _) => apply is_strb_spec; vm_compute; reflexivity
  end.

(** ** Configurations *)

Record disk_strs (d : DiskConfig) : Prop := {
  ds_file_name : is_str (dc_file_name d);
  ds_controller : is_str (dc_controller d);
}.

Record network_strs (n : NetworkConfig) : Prop := {
  ns_name : is_str (nc_name n);
  ns_virtual_dev : forall v, nc_virtual_dev n = Some v -> is_str v;
  ns_network_name : forall v, nc_network_name n = Some v -> is_str v;
}.

Record config_strs (c : VmxConfig) : Prop := {
  cs_display_name : is_str (vc_display_name c);
  cs_guest_os : is_str (vc_guest_os c);
  cs_disks : Forall disk_strs (vc_disks c);
  cs_networks : Forall network_strs (vc_networks c);
}.

Definition map_strs (m : gmap str str) : Prop := forall k v, m !! k = Some v -> is_str k /\ is_str v.

Lemma kv_line_strs m line : map_strs m -> is_str line -> map_strs (kv_line m line).
Proof.
  intros Hm Hl. unfold kv_line. cbv zeta. destruct (_ || _); [done|].
  destruct (find_char _ _) as [p|]; [|done]. intros k v. rewrite lookup_insert_Some.
  intros [[<- <-]|[_ Hk]]; [split; auto 8 with str|by apply Hm].
Qed.

Lemma parse_key_value_pairs_strs content : is_str content -> map_strs (parse_key_value_pairs content).
Proof.
  intros Hc. unfold parse_key_value_pairs. assert (He : map_strs ∅) by (intros k v; by rewrite lookup_empty).
  revert He. generalize (∅ : gmap str str) as m. pose proof (is_str_lines _ Hc) as Hl.
  induction Hl as [|l ls Hl _ IH]; intros m Hm; [done|]. cbn [fold_left]. by apply IH, kv_line_strs.
Qed.

Lemma default_str d (o : option str) : is_str d -> (forall v, o = Some v -> is_str v) -> is_str (default d o).
Proof. destruct o; cbn; auto. Qed.

Section config.
  Context `{HashOrderLaws} (m : gmap str str).
  Hypothesis Hm : map_strs m.

Lemma entry_strs k v : (k, v) ∈ hash_order m -> is_str k /\ is_str v.
Proof. rewrite hash_order_perm, elem_of_map_to_list. apply Hm. Qed.

Lemma disks_strs : Forall disk_strs (extract_disks m).
Proof.
  apply Forall_forall. intros d. unfold extract_disks. rewrite sort_by_perm, list_elem_of_omap.
  intros ([k v] & He & Hd). apply entry_strs in He as [Hk Hv]. unfold disk_of_entry in Hd. cbv zeta in Hd.
  repeat (destruct (negb _) in Hd; [done|]). destruct (find_char _ _); [|done]. destruct (parse_u32 _); [|done].
  match type of Hd with (if ?b then _ else _) = _ => destruct b; [|done] end.
  injection Hd as <-. split; cbn; auto with str.
Qed.

Lemma networks_strs : Forall network_strs (extract_networks m).
Proof.
  unfold extract_networks. apply Forall_fmap, Forall_forall. intros name. rewrite sort_by_perm, list_elem_of_omap.
  intros ([k v] & He & Hn). apply entry_strs in He as [Hk _]. unfold network_name_of in Hn.
  destruct (_ && _); [|done]. injection Hn as <-.
  split; cbn [compose network_of nc_name nc_virtual_dev nc_network_name];
    [auto with str|intros w Hw; by apply Hm in Hw as []..].
Qed.
End config.

Lemma config_strs_parse `{HashOrderLaws} content c :
  is_str content -> parse_vmx_content content = Ok c -> config_strs c.
Proof.
  intros Hc [= <-]. pose proof (parse_key_value_pairs_strs _ Hc) as Hm.
  assert (Hd : forall d k, is_str d -> is_str (default d (parse_key_value_pairs content !! k))).
  { intros d k Hd. apply default_str; [done|]. intros v Hv. by apply Hm in Hv as []. }
  constructor; cbn [vc_display_name vc_guest_os vc_disks vc_networks];
    [apply Hd; lit_str|apply Hd; lit_str|by apply disks_strs|by apply networks_strs].
Qed.

(** ** VMDK descriptors *)

Record extent_strs (e : Extent) : Prop := {
  es_access_str : is_str (ex_access e);
  es_filename_str : is_str (ex_filename e);
}.

Record descriptor_strs (d : VmdkDescriptor) : Prop := {
  dst_type : is_str (vd_create_type d);
  dst_hw : is_str (vd_hw_version d);
  dst_adapter : is_str (vd_adapter_type d);
  dst_extents : Forall extent_strs (vd_extents d);
}.

Lemma parse_extent_line_strs `{UnicodeTables} line e :
  is_str line -> parse_extent_line line = Ok e -> extent_strs e.
Proof.
  intros Hl He. pose proof (is_str_split_whitespace _ Hl) as Hw. unfold parse_extent_line in He.
  destruct (split_whitespace line) as [|p0 [|p1 [|p2 [|p3 rest]]]]; try done. cbv zeta in He.
  apply bind_Ok in He as (size & _ & He). apply bind_Ok in He as (ty & _ & He).
  apply bind_Ok in He as ([name off] & Hq & He). apply bind_Ok in He as (o & _ & He). injection He as <-.
  rewrite !Forall_cons in Hw. destruct Hw as (H0 & _ & _ & Hrest). apply Forall_cons in Hrest as Hj.
  apply (is_str_join [c_space]) in Hj; [|by repeat constructor].
  split; [exact H0|]. cbn [ex_filename]. unfold parse_quoted_filename_and_offset in Hq. cbv zeta in Hq.
  destruct (negb _); [done|]. apply bind_Ok in Hq as (q & _ & Hq). injection Hq as <- _. by auto with str.
Qed.

Lemma apply_key_value_strs key value d d' :
  is_str value -> descriptor_strs d -> apply_key_value key value d = Ok d' -> descriptor_strs d'.
Proof.
  intros Hv [] He. unfold apply_key_value in He. cbv zeta in He.
  repeat (destruct (str_eqb key _) in He;
    [first [apply bind_Ok in He as (? & _ & He)|idtac]; injection He as <-; by constructor|]).
  by injection He as <-.
Qed.

Lemma descriptor_line_strs `{UnicodeTables} d line d' :
  is_str line -> descriptor_strs d -> descriptor_line d line = Ok d' -> descriptor_strs d'.
Proof.
  intros Hl%is_str_trim Hd He. unfold descriptor_line in He. cbv zeta in He.
  destruct (bool_decide _ || _); [by injection He as <-|]. destruct (starts_with _ _ || _ || _).
  - apply bind_Ok in He as (e & Hx & He). injection He as <-. apply parse_extent_line_strs in Hx; [|done].
    destruct Hd. constructor; try done. cbn [push_extent vd_extents]. apply Forall_app. split; [done|by constructor].
  - unfold parse_key_value in He. destruct (find_char _ _) as [p|]; cbn [mbind option_bind] in He;
      [|by injection He as <-].
    eapply apply_key_value_strs; [|exact Hd|exact He]. by auto with str.
Qed.

Lemma descriptor_strs_parse `{UnicodeTables} content d :
  is_str content -> parse_descriptor content = Ok d -> descriptor_strs d.
Proof.
  intros Hc. unfold parse_descriptor. pose proof (is_str_lines _ Hc) as Hl. clear Hc.
  assert (Hi : descriptor_strs initial_descriptor) by (constructor; constructor).
  revert Hi. generalize initial_descriptor as d0. induction Hl as [|l ls Hl _ IH]; intros d0 Hd0.
  - by intros [= <-].
  - cbn [descriptor_lines]. intros He. apply bind_Ok in He as (d1 & H1 & He).
    eapply IH; [|exact He]. by eapply descriptor_line_strs.
Qed.

(** ** The descriptor *)

Lemma is_str_escape s : is_str s -> is_str (escape_xml s).
Proof. intros Hs. unfold escape_xml. cbv zeta. repeat (apply is_str_replace_char; [lit_str|]). done. Qed.

Lemma is_str_sanitize (P : Z -> bool) s : is_str s -> is_str (map (fun c => if P c then c else c_underscore) s).
Proof. apply is_str_map. intros c Hc. destruct (P c); [done|]. unfold is_scalar. lia. Qed.

Lemma guest_os_strs `{UnicodeTables} g : 0 <= (map_guest_os g).1 /\ is_str (map_guest_os g).2.
Proof.
  unfold map_guest_os. cbv zeta. destruct (find _ _) as [[names [id ty]]|] eqn:E; [|split; [done|cbn [snd]; lit_str]].
  apply find_some in E as [Hin _]. cbn.
  assert (Ha : forallb (fun arm => (0 <=? arm.2.1) && is_strb (lit arm.2.2)) guest_os_arms = true)
    by (vm_compute; reflexivity).
  rewrite forallb_forall in Ha. specialize (Ha _ Hin). cbn in Ha. apply andb_true_iff in Ha as [H1 H2].
  split; [lia|by apply is_strb_spec].
Qed.

#[export] Hint Resolve is_str_escape is_str_sanitize : str.

(** The texts put together from literals, lines and filled templates. *)
Ltac strs :=
  repeat first
    [ assumption
    | lit_str
    | lazymatch goal with
      | |- is_str (_ ++ _) => apply is_str_app
      | |- is_str (fmt _ _) => apply is_str_fmt; [lit_str|repeat (apply List.Forall_cons || apply List.Forall_nil)]
      | |- is_str (escape_xml _) => apply is_str_escape
      | |- is_str (concat _) => apply is_str_concat
      end ];
  auto with str.

Record disk_info_strs (d : DiskInfo) : Prop := {
  dis_id : is_str (di_id d);
  dis_file_ref : is_str (di_file_ref d);
  dis_capacity : 0 <= di_capacity_bytes d;
  dis_size : 0 <= di_file_size_bytes d;
}.

Section build.
  Context `{UnicodeTables} (c : VmxConfig) (disks : list DiskInfo).
  Hypothesis Hc : config_strs c.
  Hypothesis Hcpus : 0 <= vc_num_cpus c.
  Hypothesis Hmem : 0 <= vc_memory_mb c.
  Hypothesis Hdisks : Forall disk_info_strs disks.
  Abbreviation b := (OvfBuilder_new c).

Lemma Forall_imap_str {A} (P : A -> Prop) (f : nat -> A -> str) l :
  Forall P l -> (forall i x, P x -> is_str (f i x)) -> Forall is_str (imap f l).
Proof. intros Hl Hf. revert f Hf. induction Hl; intros f Hf; constructor; [by apply Hf|]. apply IHHl. intros i; apply Hf. Qed.

Lemma references_str : is_str (build_references b disks).
Proof.
  unfold build_references. strs. eapply Forall_imap_str; [exact Hdisks|]. intros i d Hd. unfold reference_entry.
  strs; [|apply Hd|apply is_str_show, Hd]. cbn [ob_config OvfBuilder_new].
  destruct (vc_disks c !! i) as [k|] eqn:E; [|lit_str].
  apply (proj1 (Forall_lookup _ _) (cs_disks _ Hc) i k E).
Qed.

Lemma disk_section_str : is_str (build_disk_section disks).
Proof.
  unfold build_disk_section. strs. apply Forall_fmap. eapply Forall_impl; [exact Hdisks|]. intros d [].
  unfold compose, disk_entry. by strs.
Qed.

Lemma network_name_str n : network_strs n -> is_str (default (lit "VM Network") (nc_network_name n)).
Proof. intros []. apply default_str; [lit_str|done]. Qed.

Lemma network_section_str : is_str (build_network_section b).
Proof.
  unfold build_network_section. cbn [ob_config OvfBuilder_new]. strs. case_bool_decide; strs.
  apply Forall_fmap. eapply Forall_impl; [exact (cs_networks _ Hc)|]. intros n Hn%network_name_str.
  unfold compose, network_entry. by strs.
Qed.

Lemma os_section_str : is_str (build_os_section b).
Proof.
  unfold build_os_section. cbn [ob_config OvfBuilder_new].
  pose proof (guest_os_strs (vc_guest_os c)) as [Hid Hty]. destruct (map_guest_os (vc_guest_os c)) as [id ty].
  cbn in Hid, Hty. strs. apply Hc.
Qed.

Lemma disk_items_str : is_str (concat (imap build_disk_item disks)).
Proof.
  apply is_str_concat. eapply Forall_imap_str; [exact Hdisks|]. intros i d []. unfold build_disk_item. cbv zeta.
  strs; apply is_str_show; lia.
Qed.

Lemma Ok_str (x s : str) : is_str x -> (Ok x : Result str) = Ok s -> is_str s.
Proof. by intros ? [= <-]. Qed.

Lemma network_item_str i s : build_network_item b i = Ok s -> is_str s.
Proof.
  unfold build_network_item. cbv zeta. cbn [ob_config OvfBuilder_new].
  destruct (vc_networks c !! i) as [n|] eqn:E; [|done]. apply Ok_str.
  pose proof (proj1 (Forall_lookup _ _) (cs_networks _ Hc) i n E) as Hn.
  assert (Had : is_str (default (lit "E1000") (nc_virtual_dev n))) by (apply default_str; [lit_str|apply Hn]).
  apply network_name_str in Hn. pose proof (zlen_nonneg (vc_disks c)).
  strs; apply is_str_show; lia.
Qed.

Lemma network_items_str l :
  collect (imap (fun i _ => build_network_item b i) (vc_networks c)) = Ok l -> is_str (concat l).
Proof.
  intros Hl%collect_Ok. apply is_str_concat, Forall_lookup. intros i s Hs.
  apply (f_equal (lookup i)) in Hl. rewrite list_lookup_imap, list_lookup_fmap, Hs in Hl.
  destruct (vc_networks c !! i); [|done]. cbn in Hl. injection Hl as Hl. by apply network_item_str in Hl.
Qed.

Lemma hardware_str s : build_hardware_section b disks = Ok s -> is_str s.
Proof.
  unfold build_hardware_section. cbn [ob_config OvfBuilder_new]. intros E.
  apply bind_Ok in E as (items & Hi%network_items_str & E). revert E. apply Ok_str.
  pose proof disk_items_str as Hd. pose proof (cs_display_name _ Hc) as Hn. pose proof (zlen_nonneg (vc_disks c)).
  unfold build_system_item, build_cpu_item, build_memory_item, build_scsi_controller, build_default_network_item.
  cbn [ob_config OvfBuilder_new]. cbv zeta.
  strs. case_bool_decide; [|constructor]. strs. apply is_str_show. lia.
Qed.

(** The descriptor is a string. *)
Lemma build_str xml : build b disks = Ok xml -> is_str xml.
Proof.
  unfold build. intros E. apply bind_Ok in E as (vs & Hvs & E). revert E. apply Ok_str.
  unfold build_virtual_system in Hvs. cbv zeta in Hvs. cbn [ob_config OvfBuilder_new] in Hvs.
  apply bind_Ok in Hvs as (hw & Hhw%hardware_str & Hvs). revert Hvs.
  match goal with |- Ok ?x = _ -> _ => enough (Hx : is_str x) end.
  { intros Hvs%(Ok_str _ _ Hx). unfold build_envelope_open.
    pose proof references_str. pose proof disk_section_str. pose proof network_section_str. by strs. }
  pose proof os_section_str. pose proof (cs_display_name _ Hc). strs. by apply is_str_sanitize.
Qed.
End build.
