(* ===== verification/TypesSpec.v ===== *)
(** * TypesSpec: what the parsers return is well typed

    The numbers of a parsed configuration, descriptor or header have the width
    of the fields they are stored in. *)
From S2P Require Export DescriptorSpec VmxSpec SparseSpec StrSpec.

(** ** Numbers *)

Lemma digit_val_nonneg radix c d : digit_val radix c = Some d -> 0 <= d.
Proof.
  unfold digit_val, is_ascii_digit, is_ascii_lower, is_ascii_upper, in_range.
  destruct (Z.leb_spec 48 c), (Z.leb_spec c 57), (Z.leb_spec 97 c), (Z.leb_spec c 122),
    (Z.leb_spec 65 c), (Z.leb_spec c 90); cbn; try lia; zcase; intros Hd; try discriminate Hd; injection Hd as <-; lia.
Qed.

Lemma parse_digits_range bits radix acc s v :
  0 <= radix -> is_u bits acc -> parse_digits bits radix acc s = Some v -> is_u bits v.
Proof.
  intros Hr. revert acc. induction s as [|c s IH]; intros acc Ha; cbn [parse_digits]; [by intros [= ->]|].
  destruct (digit_val radix c) as [d|] eqn:E; [|done]. cbn [mbind option_bind].
  apply digit_val_nonneg in E. destruct (Z.ltb_spec (acc * radix + d) (2 ^ bits)); [|done].
  apply IH. unfold is_u in *. nia.
Qed.

Lemma parse_uint_range bits radix s v :
  0 <= bits -> 0 <= radix -> parse_uint bits radix s = Some v -> is_u bits v.
Proof.
  intros Hb Hr. unfold parse_uint. destruct s as [|c s]; [done|].
  assert (H0 : is_u bits 0) by (unfold is_u; pose proof (Z.pow_pos_nonneg 2 bits); lia).
  destruct (c =? c_plus); [destruct s; [done|]|]; by apply parse_digits_range.
Qed.

Lemma parse_u32_range s v : parse_u32 s = Some v -> is_u 32 v.
Proof. by apply parse_uint_range. Qed.

Lemma parse_u64_range s v : parse_u64 s = Some v -> is_u 64 v.
Proof. by apply parse_uint_range. Qed.

Lemma ok_or_Ok {E A} (o : option A) (e : E) a : ok_or o e = Ok a -> o = Some a.
Proof. destruct o; [|done]. by intros [= ->]. Qed.

Lemma is_u_const bits n : (0 <=? n) && (n <? 2 ^ bits) = true -> is_u bits n.
Proof. rewrite andb_true_iff, Z.leb_le, Z.ltb_lt. done. Qed.

(** ** Descriptors *)

Definition extent_typed (e : Extent) : Prop := is_u 64 (ex_size_sectors e) /\ is_u 64 (ex_offset e).

Record descriptor_typed (d : VmdkDescriptor) : Prop := {
  dt_version : is_u 32 (vd_version d);
  dt_cid : is_u 32 (vd_cid d);
  dt_parent_cid : is_u 32 (vd_parent_cid d);
  dt_cylinders : is_u 64 (vd_cylinders d);
  dt_heads : is_u 32 (vd_heads d);
  dt_sectors : is_u 32 (vd_sectors d);
  dt_extents : Forall extent_typed (vd_extents d);
}.

Lemma extent_line_typed `{UnicodeTables} line e : parse_extent_line line = Ok e -> extent_typed e.
Proof.
  unfold parse_extent_line. destruct (split_whitespace line) as [|p0 [|p1 [|p2 [|p3 rest]]]]; try done.
  cbv zeta. intros He. inv_ok. apply ok_or_Ok, parse_u64_range in Hok.
  destruct a1 as [filename offset]. cbn beta iota in *. inv_ok. split; [done|]. cbn [ex_offset].
  destruct offset as [o|]; [|by injection Hok2 as <-; apply is_u_const]. by apply ok_or_Ok, parse_u64_range in Hok2.
Qed.

Lemma key_value_typed key value d d' :
  descriptor_typed d -> apply_key_value key value d = Ok d' -> descriptor_typed d'.
Proof.
  intros [] He. unfold apply_key_value in He. cbv zeta in He.
  repeat (destruct (str_eqb key _) in He; [inv_ok|]); inv_ok;
    repeat match goal with
      | H : ok_or _ _ = Ok _ |- _ => apply ok_or_Ok in H
      | H : parse_u32 _ = Some _ |- _ => apply parse_u32_range in H
      | H : parse_u64 _ = Some _ |- _ => apply parse_u64_range in H
      | H : parse_uint 32 16 _ = Some _ |- _ => apply parse_uint_range in H; [|done..]
      end; by constructor.
Qed.

Lemma descriptor_line_typed `{UnicodeTables} line d d' :
  descriptor_typed d -> descriptor_line d line = Ok d' -> descriptor_typed d'.
Proof.
  intros Hd He. unfold descriptor_line in He. cbv zeta in He.
  destruct (bool_decide _ || _); [by injection He as <-|]. destruct (starts_with _ _ || _ || _).
  - inv_ok. apply extent_line_typed in Hok. destruct Hd. constructor; try done.
    cbn [push_extent vd_extents]. apply Forall_app. split; [done|]. by constructor.
  - destruct (parse_key_value _) as [[key value]|]; [by eapply key_value_typed|by injection He as <-].
Qed.

Lemma descriptor_lines_typed `{UnicodeTables} ls d d' :
  descriptor_typed d -> descriptor_lines d ls = Ok d' -> descriptor_typed d'.
Proof.
  revert d. induction ls as [|line ls IH]; intros d Hd; cbn [descriptor_lines]; [by intros [= <-]|].
  intros He. inv_ok. eapply IH; [|exact Hok0]. by eapply descriptor_line_typed.
Qed.

(** ** Configurations and sparse headers *)

Record config_typed (c : VmxConfig) : Prop := {
  ct_memory : is_u 32 (vc_memory_mb c);
  ct_cpus : is_u 32 (vc_num_cpus c);
  ct_units : Forall (fun d => is_u 32 (dc_unit d)) (vc_disks c);
}.

Record header_typed (h : SparseHeader) : Prop := {
  ht_version : is_u 32 (sh_version h);
  ht_flags : is_u 32 (sh_flags h);
  ht_capacity : is_u 64 (sh_capacity h);
  ht_grain_size : is_u 64 (sh_grain_size h);
  ht_gtes : is_u 32 (sh_num_gtes_per_gt h);
  ht_gd_offset : is_u 64 (sh_gd_offset h);
}.

Lemma default_u32 n s : is_u 32 n -> is_u 32 (default n (s ≫= parse_u32)).
Proof.
  intros Hn. destruct s as [s|]; [|done]. cbn. destruct (parse_u32 s) as [v|] eqn:E; [|done].
  by apply parse_u32_range in E.
Qed.

Lemma disk_entry_typed raw entry d : disk_of_entry raw entry = Some d -> is_u 32 (dc_unit d).
Proof.
  destruct entry as [key value]. unfold disk_of_entry. cbv zeta.
  repeat (destruct (negb _); [done|]). destruct (find_char _ _); [|done].
  destruct (parse_u32 _) as [u|] eqn:E; [|done].
  match goal with |- (if ?b then _ else _) = _ -> _ => destruct b; [|done] end.
  intros [= <-]. by apply parse_u32_range in E.
Qed.

Lemma config_is_typed `{HashOrder} content c : parse_vmx_content content = Ok c -> config_typed c.
Proof.
  intros [= <-]. constructor; cbn [vc_memory_mb vc_num_cpus vc_disks]; 
    [by apply default_u32, is_u_const|by apply default_u32, is_u_const|].
  unfold extract_disks. apply Forall_forall. intros d Hd. rewrite sort_by_perm in Hd.
  apply list_elem_of_omap in Hd as (entry & _ & Hd). by eapply disk_entry_typed.
Qed.

Lemma read_le_typed {E} n off file v :
  Forall is_byte file -> 0 <= off -> @read_le E n off file = Ok v -> is_u (8 * Z.of_nat n) v.
Proof.
  intros Hb Ho [Hl ->]%read_le_inv. pose proof (le_val_range _ (Forall_zslice is_byte off (Z.of_nat n) file Hb)) as Hr.
  unfold is_u. rewrite zlen_zslice in Hr by lia.
  rewrite Z.pow_mul_r by lia. exact Hr.
Qed.

Lemma header_is_typed file h : Forall is_byte file -> SparseHeader_from_bytes file = Ok h -> header_typed h.
Proof.
  intros Hb He. unfold SparseHeader_from_bytes in He. destruct (_ <? _); [done|]. inv_ok.
  destruct (negb _); [done|]. inv_ok.
  repeat match goal with H : read_le _ _ _ = Ok _ |- _ => apply read_le_typed in H; [|done|lia] end.
  by constructor.
Qed.

(** ** The property *)

(** The parsers return well-typed values: every number of a parsed VMX
    configuration, VMDK descriptor or sparse header lies in the range of the
    Rust type of its field, whatever the text or the bytes, and every string is
    one of scalar values when the text is. *)
Theorem parsers_well_typed `{UnicodeTables} `{HashOrder} :
  (forall content c, parse_vmx_content content = Ok c ->
     config_typed c /\ (HashOrderLaws -> is_str content -> config_strs c)) /\
  (forall content d, parse_descriptor content = Ok d ->
     descriptor_typed d /\ (is_str content -> descriptor_strs d)) /\
  (forall file h, Forall is_byte file -> SparseHeader_from_bytes file = Ok h -> header_typed h).
Proof.
  split; [|split; [|exact header_is_typed]]; intros content v Hv; split.
  - by apply (config_is_typed content).
  - intros ? ?. by apply (config_strs_parse content).
  - unfold parse_descriptor in Hv. eapply descriptor_lines_typed; [|exact Hv].
    constructor; try (by apply is_u_const). constructor.
  - intros ?. by apply (descriptor_strs_parse content).
Qed.
