(* ===== verification/Xml.v ===== *)
(** * Xml: a reader for XML documents

    The specification of what the OVF descriptor says to its readers: elements
    with attributes in double quotes, text with the five predefined entities,
    an optional declaration.  It consumes one character at a time, so reading
    composes along the text.  White space between elements is dropped; the
    text of an element without children is kept as it is; the white space of
    attributes and the ends of lines are not normalised.  Which characters a
    document may have is a predicate of its own, [xml_char]. *)
From S2P Require Export Text.

Inductive xml :=
| Elem (name : str) (attrs : list (str * str)) (kids : list xml)
| Txt (text : str).

(** ** Characters and entities *)

Definition xml_ws (c : Z) : bool := (c =? 32) || (c =? 9) || (c =? 10) || (c =? 13).

Definition name_char (c : Z) : bool :=
  is_ascii_upper c || is_ascii_lower c || is_ascii_digit c || (c =? c_colon) || (c =? c_underscore)
  || (c =? c_minus) || (c =? c_dot).

Definition entity (e : str) : option Z :=
  if str_eqb e (lit "amp") then Some c_amp
  else if str_eqb e (lit "lt") then Some c_lt
  else if str_eqb e (lit "gt") then Some c_gt
  else if str_eqb e (lit "quot") then Some c_dquote
  else if str_eqb e (lit "apos") then Some c_apos
  else None.

(** [pending] is the entity being read. *)
Fixpoint unescape_from (pending : option str) (s : str) : option str :=
  match s with
  | [] => match pending with None => Some [] | Some _ => None end
  | c :: s' =>
      match pending with
      | None => if c =? c_amp then unescape_from (Some []) s' else cons c <$> unescape_from None s'
      | Some e =>
          if c =? 59 then d ← entity (rev e); cons d <$> unescape_from None s'
          else unescape_from (Some (c :: e)) s'
      end
  end.

Definition unescape (s : str) : option str := unescape_from None s.

(** ** The reader *)

(** What is being read; text being collected is reversed. *)
Inductive mode :=
| MText (t : str)
| MLt (t : str)
| MDecl
| MName (n : str)
| MTag (n : str) (attrs : list (str * str))
| MAttr (n : str) (attrs : list (str * str)) (k : str)
| MEq (n : str) (attrs : list (str * str)) (k : str)
| MVal (n : str) (attrs : list (str * str)) (k v : str)
| MAfter (n : str) (attrs : list (str * str))
| MSlash (n : str) (attrs : list (str * str))
| MClose (t n : str).

(** An open element: name, attributes, children in reverse. *)
Abbreviation frame := (str * list (str * str) * list xml)%type (only parsing).
Abbreviation state := (mode * list frame)%type (only parsing).

Definition add_kid (k : xml) (stk : list frame) : list frame :=
  match stk with
  | (n, a, kids) :: stk' => (n, a, k :: kids) :: stk'
  | [] => []
  end.

(** The text in front of a child element. *)
Definition text_before (t : str) (stk : list frame) : option (list frame) :=
  if forallb xml_ws t then Some stk else
  s ← unescape (rev t); Some (add_kid (Txt s) stk).

(** The children of an element whose end tag comes after the text [t]. *)
Definition close_kids (t : str) (kids : list xml) : option (list xml) :=
  match t, kids with
  | [], _ => Some (rev kids)
  | _, [] => s ← unescape (rev t); Some [Txt s]
  | _, _ => if forallb xml_ws t then Some (rev kids) else
      s ← unescape (rev t); Some (rev (Txt s :: kids))
  end.

Definition tag_end (n : str) (attrs : list (str * str)) (c : Z) (stk : list frame) : option state :=
  if c =? c_gt then Some (MText [], (rev n, rev attrs, []) :: stk)
  else if c =? c_slash then Some (MSlash n attrs, stk)
  else None.

Definition step (st : state) (c : Z) : option state :=
  let '(m, stk) := st in
  match m with
  | MText t => if c =? c_lt then Some (MLt t, stk) else Some (MText (c :: t), stk)
  | MLt t =>
      if c =? c_slash then Some (MClose t [], stk)
      else if c =? 63 then Some (MDecl, stk)
      else if name_char c then stk' ← text_before t stk; Some (MName [c], stk')
      else None
  | MDecl => if c =? c_gt then Some (MText [], stk) else Some (MDecl, stk)
  | MName n =>
      if name_char c then Some (MName (c :: n), stk)
      else if xml_ws c then Some (MTag n [], stk)
      else tag_end n [] c stk
  | MTag n attrs =>
      if xml_ws c then Some (MTag n attrs, stk)
      else if name_char c then Some (MAttr n attrs [c], stk)
      else tag_end n attrs c stk
  | MAttr n attrs k =>
      if name_char c then Some (MAttr n attrs (c :: k), stk)
      else if c =? c_eq then Some (MEq n attrs k, stk)
      else None
  | MEq n attrs k => if c =? c_dquote then Some (MVal n attrs k [], stk) else None
  | MVal n attrs k v =>
      if c =? c_dquote then
        v' ← unescape (rev v);
        if bool_decide (rev k ∈ attrs.*1) then None else Some (MAfter n ((rev k, v') :: attrs), stk)
      else if c =? c_lt then None
      else Some (MVal n attrs k (c :: v), stk)
  | MAfter n attrs => if xml_ws c then Some (MTag n attrs, stk) else tag_end n attrs c stk
  | MSlash n attrs =>
      if c =? c_gt then Some (MText [], add_kid (Elem (rev n) (rev attrs) []) stk) else None
  | MClose t n =>
      if name_char c then Some (MClose t (c :: n), stk)
      else if c =? c_gt then
        match stk with
        | (name, attrs, kids) :: stk' =>
            if str_eqb name (rev n) then
              kids' ← close_kids t kids; Some (MText [], add_kid (Elem name attrs kids') stk')
            else None
        | [] => None
        end
      else None
  end.

Fixpoint feed (s : str) (st : state) : option state :=
  match s with
  | [] => Some st
  | c :: s' => st' ← step st c; feed s' st'
  end.

(** A document is one element. *)
Definition read_xml (s : str) : option xml :=
  match feed s (MText [], [([], [], [])]) with
  | Some (MText t, [(_, _, [Elem n a k])]) => if forallb xml_ws t then Some (Elem n a k) else None
  | _ => None
  end.

(** ** Queries *)

Definition attr (k : str) (t : xml) : option str :=
  match t with
  | Elem _ attrs _ => snd <$> List.find (fun p => str_eqb p.1 k) attrs
  | Txt _ => None
  end.

(** The elements of a name, in document order. *)
Fixpoint descendants (name : str) (t : xml) : list xml :=
  match t with
  | Elem n attrs kids =>
      (if str_eqb n name then [t] else []) ++ concat (map (descendants name) kids)
  | Txt _ => []
  end.

(** The text of an element. *)
Definition text_of (t : xml) : str :=
  match t with
  | Elem _ _ kids => kids ≫= fun k => match k with Txt s => s | Elem _ _ _ => [] end
  | Txt s => s
  end.

(** The texts of the children of a name. *)
Definition child_texts (name : str) (t : xml) : list str :=
  match t with
  | Elem _ _ kids =>
      kids ≫= fun k => match k with
        | Elem n _ _ => if str_eqb n name then [text_of k] else []
        | Txt _ => [] end
  | Txt _ => []
  end.

(** ** Laid out documents

    An element per line, indented by two blanks more than its parent: an empty
    element, an element with text, or an element with element children. *)

Inductive layout :=
| Void (name : str) (attrs : list (str * str))
| Leaf (name : str) (attrs : list (str * str)) (text : str)
| Block (sep name : str) (attrs : list (str * str)) (kids : list layout).

(** [escape] is how the writer spells text. *)
Section print.
  Context (escape : str -> str).

Definition print_attr (sep : str) (kv : str * str) : str :=
  sep ++ kv.1 ++ [c_eq; c_dquote] ++ escape kv.2 ++ [c_dquote].

(** The first attribute comes after one blank, the others after [sep]. *)
Definition print_attrs (sep : str) (attrs : list (str * str)) : str :=
  match attrs with
  | [] => []
  | kv :: rest => print_attr [c_space] kv ++ concat (map (print_attr sep) rest)
  end.

Definition indent (i : nat) : str := replicate i c_space.

Fixpoint print (i : nat) (l : layout) : str :=
  match l with
  | Void n a => indent i ++ [c_lt] ++ n ++ print_attrs [c_space] a ++ [c_slash; c_gt; c_nl]
  | Leaf n a s =>
      indent i ++ [c_lt] ++ n ++ print_attrs [c_space] a ++ [c_gt] ++ escape s
      ++ [c_lt; c_slash] ++ n ++ [c_gt; c_nl]
  | Block sep n a kids =>
      indent i ++ [c_lt] ++ n ++ print_attrs sep a ++ [c_gt; c_nl]
      ++ concat (map (print (2 + i)) kids)
      ++ indent i ++ [c_lt; c_slash] ++ n ++ [c_gt; c_nl]
  end.
End print.

(** The element a layout stands for. *)
Fixpoint tree (i : nat) (l : layout) : xml :=
  match l with
  | Void n a => Elem n a []
  | Leaf n a s => Elem n a (match s with [] => [] | _ => [Txt s] end)
  | Block _ n a [] => Elem n a [Txt (c_nl :: indent i)]
  | Block _ n a kids => Elem n a (map (tree (2 + i)) kids)
  end.

Definition name_ok (n : str) : Prop := n <> [] /\ forallb name_char n = true.

Definition attrs_ok (a : list (str * str)) : Prop := NoDup a.*1 /\ Forall name_ok a.*1.

Inductive layout_ok : layout -> Prop :=
| Void_ok n a : name_ok n -> attrs_ok a -> layout_ok (Void n a)
| Leaf_ok n a s : name_ok n -> attrs_ok a -> layout_ok (Leaf n a s)
| Block_ok sep n a kids : sep <> [] -> forallb xml_ws sep = true -> name_ok n -> attrs_ok a ->
    Forall layout_ok kids -> layout_ok (Block sep n a kids).

(** ** Reading them *)

(** How a text may be spelled inside a document. *)
Definition spells (w s : str) : Prop :=
  forallb (fun c => negb (c =? c_lt) && negb (c =? c_dquote)) w = true /\ unescape w = Some s.

Lemma feed_app a b st : feed (a ++ b) st = feed a st ≫= feed b.
Proof. revert st. induction a as [|c a IH]; intros st; cbn; [done|]. destruct (step st c); cbn; auto. Qed.

(** Reads the concrete characters in front. *)
Ltac feed_chars :=
  repeat (cbn [feed step mbind option_bind]; rewrite ?Z.eqb_refl;
    repeat match goal with
    | |- context [name_char (Zpos ?p)] =>
        let b := eval vm_compute in (name_char (Zpos p)) in change (name_char (Zpos p)) with b
    | |- context [xml_ws (Zpos ?p)] =>
        let b := eval vm_compute in (xml_ws (Zpos p)) in change (xml_ws (Zpos p)) with b
    | |- context [Zpos ?p =? Zpos ?q] =>
        let b := eval vm_compute in (Zpos p =? Zpos q) in change (Zpos p =? Zpos q) with b
    end; cbv iota).

Lemma feed_name n m stk :
  forallb name_char n = true -> feed n (MName m, stk) = Some (MName (rev n ++ m), stk).
Proof.
  revert m. induction n as [|c n IH]; intros m; [done|]. cbn [forallb]. intros [Hc Hn]%andb_true_iff.
  cbn [feed step]. rewrite Hc. cbn [mbind option_bind]. rewrite IH by done. cbn. by rewrite <- app_assoc.
Qed.

Lemma feed_attr_name n a k m stk :
  forallb name_char k = true -> feed k (MAttr n a m, stk) = Some (MAttr n a (rev k ++ m), stk).
Proof.
  revert m. induction k as [|c k IH]; intros m; [done|]. cbn [forallb]. intros [Hc Hk]%andb_true_iff.
  cbn [feed step]. rewrite Hc. cbn [mbind option_bind]. rewrite IH by done. cbn. by rewrite <- app_assoc.
Qed.

Lemma feed_close_name t n m stk :
  forallb name_char n = true -> feed n (MClose t m, stk) = Some (MClose t (rev n ++ m), stk).
Proof.
  revert m. induction n as [|c n IH]; intros m; [done|]. cbn [forallb]. intros [Hc Hn]%andb_true_iff.
  cbn [feed step]. rewrite Hc. cbn [mbind option_bind]. rewrite IH by done. cbn. by rewrite <- app_assoc.
Qed.

Lemma feed_value n a k v w s stk :
  spells w s -> feed w (MVal n a k v, stk) = Some (MVal n a k (rev w ++ v), stk).
Proof.
  intros [Hw _]. revert v. induction w as [|c w IH]; intros v; [done|]. cbn [forallb] in Hw.
  apply andb_true_iff in Hw as [[Hl Hq]%andb_true_iff Hw]. apply negb_true_iff in Hl, Hq.
  cbn [feed step]. rewrite Hq, Hl. cbn [mbind option_bind]. rewrite IH by done. cbn. by rewrite <- app_assoc.
Qed.

Lemma feed_text t w s stk : spells w s -> feed w (MText t, stk) = Some (MText (rev w ++ t), stk).
Proof.
  intros [Hw _]. revert t. induction w as [|c w IH]; intros t; [done|]. cbn [forallb] in Hw.
  apply andb_true_iff in Hw as [[Hl Hq]%andb_true_iff Hw]. apply negb_true_iff in Hl, Hq.
  cbn [feed step]. rewrite Hl. cbn [mbind option_bind]. rewrite IH by done. cbn. by rewrite <- app_assoc.
Qed.

Lemma feed_blanks t w stk :
  forallb xml_ws w = true -> feed w (MText t, stk) = Some (MText (rev w ++ t), stk).
Proof.
  revert t. induction w as [|c w IH]; intros t; [done|]. cbn [forallb]. intros [Hc Hw]%andb_true_iff.
  assert (Hl : (c =? c_lt) = false) by (destruct (Z.eqb_spec c c_lt) as [->|]; [done|lia]).
  cbn [feed step]. rewrite Hl. cbn [mbind option_bind]. rewrite IH by done. cbn. by rewrite <- app_assoc.
Qed.

Lemma xml_ws_not_name c : xml_ws c = true -> name_char c = false.
Proof.
  unfold xml_ws. rewrite !orb_true_iff, !Z.eqb_eq. intros Hc.
  assert (c = 32 \/ c = 9 \/ c = 10 \/ c = 13) as [->|[->|[->| ->]]] by tauto; done.
Qed.

Lemma forallb_rev {A} (f : A -> bool) l : forallb f (rev l) = forallb f l.
Proof.
  induction l as [|x l IH]; [done|]. cbn. rewrite forallb_app, IH. cbn. rewrite andb_true_r.
  apply andb_comm.
Qed.

(** Ready for another attribute or for the end of the tag. *)
Definition ready (n : str) (attrs : list (str * str)) (m : mode) : Prop :=
  m = MAfter n attrs \/ (m = MName n /\ attrs = []).

Lemma ready_blank n attrs m c stk :
  ready n attrs m -> xml_ws c = true -> step (m, stk) c = Some (MTag n attrs, stk).
Proof.
  intros [->|[-> ->]] Hc; cbn [step]; [by rewrite Hc|]. by rewrite xml_ws_not_name, Hc.
Qed.

Lemma ready_end n attrs m c stk :
  ready n attrs m -> c = c_gt \/ c = c_slash -> step (m, stk) c = tag_end n attrs c stk.
Proof. by intros [->|[-> ->]] [->| ->]. Qed.

Lemma feed_tag_blanks n attrs w stk :
  forallb xml_ws w = true -> feed w (MTag n attrs, stk) = Some (MTag n attrs, stk).
Proof.
  induction w as [|c w IH]; [done|]. cbn [forallb]. intros [Hc Hw]%andb_true_iff.
  cbn [feed step]. rewrite Hc. cbn [mbind option_bind]. by apply IH.
Qed.

Section printed.
  Context (escape : str -> str).

Lemma feed_attr sep n attrs m k v stk :
  sep <> [] -> forallb xml_ws sep = true -> name_ok k -> k ∉ attrs.*1 -> spells (escape v) v ->
  ready n attrs m ->
  feed (print_attr escape sep (k, v)) (m, stk) = Some (MAfter n ((k, v) :: attrs), stk).
Proof.
  intros Hsep Hws [Hk Hkc] Hnew Hv Hm. unfold print_attr. cbn [fst snd].
  destruct sep as [|c sep]; [done|]. cbn [forallb] in Hws. apply andb_true_iff in Hws as [Hc Hws].
  cbn [app feed]. rewrite (ready_blank n attrs) by done. cbn [mbind option_bind].
  rewrite feed_app, feed_tag_blanks by done. cbn [mbind option_bind].
  destruct k as [|d k]; [done|]. cbn [forallb] in Hkc. apply andb_true_iff in Hkc as [Hd Hkc].
  cbn [app feed step].
  assert (Hdw : xml_ws d = false).
  { destruct (xml_ws d) eqn:E; [|done]. by rewrite (xml_ws_not_name d E) in Hd. }
  rewrite Hdw, Hd. cbn [mbind option_bind]. rewrite feed_app, feed_attr_name by done.
  cbn [mbind option_bind app]. feed_chars.
  rewrite feed_app, (feed_value _ _ _ _ _ v) by done. cbn [mbind option_bind].
  feed_chars. rewrite app_nil_r, rev_involutive. destruct Hv as [_ Hv].
  rewrite Hv. cbn [mbind option_bind]. rewrite rev_app_distr, rev_involutive.
  cbn [rev app]. by rewrite bool_decide_eq_false_2.
Qed.

Lemma feed_attrs_rest sep n done_ a m stk :
  sep <> [] -> forallb xml_ws sep = true -> NoDup (a.*1 ++ done_.*1) -> Forall name_ok a.*1 ->
  Forall (fun v => spells (escape v) v) a.*2 -> ready n done_ m ->
  exists m', ready n (rev a ++ done_) m' /\
    feed (concat (map (print_attr escape sep) a)) (m, stk) = Some (m', stk).
Proof.
  intros Hsep Hws. revert done_ m. induction a as [|[k v] a IH]; intros done_ m Hnd Hk Hv Hm.
  { exists m. done. }
  cbn in Hnd, Hk, Hv. apply NoDup_cons in Hnd as [Hnew Hnd].
  apply Forall_cons in Hk as [Hk1 Hk]. apply Forall_cons in Hv as [Hv1 Hv].
  cbn [map concat]. rewrite feed_app, (feed_attr sep n done_ m) by (done || set_solver).
  cbn [mbind option_bind]. destruct (IH ((k, v) :: done_) (MAfter n ((k, v) :: done_))) as (m' & Hm' & Hf).
  - cbn. rewrite <- Permutation_middle. by constructor.
  - done.
  - done.
  - by left.
  - exists m'. split; [|done]. cbn [rev]. by rewrite <- app_assoc.
Qed.

Lemma feed_attrs sep n a stk :
  sep <> [] -> forallb xml_ws sep = true -> attrs_ok a ->
  Forall (fun v => spells (escape v) v) a.*2 ->
  exists m', ready n (rev a) m' /\ feed (print_attrs escape sep a) (MName n, stk) = Some (m', stk).
Proof.
  intros Hsep Hws [Hnd Hk] Hv. destruct a as [|[k v] a]; [exists (MName n); by split; [right|]|].
  cbn in Hnd, Hk, Hv. apply NoDup_cons in Hnd as [Hnew Hnd].
  apply Forall_cons in Hk as [Hk1 Hk]. apply Forall_cons in Hv as [Hv1 Hv].
  unfold print_attrs. rewrite feed_app, (feed_attr _ n []) by (done || set_solver || by right).
  cbn [mbind option_bind].
  destruct (feed_attrs_rest sep n [(k, v)] a (MAfter n [(k, v)]) stk) as (m' & Hm' & Hf); try done.
  - cbn. rewrite <- Permutation_middle, app_nil_r. by constructor.
  - by left.
  - by exists m'.
Qed.

(** The start of a tag, up to its closing bracket. *)
Lemma feed_open t i sep n a f stk rest :
  forallb xml_ws t = true -> sep <> [] -> forallb xml_ws sep = true -> name_ok n -> attrs_ok a ->
  Forall (fun v => spells (escape v) v) a.*2 ->
  exists m, ready (rev n) (rev a) m /\
    feed (indent i ++ [c_lt] ++ n ++ print_attrs escape sep a ++ rest) (MText t, f :: stk)
      = feed rest (m, f :: stk).
Proof.
  intros Ht Hsep Hws [Hn Hnc] Ha Hv.
  destruct (feed_attrs sep (rev n) a (f :: stk) Hsep Hws Ha Hv) as (m & Hm & Hf). exists m. split; [done|].
  assert (Hi : forallb xml_ws (indent i) = true) by (unfold indent; induction i; done).
  rewrite feed_app, feed_blanks by done. cbn [mbind option_bind app feed step].
  change (c_lt =? c_lt) with true. cbn [mbind option_bind].
  destruct n as [|c n]; [done|]. cbn [forallb] in Hnc. apply andb_true_iff in Hnc as [Hc Hnc].
  cbn [app feed step].
  assert (Hcs : (c =? c_slash) = false) by (destruct (Z.eqb_spec c c_slash) as [->|]; done).
  assert (Hcq : (c =? 63) = false) by (destruct (Z.eqb_spec c 63) as [->|]; done).
  rewrite Hcs, Hcq, Hc. unfold text_before.
  rewrite forallb_app, Ht, forallb_rev, Hi by done. cbn [andb mbind option_bind].
  rewrite feed_app, feed_name by done. cbn [mbind option_bind].
  rewrite feed_app. change (rev n ++ [c]) with (rev (c :: n)). rewrite Hf. done.
Qed.
End printed.

(** [s] reads as the elements [ts] wherever an element may stand. *)
Definition reads (s : str) (ts : list xml) : Prop :=
  forall t n a kids stk, forallb xml_ws t = true -> exists t', forallb xml_ws t' = true /\
    feed s (MText t, (n, a, kids) :: stk) = Some (MText t', (n, a, rev ts ++ kids) :: stk).

Lemma reads_nil : reads [] [].
Proof. intros t n a kids stk Ht. by exists t. Qed.

Lemma reads_app s1 ts1 s2 ts2 : reads s1 ts1 -> reads s2 ts2 -> reads (s1 ++ s2) (ts1 ++ ts2).
Proof.
  intros H1 H2 t n a kids stk Ht. destruct (H1 t n a kids stk Ht) as (t1 & Ht1 & E1).
  destruct (H2 t1 n a (rev ts1 ++ kids) stk Ht1) as (t2 & Ht2 & E2). exists t2. split; [done|].
  rewrite feed_app, E1. cbn [mbind option_bind]. by rewrite E2, rev_app_distr, app_assoc.
Qed.

Lemma reads_concat {A} (f : A -> str) (g : A -> xml) l :
  Forall (fun x => reads (f x) [g x]) l -> reads (concat (map f l)) (map g l).
Proof.
  induction 1 as [|x l Hx _ IH]; [apply reads_nil|].
  apply (reads_app _ [g x] _ (map g l)); done.
Qed.

Lemma indent_ws i : forallb xml_ws (indent i) = true.
Proof. unfold indent. by induction i. Qed.

(** The end tag of the element on top of the stack. *)
Lemma feed_end_tag t n a kids kids' f stk :
  name_ok n -> close_kids t kids = Some kids' ->
  feed (c_lt :: c_slash :: n ++ [c_gt; c_nl]) (MText t, (n, a, kids) :: f :: stk)
    = Some (MText [c_nl], add_kid (Elem n a kids') (f :: stk)).
Proof.
  intros [_ Hn] Hk. feed_chars. rewrite feed_app, feed_close_name by done.
  cbn [mbind option_bind]. feed_chars. rewrite app_nil_r, rev_involutive. unfold str_eqb.
  rewrite bool_decide_eq_true_2 by done. rewrite Hk. cbn [mbind option_bind]. by feed_chars.
Qed.

Lemma close_kids_ws t kids : forallb xml_ws t = true -> kids <> [] -> close_kids t kids = Some (rev kids).
Proof. intros Ht Hk. unfold close_kids. rewrite Ht. by destruct t, kids. Qed.

Lemma unescape_from_nonempty p w : w <> [] \/ p <> None -> unescape_from p w <> Some [].
Proof.
  revert p. induction w as [|c w IH]; intros p; [intros [?|?]; by destruct p|]. intros _. cbn.
  destruct p as [e|]; case_match.
  - destruct (entity (rev e)); cbn; [|done]. by destruct (unescape_from None w).
  - apply IH. by right.
  - apply IH. by right.
  - by destruct (unescape_from None w).
Qed.

Lemma close_kids_text w s :
  spells w s -> close_kids (rev w) [] = Some (match s with [] => [] | _ => [Txt s] end).
Proof.
  intros [_ Hs]. destruct w as [|c w].
  - injection Hs as <-. done.
  - unfold close_kids. destruct (rev (c :: w)) as [|d r] eqn:E; [by apply (f_equal length) in E; rewrite length_rev in E|].
    rewrite <- E, rev_involutive, Hs. cbn [mbind option_bind]. destruct s; [|done].
    destruct (unescape_from_nonempty None (c :: w)); [by left|done].
Qed.

Section printed.
  Context (escape : str -> str).

Fixpoint texts (l : layout) : list str :=
  match l with
  | Void _ a => a.*2
  | Leaf _ a s => s :: a.*2
  | Block _ _ a kids => a.*2 ++ concat (map texts kids)
  end.

Lemma reads_print l i :
  layout_ok l -> Forall (fun v => spells (escape v) v) (texts l) -> reads (print escape i l) [tree i l].
Proof.
  revert l i. fix IH 3. intros l i Hl. destruct Hl as [n a Hn Ha|n a s Hn Ha|sep n a kids Hs Hws Hn Ha Hkids];
    cbn [texts print tree]; intros Hv t p b ks stk Ht.
  - destruct (feed_open escape t i [c_space] n a (p, b, ks) stk [c_slash; c_gt; c_nl])
      as (m & Hm & ->); try done. cbn [feed]. rewrite (ready_end _ _ _ _ _ Hm) by tauto.
    unfold tag_end. feed_chars. exists [c_nl]. cbn. by rewrite !rev_involutive.
  - apply Forall_cons in Hv as [Hv1 Hv].
    destruct (feed_open escape t i [c_space] n a (p, b, ks) stk
      ([c_gt] ++ escape s ++ [c_lt; c_slash] ++ n ++ [c_gt; c_nl])) as (m & Hm & ->); try done.
    cbn [app feed]. rewrite (ready_end _ _ _ _ _ Hm) by tauto. unfold tag_end. feed_chars.
    rewrite feed_app, (feed_text _ _ s) by done. cbn [mbind option_bind]. rewrite app_nil_r, !rev_involutive.
    exists [c_nl]. split; [done|].
    by rewrite (feed_end_tag _ _ _ _ _ _ _ Hn (close_kids_text _ _ Hv1)).
  - apply Forall_app in Hv as [Hv1 Hv].
    destruct (feed_open escape t i sep n a (p, b, ks) stk ([c_gt; c_nl]
      ++ concat (map (print escape (2 + i)) kids) ++ indent i ++ [c_lt; c_slash] ++ n ++ [c_gt; c_nl]))
      as (m & Hm & ->); try done.
    cbn [app feed]. rewrite (ready_end _ _ _ _ _ Hm) by tauto. unfold tag_end. feed_chars.
    rewrite !rev_involutive. destruct kids as [|k0 kids0] eqn:Ekids.
    + cbn [map concat app]. rewrite feed_app, feed_blanks by apply indent_ws.
      cbn [mbind option_bind]. exists [c_nl]. split; [done|].
      erewrite feed_end_tag; [done|done|]. unfold close_kids, indent.
      destruct (rev (replicate i c_space) ++ [c_nl]) as [|d r] eqn:E;
        [apply (f_equal length) in E; rewrite length_app in E; cbn in E; lia|].
      rewrite <- E, rev_app_distr, rev_involutive. cbn [rev app].
      assert (Hp : forall k, unescape_from None (replicate k c_space) = Some (replicate k c_space)).
      { induction k as [|k IHk]; [done|]. cbn. by rewrite IHk. }
      unfold unescape. cbn [unescape_from]. change (c_nl =? c_amp) with false. cbv iota.
      by rewrite Hp.
    + rewrite <- Ekids in *.
      assert (Hread : reads (concat (map (print escape (2 + i)) kids)) (map (tree (2 + i)) kids)).
      { apply reads_concat. clear Ekids. induction Hkids as [|x l Hx _ IHl]; [done|].
        cbn [map concat] in Hv. apply Forall_app in Hv as [Hv2 Hv]. constructor; [by apply IH|by apply IHl]. }
      destruct (Hread [c_nl] n a [] ((p, b, ks) :: stk) eq_refl) as (t1 & Ht1 & E1).
      rewrite feed_app, E1. cbn [mbind option_bind]. rewrite feed_app, feed_blanks by apply indent_ws.
      cbn [mbind option_bind]. exists [c_nl]. split; [done|].
      erewrite feed_end_tag; [|done|].
      2: { apply close_kids_ws; [by rewrite forallb_app, forallb_rev, indent_ws|]. subst kids.
           intros E%(f_equal length). rewrite length_app, length_rev in E. cbn in E. lia. }
      rewrite app_nil_r, rev_involutive. by subst kids.
Qed.
End printed.

(** ** Legal characters

    The characters a document may have in it: the production [Char]. *)
Definition xml_char (c : Z) : bool :=
  (c =? 9) || (c =? 10) || (c =? 13) || in_range 32 55295 c || in_range 57344 65533 c
  || in_range 65536 1114111 c.

Definition xml_chars (s : str) : bool := forallb xml_char s.

Lemma xml_chars_app a b : xml_chars (a ++ b) = xml_chars a && xml_chars b.
Proof. apply forallb_app. Qed.

Lemma xml_chars_impl (f : Z -> bool) s :
  (forall c, f c = true -> xml_char c = true) -> forallb f s = true -> xml_chars s = true.
Proof.
  unfold xml_chars. rewrite !forallb_forall. intros Hf Hs c Hc. by apply Hf, Hs.
Qed.

Lemma name_xml_chars n : forallb name_char n = true -> xml_chars n = true.
Proof.
  apply xml_chars_impl. intros c. unfold name_char, is_ascii_upper, is_ascii_lower, is_ascii_digit, in_range,
    xml_char, in_range. lia.
Qed.

Lemma blank_xml_chars w : forallb xml_ws w = true -> xml_chars w = true.
Proof. apply xml_chars_impl. intros c. unfold xml_ws, xml_char, in_range. lia. Qed.

Lemma indent_xml_chars i : xml_chars (indent i) = true.
Proof. apply blank_xml_chars, indent_ws. Qed.

(** A printed layout is made of legal characters exactly when its texts are. *)
Section legal.
  Context (escape : str -> str).
  Hypothesis Hescape : forall v, xml_chars (escape v) = xml_chars v.

Lemma print_attr_chars sep kv : xml_chars sep = true -> name_ok kv.1 ->
  xml_chars (print_attr escape sep kv) = xml_chars kv.2.
Proof.
  intros Hs [_ Hn%name_xml_chars]. unfold print_attr. rewrite !xml_chars_app, Hs, Hn, Hescape.
  cbn. by rewrite andb_true_r.
Qed.

Lemma print_attrs_chars sep a : xml_chars sep = true -> attrs_ok a ->
  xml_chars (print_attrs escape sep a) = forallb xml_chars a.*2.
Proof.
  intros Hs [_ Ha]. unfold print_attrs. destruct a as [|kv a]; [done|].
  cbn [fmap list_fmap forallb] in *. apply Forall_cons in Ha as [Hkv Ha].
  rewrite xml_chars_app, print_attr_chars by done. f_equal.
  induction a as [|x a IH]; [done|]. cbn [map concat fmap list_fmap forallb] in *.
  apply Forall_cons in Ha as [Hx Ha]. by rewrite xml_chars_app, print_attr_chars, IH.
Qed.

Lemma print_chars l i :
  layout_ok l -> xml_chars (print escape i l) = forallb xml_chars (texts l).
Proof.
  revert l i. fix IH 3. intros l i Hl. destruct Hl as [n a Hn Ha|n a s Hn Ha|sep n a kids Hs Hws Hn Ha Hkids];
    pose proof (name_xml_chars n (proj2 Hn)) as Hc; cbn [texts print forallb].
  - rewrite !xml_chars_app, indent_xml_chars, Hc, print_attrs_chars by done. cbn. by rewrite andb_true_r.
  - rewrite !xml_chars_app, indent_xml_chars, Hc, Hescape, print_attrs_chars by done.
    cbn. rewrite andb_true_r. apply andb_comm.
  - rewrite !xml_chars_app, !indent_xml_chars, Hc, print_attrs_chars by (done || by apply blank_xml_chars).
    assert (Hk : xml_chars (concat (map (print escape (2 + i)) kids))
                 = forallb xml_chars (concat (map texts kids))).
    { induction Hkids as [|x l Hx _ IHl]; [done|]. cbn [map concat].
      by rewrite xml_chars_app, forallb_app, IH, IHl. }
    rewrite Hk, forallb_app. cbn. by rewrite !andb_true_r.
Qed.
End legal.
