(* ===== verification/OvfSpec.v ===== *)
(** * OvfSpec: the OVF descriptor is a document that describes the machine

    The text [build] returns is read back with the XML reader of [Xml]: it is
    well formed, says what the configuration says, its references resolve, and
    its characters are legal when the texts of the configuration are. *)
From S2P Require Export Xml Ovf.

(** ** Escaping *)

Lemma replace_char_app c w a b : replace_char c w (a ++ b) = replace_char c w a ++ replace_char c w b.
Proof. unfold replace_char. apply bind_app. Qed.

Lemma escape_xml_app a b : escape_xml (a ++ b) = escape_xml a ++ escape_xml b.
Proof. unfold escape_xml. by rewrite !replace_char_app. Qed.

(** Not one of the five characters [escape_xml] replaces. *)
Definition plain_char (c : Z) : bool :=
  negb (c =? c_amp) && negb (c =? c_lt) && negb (c =? c_gt) && negb (c =? c_dquote) && negb (c =? c_apos).

Definition xml_plain (s : str) : Prop := forallb plain_char s = true.

Lemma escape_char_plain c : plain_char c = true -> escape_xml [c] = [c].
Proof.
  unfold plain_char. rewrite !andb_true_iff, !negb_true_iff. intros ((((H1 & H2) & H3) & H4) & H5).
  unfold escape_xml, replace_char. cbn. rewrite H1. cbn. rewrite H2. cbn. rewrite H3. cbn.
  rewrite H4. cbn. by rewrite H5.
Qed.

Lemma escape_plain s : xml_plain s -> escape_xml s = s.
Proof.
  unfold xml_plain. induction s as [|c s IH]; [done|]. cbn [forallb]. intros [Hc Hs]%andb_true_iff.
  change (c :: s) with ([c] ++ s). by rewrite escape_xml_app, escape_char_plain, IH.
Qed.

Lemma spells_app a x b y : spells a x -> spells b y -> spells (a ++ b) (x ++ y).
Proof.
  intros [Ha Ux] [Hb Uy]. split; [by rewrite forallb_app, Ha, Hb|].
  assert (Hgen : forall p, unescape_from p a = Some x -> unescape_from p (a ++ b) = Some (x ++ y));
    [|by apply Hgen].
  clear Ha Ux. revert x. induction a as [|c a IH]; intros x p; cbn.
  - destruct p; [done|]. intros [= <-]. done.
  - destruct p as [e|]; case_match; try by apply IH.
    + destruct (entity (rev e)) as [d|]; [|done]. cbn.
      destruct (unescape_from None a) eqn:E; [|done]. intros [= <-]. by rewrite (IH _ _ E).
    + destruct (unescape_from None a) eqn:E; [|done]. intros [= <-]. by rewrite (IH _ _ E).
Qed.

Lemma spells_escape_char c : spells (escape_xml [c]) [c].
Proof.
  destruct (plain_char c) eqn:E.
  - rewrite escape_char_plain by done. unfold plain_char in E.
    rewrite !andb_true_iff, !negb_true_iff in E. destruct E as ((((H1 & H2) & H3) & H4) & H5).
    unfold spells, unescape. cbn. by rewrite H1, H2, H4.
  - unfold plain_char in E. rewrite !andb_false_iff, !negb_false_iff, !Z.eqb_eq in E.
    destruct E as [[[[-> | ->]| ->]| ->]| ->]; done.
Qed.

(** Whatever the text, its escaped form is a spelling of it. *)
Lemma spells_escape s : spells (escape_xml s) s.
Proof.
  induction s as [|c s IH]; [done|]. change (c :: s) with ([c] ++ s). rewrite escape_xml_app.
  apply spells_app; [apply spells_escape_char|done].
Qed.

(** Escaping neither adds an illegal character nor takes one away. *)
Lemma escape_xml_chars s : xml_chars (escape_xml s) = xml_chars s.
Proof.
  induction s as [|c s IH]; [done|]. change (c :: s) with ([c] ++ s). rewrite escape_xml_app, !xml_chars_app, IH.
  f_equal. destruct (plain_char c) eqn:E; [by rewrite escape_char_plain|].
  unfold plain_char in E. rewrite !andb_false_iff, !negb_false_iff, !Z.eqb_eq in E.
  by destruct E as [[[[-> | ->]| ->]| ->]| ->].
Qed.

Lemma show_fuel_plain fuel n : 0 <= n -> xml_plain (show_fuel fuel 10 n).
Proof.
  assert (Hd : forall d, 0 <= d < 10 -> plain_char (digit_char d) = true).
  { intros d Hd. assert (d = 0 \/ d = 1 \/ d = 2 \/ d = 3 \/ d = 4 \/ d = 5 \/ d = 6 \/ d = 7
      \/ d = 8 \/ d = 9) as Hc by lia.
    by repeat destruct Hc as [->|Hc]; [..|subst d]. }
  revert n. unfold xml_plain. induction fuel as [|fuel IH]; intros n Hn; [done|]. cbn [show_fuel].
  destruct (Z.ltb_spec n 10); [cbn; by rewrite Hd by lia|].
  rewrite forallb_app, IH by (apply Z.div_pos; lia). cbn [forallb andb].
  by rewrite Hd by (apply Z.mod_pos_bound; lia).
Qed.

Lemma escape_show n : 0 <= n -> escape_xml (show_dec n) = show_dec n.
Proof. intros. by apply escape_plain, show_fuel_plain. Qed.

(** ** The document as a layout *)

Section layout.
  Context `{UnicodeTables} (c : VmxConfig) (disks : list DiskInfo).

Definition ovf_file (i : nat) (d : DiskInfo) : layout :=
  Void (lit "ovf:File") [
    (lit "ovf:href", match vc_disks c !! i with Some k => dc_file_name k | None => lit "disk.vmdk" end);
    (lit "ovf:id", di_file_ref d); (lit "ovf:size", show_dec (di_file_size_bytes d))].

Definition ovf_disk (d : DiskInfo) : layout :=
  Void (lit "ovf:Disk") [
    (lit "ovf:capacity", show_dec (di_capacity_bytes d)); (lit "ovf:capacityAllocationUnits", lit "byte");
    (lit "ovf:diskId", di_id d); (lit "ovf:fileRef", di_file_ref d);
    (lit "ovf:format", lit "http://www.vmware.com/interfaces/specifications/vmdk.html#streamOptimized")].

Definition block (name : string) : list (str * str) -> list layout -> layout := Block [c_space] (lit name).
Definition leaf (name : string) (s : str) : layout := Leaf (lit name) [] s.

Definition network_label (n : NetworkConfig) : str := default (lit "VM Network") (nc_network_name n).

Definition ovf_network (name description : str) : layout :=
  block "ovf:Network" [(lit "ovf:name", name)] [leaf "ovf:Description" description].

Definition ovf_networks : list layout :=
  if bool_decide (vc_networks c = []) then [ovf_network (lit "VM Network") (lit "The VM Network")]
  else map (fun n => ovf_network (network_label n) (lit "The " ++ network_label n ++ lit " network"))
         (vc_networks c).

Definition item (fields : list (string * str)) : layout :=
  block "ovf:Item" [] (map (fun f => leaf f.1 f.2) fields).

Definition system_item : layout :=
  block "ovf:System" [] [
    leaf "vssd:ElementName" (lit "Virtual Hardware Family"); leaf "vssd:InstanceID" (lit "0");
    leaf "vssd:VirtualSystemIdentifier" (vc_display_name c); leaf "vssd:VirtualSystemType" (lit "vmx-21")].

Definition cpu_item : layout :=
  item [("rasd:AllocationUnits"%string, lit "hertz * 10^6"); ("rasd:Description"%string, lit "Number of Virtual CPUs");
        ("rasd:ElementName"%string, lit "CPU"); ("rasd:InstanceID"%string, lit "1");
        ("rasd:ResourceType"%string, lit "3"); ("rasd:VirtualQuantity"%string, show_dec (vc_num_cpus c))].

Definition memory_item : layout :=
  item [("rasd:AllocationUnits"%string, lit "byte * 2^20"); ("rasd:Description"%string, lit "Memory Size");
        ("rasd:ElementName"%string, lit "Memory"); ("rasd:InstanceID"%string, lit "2");
        ("rasd:ResourceType"%string, lit "4"); ("rasd:VirtualQuantity"%string, show_dec (vc_memory_mb c))].

Definition scsi_item : layout :=
  item [("rasd:Address"%string, lit "0"); ("rasd:Description"%string, lit "SCSI Controller");
        ("rasd:ElementName"%string, lit "SCSI Controller 0"); ("rasd:InstanceID"%string, lit "3");
        ("rasd:ResourceSubType"%string, lit "lsilogic"); ("rasd:ResourceType"%string, lit "6")].

Definition disk_item (i : nat) (d : DiskInfo) : layout :=
  let index := Z.of_nat i in
  item [("rasd:AddressOnParent"%string, show_dec index); ("rasd:Description"%string, lit "Hard Disk");
        ("rasd:ElementName"%string, lit "Hard Disk " ++ show_dec (index + 1));
        ("rasd:HostResource"%string, lit "ovf:/disk/" ++ di_id d);
        ("rasd:InstanceID"%string, show_dec (4 + index)); ("rasd:Parent"%string, lit "3");
        ("rasd:ResourceType"%string, lit "17")].

Definition adapter_item (i : nat) (connection adapter : str) : layout :=
  let index := Z.of_nat i in
  item [("rasd:AddressOnParent"%string, lit "0"); ("rasd:AutomaticAllocation"%string, lit "true");
        ("rasd:Connection"%string, connection); ("rasd:Description"%string, lit "Network Adapter");
        ("rasd:ElementName"%string, lit "Network Adapter " ++ show_dec (index + 1));
        ("rasd:InstanceID"%string, show_dec (4 + zlen (vc_disks c) + index));
        ("rasd:ResourceSubType"%string, adapter); ("rasd:ResourceType"%string, lit "10")].

Definition adapter_items : list layout :=
  if bool_decide (vc_networks c = []) then [adapter_item 0 (lit "VM Network") (lit "E1000")]
  else imap (fun i n => adapter_item i (network_label n) (default (lit "E1000") (nc_virtual_dev n)))
         (vc_networks c).

Definition hardware : layout :=
  block "ovf:VirtualHardwareSection" []
    ([leaf "ovf:Info" (lit "Virtual hardware requirements"); system_item; cpu_item; memory_item; scsi_item]
     ++ imap disk_item disks ++ adapter_items).

Definition os_section : layout :=
  block "ovf:OperatingSystemSection"
    [(lit "ovf:id", show_dec (map_guest_os (vc_guest_os c)).1);
     (lit "vmw:osType", (map_guest_os (vc_guest_os c)).2)]
    [leaf "ovf:Info" (lit "The guest operating system"); leaf "ovf:Description" (vc_guest_os c)].

Definition ovf_layout : layout :=
  Block (c_nl :: indent 4) (lit "ovf:Envelope") [
    (lit "xmlns:ovf", lit "http://schemas.dmtf.org/ovf/envelope/1");
    (lit "xmlns:rasd", lit "http://schemas.dmtf.org/wbem/wscim/1/cim-schema/2/CIM_ResourceAllocationSettingData");
    (lit "xmlns:vssd", lit "http://schemas.dmtf.org/wbem/wscim/1/cim-schema/2/CIM_VirtualSystemSettingData");
    (lit "xmlns:vmw", lit "http://www.vmware.com/schema/ovf");
    (lit "xmlns:xsi", lit "http://www.w3.org/2001/XMLSchema-instance")]
  [block "ovf:References" [] (imap ovf_file disks);
   block "ovf:DiskSection" [] (leaf "ovf:Info" (lit "Virtual disk information") :: map ovf_disk disks);
   block "ovf:NetworkSection" [] (leaf "ovf:Info" (lit "Network configuration") :: ovf_networks);
   block "ovf:VirtualSystem" [(lit "ovf:id", sanitize_id (vc_display_name c))]
     [leaf "ovf:Info" (lit "A virtual machine"); leaf "ovf:Name" (vc_display_name c); os_section; hardware]].

(** The tree of elements a reader of the descriptor sees. *)
Definition ovf_tree : xml := tree 0 ovf_layout.
End layout.

(** ** The text is the layout, printed *)

(** The pieces of a template around its holes, and filling the holes. *)
Fixpoint pieces (t : str) : list str :=
  match t with
  | 123 :: 125 :: t' => [] :: pieces t'
  | c :: t' => match pieces t' with p :: ps => (c :: p) :: ps | [] => [[c]] end
  | [] => [[]]
  end.

Fixpoint weave (ps args : list str) : str :=
  match ps with
  | [] => []
  | [p] => p
  | p :: ps' => p ++ hd [] args ++ weave ps' (tl args)
  end.

Lemma weave_cons c p ps args : weave ((c :: p) :: ps) args = c :: weave (p :: ps) args.
Proof. by destruct ps. Qed.

Lemma pieces_cons c t : c <> 123 ->
  pieces (c :: t) = match pieces t with p :: ps => (c :: p) :: ps | [] => [[c]] end.
Proof.
  intros Hc. cbn [pieces]. destruct c as [|p|p]; [done| |done].
  do 7 (destruct p as [p|p|]; try done).
Qed.

Lemma pieces_nonempty t : pieces t <> [].
Proof.
  destruct t as [|c t]; [done|]. cbn [pieces]. destruct (pieces t); repeat case_match; done.
Qed.

Lemma pieces_brace d t : d <> 125 ->
  pieces (123 :: d :: t)
    = match pieces (d :: t) with p :: ps => (123 :: p) :: ps | [] => [[123]] end /\
  forall args, fmt (123 :: d :: t) args = 123 :: fmt (d :: t) args.
Proof.
  intros Hd. destruct d as [|p|p]; [done| |done]. do 7 (destruct p as [p|p|]; try done).
Qed.

Lemma fmt_weave_n n t args : (length t <= n)%nat -> fmt t args = weave (pieces t) args.
Proof.
  revert t args. induction n as [|n IH]; intros t args Hn; [by destruct t; cbn in Hn; [|lia]|].
  destruct t as [|c t]; [done|]. cbn [length] in Hn.
  assert (Hcons : fmt (c :: t) args = c :: fmt t args ->
    pieces (c :: t) = match pieces t with p :: ps => (c :: p) :: ps | [] => [[c]] end ->
    fmt (c :: t) args = weave (pieces (c :: t)) args).
  { intros -> ->. rewrite IH by lia. destruct (pieces t) as [|p ps] eqn:E; [by apply pieces_nonempty in E|].
    by rewrite weave_cons. }
  destruct (decide (c = 123)) as [->|Hc]; [|apply Hcons; [by apply fmt_cons|by apply pieces_cons]].
  destruct t as [|d t]; [done|]. destruct (decide (d = 125)) as [->|Hd].
  - cbn [pieces fmt]. destruct (pieces t) as [|p ps] eqn:E; [by apply pieces_nonempty in E|].
    cbn [weave app]. destruct args as [|a args]; cbn [hd tl]; rewrite IH, E by (cbn in Hn; lia); done.
  - destruct (pieces_brace d t Hd) as [H1 H2]. by apply Hcons.
Qed.

Lemma fmt_weave t args : fmt t args = weave (pieces t) args.
Proof. by apply (fmt_weave_n (length t)). Qed.

(** Two texts put together from the same pieces. *)
Ltac same_text :=
  unfold OvfBuilder_new; cbn [print print_attrs map concat ob_config]; unfold print_attr; cbn [fst snd];
  rewrite ?fmt_weave;
  repeat match goal with
    |- context [pieces ?t] => let p := eval vm_compute in (pieces t) in change (pieces t) with p
  end;
  cbn [weave hd tl]; rewrite ?escape_xml_app, ?escape_show by lia;
  rewrite <- ?app_assoc;
  repeat match goal with
    |- context [escape_xml (lit ?s)] =>
      let v := eval vm_compute in (escape_xml (lit s)) in change (escape_xml (lit s)) with v
  end;
  repeat match goal with
  | |- context [escape_xml ?x] => generalize (escape_xml x)
  | |- context [show_dec ?n] => generalize (show_dec n)
  end;
  intros; vm_compute; reflexivity.

Section printed.
  Context `{UnicodeTables} (c : VmxConfig) (disks : list DiskInfo).
  Abbreviation pr := (print escape_xml).

(** The text the descriptor is put together from. *)
Record printable : Prop := {
  pr_cpus : 0 <= vc_num_cpus c;
  pr_memory : 0 <= vc_memory_mb c;
  pr_names : Forall (fun d => xml_plain (dc_file_name d)) (vc_disks c);
  pr_disks : Forall (fun d => xml_plain (di_file_ref d) /\ 0 <= di_capacity_bytes d
                              /\ 0 <= di_file_size_bytes d) disks;
}.

Hypothesis Hp : printable.

Abbreviation b := (OvfBuilder_new c).

Lemma print_cpu_item : build_cpu_item b = pr 6 (cpu_item c).
Proof. destruct Hp. unfold build_cpu_item, cpu_item, item, block, leaf. same_text. Qed.

Lemma print_memory_item : build_memory_item b = pr 6 (memory_item c).
Proof. destruct Hp. unfold build_memory_item, memory_item, item, block, leaf. same_text. Qed.

Lemma print_system_item : build_system_item b = pr 6 (system_item c).
Proof. unfold build_system_item, system_item, block, leaf. same_text. Qed.

Lemma print_scsi_item : build_scsi_controller = pr 6 scsi_item.
Proof. vm_compute. reflexivity. Qed.

Lemma print_disk_item i d : build_disk_item i d = pr 6 (disk_item i d).
Proof. unfold build_disk_item, disk_item, item, block, leaf. cbv zeta. same_text. Qed.

Lemma print_adapter_item i n : vc_networks c !! i = Some n ->
  build_network_item b i
    = Ok (pr 6 (adapter_item c i (network_label n) (default (lit "E1000") (nc_virtual_dev n)))).
Proof.
  intros Hn. unfold build_network_item. cbn [ob_config OvfBuilder_new]. rewrite Hn. cbv zeta. f_equal.
  fold (network_label n). unfold adapter_item, item, block, leaf. cbv zeta.
  pose proof (zlen_nonneg (vc_disks c)).
  generalize (network_label n), (default (lit "E1000") (nc_virtual_dev n)). intros x y. same_text.
Qed.

Lemma print_default_adapter :
  build_default_network_item b = pr 6 (adapter_item c 0 (lit "VM Network") (lit "E1000")).
Proof.
  unfold build_default_network_item, adapter_item, item, block, leaf. cbv zeta.
  change (Z.of_nat 0) with 0. change (show_dec (0 + 1)) with (lit "1"). rewrite Z.add_0_r. pose proof (zlen_nonneg (vc_disks c)). same_text.
Qed.

Lemma print_file i d : xml_plain (di_file_ref d) -> 0 <= di_file_size_bytes d ->
  Forall (fun d => xml_plain (dc_file_name d)) (vc_disks c) ->
  reference_entry b i d = pr 4 (ovf_file c i d).
Proof.
  intros Hr Hs Hn. unfold reference_entry, ovf_file. cbv zeta. cbn [ob_config OvfBuilder_new].
  set (name := match vc_disks c !! i with Some d => dc_file_name d | None => _ end).
  assert (Hname : xml_plain name).
  { unfold name. destruct (vc_disks c !! i) eqn:E; [|done]. rewrite Forall_lookup in Hn. by eapply Hn. }
  clearbody name. cbn [print print_attrs map concat]. unfold print_attr. cbn [fst snd].
  rewrite !(escape_plain name), !(escape_plain (di_file_ref d)), !escape_show by done.
  generalize (di_file_ref d). intros. same_text.
Qed.

Lemma print_disk d : xml_plain (di_file_ref d) -> 0 <= di_capacity_bytes d ->
  disk_entry d = pr 4 (ovf_disk d).
Proof.
  intros Hr Hs. unfold disk_entry, ovf_disk. cbn [print print_attrs map concat]. unfold print_attr. cbn [fst snd].
  rewrite !(escape_plain (di_file_ref d)), !escape_show by done.
  generalize (di_file_ref d). intros. same_text.
Qed.

Lemma print_network n :
  network_entry n = pr 4 (ovf_network (network_label n) (lit "The " ++ network_label n ++ lit " network")).
Proof.
  unfold network_entry, ovf_network, block, leaf. cbv zeta. fold (network_label n).
  generalize (network_label n). intros. same_text.
Qed.

Lemma guest_os_plain g : 0 <= (map_guest_os g).1 /\ xml_plain (map_guest_os g).2.
Proof.
  unfold map_guest_os. cbv zeta. destruct (find _ _) as [[ns [i o]]|] eqn:E; [|done].
  apply find_some in E as [E _]. cbn [fst snd].
  assert (Hall : Forall (fun arm => 0 <= arm.2.1 /\ xml_plain (lit arm.2.2)) guest_os_arms).
  { unfold guest_os_arms. repeat constructor; cbn; try lia. }
  rewrite List.Forall_forall in Hall. by apply (Hall _ E).
Qed.

Lemma print_os_section : build_os_section b = pr 4 (os_section c).
Proof.
  unfold build_os_section, os_section, block, leaf. cbn [ob_config OvfBuilder_new].
  destruct (guest_os_plain (vc_guest_os c)) as [Hi Ho]. destruct (map_guest_os _) as [i o]. cbn [fst snd] in *.
  cbn [print print_attrs map concat]. unfold print_attr. cbn [fst snd]. rewrite !(escape_plain o) by done. same_text.
Qed.

Lemma print_references :
  build_references b disks = pr 2 (block "ovf:References" [] (imap (ovf_file c) disks)).
Proof.
  assert (Heq : imap (reference_entry b) disks = map (pr 4) (imap (ovf_file c) disks)).
  { rewrite map_imap. apply imap_ext. intros i d Hd. destruct Hp as [_ _ Hn Hds].
    rewrite Forall_lookup in Hds. destruct (Hds _ _ Hd) as (Hr & _ & Hs). by apply print_file. }
  unfold build_references, block. rewrite Heq. cbn [print Nat.add].
  generalize (concat (map (pr 4) (imap (ovf_file c) disks))). intros. same_text.
Qed.

Lemma print_disk_section :
  build_disk_section disks
    = pr 2 (block "ovf:DiskSection" [] (leaf "ovf:Info" (lit "Virtual disk information") :: map ovf_disk disks)).
Proof.
  assert (Heq : map disk_entry disks = map (pr 4) (map ovf_disk disks)).
  { rewrite map_map. apply map_ext_Forall. destruct Hp as [_ _ _ Hds].
    eapply Forall_impl; [exact Hds|]. intros d (Hr & Hs & _). by apply print_disk. }
  unfold build_disk_section, block. rewrite Heq. cbn [print Nat.add map concat].
  generalize (concat (map (pr 4) (map ovf_disk disks))). intros. same_text.
Qed.

Lemma print_network_section :
  build_network_section b
    = pr 2 (block "ovf:NetworkSection" []
              (leaf "ovf:Info" (lit "Network configuration") :: ovf_networks c)).
Proof.
  unfold build_network_section, ovf_networks. cbn [ob_config OvfBuilder_new]. case_bool_decide as Hn.
  { vm_compute. reflexivity. }
  set (nets := map (fun n => ovf_network _ _) (vc_networks c)).
  assert (Heq : map network_entry (vc_networks c) = map (pr 4) nets).
  { unfold nets. rewrite map_map. apply map_ext. apply print_network. }
  unfold block. rewrite Heq. cbn [print Nat.add map concat].
  generalize (concat (map (pr 4) nets)). intros. same_text.
Qed.

Lemma print_hardware : build_hardware_section b disks = Ok (pr 4 (hardware c disks)).
Proof.
  assert (Hd : imap build_disk_item disks = map (pr 6) (imap disk_item disks)).
  { rewrite map_imap. apply imap_ext. intros. apply print_disk_item. }
  assert (Ha : exists items,
    collect (imap (fun i _ => build_network_item b i) (vc_networks c)) = Ok items /\
    concat items ++ (if bool_decide (vc_networks c = []) then build_default_network_item b else [])
      = concat (map (pr 6) (adapter_items c))).
  { unfold adapter_items. case_bool_decide as Hn.
    - rewrite Hn. exists []. split; [done|]. cbn [map concat app]. by rewrite print_default_adapter, app_nil_r.
    - exists (map (pr 6) (imap (fun i n => adapter_item c i (network_label n)
          (default (lit "E1000") (nc_virtual_dev n))) (vc_networks c))).
      split; [|by rewrite app_nil_r]. apply collect_Ok. rewrite map_imap, fmap_imap. apply imap_ext. intros i n Hi. cbn.
      by apply print_adapter_item. }
  destruct Ha as (items & Hc & Ha). unfold build_hardware_section. cbn [ob_config OvfBuilder_new].
  rewrite Hc. cbn [mbind outcome_bind]. f_equal. rewrite Hd, print_system_item, print_cpu_item,
    print_memory_item, print_scsi_item.
  rewrite (app_assoc (concat items)). rewrite Ha. unfold hardware, block. cbn [print Nat.add].
  rewrite map_app, concat_app, map_app, concat_app. cbn [map concat].
  generalize (concat (map (pr 6) (imap disk_item disks))), (concat (map (pr 6) (adapter_items c))),
    (pr 6 (system_item c)), (pr 6 (cpu_item c)), (pr 6 (memory_item c)), (pr 6 scsi_item).
  intros. same_text.
Qed.

Lemma print_virtual_system :
  build_virtual_system b disks = Ok (pr 2 (block "ovf:VirtualSystem"
    [(lit "ovf:id", sanitize_id (vc_display_name c))]
    [leaf "ovf:Info" (lit "A virtual machine"); leaf "ovf:Name" (vc_display_name c); os_section c;
     hardware c disks])).
Proof.
  unfold build_virtual_system. rewrite print_hardware. cbv zeta. cbn [mbind outcome_bind]. f_equal.
  rewrite print_os_section. unfold block, leaf. cbn [print Nat.add map concat].
  generalize (pr 4 (os_section c)), (pr 4 (hardware c disks)). intros. same_text.
Qed.

Lemma print_ovf :
  build b disks = Ok (ln "<?xml version=`1.0` encoding=`UTF-8`?>" ++ pr 0 (ovf_layout c disks)).
Proof.
  unfold build. rewrite print_virtual_system. cbn [mbind outcome_bind]. do 2 f_equal.
  rewrite print_references, print_disk_section, print_network_section. unfold ovf_layout.
  set (refs := block "ovf:References" _ _). set (ds := block "ovf:DiskSection" _ _).
  set (ns := block "ovf:NetworkSection" _ _). set (vs := block "ovf:VirtualSystem" _ _).
  cbn [print Nat.add map concat].
  generalize (pr 2 refs), (pr 2 ds), (pr 2 ns), (pr 2 vs). intros. unfold build_envelope_open. same_text.
Qed.
End printed.

(** ** The layout is a readable document *)

Definition name_okb (n : str) : bool := negb (bool_decide (n = [])) && forallb name_char n.

Definition attrs_okb (a : list (str * str)) : bool := bool_decide (NoDup a.*1) && forallb name_okb a.*1.

Lemma name_okb_ok n : name_okb n = true -> name_ok n.
Proof.
  unfold name_okb. intros [Hn Hc]%andb_true_iff. split; [|done].
  by apply negb_true_iff, bool_decide_eq_false in Hn.
Qed.

Lemma attrs_okb_ok a : attrs_okb a = true -> attrs_ok a.
Proof.
  unfold attrs_okb. intros [Hn Ha]%andb_true_iff. split; [by apply bool_decide_eq_true in Hn|].
  apply Forall_forall. intros n Hin. rewrite forallb_forall in Ha.
  apply name_okb_ok, Ha. by apply list_elem_of_In.
Qed.

Lemma void_ok nm a : name_okb (lit nm) = true -> attrs_okb a = true -> layout_ok (Void (lit nm) a).
Proof. intros. constructor; [by apply name_okb_ok|by apply attrs_okb_ok]. Qed.

Lemma leaf_ok nm s : name_okb (lit nm) = true -> layout_ok (leaf nm s).
Proof. intros. constructor; [by apply name_okb_ok|by apply attrs_okb_ok]. Qed.

Lemma block_ok nm a kids :
  name_okb (lit nm) = true -> attrs_okb a = true -> Forall layout_ok kids -> layout_ok (block nm a kids).
Proof. intros. constructor; try done; [by apply name_okb_ok|by apply attrs_okb_ok]. Qed.

Lemma item_ok fields : forallb (fun f => name_okb (lit f.1)) fields = true -> layout_ok (item fields).
Proof.
  intros Hf. apply block_ok; [done..|]. apply Forall_fmap, Forall_forall. intros f Hin.
  apply leaf_ok. rewrite forallb_forall in Hf. by apply Hf, list_elem_of_In.
Qed.

Lemma Forall_imap {A B} (P : B -> Prop) (f : nat -> A -> B) l :
  (forall i x, l !! i = Some x -> P (f i x)) -> Forall P (imap f l).
Proof.
  intros Hf. apply Forall_lookup. intros i y. rewrite list_lookup_imap.
  destruct (l !! i) as [x|] eqn:E; [|done]. cbn. intros [= <-]. by apply Hf.
Qed.

#[local] Ltac kids_ok :=
  repeat first [apply Forall_nil; exact I | apply Forall_cons; split];
  first [apply leaf_ok; reflexivity | apply item_ok; reflexivity | idtac].

Lemma ovf_layout_ok `{UnicodeTables} c disks : layout_ok (ovf_layout c disks).
Proof.
  unfold ovf_layout. constructor; [done..|by apply name_okb_ok|by apply attrs_okb_ok|].
  kids_ok; apply block_ok; try reflexivity; kids_ok.
  - apply Forall_imap. intros i d _. by apply void_ok.
  - apply Forall_fmap, Forall_true. intros d. by apply void_ok.
  - unfold ovf_networks. case_bool_decide; [kids_ok|apply Forall_fmap, Forall_true; intros n];
      apply block_ok; try reflexivity; kids_ok.
  - apply block_ok; try reflexivity; kids_ok.
  - apply block_ok; try reflexivity. apply Forall_app. split; [kids_ok|apply Forall_app; split].
    + apply block_ok; try reflexivity; kids_ok.
    + apply Forall_imap. intros i d _. by apply item_ok.
    + unfold adapter_items. case_bool_decide; [kids_ok|]. apply Forall_imap. intros i n _. by apply item_ok.
Qed.

(** ** Legal characters *)

(** The file name of the disk with an index, as the document has it. *)
Definition ovf_file_name (c : VmxConfig) (i : nat) : str :=
  match vc_disks c !! i with Some k => dc_file_name k | None => lit "disk.vmdk" end.

(** The texts of the machine that go into the document. *)
Definition ovf_texts (c : VmxConfig) (disks : list DiskInfo) : list str :=
  [vc_display_name c; vc_guest_os c]
  ++ concat (imap (fun i d => [ovf_file_name c i; di_file_ref d; di_id d]) disks)
  ++ concat (map (fun n => [network_label n; default (lit "E1000") (nc_virtual_dev n)]) (vc_networks c)).

Definition legal (s : str) : Prop := xml_chars s = true.

Lemma legal_app a b : legal (a ++ b) <-> legal a /\ legal b.
Proof. unfold legal. by rewrite xml_chars_app, andb_true_iff. Qed.

Lemma legal_lit s : xml_chars (lit s) = true -> legal (lit s) <-> True.
Proof. by unfold legal; intros ->. Qed.

Lemma legal_show n : 0 <= n -> legal (show_dec n) <-> True.
Proof.
  intros Hn. split; [done|intros _]. unfold legal, show_dec, show_radix.
  generalize (Z.to_nat (Z.log2 n + 1)) as f. intros f.
  assert (Hd : forall d, 0 <= d < 10 -> xml_chars [digit_char d] = true).
  { intros d Hd. unfold xml_chars, xml_char, digit_char, in_range. cbn. zcase; lia. }
  revert n Hn. induction f as [|f IH]; intros n Hn; [done|]. cbn [show_fuel].
  zcase; [apply Hd; lia|]. rewrite xml_chars_app, IH by (apply Z.div_pos; lia).
  apply Hd, Z.mod_pos_bound. lia.
Qed.

Lemma legal_sanitize `{UnicodeTables} s : legal s -> legal (sanitize_id s).
Proof.
  unfold legal, xml_chars. rewrite !forallb_forall. intros Hs c Hc.
  apply in_map_iff in Hc as (d & <- & Hd). by destruct (_ || _); [apply Hs|].
Qed.

Lemma legal_guest_os `{UnicodeTables} g : legal (map_guest_os g).2 <-> True.
Proof.
  split; [done|intros _]. unfold map_guest_os. cbv zeta. destruct (find _ _) as [[ns [i o]]|] eqn:E; [|done].
  apply find_some in E as [E _].
  assert (Hall : forallb (fun arm => xml_chars (lit arm.2.2)) guest_os_arms = true) by (vm_compute; reflexivity).
  rewrite forallb_forall in Hall. apply (Hall _ E).
Qed.

Lemma legal_each_imap {A} (f : nat -> A -> list str) l :
  Forall legal (concat (imap f l)) <-> forall i x, l !! i = Some x -> Forall legal (f i x).
Proof.
  rewrite List.Forall_concat. split; [|by apply Forall_imap].
  intros Hl i x Hi. eapply (proj1 (Forall_lookup _ _) Hl i). by rewrite list_lookup_imap, Hi.
Qed.

Lemma legal_each_map {A} (f : A -> list str) l :
  Forall legal (concat (map f l)) <-> forall i x, l !! i = Some x -> Forall legal (f x).
Proof. rewrite (map_as_imap f). apply (legal_each_imap (fun _ => f)). Qed.

#[local] Ltac legals :=
  unfold item, block, leaf;
  cbn [texts map fmap list_fmap snd fst app concat];
  repeat first [rewrite Forall_nil | rewrite Forall_cons | rewrite Forall_app | rewrite legal_app
    | rewrite legal_guest_os | rewrite legal_lit by (vm_compute; reflexivity) | rewrite legal_show by lia].

Section legal_texts.
  Context `{UnicodeTables} (c : VmxConfig) (disks : list DiskInfo).
  Hypothesis Hp : printable c disks.

Lemma legal_files : Forall legal (concat (map texts (imap (ovf_file c) disks))) <->
  forall i d, disks !! i = Some d -> legal (ovf_file_name c i) /\ legal (di_file_ref d).
Proof.
  rewrite map_imap, legal_each_imap. destruct Hp as [_ _ _ Hd]. rewrite Forall_lookup in Hd.
  split; intros Hl i d Hi; specialize (Hl i d Hi); pose proof (Hd i d Hi) as (_ & Hc & Hs); revert Hl;
    unfold ovf_file, ovf_file_name; legals; tauto.
Qed.

Lemma legal_disk_elements : Forall legal (concat (map texts (map ovf_disk disks))) <->
  forall i d, disks !! i = Some d -> legal (di_id d) /\ legal (di_file_ref d).
Proof.
  rewrite map_map, legal_each_map. destruct Hp as [_ _ _ Hd]. rewrite Forall_lookup in Hd.
  split; intros Hl i d Hi; specialize (Hl i d Hi); pose proof (Hd i d Hi) as (_ & Hc & Hs); revert Hl;
    unfold ovf_disk; legals; tauto.
Qed.

Lemma legal_disk_items : Forall legal (concat (map texts (imap disk_item disks))) <->
  forall i d, disks !! i = Some d -> legal (di_id d).
Proof.
  rewrite map_imap, legal_each_imap.
  split; intros Hl i d Hi; specialize (Hl i d Hi); revert Hl; unfold disk_item; cbv zeta; legals; tauto.
Qed.

Lemma legal_network_elements : Forall legal (concat (map texts (ovf_networks c))) <->
  forall i n, vc_networks c !! i = Some n -> legal (network_label n).
Proof.
  unfold ovf_networks, ovf_network. case_bool_decide as E; [rewrite E; by legals|].
  rewrite map_map, legal_each_map.
  split; intros Hl i d Hi; specialize (Hl i d Hi); revert Hl; legals; tauto.
Qed.

Lemma legal_adapters : Forall legal (concat (map texts (adapter_items c))) <->
  forall i n, vc_networks c !! i = Some n ->
    legal (network_label n) /\ legal (default (lit "E1000") (nc_virtual_dev n)).
Proof.
  pose proof (zlen_nonneg (vc_disks c)). unfold adapter_items, adapter_item. cbv zeta.
  case_bool_decide as E; [rewrite E; change (Z.of_nat 0) with 0; by legals|].
  rewrite map_imap, legal_each_imap.
  split; intros Hl i d Hi; specialize (Hl i d Hi); revert Hl; legals; tauto.
Qed.

(** The document's texts are legal exactly when the machine's are. *)
Lemma ovf_layout_legal :
  forallb xml_chars (texts (ovf_layout c disks)) = forallb xml_chars (ovf_texts c disks).
Proof.
  assert (Hb : forall l, forallb xml_chars l = true <-> Forall legal l).
  { intros l. rewrite forallb_forall, List.Forall_forall. done. }
  apply eq_true_iff_eq. rewrite !Hb. pose proof (legal_sanitize (vc_display_name c)) as Hs.
  pose proof Hp as [Hcpu Hmem _ _]. destruct (guest_os_plain (vc_guest_os c)) as [Hg _].
  unfold ovf_texts, ovf_layout, os_section, hardware, system_item, cpu_item, memory_item, scsi_item.
  legals. rewrite map_app, concat_app. legals.
  rewrite legal_files, legal_disk_elements, legal_disk_items, legal_network_elements, legal_adapters,
    legal_each_imap, legal_each_map.
  setoid_rewrite Forall_cons. setoid_rewrite Forall_cons. setoid_rewrite Forall_singleton.
  split; intros Hl; destruct_and! Hl; split_and!; try done; naive_solver.
Qed.
End legal_texts.

Lemma read_ovf `{UnicodeTables} c disks :
  printable c disks ->
  exists doc, build (OvfBuilder_new c) disks = Ok doc /\ read_xml doc = Some (ovf_tree c disks) /\
    xml_chars doc = forallb xml_chars (ovf_texts c disks).
Proof.
  intros Hp. rewrite (print_ovf c disks Hp). eexists. split; [done|]. split.
  2: { rewrite xml_chars_app, print_chars; [|apply escape_xml_chars|apply ovf_layout_ok].
       change (xml_chars (ln _)) with true. cbn [andb]. by apply ovf_layout_legal. }
  unfold read_xml. rewrite feed_app.
  assert (Hdecl : feed (ln "<?xml version=`1.0` encoding=`UTF-8`?>") (MText [], [([], [], [])])
    = Some (MText [c_nl], [([], [], [])])) by reflexivity.
  rewrite Hdecl. cbn [mbind option_bind].
  destruct (reads_print escape_xml (ovf_layout c disks) 0 (ovf_layout_ok c disks)) with
    (t := [c_nl]) (n := @nil Z) (a := @nil (str * str)) (kids := @nil xml) (stk := @nil frame)
    as (t' & Ht' & ->); [|done|].
  - apply Forall_true. apply spells_escape.
  - cbn [rev app]. fold (ovf_tree c disks). cbn. by rewrite Ht'.
Qed.

(** ** Queries on the tree *)

(** The elements of a name in a laid out part. *)
Definition els (n : string) (i : nat) (l : layout) : list xml := descendants (lit n) (tree i l).

Definition els_all (n : string) (i : nat) (ls : list layout) : list xml := concat (map (els n i) ls).

Lemma els_block n i nm a kids : str_eqb (lit nm) (lit n) = false ->
  els n i (block nm a kids) = els_all n (2 + i) kids.
Proof.
  intros Hn. unfold els, els_all, block. destruct kids as [|k kids]; cbn [tree descendants]; rewrite Hn; [done|].
  cbn [app]. by rewrite (map_map (tree (2 + i))).
Qed.

Lemma els_leaf n i nm s : str_eqb (lit nm) (lit n) = false -> els n i (leaf nm s) = [].
Proof. intros Hn. unfold els, leaf. cbn [tree descendants]. rewrite Hn. by destruct s. Qed.

Lemma els_void n i nm a :
  els n i (Void (lit nm) a) = if str_eqb (lit nm) (lit n) then [tree i (Void (lit nm) a)] else [].
Proof. unfold els. cbn [tree descendants]. by destruct (str_eqb _ _). Qed.

Lemma els_all_nil n i : els_all n i [] = [].
Proof. done. Qed.

Lemma els_all_cons n i l ls : els_all n i (l :: ls) = els n i l ++ els_all n i ls.
Proof. done. Qed.

Lemma els_all_app n i ls ls' : els_all n i (ls ++ ls') = els_all n i ls ++ els_all n i ls'.
Proof. unfold els_all. by rewrite map_app, concat_app. Qed.

Lemma els_all_leaves n i (fields : list (string * str)) :
  forallb (fun f => negb (str_eqb (lit f.1) (lit n))) fields = true ->
  els_all n i (map (fun f => leaf f.1 f.2) fields) = [].
Proof.
  induction fields as [|f fs IH]; [done|]. cbn [forallb map]. intros [Hf Hfs]%andb_true_iff.
  rewrite els_all_cons, els_leaf by (by apply negb_true_iff). by apply IH.
Qed.

(** Parts that are, or have in them, none or one of the elements. *)
Lemma els_all_none {A} n i (f : nat -> A -> layout) l :
  (forall j x, els n i (f j x) = []) -> els_all n i (imap f l) = [].
Proof.
  revert f. induction l as [|x l IH]; intros f Hf; [done|]. cbn [imap].
  rewrite els_all_cons, Hf. apply (IH (f ∘ S)). intros. apply Hf.
Qed.

Lemma els_all_one {A} n i (f : nat -> A -> layout) l :
  (forall j x, els n i (f j x) = [tree i (f j x)]) -> els_all n i (imap f l) = imap (fun j x => tree i (f j x)) l.
Proof.
  revert f. induction l as [|x l IH]; intros f Hf; [done|]. cbn [imap].
  rewrite els_all_cons, Hf, (IH (f ∘ S)); [done|]. intros. apply Hf.
Qed.

Lemma els_item_self i fields :
  forallb (fun f => negb (str_eqb (lit f.1) (lit "ovf:Item"))) fields = true -> fields <> [] ->
  els "ovf:Item" i (item fields) = [tree i (item fields)].
Proof.
  intros Hf Hne. apply (els_all_leaves _ (2 + i)) in Hf. unfold item.
  assert (Hk : map (fun f : string * str => leaf f.1 f.2) fields <> []) by (by destruct fields).
  destruct (map _ fields) as [|k ks]; [done|]. unfold els, block. cbn [tree descendants].
  change (str_eqb (lit "ovf:Item") (lit "ovf:Item")) with true. cbv iota.
  rewrite (map_map (tree (2 + i))). unfold els_all, els in Hf. by rewrite Hf.
Qed.

Lemma els_item_other n i fields :
  str_eqb (lit "ovf:Item") (lit n) = false ->
  forallb (fun f => negb (str_eqb (lit f.1) (lit n))) fields = true -> els n i (item fields) = [].
Proof. intros Hn Hf. unfold item. rewrite els_block by done. by apply els_all_leaves. Qed.

Section queries.
  Context `{UnicodeTables} (c : VmxConfig) (disks : list DiskInfo).

Lemma els_networks n i :
  str_eqb (lit "ovf:Network") (lit n) = false -> str_eqb (lit "ovf:Description") (lit n) = false ->
  els_all n i (ovf_networks c) = [].
Proof.
  intros H1 H2. unfold ovf_networks.
  assert (Hone : forall a d, els n i (ovf_network a d) = []).
  { intros. unfold ovf_network. rewrite els_block by done. rewrite els_all_cons, els_leaf by done. done. }
  case_bool_decide as Hnil; [by rewrite els_all_cons, Hone|]. clear Hnil.
  induction (vc_networks c) as [|x l IH]; [done|]. cbn [map]. rewrite els_all_cons, Hone. exact IH.
Qed.

Lemma els_adapters_none n i :
  str_eqb (lit "ovf:Item") (lit n) = false ->
  (forall j x y, forallb (fun f => negb (str_eqb (lit f.1) (lit n)))
     [("rasd:AddressOnParent"%string, lit "0"); ("rasd:AutomaticAllocation"%string, lit "true");
      ("rasd:Connection"%string, x); ("rasd:Description"%string, lit "Network Adapter");
      ("rasd:ElementName"%string, j); ("rasd:InstanceID"%string, j);
      ("rasd:ResourceSubType"%string, y); ("rasd:ResourceType"%string, lit "10")] = true) ->
  els_all n i (adapter_items c) = [].
Proof.
  intros H1 H2. assert (Hone : forall j x y, els n i (adapter_item c j x y) = []).
  { intros. unfold adapter_item. apply els_item_other; [done|]. by apply (H2 []). }
  unfold adapter_items. case_bool_decide; [by rewrite els_all_cons, Hone|]. by apply els_all_none.
Qed.

#[local] Ltac els_step :=
  repeat first [rewrite els_all_nil | rewrite els_all_cons | rewrite els_all_app
    | rewrite els_block by reflexivity | rewrite els_leaf by reflexivity
    | rewrite els_networks by reflexivity | rewrite els_item_other by reflexivity
    | rewrite els_item_self by (reflexivity || discriminate)
    | rewrite els_adapters_none by reflexivity | rewrite (map_as_imap ovf_disk)
    | rewrite els_all_one by (intros; first [apply els_item_self; [reflexivity|discriminate]|apply els_void])
    | rewrite els_all_none by (intros; first [apply els_item_other; reflexivity|apply els_void])
    | progress unfold system_item, os_section, hardware, cpu_item, memory_item, scsi_item];
  cbn [app]; rewrite ?app_nil_r.

(** The sections of the document. *)
Lemma els_envelope n : str_eqb (lit "ovf:Envelope") (lit n) = false ->
  descendants (lit n) (ovf_tree c disks) = els_all n 2
   [block "ovf:References" [] (imap (ovf_file c) disks);
    block "ovf:DiskSection" [] (leaf "ovf:Info" (lit "Virtual disk information") :: map ovf_disk disks);
    block "ovf:NetworkSection" [] (leaf "ovf:Info" (lit "Network configuration") :: ovf_networks c);
    block "ovf:VirtualSystem" [(lit "ovf:id", sanitize_id (vc_display_name c))]
     [leaf "ovf:Info" (lit "A virtual machine"); leaf "ovf:Name" (vc_display_name c); os_section c;
      hardware c disks]].
Proof. intros Hn. unfold ovf_tree, ovf_layout. cbn [tree descendants]. rewrite Hn. done. Qed.

Lemma ovf_files :
  descendants (lit "ovf:File") (ovf_tree c disks) = imap (fun i d => tree 4 (ovf_file c i d)) disks.
Proof. rewrite els_envelope by done. by els_step. Qed.

Lemma ovf_disks :
  descendants (lit "ovf:Disk") (ovf_tree c disks) = map (fun d => tree 4 (ovf_disk d)) disks.
Proof. rewrite els_envelope by done. els_step. by rewrite map_as_imap. Qed.

Lemma els_adapter_items i : els_all "ovf:Item" i (adapter_items c) = map (tree i) (adapter_items c).
Proof.
  assert (Hone : forall j x y, els "ovf:Item" i (adapter_item c j x y) = [tree i (adapter_item c j x y)]).
  { intros. by apply els_item_self. }
  unfold adapter_items. case_bool_decide; [by rewrite els_all_cons, Hone|].
  rewrite map_imap. by apply els_all_one.
Qed.

Lemma ovf_items :
  descendants (lit "ovf:Item") (ovf_tree c disks)
    = map (tree 6) ([cpu_item c; memory_item c; scsi_item] ++ imap disk_item disks ++ adapter_items c).
Proof.
  rewrite els_envelope by done. els_step. rewrite els_adapter_items. cbn [map]. by rewrite map_app, map_imap.
Qed.
End queries.

(** ** Links *)

Definition instance_ids (t : xml) : list str :=
  concat (map (child_texts (lit "rasd:InstanceID")) (descendants (lit "ovf:Item") t)).

(** The elements of a name with an attribute. *)
Definition with_attr (n k : string) (v : str) (t : xml) : list xml :=
  filter (fun e => attr (lit k) e = Some v) (descendants (lit n) t).

(** The hardware items backed by a disk. *)
Definition backed_by (id : str) (t : xml) : list xml :=
  filter (fun e => child_texts (lit "rasd:HostResource") e = [lit "ovf:/disk/" ++ id])
    (descendants (lit "ovf:Item") t).

Lemma filter_none {A} (P : A -> Prop) `{forall x, Decision (P x)} (l : list A) :
  Forall (fun x => ~ P x) l -> filter P l = [].
Proof. induction 1; [done|]. by rewrite filter_cons_False. Qed.

Lemma filter_imap_one {A B} (P : B -> Prop) `{forall x, Decision (P x)} (f : nat -> A -> B) l i x :
  l !! i = Some x -> P (f i x) -> (forall j y, l !! j = Some y -> P (f j y) -> j = i) ->
  filter P (imap f l) = [f i x].
Proof.
  intros Hi Hp Hu. rewrite <- (take_drop_middle l i x Hi), imap_app. cbn [imap].
  rewrite filter_app, filter_cons_True by (by rewrite length_take_le, Nat.add_0_r by (apply lookup_lt_Some in Hi; lia)).
  rewrite length_take_le, Nat.add_0_r by (apply lookup_lt_Some in Hi; lia).
  rewrite !filter_none; [done|..]; apply Forall_imap; intros j y Hj HP.
  - apply lookup_drop_Some in Hj || rewrite lookup_drop in Hj.
    apply Hu in HP; [|by rewrite <- Hj; f_equal; lia]. lia.
  - apply lookup_take_Some in Hj as [Hj Hlt]. apply Hu in HP; [lia|done].
Qed.

Lemma child_texts_item k i fields :
  child_texts k (tree i (item fields)) = fields ≫= fun f => if str_eqb (lit f.1) k then [f.2] else [].
Proof.
  assert (Hk : child_texts k (Elem (lit "ovf:Item") [] (map (tree (2 + i)) (map (fun f => leaf f.1 f.2) fields)))
    = fields ≫= fun f => if str_eqb (lit f.1) k then [f.2] else []).
  { cbn [child_texts]. induction fields as [|[n s] fs IH]; [done|]. cbn [map]. rewrite !bind_cons, IH.
    f_equal. cbn [leaf tree fst snd]. destruct (str_eqb (lit n) k); [|done]. cbn. destruct s; [done|].
    cbn. by rewrite app_nil_r. }
  rewrite <- Hk. by destruct fields.
Qed.

Lemma show_dec_inj n m : 0 <= n -> 0 <= m -> show_dec n = show_dec m -> n = m.
Proof.
  intros Hn Hm E. destruct (show_radix_spec 10 ltac:(lia) n Hn) as (En & _).
  destruct (show_radix_spec 10 ltac:(lia) m Hm) as (Em & _). unfold show_dec in E.
  specialize (En 0). specialize (Em 0). rewrite E, Em in En. injection En as En. lia.
Qed.

Lemma concat_imap_seq {A B} (g : nat -> A -> list B) (F : nat -> B) k l :
  (forall i x, g i x = [F (k + i)%nat]) -> concat (imap g l) = map F (seq k (length l)).
Proof.
  revert g k. induction l as [|x l IH]; intros g k Hg; [done|]. cbn [imap concat length seq map].
  rewrite Hg, Nat.add_0_r. cbn [app]. f_equal. apply (IH (g ∘ S) (S k)). intros i y. unfold compose.
  rewrite Hg. do 2 f_equal. lia.
Qed.

Section links.
  Context `{UnicodeTables} (c : VmxConfig) (disks : list DiskInfo).

(** The adapters described, the default one included. *)
Definition adapters : nat := Nat.max 1 (length (vc_networks c)).

Lemma ovf_instance_ids : length disks = length (vc_disks c) ->
  instance_ids (ovf_tree c disks)
    = map (fun k => show_dec (Z.of_nat k)) (seq 1 (3 + length disks + adapters)).
Proof.
  intros Hlen. unfold instance_ids. rewrite ovf_items, !map_app, !concat_app.
  rewrite (seq_app (3 + length disks)), (seq_app 3), !map_app. rewrite <- app_assoc. f_equal. f_equal.
  - rewrite !map_imap. apply concat_imap_seq. intros i d. unfold disk_item. cbv zeta.
    rewrite child_texts_item. change (_ ≫= _) with [show_dec (4 + Z.of_nat i)]. do 2 f_equal. lia.
  - assert (Had : forall i x y, child_texts (lit "rasd:InstanceID") (tree 6 (adapter_item c i x y))
      = [show_dec (Z.of_nat (4 + length disks + i))]).
    { intros i x y. unfold adapter_item. cbv zeta. rewrite child_texts_item.
      change (_ ≫= _) with [show_dec (4 + zlen (vc_disks c) + Z.of_nat i)]. do 2 f_equal. unfold zlen. lia. }
    unfold adapter_items, adapters. case_bool_decide as Hn.
    + rewrite Hn. cbn [map concat]. by rewrite Had, Nat.add_0_r.
    + rewrite !map_imap. rewrite (concat_imap_seq _ (fun k => show_dec (Z.of_nat k)) (4 + length disks)).
      * replace (Nat.max 1 (length (vc_networks c))) with (length (vc_networks c)); [done|].
        destruct (vc_networks c); cbn; [done|lia].
      * intros i n. apply Had.
Qed.

Lemma instance_ids_distinct : length disks = length (vc_disks c) ->
  NoDup (instance_ids (ovf_tree c disks)).
Proof.
  intros Hlen. rewrite ovf_instance_ids by done. apply NoDup_fmap_2_strong; [|apply NoDup_seq].
  intros x y _ _ E%show_dec_inj; lia.
Qed.

Lemma NoDup_key {A} (f : A -> str) l i j x y :
  NoDup (map f l) -> l !! i = Some x -> l !! j = Some y -> f y = f x -> j = i.
Proof.
  intros Hnd Hi Hj E. eapply (NoDup_lookup _ j i (f x)); [exact Hnd|..];
    change (map f l) with (f <$> l); rewrite list_lookup_fmap; [by rewrite Hj, <- E|by rewrite Hi].
Qed.

Lemma ovf_file_link i d v : disks !! i = Some d -> vc_disks c !! i = Some v -> NoDup (map di_file_ref disks) ->
  exists f, with_attr "ovf:File" "ovf:id" (di_file_ref d) (ovf_tree c disks) = [f] /\
    attr (lit "ovf:href") f = Some (dc_file_name v) /\
    attr (lit "ovf:size") f = Some (show_dec (di_file_size_bytes d)).
Proof.
  intros Hd Hv Hnd. unfold with_attr. rewrite ovf_files. eexists. split; [|split].
  - apply (filter_imap_one _ (fun i d => tree 4 (ovf_file c i d)) disks i d Hd); [done|].
    intros j y Hj Hy. cbn in Hy. injection Hy as Hy. by eapply NoDup_key.
  - cbn. by rewrite Hv.
  - done.
Qed.

Lemma ovf_disk_link i d : disks !! i = Some d -> NoDup (map di_id disks) ->
  exists k, with_attr "ovf:Disk" "ovf:diskId" (di_id d) (ovf_tree c disks) = [k] /\
    attr (lit "ovf:fileRef") k = Some (di_file_ref d) /\
    attr (lit "ovf:capacity") k = Some (show_dec (di_capacity_bytes d)).
Proof.
  intros Hd Hnd. unfold with_attr. rewrite ovf_disks, map_as_imap. eexists. split; [|split].
  - apply (filter_imap_one _ (fun _ d => tree 4 (ovf_disk d)) disks i d Hd); [done|].
    intros j y Hj Hy. cbn in Hy. injection Hy as Hy. by eapply NoDup_key.
  - done.
  - done.
Qed.

Lemma ovf_item_link i d : disks !! i = Some d -> NoDup (map di_id disks) ->
  exists it, backed_by (di_id d) (ovf_tree c disks) = [it] /\
    child_texts (lit "rasd:InstanceID") it = [show_dec (4 + Z.of_nat i)] /\
    child_texts (lit "rasd:Parent") it = [lit "3"].
Proof.
  intros Hd Hnd. unfold backed_by. rewrite ovf_items, !map_app, !filter_app, map_imap.
  rewrite (filter_imap_one _ (fun i d => tree 6 (disk_item i d)) disks i d Hd).
  - exists (tree 6 (disk_item i d)). split; [|unfold disk_item; cbv zeta; by rewrite !child_texts_item].
    rewrite !filter_none; [done|..].
    + apply Forall_fmap, Forall_forall. intros l Hl.
      assert (Hone : forall j x y, child_texts (lit "rasd:HostResource") (tree 6 (adapter_item c j x y)) = []).
      { intros. unfold adapter_item. cbv zeta. by rewrite child_texts_item. }
      unfold adapter_items in Hl. case_bool_decide.
      * apply list_elem_of_singleton in Hl as ->. cbn [compose]. by rewrite Hone.
      * apply elem_of_lookup_imap in Hl as (j & n & -> & _). unfold compose. by rewrite Hone.
    + repeat constructor; intros E; vm_compute in E; discriminate.
  - unfold disk_item. cbv zeta. by rewrite child_texts_item.
  - intros j y Hj Hy. unfold disk_item in Hy. cbv zeta in Hy. rewrite child_texts_item in Hy.
    assert (Hy' : lit "ovf:/disk/" ++ di_id y = lit "ovf:/disk/" ++ di_id d).
    { change (_ ≫= _) with [lit "ovf:/disk/" ++ di_id y] in Hy. by apply (f_equal (hd [])) in Hy. }
    apply app_inv_head in Hy'. by eapply NoDup_key.
Qed.
End links.

(** ** The properties *)

(** C10: for a machine whose disks' file names and file references are free of
    the five characters that need escaping, which the code does not escape
    there, and whose numbers are not negative, [build] returns a descriptor,
    and what the XML reader finds in it is exactly the description of the
    machine: the disks and their files, the networks, the system, and all
    hardware items, with every other name and text unchanged, whatever markup
    characters they contain.  The descriptor is made of characters XML allows
    exactly when the texts of the machine are: the code takes the control
    characters XML forbids over as they are. *)
Theorem ovf_document_readable `{UnicodeTables} c disks :
  printable c disks ->
  exists doc, build (OvfBuilder_new c) disks = Ok doc /\ read_xml doc = Some (ovf_tree c disks) /\
    (forallb xml_char doc = true <->
     Forall (fun text => forallb xml_char text = true) (ovf_texts c disks)).
Proof.
  intros Hp. destruct (read_ovf c disks Hp) as (doc & Hd & Hr & Hc). exists doc. split_and!; [done..|].
  unfold xml_chars in Hc. by rewrite Hc, forallb_forall, List.Forall_forall.
Qed.

Definition sample_config : VmxConfig :=
  {| vc_display_name := lit "Tom & Jerry <1>"; vc_guest_os := lit "ubuntu-64"; vc_memory_mb := 2048;
     vc_num_cpus := 2;
     vc_disks := [{| dc_file_name := lit "a.vmdk"; dc_controller := lit "scsi0"; dc_unit := 0 |};
                  {| dc_file_name := lit "b.vmdk"; dc_controller := lit "scsi0"; dc_unit := 1 |}];
     vc_networks := [{| nc_name := lit "ethernet0"; nc_virtual_dev := None; nc_network_name := Some (lit "A&B") |}];
     vc_raw := ∅ |}.

Definition sample_disks : list DiskInfo :=
  [{| di_id := lit "vmdisk1"; di_file_ref := lit "file1"; di_capacity_bytes := 1048576; di_file_size_bytes := 4096 |};
   {| di_id := lit "vmdisk2"; di_file_ref := lit "file2"; di_capacity_bytes := 524288; di_file_size_bytes := 2048 |}].

Lemma sample_printable : printable sample_config sample_disks.
Proof. constructor; cbn; try lia; repeat constructor; cbn; lia. Qed.

Lemma ovf_document_readable_witness :
  exists doc, build (H:=ascii_tables) (OvfBuilder_new sample_config) sample_disks = Ok doc /\
    read_xml doc = Some (ovf_tree (H:=ascii_tables) sample_config sample_disks) /\
    forallb xml_char doc = true.
Proof.
  destruct (ovf_document_readable (H:=ascii_tables) sample_config sample_disks sample_printable)
    as (doc & Hd & Hr & Hc).
  exists doc. split; [exact Hd|split; [exact Hr|]]. apply Hc. repeat constructor.
Defined.

(** C23: the references of the descriptor resolve, for a machine
    whose file names and file references need no escaping: with one entry per disk of the
    configuration, distinct identifiers and distinct file references, the hardware items carry the
    instance numbers 1, 2, 3 and so on without a repetition; each disk has one
    hardware item on the controller with number 3, one [Disk] element, which
    names its capacity, and one [File] element, which names its file and size. *)
Theorem ovf_references_resolve `{UnicodeTables} c disks :
  printable c disks -> length disks = length (vc_disks c) ->
  NoDup (map di_id disks) -> NoDup (map di_file_ref disks) ->
  exists doc t, build (OvfBuilder_new c) disks = Ok doc /\ read_xml doc = Some t /\
    NoDup (instance_ids t) /\
    instance_ids t = map (fun k => show_dec (Z.of_nat k))
                       (seq 1 (3 + length disks + Nat.max 1 (length (vc_networks c)))) /\
    forall i d v, disks !! i = Some d -> vc_disks c !! i = Some v ->
      exists it k f, backed_by (di_id d) t = [it] /\
        child_texts (lit "rasd:Parent") it = [lit "3"] /\
        with_attr "ovf:Disk" "ovf:diskId" (di_id d) t = [k] /\
        attr (lit "ovf:capacity") k = Some (show_dec (di_capacity_bytes d)) /\
        attr (lit "ovf:fileRef") k = Some (di_file_ref d) /\
        with_attr "ovf:File" "ovf:id" (di_file_ref d) t = [f] /\
        attr (lit "ovf:href") f = Some (dc_file_name v) /\
        attr (lit "ovf:size") f = Some (show_dec (di_file_size_bytes d)).
Proof.
  intros Hp Hlen Hids Hrefs. destruct (read_ovf c disks Hp) as (doc & Hdoc & Hread & _).
  exists doc, (ovf_tree c disks). split_and!; [done|done|by apply instance_ids_distinct|by apply ovf_instance_ids|].
  intros i d v Hd Hv. destruct (ovf_item_link c disks i d Hd Hids) as (it & ? & _ & ?).
  destruct (ovf_disk_link c disks i d Hd Hids) as (k & ? & ? & ?).
  destruct (ovf_file_link c disks i d v Hd Hv Hrefs) as (f & ? & ? & ?). by exists it, k, f.
Qed.

Lemma ovf_references_resolve_witness :
  exists doc t, build (H:=ascii_tables) (OvfBuilder_new sample_config) sample_disks = Ok doc /\
    read_xml doc = Some t /\ exists f, with_attr "ovf:File" "ovf:id" (lit "file2") t = [f] /\
    attr (lit "ovf:href") f = Some (lit "b.vmdk").
Proof.
  destruct (ovf_references_resolve (H:=ascii_tables) sample_config sample_disks) as (doc & t & H1 & H2 & _ & _ & Hl).
  - apply sample_printable.
  - reflexivity.
  - apply (bool_decide_unpack _). vm_compute. exact I.
  - apply (bool_decide_unpack _). vm_compute. exact I.
  - exists doc, t. split; [exact H1|split; [exact H2|]].
    destruct (Hl 1%nat _ _ eq_refl eq_refl) as (_ & _ & f & _ & _ & _ & _ & _ & Hf & Hh & _). by exists f.
Defined.

(** A display name with a control character, say a form feed in the VMX
    file, makes the descriptor one no XML processor accepts. *)
Example ovf_control_character `{UnicodeTables} :
  let c := {| vc_display_name := [65; 12; 66]; vc_guest_os := lit "other"; vc_memory_mb := 1024;
    vc_num_cpus := 1; vc_disks := []; vc_networks := []; vc_raw := ∅ |} in
  exists doc, build (OvfBuilder_new c) [] = Ok doc /\ read_xml doc = Some (ovf_tree c []) /\
    forallb xml_char doc = false.
Proof.
  intros c. destruct (read_ovf c []) as (doc & Hd & Hr & Hc); [constructor; cbn; (lia || constructor)|].
  exists doc. split_and!; [done..|]. exact Hc.
Qed.

(** The file name of a disk goes into the descriptor as it is: a name with
    an ampersand, which every other text of the descriptor may contain, makes
    it unreadable. *)
Theorem ovf_file_name_breaks_document `{UnicodeTables} :
  exists c disks doc, build (OvfBuilder_new c) disks = Ok doc /\ read_xml doc = None /\
    length disks = length (vc_disks c) /\
    vc_disks c = [{| dc_file_name := lit "R&D.vmdk"; dc_controller := lit "scsi0"; dc_unit := 0 |}].
Proof.
  set (c := {| vc_display_name := lit "R&D"; vc_guest_os := lit "other"; vc_memory_mb := 1024;
    vc_num_cpus := 1;
    vc_disks := [{| dc_file_name := lit "R&D.vmdk"; dc_controller := lit "scsi0"; dc_unit := 0 |}];
    vc_networks := []; vc_raw := ∅ |}).
  exists c, [{| di_id := lit "vmdisk1"; di_file_ref := lit "file1"; di_capacity_bytes := 512;
    di_file_size_bytes := 512 |}]. eexists. split; [vm_compute; reflexivity|].
  split; [vm_compute; reflexivity|done].
Qed.
