(* ===== verification/Export.v ===== *)
(** * Export: [export.rs], from a VMX file to an OVA archive

    [export_vm], the three ways it reads a disk, [get_vm_info] and the
    progress reports.  The outputs are the file [File::create] returns and the
    calls of the progress callback; they are state, so that a run that fails
    shows what it has already done. *)
From S2P Require Export Reader Descriptor Sparse Stream Pipeline Ova Ovf.

Definition DEFAULT_CHUNK_SIZE : Z := 64 * 1024 * 1024.

(** ** Options and progress *)

Record ExportOptions := {
  eo_compression : CompressionLevel;
  eo_chunk_size : Z;
  eo_num_threads : Z;
}.

Definition ExportOptions_default : ExportOptions :=
  {| eo_compression := Balanced; eo_chunk_size := DEFAULT_CHUNK_SIZE; eo_num_threads := 0 |}.

Definition ExportOptions_new (compression : CompressionLevel) (chunk_size num_threads : Z) : ExportOptions :=
  {| eo_compression := compression; eo_chunk_size := chunk_size; eo_num_threads := num_threads |}.

Definition ExportOptions_fast : ExportOptions :=
  {| eo_compression := Fast; eo_chunk_size := DEFAULT_CHUNK_SIZE; eo_num_threads := 0 |}.

Definition ExportOptions_max_compression : ExportOptions :=
  {| eo_compression := Max; eo_chunk_size := DEFAULT_CHUNK_SIZE; eo_num_threads := 0 |}.

Inductive ExportPhase := Parsing | Compressing | Writing | Finalizing | Complete.

#[export] Instance ExportPhase_eq_dec : EqDecision ExportPhase.
Proof. solve_decision. Defined.

Definition ExportPhase_to_string (p : ExportPhase) : str :=
  match p with
  | Parsing => lit "Parsing"
  | Compressing => lit "Compressing"
  | Writing => lit "Writing"
  | Finalizing => lit "Finalizing"
  | Complete => lit "Complete"
  end.

Record ExportProgress := {
  ep_phase : ExportPhase;
  ep_bytes_processed : Z;
  ep_bytes_total : Z;
  ep_current_disk : Z;
  ep_total_disks : Z;
}.

Definition ExportProgress_new (phase : ExportPhase) (total_bytes total_disks : Z) : ExportProgress :=
  {| ep_phase := phase; ep_bytes_processed := 0; ep_bytes_total := total_bytes;
     ep_current_disk := 0; ep_total_disks := total_disks |}.

(** Assignments to the fields of the progress. *)
Definition ExportProgress_percent_complete (p : ExportProgress) : f64 :=
  if ep_bytes_total p =? 0 then
    match ep_phase p with Complete => f64_lit 100 | _ => f64_lit 0 end
  else f64_mul (f64_div (f64_of_u64 (ep_bytes_processed p)) (f64_of_u64 (ep_bytes_total p))) (f64_lit 100).

Definition with_phase (ph : ExportPhase) (p : ExportProgress) : ExportProgress :=
  Build_ExportProgress ph (ep_bytes_processed p) (ep_bytes_total p) (ep_current_disk p) (ep_total_disks p).
Definition with_bytes_processed (n : Z) (p : ExportProgress) : ExportProgress :=
  Build_ExportProgress (ep_phase p) n (ep_bytes_total p) (ep_current_disk p) (ep_total_disks p).
Definition with_current_disk (n : Z) (p : ExportProgress) : ExportProgress :=
  Build_ExportProgress (ep_phase p) (ep_bytes_processed p) (ep_bytes_total p) n (ep_total_disks p).

(** The local [progress], the calls the callback has had, and the output file
    once it exists. *)
Record export_state (W : Type) := {
  es_progress : ExportProgress;
  es_reports : list ExportProgress;
  es_output : option W;
}.
Arguments es_progress {W} _.
Arguments es_reports {W} _.
Arguments es_output {W} _.
Arguments Build_export_state {W} _ _ _.

Definition sanitize_filename `{UnicodeTables} (name : str) : str :=
  map (fun c => if is_alphanumeric c || (c =? c_underscore) || (c =? c_minus) || (c =? c_dot) then c
                else c_underscore) name.

(** ** One disk *)

Section export.
  Context `{FileSystem} `{UnicodeTables} `{BuildProfile} `{Flate2} `{Rayon} {W : Type}.
  Abbreviation export_m := (M (export_state W) Error).

  (** [progress.field = value;]. *)
Definition set_progress (f : ExportProgress -> ExportProgress) : export_m () :=
  modify (fun s => Build_export_state (f (es_progress s)) (es_reports s) (es_output s)).

  (** [if let Some(ref callback) = progress_callback { callback(progress.clone()) }]. *)
Definition report (callback : bool) : export_m () :=
  modify (fun s => Build_export_state (es_progress s)
    (if callback then es_reports s ++ [es_progress s] else es_reports s) (es_output s)).

  (** [chunks.collect::<Result<Vec<_>>>()]: a file of [size] bytes has at most
      as many chunks, unless the chunk size is zero, when they never end. *)
Definition collect_chunks {S} (size : Z) (next : M S Error (option bytes)) (it : S) : Result (list bytes) :=
  drain_from (Datatypes.S (Z.to_nat size)) next it.

  (** The loop that writes the compressed chunks, which the three functions
      share but for the length they report for a chunk. *)
Fixpoint write_chunks (callback : bool) (chunk_size : Z) (original_chunk_size : Z -> Result Z)
    (chunk_idx bytes_written : Z) (compressed_chunks : list bytes) (vmdk_writer : StreamVmdkWriter Cursor)
    : export_m (StreamVmdkWriter Cursor) :=
  match compressed_chunks with
  | [] => mret vmdk_writer
  | compressed_chunk :: rest =>
      chunk_offset_bytes ← lift (mul_u64 chunk_idx chunk_size);
      let lba := chunk_offset_bytes / 512 in
      vmdk_writer ← lift (let '(r, w) := write_grain lba compressed_chunk vmdk_writer in _ ← r; Ok w);
      original ← lift (original_chunk_size chunk_idx);
      bytes_written ← lift (add_u64 bytes_written original);
      _ ← set_progress (with_bytes_processed bytes_written);
      _ ← report callback;
      write_chunks callback chunk_size original_chunk_size (chunk_idx + 1) bytes_written rest vmdk_writer
  end.

  (** Compress the chunks in parallel, then write them to a disk in memory. *)
Definition compress_and_write (callback : bool) (capacity_bytes : Z) (pipeline : Pipeline)
    (compression_level chunk_size : Z) (original_chunk_size : Z -> Result Z) (chunks : list bytes)
    : export_m bytes :=
  compressed_chunks ← lift (process pipeline chunks
                              (fun _ chunk => compress_grain chunk compression_level));
  vmdk_writer ← lift (StreamVmdkWriter_new cursor_new capacity_bytes);
  vmdk_writer ← write_chunks callback chunk_size original_chunk_size 0 0 compressed_chunks vmdk_writer;
  vmdk_buffer ← lift (StreamVmdkWriter_finish vmdk_writer);
  mret (cursor_buf vmdk_buffer).

  (** [if chunk_idx < n { chunk_size } else { total - chunk_idx * chunk_size }]. *)
Definition chunk_length (n total chunk_size chunk_idx : Z) : Result Z :=
  if chunk_idx <? n then Ok chunk_size
  else offset ← mul_u64 chunk_idx chunk_size; sub_u64 total offset.

Definition process_disk (callback : bool) (flat_path : str) (capacity_bytes : Z) (pipeline : Pipeline)
    (compression_level chunk_size : Z) : export_m bytes :=
  reader ← lift (VmdkReader_open flat_path);
  let file_size := VmdkReader_size reader in
  chunks ← lift (collect_chunks file_size ChunkIterator_next (Reader.chunks reader chunk_size));
  compress_and_write callback capacity_bytes pipeline compression_level chunk_size
    (fun chunk_idx => full ← div_u64 file_size chunk_size;
                      chunk_length full file_size chunk_size chunk_idx) chunks.

Definition process_sparse_disk (callback : bool) (sparse_path : str) (capacity_bytes : Z)
    (pipeline : Pipeline) (compression_level chunk_size : Z) : export_m bytes :=
  reader ← lift (SparseVmdkReader_open sparse_path);
  chunks ← lift (collect_chunks (capacity reader) SparseChunkIterator_next (sparse_chunks reader chunk_size));
  let total_chunks := zlen chunks in
  compress_and_write callback capacity_bytes pipeline compression_level chunk_size
    (fun chunk_idx => last ← sub_u64 total_chunks 1;
                      chunk_length last capacity_bytes chunk_size chunk_idx) chunks.

(** ** Split disks *)

  (** [while partial_chunk.len() >= chunk_size { .. drain(..chunk_size) .. }]:
      the chunks it pushes and the rest.  A round shortens the rest by the
      chunk size; with a chunk size of zero the loop never ends. *)
Fixpoint drain_full (fuel : nat) (chunk_size : Z) (all_chunks : list bytes) (partial_chunk : bytes)
    : Result (list bytes * bytes) :=
  if chunk_size <=? zlen partial_chunk then
    match fuel with
    | O => Diverge
    | Datatypes.S f =>
        drain_full f chunk_size (all_chunks ++ [ztake chunk_size partial_chunk])
          (zdrop chunk_size partial_chunk)
    end
  else Ok (all_chunks, partial_chunk).

  (** The body of the loop over the chunks of an extent. *)
Definition absorb (chunk_size : Z) (all_chunks : list bytes) (partial_chunk chunk : bytes)
    : Result (list bytes * bytes) :=
  if negb (bool_decide (partial_chunk = [])) then
    let partial_chunk := partial_chunk ++ chunk in
    drain_full (length partial_chunk) chunk_size all_chunks partial_chunk
  else if zlen chunk =? chunk_size then Ok (all_chunks ++ [chunk], partial_chunk)
  else Ok (all_chunks, chunk).

  (** [for chunk_result in reader.chunks(chunk_size) { .. }]. *)
Fixpoint extent_chunks (fuel : nat) (chunk_size : Z) (it : SparseChunkIterator)
    (all_chunks : list bytes) (partial_chunk : bytes) : Result (list bytes * bytes) :=
  match fuel with
  | O => Diverge
  | Datatypes.S f =>
      let '(r, it') := SparseChunkIterator_next it in
      x ← r;
      match x with
      | None => Ok (all_chunks, partial_chunk)
      | Some chunk =>
          '(all_chunks, partial_chunk) ← absorb chunk_size all_chunks partial_chunk chunk;
          extent_chunks f chunk_size it' all_chunks partial_chunk
      end
  end.

Fixpoint extents_chunks (base_dir : str) (chunk_size : Z) (extents : list Extent)
    (all_chunks : list bytes) (partial_chunk : bytes) : Result (list bytes * bytes) :=
  match extents with
  | [] => Ok (all_chunks, partial_chunk)
  | extent :: rest =>
      let extent_path := path_join base_dir (ex_filename extent) in
      reader ← SparseVmdkReader_open extent_path;
      '(all_chunks, partial_chunk) ←
        extent_chunks (Datatypes.S (Z.to_nat (capacity reader))) chunk_size
          (sparse_chunks reader chunk_size) all_chunks partial_chunk;
      extents_chunks base_dir chunk_size rest all_chunks partial_chunk
  end.

Definition process_split_sparse_disk (callback : bool) (extents : list Extent) (base_dir : str)
    (capacity_bytes : Z) (pipeline : Pipeline) (compression_level chunk_size : Z) : export_m bytes :=
  '(all_chunks, partial_chunk) ← lift (extents_chunks base_dir chunk_size extents [] []);
  let all_chunks := if negb (bool_decide (partial_chunk = [])) then all_chunks ++ [partial_chunk]
                    else all_chunks in
  let total_chunks := zlen all_chunks in
  compress_and_write callback capacity_bytes pipeline compression_level chunk_size
    (fun chunk_idx => last ← sub_u64 total_chunks 1;
                      chunk_length last capacity_bytes chunk_size chunk_idx) all_chunks.

(** ** The kind of a disk *)

  (** The local [enum DiskType]. *)
Inductive DiskType :=
| MonolithicSparse (path : str) (capacity : Z)
| FlatDisk (path : str) (capacity : Z)
| SplitSparse (extents : list Extent) (base_dir : str) (capacity : Z).

Definition is_type (t : ExtentType) (e : Extent) : bool := bool_decide (ex_extent_type e = t).

Definition no_extent : Error :=
  Error.vmdk (lit "No supported extent type found in VMDK descriptor (expected FLAT or SPARSE)").

Definition read_descriptor (vmdk_path : str) : Result VmdkDescriptor :=
  content ← map_err (fun e => Error.io e vmdk_path) (read_to_string vmdk_path);
  parse_descriptor content.

Definition disk_type_of (vmx_dir vmdk_path : str) : Result DiskType :=
  sparse ← is_sparse_vmdk vmdk_path;
  if sparse : bool then
    sparse_reader ← SparseVmdkReader_open vmdk_path;
    Ok (MonolithicSparse vmdk_path (capacity sparse_reader))
  else
  descriptor ← read_descriptor vmdk_path;
  capacity ← disk_size_bytes descriptor;
  match List.find (is_type Flat) (vd_extents descriptor) with
  | Some flat_extent => Ok (FlatDisk (path_join vmx_dir (ex_filename flat_extent)) capacity)
  | None =>
      let sparse_extents := List.filter (is_type Descriptor.Sparse) (vd_extents descriptor) in
      if negb (bool_decide (sparse_extents = [])) then Ok (SplitSparse sparse_extents vmx_dir capacity)
      else Err no_extent
  end.

Definition disk_capacity (t : DiskType) : Z :=
  match t with MonolithicSparse _ c | FlatDisk _ c | SplitSparse _ _ c => c end.

  (** The [match disk_type] that compresses the disk. *)
Definition compress_disk (callback : bool) (pipeline : Pipeline) (compression_level chunk_size : Z)
    (t : DiskType) : export_m (bytes * Z) :=
  match t with
  | MonolithicSparse path capacity =>
      vmdk ← process_sparse_disk callback path capacity pipeline compression_level chunk_size;
      mret (vmdk, capacity)
  | FlatDisk path capacity =>
      vmdk ← process_disk callback path capacity pipeline compression_level chunk_size;
      mret (vmdk, capacity)
  | SplitSparse extents base_dir capacity =>
      vmdk ← process_split_sparse_disk callback extents base_dir capacity pipeline compression_level
               chunk_size;
      mret (vmdk, capacity)
  end.

(** ** Sizes *)

  (** [if path.exists() { total += fs::metadata(path)?.len(); }]. *)
Definition add_file_len (total : Z) (path : str) : Result Z :=
  if path_exists path then
    len ← map_err (fun e => Error.io e path) (metadata_len path);
    add_u64 total len
  else Ok total.

Fixpoint add_file_lens (total : Z) (paths : list str) : Result Z :=
  match paths with
  | [] => Ok total
  | path :: rest => total ← add_file_len total path; add_file_lens total rest
  end.

  (** One round of [calculate_total_disk_size]. *)
Definition add_disk_size (vmx_dir : str) (total : Z) (disk_config : DiskConfig) : Result Z :=
  let vmdk_path := path_join vmx_dir (dc_file_name disk_config) in
  if path_exists vmdk_path then
    sparse ← is_sparse_vmdk vmdk_path;
    if sparse : bool then
      sparse_reader ← SparseVmdkReader_open vmdk_path;
      add_u64 total (capacity sparse_reader)
    else
    descriptor ← read_descriptor vmdk_path;
    match List.find (is_type Flat) (vd_extents descriptor) with
    | Some flat_extent => add_file_len total (path_join vmx_dir (ex_filename flat_extent))
    | None =>
        add_file_lens total
          (map (fun extent => path_join vmx_dir (ex_filename extent))
             (List.filter (is_type Descriptor.Sparse) (vd_extents descriptor)))
    end
  else Ok total.

Fixpoint add_disk_sizes (vmx_dir : str) (total : Z) (disks : list DiskConfig) : Result Z :=
  match disks with
  | [] => Ok total
  | disk_config :: rest => total ← add_disk_size vmx_dir total disk_config; add_disk_sizes vmx_dir total rest
  end.

Definition calculate_total_disk_size (config : VmxConfig) (vmx_dir : str) : Result Z :=
  add_disk_sizes vmx_dir 0 (vc_disks config).

(** ** [get_vm_info] *)

Record DiskDetail := { dd_filename : str; dd_size_bytes : Z; dd_create_type : str }.

Record VmInfo := {
  vi_name : str;
  vi_guest_os : str;
  vi_memory_mb : Z;
  vi_cpus : Z;
  vi_disks : list DiskDetail;
  vi_total_disk_size : Z;
}.

Definition no_parent : Error := Error.vmx_parse (lit "VMX path has no parent directory").

  (** The size and the create type of one disk. *)
Definition disk_detail (vmx_dir : str) (disk_config : DiskConfig) : Result (Z * str) :=
  let vmdk_path := path_join vmx_dir (dc_file_name disk_config) in
  if path_exists vmdk_path then
    sparse ← is_sparse_vmdk vmdk_path;
    if sparse : bool then
      sparse_reader ← SparseVmdkReader_open vmdk_path;
      Ok (capacity sparse_reader, lit "monolithicSparse")
    else
    descriptor ← read_descriptor vmdk_path;
    size ← disk_size_bytes descriptor;
    Ok (size, vd_create_type descriptor)
  else
  let flat_name := replace (lit ".vmdk") (lit "-flat.vmdk") (dc_file_name disk_config) in
  let flat_path := path_join vmx_dir flat_name in
  if path_exists flat_path then
    len ← map_err (fun e => Error.io e flat_path) (metadata_len flat_path);
    Ok (len, lit "monolithicFlat")
  else Ok (0, lit "unknown").

Fixpoint disk_details (vmx_dir : str) (total_disk_size : Z) (disks : list DiskConfig)
    : Result (list DiskDetail * Z) :=
  match disks with
  | [] => Ok ([], total_disk_size)
  | disk_config :: rest =>
      '(size_bytes, create_type) ← disk_detail vmx_dir disk_config;
      total_disk_size ← add_u64 total_disk_size size_bytes;
      '(details, total_disk_size) ← disk_details vmx_dir total_disk_size rest;
      Ok ({| dd_filename := dc_file_name disk_config; dd_size_bytes := size_bytes;
             dd_create_type := create_type |} :: details, total_disk_size)
  end.

Definition get_vm_info `{HashOrder} (vmx_path : str) : Result VmInfo :=
  config ← parse_vmx vmx_path;
  vmx_dir ← ok_or (path_parent vmx_path) no_parent;
  '(disks, total_disk_size) ← disk_details vmx_dir 0 (vc_disks config);
  Ok {| vi_name := vc_display_name config; vi_guest_os := vc_guest_os config;
        vi_memory_mb := vc_memory_mb config; vi_cpus := vc_num_cpus config;
        vi_disks := disks; vi_total_disk_size := total_disk_size |}.

(** ** [export_vm]

    [file_create] is [File::create]; [now i] is the clock, in seconds from the
    epoch, when the [i]-th header of the archive is made. *)
  Context `{Write W} `{Sha2} `{HashOrder} (file_create : str -> io_result W) (now : nat -> Z).

  (** A call on the archive, which writes through to the output file. *)
Definition on_archive {A} (m : M (OvaWriter W) Error A) (ova_writer : OvaWriter W)
    : export_m (OvaWriter W) :=
  fun s =>
    let '(r, ova_writer) := m ova_writer in
    (_ ← r; Ok ova_writer,
     Build_export_state (es_progress s) (es_reports s) (Some (ow_writer ova_writer))).

  (** The loop over the disks: the files to write and their descriptions. *)
Fixpoint compress_disks (callback : bool) (options : ExportOptions) (pipeline : Pipeline)
    (vmx_dir : str) (disk_index : Z) (disks : list DiskConfig)
    (disk_infos : list DiskInfo) (vmdk_buffers : list (str * bytes * Z))
    : export_m (list DiskInfo * list (str * bytes * Z)) :=
  match disks with
  | [] => mret (disk_infos, vmdk_buffers)
  | disk_config :: rest =>
      _ ← set_progress (with_phase Compressing);
      _ ← set_progress (with_current_disk (disk_index + 1));
      _ ← report callback;
      let vmdk_path := path_join vmx_dir (dc_file_name disk_config) in
      disk_type ← lift (disk_type_of vmx_dir vmdk_path);
      '(compressed_vmdk, capacity_bytes) ←
        compress_disk callback pipeline (compression_level pipeline) (eo_chunk_size options) disk_type;
      let output_filename := dc_file_name disk_config in
      compress_disks callback options pipeline vmx_dir (disk_index + 1) rest
        (disk_infos ++ [{| di_id := fmt (lit "vmdisk{}") [show_dec (disk_index + 1)];
                           di_file_ref := fmt (lit "file{}") [show_dec (disk_index + 1)];
                           di_capacity_bytes := capacity_bytes;
                           di_file_size_bytes := 0 |}])
        (vmdk_buffers ++ [(output_filename, compressed_vmdk, capacity_bytes)])
  end.

  (** [disk_infos[i].file_size_bytes = n], which panics out of range. *)
Definition set_file_size (i : nat) (n : Z) (disk_infos : list DiskInfo) : Result (list DiskInfo) :=
  match disk_infos !! i with
  | Some d => Ok (<[i := {| di_id := di_id d; di_file_ref := di_file_ref d;
                            di_capacity_bytes := di_capacity_bytes d; di_file_size_bytes := n |}]> disk_infos)
  | None => Panic
  end.

Fixpoint write_disks (i : nat) (vmdk_buffers : list (str * bytes * Z)) (disk_infos : list DiskInfo)
    (ova_writer : OvaWriter W) : export_m (list DiskInfo * OvaWriter W) :=
  match vmdk_buffers with
  | [] => mret (disk_infos, ova_writer)
  | (filename, vmdk_data, _) :: rest =>
      disk_infos ← lift (set_file_size i (zlen vmdk_data) disk_infos);
      ova_writer ← on_archive (add_file (now i) filename vmdk_data) ova_writer;
      write_disks (Datatypes.S i) rest disk_infos ova_writer
  end.

Definition export_vm (callback : bool) (vmx_path output_path : str) (options : ExportOptions) : export_m () :=
  config ← lift (parse_vmx vmx_path);
  vmx_dir ← lift (ok_or (path_parent vmx_path) no_parent);
  total_disk_size ← lift (calculate_total_disk_size config vmx_dir);
  let total_disks := zlen (vc_disks config) in
  _ ← set_progress (fun _ => ExportProgress_new Parsing total_disk_size total_disks);
  _ ← report callback;
  let pipeline_config := PipelineConfig_new (eo_chunk_size options) (eo_compression options)
                           (eo_num_threads options) in
  pipeline ← lift (Pipeline_new pipeline_config);
  output_file ← lift (map_err (fun e => Error.io e output_path) (file_create output_path));
  _ ← modify (fun s => Build_export_state (es_progress s) (es_reports s) (Some output_file));
  ova_writer ← lift (OvaWriter_new output_file);
  '(disk_infos, vmdk_buffers) ← compress_disks callback options pipeline vmx_dir 0 (vc_disks config) [] [];
  _ ← set_progress (with_phase Writing);
  _ ← report callback;
  '(disk_infos, ova_writer) ← write_disks 0 vmdk_buffers disk_infos ova_writer;
  _ ← set_progress (with_phase Finalizing);
  _ ← report callback;
  let ovf_builder := OvfBuilder_new config in
  ovf_xml ← lift (build ovf_builder disk_infos);
  let ovf_filename := fmt (lit "{}.ovf") [sanitize_filename (vc_display_name config)] in
  let n := length vmdk_buffers in
  ova_writer ← on_archive (add_file (now n) ovf_filename (utf8_encode ovf_xml)) ova_writer;
  _ ← on_archive (ova_finish_body (now (Datatypes.S n))) ova_writer;
  _ ← set_progress (with_phase Complete);
  _ ← set_progress (fun p => with_bytes_processed (ep_bytes_total p) p);
  report callback.
End export.
