(* ===== verification/ExportSpec.v ===== *)
(** * ExportSpec: a disk is exported, whichever way it is stored

    The three functions of the export that read a disk produce one and the
    same image of its contents, and the image holds the contents. *)
From S2P Require Export Export ReaderSpec SparseSpec StreamSpec PipelineSpec.

(** ** The chunk loop *)

(** What the loop over the chunks does to the state: one report per chunk,
    with the bytes up to it. *)
Definition reported {W} (callback : bool) (n : Z) (s : export_state W) : export_state W :=
  let p := with_bytes_processed n (es_progress s) in
  Build_export_state p (if callback then es_reports s ++ [p] else es_reports s) (es_output s).

Fixpoint progressed {W} (callback : bool) (n : Z) (lens : list Z) (s : export_state W) : export_state W :=
  match lens with
  | [] => s
  | l :: rest => progressed callback (n + l) rest (reported callback (n + l) s)
  end.

(** The grains the chunks are written as. *)
Definition chunk_grains (cs idx : Z) (l : list bytes) : list (Z * bytes) :=
  imap (fun j c => ((idx + Z.of_nat j) * cs / 512, c)) l.

Lemma chunk_grains_cons cs idx c l :
  chunk_grains cs idx (c :: l) = (idx * cs / 512, c) :: chunk_grains cs (idx + 1) l.
Proof.
  unfold chunk_grains. cbn [imap]. rewrite Z.add_0_r. f_equal. apply imap_ext. intros j x _.
  unfold compose. f_equal. f_equal. f_equal. lia.
Qed.

Section write_chunks.
  Context `{FileSystem} `{UnicodeTables} `{BuildProfile} `{Flate2} `{Rayon} {W : Type}.
  Context (callback : bool) (cs : Z) (original : Z -> Result Z).

(** The chunks [idx ..] have the lengths [lens], and nothing overflows. *)
Fixpoint lens_ok (idx n : Z) (lens : list Z) : Prop :=
  match lens with
  | [] => True
  | l :: rest =>
      is_u64 (idx * cs) /\ original idx = Ok l /\ is_u64 (n + l) /\ lens_ok (idx + 1) (n + l) rest
  end.

Lemma write_chunks_spec idx n lens l (w w' : StreamVmdkWriter Cursor) (s : export_state W) :
  lens_ok idx n lens -> length l = length lens ->
  write_grains (chunk_grains cs idx l) w = (Ok tt, w') ->
  write_chunks callback cs original idx n l w s = (Ok w', progressed callback n lens s).
Proof.
  revert idx n lens w s. induction l as [|c l IH]; intros idx n lens w s Hl Hlen Hw.
  { destruct lens; [|done]. by injection Hw as <-. }
  destruct lens as [|len lens]; [done|]. destruct Hl as (Hi & Ho & Hn & Hl).
  rewrite chunk_grains_cons in Hw. cbn [write_grains] in Hw.
  apply M_bind_Ok in Hw as ([] & w1 & Hg & Hw). cbn [write_chunks].
  unfold mul_u64. rewrite checked_ok by done. rewrite (M_bind_step (lift _) _ s _ s eq_refl).
  cbv zeta. erewrite (M_bind_step (lift _)); [|unfold lift; rewrite Hg; reflexivity]. rewrite Ho.
  rewrite (M_bind_step (lift _) _ s len s eq_refl). unfold add_u64. rewrite checked_ok by done.
  rewrite (M_bind_step (lift _) _ s _ s eq_refl).
  rewrite (M_bind_step (set_progress _) _ s tt _ eq_refl).
  rewrite (M_bind_step (report _) _ _ tt (reported callback (n + len) s)) by (by destruct callback).
  cbn [progressed]. apply IH; [done|by injection Hlen|done].
Qed.
End write_chunks.

(** Chunk [i] of contents of [n] bytes. *)
Lemma chunk_len cs (d : bytes) i l :
  0 < cs -> map zlen (split_chunks cs d) !! i = Some l ->
  l = Z.min cs (zlen d - Z.of_nat i * cs) /\ Z.of_nat i * cs < zlen d.
Proof.
  intros Hcs Hl. change (map zlen (split_chunks cs d)) with (zlen <$> split_chunks cs d) in Hl.
  rewrite list_lookup_fmap in Hl. destruct (split_chunks cs d !! i) as [c|] eqn:E; [|done].
  injection Hl as <-. apply split_chunks_lookup in E as [Hlt ->]; [|done].
  rewrite zlen_zslice by lia. lia.
Qed.

Lemma sum_chunk_lens cs (d : bytes) :
  0 < cs -> foldr Z.add 0 (map zlen (split_chunks cs d)) = zlen d.
Proof.
  intros Hcs. rewrite <- (split_chunks_concat cs Hcs d) at 2.
  induction (split_chunks cs d) as [|c l IH]; [done|]. cbn [map foldr concat]. rewrite zlen_app. lia.
Qed.

Lemma lens_ok_intro cs original idx n lens :
  (forall i l, lens !! i = Some l -> 0 <= l /\
     original (idx + Z.of_nat i) = Ok l /\ is_u64 ((idx + Z.of_nat i) * cs)) ->
  0 <= n -> n + foldr Z.add 0 lens < 2 ^ 64 -> lens_ok cs original idx n lens.
Proof.
  revert idx n. induction lens as [|l lens IH]; intros idx n Hl Hn Hsum; [done|]. cbn [lens_ok foldr] in *.
  destruct (Hl O l eq_refl) as (Hl0 & Ho & Hi). rewrite Z.add_0_r in Ho, Hi.
  assert (Hnn : 0 <= foldr Z.add 0 lens).
  { clear - Hl. assert (Hall : forall i x, lens !! i = Some x -> 0 <= x) by (intros i x Hx; by apply (Hl (S i) x)).
    clear Hl. induction lens as [|x xs IHx]; [done|]. cbn. pose proof (Hall O x eq_refl).
    specialize (IHx (fun i y Hy => Hall (S i) y Hy)). lia. }
  split_and!; [done|done|unfold is_u; lia|]. apply IH; [|lia|lia]. intros i x Hx.
  replace (idx + 1 + Z.of_nat i) with (idx + Z.of_nat (S i)) by lia. by apply (Hl (S i)).
Qed.

Section lengths.
  Context `{BuildProfile} (cs : Z) (d : bytes).
  Hypothesis (Hcs : 0 < cs) (Hd : zlen d < 2 ^ 64).

Lemma chunk_length_ok n i l :
  map zlen (split_chunks cs d) !! i = Some l -> (Z.of_nat i < n -> (Z.of_nat i + 1) * cs <= zlen d) ->
  (n <= Z.of_nat i -> zlen d <= (Z.of_nat i + 1) * cs) ->
  chunk_length n (zlen d) cs (Z.of_nat i) = Ok l.
Proof.
  intros [-> Hlt]%chunk_len Hfull Hlast; [|done]. unfold chunk_length. destruct (Z.ltb_spec (Z.of_nat i) n).
  - f_equal. lia.
  - unfold mul_u64, sub_u64. zlen_pos. rewrite checked_ok by (unfold is_u; nia). cbn [mbind outcome_bind].
    rewrite checked_ok by (unfold is_u; lia). f_equal. lia.
Qed.

Lemma flat_lens_ok :
  lens_ok cs (fun i => full ← div_u64 (zlen d) cs; chunk_length full (zlen d) cs i) 0 0
    (map zlen (split_chunks cs d)).
Proof.
  apply lens_ok_intro; [|lia|rewrite sum_chunk_lens by done; lia]. intros i l Hl. rewrite Z.add_0_l.
  pose proof (chunk_len cs d i l Hcs Hl) as [Hmin Hlt]. split_and!; [lia| |unfold is_u; nia].
  rewrite div_u64_ok by lia. cbn [mbind outcome_bind].
  pose proof (Z.div_mod (zlen d) cs ltac:(lia)). pose proof (Z.mod_pos_bound (zlen d) cs Hcs).
  apply chunk_length_ok; [done|nia|nia].
Qed.

Lemma sparse_lens_ok :
  lens_ok cs (fun i => last ← sub_u64 (zlen (split_chunks cs d)) 1; chunk_length last (zlen d) cs i) 0 0
    (map zlen (split_chunks cs d)).
Proof.
  apply lens_ok_intro; [|lia|rewrite sum_chunk_lens by done; lia]. intros i l Hl. rewrite Z.add_0_l.
  pose proof (chunk_len cs d i l Hcs Hl) as [Hmin Hlt]. split_and!; [lia| |unfold is_u; nia].
  pose proof (ceil_div_bounds (zlen d) cs Hcs ltac:(zlen_pos; lia)) as Hb.
  rewrite <- split_chunks_length in Hb by done.
  assert (Hi : Z.of_nat i < zlen (split_chunks cs d)).
  { apply lookup_lt_Some in Hl. rewrite length_map in Hl. unfold zlen. lia. }
  unfold sub_u64. rewrite checked_ok by (unfold is_u; nia). cbn [mbind outcome_bind].
  apply chunk_length_ok; [done|nia|nia].
Qed.
End lengths.

(** ** The image of a disk *)

Section image.
  Context `{Flate2}.

(** The chunks of the contents compressed and written as grains. *)
Definition disk_image (cap level cs : Z) (d : bytes) : Result bytes :=
  compressed ← collect (map (fun chunk => compress_grain chunk level) (split_chunks cs d));
  w ← write_disk cursor_new cap (chunk_grains cs 0 compressed);
  Ok (cursor_buf w).

Lemma compress_grain_total `{!Flate2Laws} chunk level :
  exists c, compress_grain chunk level = Ok c /\ deflate_finish level chunk = Ok c.
Proof.
  destruct (deflate_total level chunk) as [c Hc]. exists c. split; [|done].
  unfold compress_grain. rewrite deflate_write_ok, Hc. reflexivity.
Qed.

Lemma compress_all `{!Flate2Laws} level chunks :
  exists cc, collect (map (fun chunk => compress_grain chunk level) chunks) = Ok cc /\
    length cc = length chunks /\
    (forall i chunk, chunks !! i = Some chunk ->
       exists c, cc !! i = Some c /\ deflate_finish level chunk = Ok c).
Proof.
  induction chunks as [|chunk l IH]; [by exists []|]. destruct IH as (cc & E & Hlen & Hcc).
  destruct (compress_grain_total chunk level) as (c & Hc & Hd). exists (c :: cc). cbn. rewrite Hc. cbn.
  rewrite E. cbn. split_and!; [done|by rewrite Hlen|]. intros [|i] k; cbn; [|by apply Hcc].
  intros [= <-]. by exists c.
Qed.

Lemma write_disk_total cap gs : exists w, write_disk cursor_new cap gs = Ok w.
Proof.
  pose proof (write_disk_comes_back true cursor_new cap gs (fun _ => write_all_total)
    (fun _ => flush_some) eq_refl) as Hr.
  destruct (write_disk cursor_new cap gs) as [w|e| |]; [by exists w|discriminate Hr|destruct Hr..].
Qed.

Lemma disk_image_total `{!Flate2Laws} cap level cs d : exists vmdk, disk_image cap level cs d = Ok vmdk.
Proof.
  unfold disk_image. destruct (compress_all level (split_chunks cs d)) as (cc & -> & _). cbn.
  destruct (write_disk_total cap (chunk_grains cs 0 cc)) as [w ->]. by eexists.
Qed.
End image.

Section disks.
  Context `{FileSystem} `{UnicodeTables} `{BuildProfile} `{Flate2Laws} `{RayonLaws} {W : Type}.
  Implicit Type s : export_state W.

Lemma compress_and_write_spec cb cap (p : Pipeline) level cs original d s vmdk :
  lens_ok cs original 0 0 (map zlen (split_chunks cs d)) ->
  disk_image cap level cs d = Ok vmdk ->
  compress_and_write cb cap p level cs original (split_chunks cs d) s
    = (Ok vmdk, progressed cb 0 (map zlen (split_chunks cs d)) s).
Proof.
  intros Hl Hi. unfold disk_image in Hi.
  apply bind_Ok in Hi as (cc & Hcc & Hi). apply bind_Ok in Hi as (w & Hw & [= <-]).
  unfold compress_and_write.
  rewrite (process_ok p _ (fun _ chunk => compress_grain chunk level) cc) by
    (rewrite <- Hcc; f_equal; symmetry; apply map_as_imap).
  apply collect_Ok in Hcc. apply (f_equal (@length _)) in Hcc.
  rewrite length_map, length_fmap in Hcc.
  unfold write_disk in Hw. apply bind_Ok in Hw as (w0 & Hnew & Hw).
  destruct (write_grains (chunk_grains cs 0 cc) w0) as [r w1] eqn:Eg.
  apply bind_Ok in Hw as ([] & -> & Hfin).
  rewrite (M_bind_step (lift _) _ s cc s eq_refl), Hnew, (M_bind_step (lift _) _ s w0 s eq_refl).
  rewrite (M_bind_step _ _ s w1 _ (write_chunks_spec cb cs original 0 0 _ cc w0 w1 s Hl
    ltac:(by rewrite length_map) Eg)).
  by rewrite Hfin, (M_bind_step (lift _) _ _ w _ eq_refl).
Qed.

(** ** The three readers *)

Lemma process_disk_spec `{!MmapLaws} cb path cap (p : Pipeline) level cs d s vmdk :
  file_open path = Ok d -> 0 < cs -> zlen d < 2 ^ 64 -> disk_image cap level cs d = Ok vmdk ->
  process_disk cb path cap p level cs s = (Ok vmdk, progressed cb 0 (map zlen (split_chunks cs d)) s).
Proof.
  intros Hf Hcs Hd Hi. unfold process_disk. rewrite VmdkReader_open_spec, Hf.
  rewrite (M_bind_step (lift _) _ s _ s eq_refl). cbv zeta. cbn [VmdkReader_size vr_size].
  unfold collect_chunks. change (chunks _ cs) with (ci_at d cs 0).
  rewrite drain_chunks by (zlen_pos; lia). change (zdrop 0 d) with d.
  rewrite (M_bind_step (lift _) _ s _ s eq_refl).
  apply compress_and_write_spec; [by apply flat_lens_ok|done].
Qed.

Lemma process_sparse_disk_spec cb path (p : Pipeline) level cs r s vmdk :
  SparseVmdkReader_open path = Ok r -> svr_wf r -> grains_readable r (grains_of (svr_header r)) ->
  0 < cs -> disk_image (capacity r) level cs (virtual_disk r) = Ok vmdk ->
  process_sparse_disk cb path (capacity r) p level cs s
    = (Ok vmdk, progressed cb 0 (map zlen (split_chunks cs (virtual_disk r))) s).
Proof.
  intros Ho Hwf Hg Hcs Hi. unfold process_sparse_disk. rewrite Ho.
  pose proof (zlen_virtual_disk r Hwf Hg) as Hlen. pose proof (capacity_in_grains r Hwf) as [_ Hcap].
  pose proof (geo_capacity_bytes _ (svr_geometry _ Hwf)) as Hmax.
  rewrite (M_bind_step (lift _) _ s _ s eq_refl). unfold collect_chunks, capacity in *.
  change (sparse_chunks r cs) with (sci_at r cs 0). rewrite drain_sparse_chunks by (done || lia).
  change (zdrop 0 (virtual_disk r)) with (virtual_disk r).
  rewrite (M_bind_step (lift _) _ s _ s eq_refl).
  rewrite <- Hlen in Hi |- *. apply compress_and_write_spec; [|done].
  apply sparse_lens_ok; [done|]. rewrite Hlen, (svr_capacity _ Hwf). done.
Qed.

(** ** Merging the chunks of extents *)

(** The chunks taken so far and the rest carried over, after the bytes [d]. *)
Definition merged (cs : Z) (all_chunks : list bytes) (partial d : bytes) : Prop :=
  concat all_chunks ++ partial = d /\ Forall (fun c => zlen c = cs) all_chunks /\ zlen partial < cs.

Lemma merged_split cs all_chunks partial d :
  merged cs all_chunks partial d ->
  (if negb (bool_decide (partial = [])) then all_chunks ++ [partial] else all_chunks) = split_chunks cs d.
Proof.
  intros (<- & Hall & Hp). pose proof (zlen_nonneg partial).
  induction Hall as [|c l Hc Hall IH]; cbn [concat app].
  - case_bool_decide as E; [by subst|]. cbn [negb]. rewrite split_chunks_small; [done|lia|].
    split; [|lia]. destruct partial; [done|]. rewrite zlen_cons. zlen_pos. lia.
  - rewrite <- app_assoc, split_chunks_app by (lia || (rewrite Hc; apply Z.mod_same; lia)).
    rewrite (split_chunks_small cs ltac:(lia) c) by lia. rewrite <- IH. by case_bool_decide.
Qed.

Lemma drain_full_merges fuel cs all_chunks partial d :
  0 < cs -> concat all_chunks ++ partial = d -> Forall (fun c => zlen c = cs) all_chunks ->
  zlen partial <= Z.of_nat fuel ->
  exists all' partial', drain_full fuel cs all_chunks partial = Ok (all', partial') /\
    merged cs all' partial' d.
Proof.
  intros Hcs. revert all_chunks partial. induction fuel as [|f IH]; intros all_chunks partial Hd Hall Hf;
    cbn [drain_full]; destruct (Z.leb_spec cs (zlen partial)); try lia;
    try (by exists all_chunks, partial).
  apply IH.
  - by rewrite concat_app, <- app_assoc; cbn [concat]; rewrite app_nil_r, ztake_zdrop.
  - apply Forall_app. split; [done|]. constructor; [|constructor]. rewrite zlen_ztake. lia.
  - rewrite zlen_zdrop. lia.
Qed.

Lemma absorb_merges cs all_chunks partial chunk d :
  0 < cs -> merged cs all_chunks partial d -> zlen chunk <= cs ->
  exists all' partial', absorb cs all_chunks partial chunk = Ok (all', partial') /\
    merged cs all' partial' (d ++ chunk).
Proof.
  intros Hcs (<- & Hall & Hp) Hc. unfold absorb. case_bool_decide as E; cbn [negb].
  - subst partial. destruct (Z.eqb_spec (zlen chunk) cs).
    + exists (all_chunks ++ [chunk]), []. split; [done|]. split_and!.
      * by rewrite concat_app; cbn [concat]; rewrite !app_nil_r.
      * apply Forall_app. split; [done|]. by repeat constructor.
      * cbn. lia.
    + exists all_chunks, chunk. split; [done|]. split_and!; [by rewrite app_nil_r|done|lia].
  - apply drain_full_merges; [done|by rewrite app_assoc|done|unfold zlen; lia].
Qed.

Lemma extent_chunks_merges cs r off fuel all_chunks partial d :
  svr_wf r -> grains_readable r (grains_of (svr_header r)) ->
  0 < cs -> 0 <= off -> capacity r - off <= Z.of_nat fuel -> merged cs all_chunks partial d ->
  exists all' partial', extent_chunks (S fuel) cs (sci_at r cs off) all_chunks partial = Ok (all', partial') /\
    merged cs all' partial' (d ++ zdrop off (virtual_disk r)).
Proof.
  intros Hwf Hg Hcs. pose proof (zlen_virtual_disk r Hwf Hg) as Hlen. unfold capacity.
  revert off all_chunks partial d. induction fuel as [|f IH]; intros off all_chunks partial d Ho Hf Hm;
    cbn [extent_chunks]; rewrite SparseChunkIterator_next_at by done;
    destruct (Z.leb_spec (svr_capacity_bytes r) off); try lia;
    try (by exists all_chunks, partial; rewrite zdrop_all, app_nil_r by lia).
  cbn [mbind outcome_bind].
  destruct (absorb_merges cs all_chunks partial (ztake cs (zdrop off (virtual_disk r))) d)
    as (a1 & p1 & -> & Hm1); [done|done|rewrite zlen_ztake; lia|]. cbn [mbind outcome_bind].
  destruct (IH (off + Z.min (svr_capacity_bytes r - off) cs) a1 p1 _ ltac:(lia) ltac:(lia) Hm1)
    as (a2 & p2 & E2 & Hm2).
  exists a2, p2. split; [exact E2|]. rewrite <- app_assoc in Hm2.
  replace (zdrop off (virtual_disk r)) with
    (ztake cs (zdrop off (virtual_disk r)) ++ zdrop (off + Z.min (svr_capacity_bytes r - off) cs) (virtual_disk r));
    [done|].
  rewrite <- (ztake_zdrop cs (zdrop off (virtual_disk r))) at 2. f_equal. rewrite zdrop_zdrop by lia.
  destruct (Z.le_ge_cases cs (svr_capacity_bytes r - off)); [by rewrite Z.min_r|].
  rewrite Z.min_l by done. by rewrite !zdrop_all by lia.
Qed.

(** The reader an extent file opens as, with readable grains. *)
Definition extent_opens (base_dir : str) (e : Extent) (r : SparseVmdkReader) : Prop :=
  SparseVmdkReader_open (path_join base_dir (ex_filename e)) = Ok r /\ svr_wf r /\
  grains_readable r (grains_of (svr_header r)).

Lemma extents_chunks_merges base_dir cs extents rs all_chunks partial d :
  0 < cs -> Forall2 (extent_opens base_dir) extents rs -> merged cs all_chunks partial d ->
  exists all' partial', extents_chunks base_dir cs extents all_chunks partial = Ok (all', partial') /\
    merged cs all' partial' (d ++ concat (map virtual_disk rs)).
Proof.
  intros Hcs Hes. revert all_chunks partial d.
  induction Hes as [|e r es rs (Ho & Hwf & Hg) _ IH]; intros all_chunks partial d Hm; cbn [extents_chunks].
  { exists all_chunks, partial. by rewrite app_nil_r. }
  cbv zeta. rewrite Ho. cbn [mbind outcome_bind].
  pose proof (capacity_in_grains r Hwf) as [_ Hcap]. unfold capacity.
  destruct (extent_chunks_merges cs r 0 (Z.to_nat (svr_capacity_bytes r)) all_chunks partial d)
    as (a1 & p1 & E1 & Hm1); [done|done|done|lia|unfold capacity; lia|done|].
  change (sci_at r cs 0) with (sparse_chunks r cs) in E1. rewrite E1. cbn [mbind outcome_bind].
  destruct (IH a1 p1 _ Hm1) as (a2 & p2 & E2 & Hm2). exists a2, p2. split; [done|].
  cbn [map concat]. change (zdrop 0 (virtual_disk r)) with (virtual_disk r) in Hm2. by rewrite app_assoc.
Qed.

Lemma process_split_spec cb extents base_dir (p : Pipeline) level cs rs s vmdk :
  Forall2 (extent_opens base_dir) extents rs -> 0 < cs ->
  zlen (concat (map virtual_disk rs)) < 2 ^ 64 ->
  disk_image (zlen (concat (map virtual_disk rs))) level cs (concat (map virtual_disk rs)) = Ok vmdk ->
  process_split_sparse_disk cb extents base_dir (zlen (concat (map virtual_disk rs))) p level cs s
    = (Ok vmdk, progressed cb 0 (map zlen (split_chunks cs (concat (map virtual_disk rs)))) s).
Proof.
  intros Hes Hcs Hd Hi. unfold process_split_sparse_disk.
  destruct (extents_chunks_merges base_dir cs extents rs [] [] []) as (all_chunks & partial & E & Hm);
    [done|done|split_and!; [done|constructor|done]|].
  rewrite E. rewrite (M_bind_step (lift _) _ s _ s eq_refl). cbv zeta.
  rewrite (merged_split _ _ _ _ Hm). apply compress_and_write_spec; [by apply sparse_lens_ok|done].
Qed.
End disks.

(** ** What the image holds *)

(** The grain of the output: 64 KiB. *)
Definition grain_len : Z := DEFAULT_GRAIN_SIZE * SECTOR_SIZE.

Lemma spec_write_grains_chunks k l idx m gi :
  0 < k -> 0 <= idx ->
  spec_write_grains (chunk_grains (k * grain_len) idx l) m !! gi =
    match (if (gi mod k =? 0) && (idx <=? gi / k) then l !! Z.to_nat (gi / k - idx) else None) with
    | Some c => Some (gi * DEFAULT_GRAIN_SIZE, c)
    | None => m !! gi
    end.
Proof.
  intros Hk. revert idx m. induction l as [|c l IH]; intros idx m Hi.
  { cbn. by destruct (_ && _). }
  rewrite chunk_grains_cons. unfold spec_write_grains in *. cbn [foldl]. rewrite IH by lia.
  unfold spec_write_grain.
  assert (Hlba : idx * (k * grain_len) / 512 = idx * k * DEFAULT_GRAIN_SIZE).
  { unfold grain_len, SECTOR_SIZE. rewrite <- (Z.div_mul (idx * k * DEFAULT_GRAIN_SIZE) 512) by lia. f_equal. lia. }
  rewrite Hlba, Z.div_mul by done.
  pose proof (Z.div_mod gi k ltac:(lia)) as Hdm. pose proof (Z.mod_pos_bound gi k Hk) as Hmod.
  rewrite lookup_insert. destruct (Z.eqb_spec (gi mod k) 0) as [Hz|Hz]; cbn [andb].
  2: { destruct (decide (idx * k = gi)) as [<-|]; [|done]. by rewrite Z.mod_mul in Hz by lia. }
  destruct (Z.leb_spec (idx + 1) (gi / k)), (Z.leb_spec idx (gi / k)); try lia.
  - replace (Z.to_nat (gi / k - idx)) with (S (Z.to_nat (gi / k - (idx + 1)))) by lia. cbn [lookup list_lookup].
    destruct (l !! _); [done|]. rewrite decide_False by nia. done.
  - assert (gi / k = idx) by lia. replace (Z.to_nat (gi / k - idx)) with O by lia. cbn.
    rewrite decide_True by nia. f_equal. f_equal. nia.
  - rewrite decide_False by nia. done.
Qed.

(** The grains of a disk exported in chunks of [k] grains: chunk [j],
    compressed, at grain [j * k], and nothing between. *)
Lemma disk_image_lookup `{Flate2Laws} cap level k d vmdk :
  0 < k -> is_u64 cap -> zlen d < 2 ^ 64 ->
  (forall chunk c, zlen chunk <= k * grain_len -> deflate_finish level chunk = Ok c -> zlen c < 2 ^ 32) ->
  disk_image cap level (k * grain_len) d = Ok vmdk -> zlen vmdk <= max_file ->
  exists cc,
    Forall2 (fun chunk c => deflate_finish level chunk = Ok c) (split_chunks (k * grain_len) d) cc /\
    forall gi, 0 <= gi < num_gts_of cap * GT_ENTRIES_PER_GT ->
      stream_lookup vmdk gi =
        Ok (if gi mod k =? 0 then pair (gi * DEFAULT_GRAIN_SIZE) <$> cc !! Z.to_nat (gi / k) else None).
Proof.
  intros Hk Hcap Hd Hsmall Hi Hmax. unfold disk_image in Hi.
  destruct (compress_all level (split_chunks (k * grain_len) d)) as (cc & Ecc & Hlen & Hcc).
  rewrite Ecc in Hi. cbn [mbind outcome_bind] in Hi. apply bind_Ok in Hi as (w & Hw & [= <-]).
  exists cc. split; [apply Forall2_same_length_lookup_2; [done|]; intros i x y Hx Hy;
    destruct (Hcc i x Hx) as (c & Hc & ?); congruence|].
  intros gi Hgi. apply write_disk_finished in Hw as [Hf _]; [|done..].
  assert (Hpos : 0 < k * grain_len) by (unfold grain_len, DEFAULT_GRAIN_SIZE, SECTOR_SIZE; lia).
  change (cursor_buf w) with (contents w). rewrite (finished_lookup _ _ _ gi Hf Hcap); [|..|done|done].
  - rewrite spec_write_grains_chunks by lia. rewrite Z.sub_0_r.
    assert (0 <= gi / k) by (apply Z.div_pos; lia).
    destruct (Z.eqb_spec (gi mod k) 0), (Z.leb_spec 0 (gi / k)); try lia; cbn [andb].
    + by destruct (cc !! _).
    + by rewrite lookup_empty.
  - apply spec_write_grains_fit; [|by intros ? ? ? ?]. unfold chunk_grains. apply Forall_forall.
    intros [lba c] (j & c' & [= -> ->] & Hj)%elem_of_lookup_imap.
    destruct (split_chunks (k * grain_len) d !! j) as [chunk|] eqn:Ej.
    2: { apply lookup_ge_None in Ej. apply lookup_lt_Some in Hj. lia. }
    destruct (Hcc j chunk Ej) as (c & Hc & Hdef). simplify_eq.
    pose proof (split_chunks_lookup _ Hpos d j chunk Ej) as [Hlt _].
    pose proof (split_chunks_sizes _ Hpos d j chunk Ej) as [Hsz _]. split; [|eapply Hsmall; [|done]; lia].
    rewrite Z.add_0_l. unfold is_u. assert (0 <= Z.of_nat j * (k * grain_len)) by nia.
    split; [apply Z.div_pos; lia|]. apply Z.div_lt_upper_bound; lia.
Qed.

(** ** Progress *)

Lemma progressed_reports {W} cb cs n (d : bytes) (s : export_state W) :
  0 < cs ->
  let s' := progressed cb n (map zlen (split_chunks cs d)) s in
  let at_chunk i := with_bytes_processed (n + Z.min (cs * i) (zlen d)) (es_progress s) in
  es_reports s' = es_reports s ++ (if cb then map at_chunk (seqZ 1 (zlen (split_chunks cs d))) else []) /\
  es_progress s' = (if bool_decide (d = []) then es_progress s
                    else with_bytes_processed (n + zlen d) (es_progress s)).
Proof.
  intros Hcs. cbv zeta. revert n s. induction d as [|d Hd IH] using (chunks_ind cs Hcs); intros n s.
  { rewrite split_chunks_nil. cbn. split; [|done]. by destruct cb; rewrite app_nil_r. }
  assert (Hpos : 0 < zlen d) by (destruct d; [done|rewrite zlen_cons; zlen_pos; lia]).
  rewrite split_chunks_step by done. cbn [map progressed]. rewrite zlen_ztake.
  set (m := Z.min (Z.max 0 cs) (zlen d)). destruct (IH (n + m) (reported cb (n + m) s)) as [Hr Hp].
  rewrite Hr, Hp. rewrite (bool_decide_eq_false_2 (d = [])) by done. split.
  - pose proof (zlen_nonneg (split_chunks cs (zdrop cs d))) as Hnn.
    rewrite zlen_cons, (seqZ_cons 1 (1 + _)) by lia.
    replace (Z.pred (1 + zlen (split_chunks cs (zdrop cs d)))) with (zlen (split_chunks cs (zdrop cs d))) by lia. destruct cb; [|done].
    cbn [reported es_reports es_progress map]. rewrite <- app_assoc. cbn [app]. do 2 f_equal.
    { unfold m. do 2 f_equal. lia. }
    change (Z.succ 1) with (1 + 1). rewrite <- (fmap_add_seqZ 1 1). change (fmap (M:=list)) with (@map Z Z).
    rewrite map_map. apply map_ext_in. intros i Hi%list_elem_of_In%elem_of_seqZ.
    assert (Hne : 0 < zlen (zdrop cs d)).
    { destruct (zdrop cs d) as [|x r]; [rewrite split_chunks_nil in Hi; zlen_nils; lia|].
      rewrite zlen_cons. pose proof (zlen_nonneg r). lia. }
    unfold with_bytes_processed. cbn. f_equal. unfold m. rewrite zlen_zdrop in *.
    pose proof (zlen_nonneg d). nia.
  - cbn [reported es_progress]. case_bool_decide as E.
    + apply (f_equal zlen) in E. rewrite zlen_zdrop in E. zlen_nils. unfold m. do 2 f_equal. lia.
    + rewrite zlen_zdrop. unfold with_bytes_processed. cbn. f_equal. unfold m. lia.
Qed.

(** ** Reading an exported disk *)

Section reading.
  Context `{Flate2}.

(** What a reader of the image takes for grain [gi] of a disk of [cap] bytes:
    the stored grain decoded to its bytes below the capacity, zeros where the
    tables hold no grain. *)
Definition exported_grain (vmdk : bytes) (cap gi : Z) : Result bytes :=
  let n := Z.min grain_len (cap - grain_len * gi) in
  x ← stream_lookup vmdk gi;
  match x with
  | Some (_, c) => map_err Error.from_io (inflate n c)
  | None => Ok (zeros n)
  end.

(** The whole disk. *)
Definition exported_read (vmdk : bytes) (cap : Z) : Result bytes :=
  (@concat Z) <$> collect (map (exported_grain vmdk cap) (seqZ 0 (ceil_div cap grain_len))).
End reading.

Lemma grain_in_tables cap gi :
  0 <= gi < ceil_div cap grain_len -> 0 <= cap -> cap mod SECTOR_SIZE = 0 ->
  0 <= gi < num_gts_of cap * GT_ENTRIES_PER_GT.
Proof.
  intros Hgi Hc Hm. unfold num_gts_of. split; [lia|].
  pose proof (ceil_div_bounds cap grain_len ltac:(done) Hc) as Hb.
  unfold grain_len, SECTOR_SIZE, DEFAULT_GRAIN_SIZE, GT_ENTRIES_PER_GT in *.
  pose proof (Z.div_mod cap 512 ltac:(lia)) as Hd.
  set (q := (cap / 512 + 128 - 1) / 128).
  pose proof (Z.div_mod (cap / 512 + 128 - 1) 128 ltac:(lia)) as Hq.
  pose proof (Z.mod_pos_bound (cap / 512 + 128 - 1) 128 ltac:(lia)).
  pose proof (Z.div_mod (q + 512 - 1) 512 ltac:(lia)).
  pose proof (Z.mod_pos_bound (q + 512 - 1) 512 ltac:(lia)). fold q in Hq. lia.
Qed.

Lemma collect_pieces (f : Z -> Result bytes) cs (d : bytes) :
  0 < cs ->
  (forall gi, 0 <= gi < ceil_div (zlen d) cs ->
     f gi = Ok (zslice (cs * gi) (Z.min cs (zlen d - cs * gi)) d)) ->
  (@concat Z) <$> collect (map f (seqZ 0 (ceil_div (zlen d) cs))) = Ok d.
Proof.
  intros Hcs Hf.
  assert (Hc : collect (map f (seqZ 0 (ceil_div (zlen d) cs))) = Ok (split_chunks cs d)).
  { apply collect_Ok. apply list_eq. intros i. change (map f) with (fmap (M:=list) f).
    rewrite !list_lookup_fmap. pose proof (split_chunks_length cs Hcs d) as Hl. unfold zlen at 1 in Hl.
    pose proof (ceil_div_nonneg (zlen d) cs Hcs (zlen_nonneg d)).
    destruct (split_chunks cs d !! i) as [c|] eqn:E.
    - pose proof (lookup_lt_Some _ _ _ E). apply split_chunks_lookup in E as [Hlt ->]; [|done].
      rewrite lookup_seqZ_lt by lia. cbn. rewrite Hf by lia. rewrite Z.add_0_l. done.
    - apply lookup_ge_None in E. rewrite lookup_seqZ_ge by lia. done. }
  rewrite Hc. cbn. by rewrite split_chunks_concat.
Qed.

(** ** The properties *)

Section properties.
  Context `{FileSystem} `{!MmapLaws} `{UnicodeTables} `{BuildProfile} `{Flate2Laws} `{RayonLaws}.
  Context {W : Type}.
  Implicit Type s : export_state W.

Lemma process_disk_image cb flat (p : Pipeline) level cs d s :
  file_open flat = Ok d -> 0 < cs -> zlen d < 2 ^ 64 ->
  exists vmdk, disk_image (zlen d) level cs d = Ok vmdk /\
    process_disk cb flat (zlen d) p level cs s
      = (Ok vmdk, progressed cb 0 (map zlen (split_chunks cs d)) s).
Proof.
  intros Hf Hcs Hd. destruct (disk_image_total (zlen d) level cs d) as [vmdk Hi].
  exists vmdk. split; [done|]. by apply process_disk_spec.
Qed.

(** An image made in chunks of one grain holds the disk. *)
Lemma image_holds_disk level d vmdk :
  zlen d mod SECTOR_SIZE = 0 -> zlen d < 2 ^ 64 ->
  (forall chunk c, zlen chunk <= grain_len -> deflate_finish level chunk = Ok c -> zlen c < 2 ^ 32) ->
  disk_image (zlen d) level grain_len d = Ok vmdk -> zlen vmdk <= max_file ->
  exported_read vmdk (zlen d) = Ok d.
Proof.
  intros Hm Hd Hsmall Hi Hmax.
  pose proof (zlen_nonneg d) as Hnn. rewrite <- (Z.mul_1_l grain_len) in Hi.
  destruct (disk_image_lookup (zlen d) level 1 d vmdk) as (cc & Hcc & Hl); [done|done|done| |done|done|].
  { by rewrite Z.mul_1_l. }
  apply collect_pieces; [done|]. intros gi Hgi. unfold exported_grain. cbv zeta.
  rewrite Hl by (by apply grain_in_tables). cbn [mbind outcome_bind].
  rewrite Z.mod_1_r, Z.div_1_r, Z.eqb_refl. rewrite Z.mul_1_l in Hcc.
  assert (Hlt : (Z.to_nat gi < length (split_chunks grain_len d))%nat).
  { pose proof (split_chunks_length grain_len ltac:(done) d) as Hlen. unfold zlen at 1 in Hlen. lia. }
  apply lookup_lt_is_Some in Hlt as [chunk Hchunk].
  destruct (Forall2_lookup_l _ _ _ _ _ Hcc Hchunk) as (c & Hc & Hdef). rewrite Hc. cbn [fmap option_fmap option_map].
  apply split_chunks_lookup in Hchunk as [Hlt ->]; [|done]. rewrite Z2Nat.id in * by lia.
  apply inflate_deflate in Hdef.
  rewrite zlen_zslice in Hdef by (unfold grain_len, DEFAULT_GRAIN_SIZE, SECTOR_SIZE in *; lia). by rewrite Hdef.
Qed.

(** An image made in chunks of [k] grains has an entry for one grain of [k]. *)
Lemma image_drops_grains level k d vmdk :
  2 <= k -> zlen d mod SECTOR_SIZE = 0 -> zlen d < 2 ^ 64 ->
  (forall chunk c, zlen chunk <= k * grain_len -> deflate_finish level chunk = Ok c -> zlen c < 2 ^ 32) ->
  disk_image (zlen d) level (k * grain_len) d = Ok vmdk -> zlen vmdk <= max_file ->
  forall gi, 0 <= gi < ceil_div (zlen d) grain_len -> gi mod k <> 0 ->
    exported_grain vmdk (zlen d) gi = Ok (zeros (Z.min grain_len (zlen d - grain_len * gi))).
Proof.
  intros Hk Hm Hd Hsmall Hi Hmax gi Hgi Hmod. pose proof (zlen_nonneg d) as Hnn.
  destruct (disk_image_lookup (zlen d) level k d vmdk) as (cc & _ & Hl); [lia|done|done|done|done|done|].
  unfold exported_grain. cbv zeta. rewrite Hl by (by apply grain_in_tables). cbn [mbind outcome_bind].
  destruct (Z.eqb_spec (gi mod k) 0); [done|]. reflexivity.
Qed.

(** C6: however a disk is stored, as a flat file, as a monolithic sparse file or
    split over sparse extents, exporting it gives the same image and the same
    progress reports: those of its contents cut into chunks of the chunk size,
    wherever the extents end. *)
Theorem disk_export_uniform cb (p : Pipeline) level cs d s flat path r extents dir rs :
  0 < cs -> zlen d < 2 ^ 64 -> file_open flat = Ok d ->
  SparseVmdkReader_open path = Ok r -> svr_wf r -> grains_readable r (grains_of (svr_header r)) ->
  virtual_disk r = d -> Forall2 (extent_opens dir) extents rs -> concat (map virtual_disk rs) = d ->
  exists vmdk, disk_image (zlen d) level cs d = Ok vmdk /\
    let exported := (Ok vmdk, progressed cb 0 (map zlen (split_chunks cs d)) s) in
    process_disk cb flat (zlen d) p level cs s = exported /\
    process_sparse_disk cb path (capacity r) p level cs s = exported /\
    process_split_sparse_disk cb extents dir (zlen d) p level cs s = exported.
Proof.
  intros Hcs Hd Hf Ho Hwf Hg Hv Hes Hc. destruct (process_disk_image cb flat p level cs d s Hf Hcs Hd)
    as (vmdk & Hi & E). exists vmdk. cbv zeta. split_and!; [done|done|..].
  - assert (Hcap : zlen d = capacity r) by (subst d; by apply zlen_virtual_disk).
    rewrite Hcap in Hi. subst d. by apply process_sparse_disk_spec.
  - rewrite <- Hc in *. by apply process_split_spec.
Qed.

(** C3: a disk exported in chunks of one grain, 64 KiB, is exported faithfully:
    read back through the footer, the directory and the tables of the image
    and decoded grain by grain, it is byte for byte the disk. *)
Theorem exported_disk_holds_data cb flat (p : Pipeline) level d s :
  file_open flat = Ok d -> zlen d mod SECTOR_SIZE = 0 -> zlen d < 2 ^ 64 ->
  (forall chunk c, zlen chunk <= grain_len -> deflate_finish level chunk = Ok c -> zlen c < 2 ^ 32) ->
  exists vmdk s', process_disk cb flat (zlen d) p level grain_len s = (Ok vmdk, s') /\
    (zlen vmdk <= max_file -> exported_read vmdk (zlen d) = Ok d).
Proof.
  intros Hf Hm Hd Hsmall. destruct (process_disk_image cb flat p level grain_len d s Hf ltac:(done) Hd)
    as (vmdk & Hi & E). eexists vmdk, _. split; [exact E|]. intros Hmax.
  by apply (image_holds_disk level).
Qed.

(** C14: a disk exported in chunks of several grains, as the default chunks of
    64 MiB are, loses data: each chunk is stored as one grain, so that of every
    [k] grains the image holds one entry, and a reader finds zeros in the
    place of all the others. *)
Theorem large_chunks_lose_grains cb flat (p : Pipeline) level k d s :
  2 <= k -> file_open flat = Ok d -> zlen d mod SECTOR_SIZE = 0 -> zlen d < 2 ^ 64 ->
  (forall chunk c, zlen chunk <= k * grain_len -> deflate_finish level chunk = Ok c -> zlen c < 2 ^ 32) ->
  eo_chunk_size ExportOptions_default = 1024 * grain_len /\
  exists vmdk s', process_disk cb flat (zlen d) p level (k * grain_len) s = (Ok vmdk, s') /\
    (zlen vmdk <= max_file ->
     forall gi, 0 <= gi < ceil_div (zlen d) grain_len -> gi mod k <> 0 ->
       exported_grain vmdk (zlen d) gi = Ok (zeros (Z.min grain_len (zlen d - grain_len * gi)))).
Proof.
  intros Hk Hf Hm Hd Hsmall. split; [done|].
  assert (Hcs : 0 < k * grain_len) by (unfold grain_len, DEFAULT_GRAIN_SIZE, SECTOR_SIZE; lia).
  destruct (process_disk_image cb flat p level (k * grain_len) d s Hf Hcs Hd) as (vmdk & Hi & E).
  eexists vmdk, _. split; [exact E|]. intros Hmax. by apply (image_drops_grains level k).
Qed.

End properties.

(** ** A sample disk, stored in three ways

    Six sectors: the three of [sample_sparse] twice.  They are the extents of a
    split disk, which the chunk size cuts across, and there is the same disk
    in one sparse file and as a flat file. *)

Definition double_header : SparseExtentHeader :=
  {| seh_magic := VMDK_MAGIC; seh_version := 1; seh_flags := 3; seh_capacity := 6;
     seh_grain_size := 1; seh_descriptor_offset := 0; seh_descriptor_size := 0;
     seh_num_gtes_per_gt := 2; seh_rgd_offset := 0; seh_gd_offset := 1; seh_overhead := 0;
     seh_unclean_shutdown := 0; seh_newline_chars := (10, 32, 13, 10);
     seh_compress_algorithm := 0 |}.

Definition double_sparse : bytes :=
  SparseExtentHeader_to_bytes double_header ++ pad_sector (le_u32s [2; 3; 0])
  ++ pad_sector (le_u32s [4; 0]) ++ pad_sector (le_u32s [0; 5])
  ++ pad_sector [1; 2; 3] ++ pad_sector [1; 2; 3].

Definition double_reader : SparseVmdkReader :=
  {| svr_mmap := double_sparse; svr_header := parsed_header double_header;
     svr_grain_directory := [2; 3; 0]; svr_capacity_bytes := 3072 |}.

Definition sample_data : bytes := [1; 2; 3] ++ zeros 1533.

Lemma double_reader_wf : svr_wf double_reader.
Proof.
  split; [apply all_bytes_spec; by vm_compute|by split; vm_compute|by vm_compute..].
Qed.

Lemma sample_readable : grains_readable (H:=debug) (H0:=stored_flate2) sample_reader 3.
Proof. intros g Hg. assert (g = 0 \/ g = 1 \/ g = 2) as [->|[->| ->]] by lia; by vm_compute. Qed.

Lemma double_readable : grains_readable (H:=debug) (H0:=stored_flate2) double_reader 6.
Proof.
  intros g Hg. assert (g = 0 \/ g = 1 \/ g = 2 \/ g = 3 \/ g = 4 \/ g = 5) as [->|[->|[->|[->|[->| ->]]]]] by lia;
    by vm_compute.
Qed.

Definition disk_files : FileSystem :=
  fs_of [(lit "/vm/mono.vmdk", double_sparse); (lit "/vm/flat.vmdk", sample_data ++ sample_data);
         (lit "/vm/s1.vmdk", sample_sparse); (lit "/vm/s2.vmdk", sample_sparse)].

Definition split_extents : list Extent :=
  map (fun name => {| ex_access := lit "RW"; ex_size_sectors := 3; ex_extent_type := Descriptor.Sparse;
                      ex_filename := name; ex_offset := 0 |}) [lit "s1.vmdk"; lit "s2.vmdk"].

Definition disk_pipeline : Pipeline (H:=backwards) :=
  {| pl_config := PipelineConfig_default; pl_thread_pool := None |}.

Definition idle : export_state Cursor :=
  {| es_progress := ExportProgress_new Compressing 3072 1; es_reports := []; es_output := None |}.

Lemma split_opens :
  Forall2 (extent_opens (H:=disk_files) (H1:=debug) (H2:=stored_flate2) (lit "/vm"))
    split_extents [sample_reader; sample_reader].
Proof.
  repeat (apply List.Forall2_cons || apply List.Forall2_nil);
    (split_and!; [by vm_compute|exact sample_reader_wf|exact sample_readable]).
Qed.

Lemma disk_export_uniform_witness :
  exists vmdk, disk_image (H:=stored_flate2) 3072 6 1000 (sample_data ++ sample_data) = Ok vmdk.
Proof.
  destruct (disk_export_uniform (H:=disk_files) (H0:=fun b => eq_refl) (H2:=debug)
    (H4:=stored_flate2_laws) (H6:=backwards_laws) true disk_pipeline 6 1000
    (sample_data ++ sample_data) idle (lit "/vm/flat.vmdk") (lit "/vm/mono.vmdk") double_reader
    split_extents (lit "/vm") [sample_reader; sample_reader]) as (vmdk & Hi & _).
  - lia.
  - by vm_compute.
  - by vm_compute.
  - by vm_compute.
  - exact double_reader_wf.
  - exact double_readable.
  - by vm_compute.
  - exact split_opens.
  - by vm_compute.
  - by exists vmdk.
Defined.

(** Stored chunks of at most [n] bytes are small. *)
Lemma stored_small n chunk c :
  n < 2 ^ 32 -> zlen chunk <= n -> deflate_finish (Flate2:=stored_flate2) 6 chunk = Ok c -> zlen c < 2 ^ 32.
Proof. intros Hn Hc [= <-]. lia. Qed.

Lemma exported_disk_holds_data_witness :
  exists vmdk, exported_read (H:=stored_flate2) vmdk 3072 = Ok (sample_data ++ sample_data).
Proof.
  destruct (exported_disk_holds_data (H:=disk_files) (H0:=fun b => eq_refl) (H2:=debug)
    (H4:=stored_flate2_laws) (H6:=backwards_laws) true (lit "/vm/flat.vmdk") disk_pipeline 6
    (sample_data ++ sample_data) idle) as (vmdk & s' & E & Hr).
  - by vm_compute.
  - by vm_compute.
  - by vm_compute.
  - intros chunk c. by apply stored_small.
  - exists vmdk. apply Hr. vm_compute in E. injection E as <- _. by vm_compute.
Defined.

Definition grain_files : FileSystem := fs_of [(lit "/vm/big.vmdk", repeat 7 (Z.to_nat (2 * grain_len)))].

Lemma large_chunks_lose_grains_witness :
  exists vmdk, exported_grain (H:=stored_flate2) vmdk (2 * grain_len) 1
    = Ok (zeros (Z.min grain_len (2 * grain_len - grain_len * 1))).
Proof.
  assert (Hin : 0 <= 1 < ceil_div (2 * grain_len) grain_len) by (by vm_compute).
  assert (Hl : zlen (repeat 7 (Z.to_nat (2 * grain_len))) = 2 * grain_len) by (by vm_compute).
  destruct (large_chunks_lose_grains (H:=grain_files) (H0:=fun b => eq_refl) (H2:=debug)
    (H4:=stored_flate2_laws) (H6:=backwards_laws) (W:=Cursor) false (lit "/vm/big.vmdk") disk_pipeline 6 2
    (repeat 7 (Z.to_nat (2 * grain_len))) idle) as (_ & vmdk & s' & E & Hr).
  - lia.
  - reflexivity.
  - by vm_compute.
  - by vm_compute.
  - intros chunk c. by apply stored_small.
  - exists vmdk. rewrite Hl in *.
    assert (Hs : match fst (process_disk (H:=grain_files) (H1:=debug) (H2:=stored_flate2) (H3:=backwards)
        false (lit "/vm/big.vmdk") (2 * grain_len) disk_pipeline 6 (2 * grain_len) idle) with
      | Ok v => zlen v <=? max_file | _ => false end = true) by (vm_compute; reflexivity).
    rewrite E in Hs. clear E. apply Z.leb_le in Hs.
    exact (Hr Hs 1 Hin ltac:(discriminate)).
Defined.
