(* ===== verification/HostedSpec.v ===== *)
(** * HostedSpec: hosted sparse disks, from the format to the export

    [hosted] says when a file stores a disk in the hosted sparse format: the
    header in the first sector, the grain directory, the grain tables, and
    each grain unallocated, plain or compressed, anywhere in the file.  The
    reader gives exactly the contents of such a disk, the export of a disk
    that is one such file, or split over several, holds them, and
    [hosted_image] writes any disk in the format. *)
From S2P Require Export SparseSpec ExportSpec.

(** ** The format *)

(** [word_at off v file]: the 32-bit entry at [off] is [v]. *)
Definition word_at (off v : Z) (file : bytes) : Prop :=
  0 <= v < 2 ^ 32 /\ block_at off (u32_le v) file.

Section format.
  Context `{Flate2} (file : bytes) (h : SparseExtentHeader).

(** Where the entries of grain [g] are: in the directory, and in a table that
    starts at sector [gt]. *)
Definition directory_entry (g : Z) : Z :=
  seh_gd_offset h * SECTOR_SIZE + g / seh_num_gtes_per_gt h * 4.
Definition table_entry (gt g : Z) : Z :=
  gt * SECTOR_SIZE + g mod seh_num_gtes_per_gt h * 4.

(** The data of a grain at sector [s]: itself, or compressed behind a grain
    marker where the header has the flag. *)
Inductive grain_at (s : Z) (data : bytes) : Prop :=
  | grain_plain :
      is_compressed (parsed_header h) = false ->
      block_at (s * SECTOR_SIZE) data file -> grain_at s data
  | grain_compressed level lba c :
      is_compressed (parsed_header h) = true ->
      compress_grain data level = Ok c -> zlen c < 2 ^ 32 ->
      block_at (s * SECTOR_SIZE) (GrainMarker_to_bytes (GrainMarker_new lba (as_u32 (zlen c))) ++ c) file ->
      grain_at s data.

(** How the file stores grain [g]: [None] for a grain without an entry. *)
Inductive hosted_grain (g : Z) : option bytes -> Prop :=
  | hosted_no_table :
      word_at (directory_entry g) 0 file -> hosted_grain g None
  | hosted_no_grain gt :
      word_at (directory_entry g) gt file -> gt <> 0 ->
      word_at (table_entry gt g) 0 file -> hosted_grain g None
  | hosted_stored gt s data :
      word_at (directory_entry g) gt file -> gt <> 0 ->
      word_at (table_entry gt g) s file -> s <> 0 ->
      zlen data = seh_grain_size h * SECTOR_SIZE -> grain_at s data ->
      hosted_grain g (Some data).
End format.

(** A disk in the format: its header and its grains. *)
Record hosted_disk := { hd_header : SparseExtentHeader; hd_grains : Z -> option bytes }.

Definition hd_capacity (hd : hosted_disk) : Z := seh_capacity (hd_header hd) * SECTOR_SIZE.
Definition hd_grain_bytes (hd : hosted_disk) : Z := seh_grain_size (hd_header hd) * SECTOR_SIZE.

(** The bytes of a grain: zeros where it is not allocated. *)
Definition hd_grain (hd : hosted_disk) (g : Z) : bytes :=
  default (zeros (hd_grain_bytes hd)) (hd_grains hd g).

(** What the disk holds: the grains up to the capacity. *)
Definition hd_contents (hd : hosted_disk) : bytes :=
  ztake (hd_capacity hd) (seqZ 0 (grains_of (parsed_header (hd_header hd))) ≫= hd_grain hd).

Record hosted `{Flate2} (file : bytes) (hd : hosted_disk) : Prop := {
  ho_bytes : Forall is_byte file;
  ho_header : header_wf (hd_header hd);
  ho_magic : seh_magic (hd_header hd) = VMDK_MAGIC;
  ho_version : seh_version (hd_header hd) <= 3;
  ho_markers : has_markers (parsed_header (hd_header hd)) = false;
  ho_geometry : geometry (parsed_header (hd_header hd));
  ho_front : block_at 0 (SparseExtentHeader_to_bytes (hd_header hd)) file;
  ho_directory :
    gd_offset_bytes (parsed_header (hd_header hd)) + gd_entries (parsed_header (hd_header hd)) * 4
      <= zlen file;
  ho_grains : forall g, 0 <= g < grains_of (parsed_header (hd_header hd)) ->
    hosted_grain file (hd_header hd) g (hd_grains hd g);
}.

(** ** The reader implements the format *)

Lemma word_at_u32 off v file : word_at off v file -> u32_at off file = v.
Proof.
  intros [Hv (H1 & H2 & H3)]. rewrite zlen_le_bytes in *. unfold u32_at.
  change (Z.of_nat 4) with 4 in *. rewrite H3. by apply le_val_u32.
Qed.

Lemma word_at_inside off v file : word_at off v file -> 0 <= off /\ off + 4 <= zlen file.
Proof. intros [_ (H1 & H2 & _)]. rewrite zlen_le_bytes in H2. lia. Qed.

(** A block splits the file. *)
Lemma block_at_split off b file :
  block_at off b file ->
  file = ztake off file ++ b ++ zdrop (off + zlen b) file /\ zlen (ztake off file) = off.
Proof.
  intros (H1 & H2 & H3). zlen_pos. split; [|rewrite zlen_ztake; lia].
  rewrite <- H3 at 1. unfold zslice. rewrite <- (zdrop_zdrop (zlen b) off) by lia.
  by rewrite ztake_zdrop, ztake_zdrop.
Qed.

Lemma bind_ext_in {A B} (f g : A -> list B) l :
  (forall x, x ∈ l -> f x = g x) -> l ≫= f = l ≫= g.
Proof.
  induction l as [|x l IH]; intros Hf; [done|]. rewrite !bind_cons, Hf, IH by set_solver. done.
Qed.

Section reader.
  Context `{BuildProfile} `{Flate2Laws}.
  Context (file : bytes) (hd : hosted_disk).
  Hypothesis Ho : hosted file hd.
Let h := hd_header hd.
Let ph := parsed_header h.

Definition hosted_reader : SparseVmdkReader :=
  {| svr_mmap := file; svr_header := parsed_header (hd_header hd);
     svr_grain_directory := directory_of (parsed_header (hd_header hd)) file;
     svr_capacity_bytes := hd_capacity hd |}.

Lemma hosted_parses : SparseHeader_from_bytes file = Ok ph.
Proof.
  destruct (block_at_split _ _ _ (ho_front _ _ Ho)) as [-> Ht].
  rewrite ztake_nonpos, app_nil_l by lia. rewrite header_parse by apply Ho.
  by rewrite (ho_magic _ _ Ho), Z.eqb_refl.
Qed.

Lemma hosted_opens : SparseVmdkReader_from_mmap file = Ok hosted_reader.
Proof.
  pose proof Ho as []. rewrite (SparseVmdkReader_from_mmap_spec _ _ hosted_parses) by done.
  rewrite if_false by (apply Z.ltb_ge; exact ho_version0).
  subst ph h. rewrite ho_markers0. by rewrite if_false by (apply Z.ltb_ge; exact ho_directory0).
Qed.

Lemma hosted_reader_wf : svr_wf hosted_reader.
Proof. by destruct Ho. Qed.

(** The directory entry the reader holds for a grain. *)
Lemma hosted_directory g v :
  0 <= g < grains_of ph -> word_at (directory_entry h g) v file ->
  svr_grain_directory hosted_reader !! Z.to_nat (g / seh_num_gtes_per_gt h) = Some v.
Proof.
  intros Hg Hw. pose proof (geo_gtes _ (ho_geometry _ _ Ho)) as Hn. fold h ph in Hn.
  cbn [sh_num_gtes_per_gt ph parsed_header] in Hn.
  set (n := seh_num_gtes_per_gt h) in *.
  pose proof (Z.div_pos g n ltac:(lia) ltac:(lia)). pose proof (Z.div_mod g n ltac:(lia)).
  pose proof (Z.mod_pos_bound g n ltac:(lia)).
  pose proof (ceil_div_bounds (grains_of ph) n ltac:(lia) ltac:(lia)) as Hb.
  change (ceil_div (grains_of ph) n) with (gd_entries ph) in Hb.
  assert (g / n < gd_entries ph) by nia.
  cbn [hosted_reader svr_grain_directory]. fold h ph. unfold directory_of.
  rewrite list_lookup_fmap, lookup_seqZ_lt by lia. cbn. f_equal.
  rewrite Z2Nat.id, Z.add_0_l by lia. by apply word_at_u32.
Qed.

(** Reading a grain gives what the disk holds there. *)
Lemma hosted_read_grain g :
  0 <= g < grains_of ph -> read_grain hosted_reader g = Ok (hd_grain hd g).
Proof.
  intros Hg. pose proof (geo_gtes _ (ho_geometry _ _ Ho)) as Hn. fold h ph in Hn.
  pose proof (ho_geometry _ _ Ho) as [Hgs _ _ _ Hgb _ _]. fold h ph in Hgs, Hgb.
  unfold read_grain, svr_grain_size_bytes, mul_u64. cbn [hosted_reader svr_header svr_mmap].
  fold h ph. rewrite checked_ok, bind_ret_Ok by (unfold is_u, SECTOR_SIZE in *; lia).
  rewrite div_u64_ok, rem_u64_ok, !bind_ret_Ok by lia.
  cbn [ph parsed_header sh_num_gtes_per_gt sh_grain_size] in *.
  unfold hd_grain. pose proof (ho_grains _ _ Ho g Hg) as Hs. fold h in Hs.
  destruct Hs as [Hd|gt Hd Hz Ht|gt s data Hd Hz Ht Hs Hl Ha];
    rewrite (hosted_directory _ _ Hg Hd); [by rewrite Z.eqb_refl|..];
    rewrite if_false by (apply Z.eqb_neq; exact Hz); cbv zeta;
    change (gt * SECTOR_SIZE + _) with (table_entry h gt g);
    pose proof (word_at_inside _ _ _ Ht); pose proof (word_at_u32 _ _ _ Ht) as Hu;
    rewrite if_false by lia; rewrite read_u32_at, bind_ret_Ok, Hu by lia.
  - by rewrite Z.eqb_refl.
  - rewrite if_false by (apply Z.eqb_neq; exact Hs).
    change (is_compressed ph) with (is_compressed (parsed_header h)).
    destruct Ht as [Hs32 _].
    destruct Ha as [Hf Hb|level lba c Hf Hc Hc32 Hb]; fold h in Hf; rewrite Hf, <- Hl; cbn [default].
    + destruct Hb as (Hb1 & Hb2 & Hb3). zlen_pos. unfold add_u64.
      rewrite checked_ok, bind_ret_Ok by (unfold is_u, SECTOR_SIZE in *; lia).
      rewrite if_false by lia. rewrite read_slice_ok by lia. by rewrite Z.add_simpl_l, Hb3.
    + destruct (block_at_split _ _ _ Hb) as [Hfile Hpre]. rewrite <- Hpre.
      eapply (compressed_grain_at hosted_reader _ _ lba data level c); [|done|done].
      cbn [hosted_reader svr_mmap]. rewrite Hfile at 1. by rewrite <- app_assoc.
Qed.

Lemma hosted_readable : grains_readable hosted_reader (grains_of ph).
Proof. intros g Hg. by rewrite hosted_read_grain. Qed.

Lemma hosted_virtual_disk : virtual_disk hosted_reader = hd_contents hd.
Proof.
  unfold virtual_disk, hd_contents. cbn [hosted_reader svr_capacity_bytes svr_header]. f_equal.
  apply bind_ext_in. intros g [??]%elem_of_seqZ. unfold grain_data. rewrite hosted_read_grain; [done|]. subst ph h. lia.
Qed.

Lemma zlen_hd_contents : zlen (hd_contents hd) = hd_capacity hd.
Proof.
  rewrite <- hosted_virtual_disk. apply (zlen_virtual_disk hosted_reader hosted_reader_wf).
  exact hosted_readable.
Qed.

Lemma hosted_drains cs fuel :
  0 < cs -> hd_capacity hd <= Z.of_nat fuel ->
  drain_from (S fuel) SparseChunkIterator_next (sparse_chunks hosted_reader cs)
    = Ok (split_chunks cs (hd_contents hd)).
Proof.
  intros Hcs Hfuel. change (sparse_chunks _ cs) with (sci_at hosted_reader cs 0).
  rewrite drain_sparse_chunks; [|exact hosted_reader_wf|exact hosted_readable|done|lia|cbn; lia].
  by rewrite zdrop_nonpos, hosted_virtual_disk by lia.
Qed.
End reader.

Lemma zlen_entries f m : 0 <= m -> zlen (le_u32s (map f (seqZ 0 m))) = 4 * m.
Proof.
  intros Hm. unfold le_u32s. rewrite (zlen_records u32_le 4) by (intros; apply zlen_le_bytes).
  rewrite zlen_map. unfold zlen. rewrite length_seqZ. lia.
Qed.

(** An entry of a table in the file. *)
Lemma entry_at off f m i file :
  block_at off (le_u32s (map f (seqZ 0 m))) file -> 0 <= i < m -> 0 <= f i < 2 ^ 32 ->
  word_at (off + i * 4) (f i) file.
Proof.
  intros Hb Hi Hf. split; [done|]. rewrite Z.mul_comm.
  apply (block_at_record (map f (seqZ 0 m)) []); [by rewrite app_nil_r|lia|].
  change (map f) with (fmap (M:=list) f). rewrite list_lookup_fmap, lookup_seqZ_lt by lia. cbn. f_equal. f_equal. lia.
Qed.

(** A record of a run of equally long records in the file. *)
Lemma block_at_record_in (f : Z -> bytes) k m i off file :
  block_at off (seqZ 0 m ≫= f) file -> (forall x, zlen (f x) = k) -> 0 <= i < m ->
  block_at (off + k * i) (f i) file.
Proof.
  intros (H1 & H2 & H3) Hk Hi. pose proof (zlen_nonneg (f i)).
  assert (Hz : zlen (seqZ 0 m) = m) by (unfold zlen; rewrite length_seqZ; lia).
  rewrite (zlen_records f k Hk), Hz in *. rewrite Hk in *.
  split_and!; [nia|rewrite Hk; nia|]. rewrite Hk, <- (zslice_zslice off (k * m)) by nia.
  rewrite H3, <- (app_nil_r (seqZ 0 m ≫= f)). rewrite <- (Z2Nat.id i) at 1 by lia.
  apply (zslice_record f k Hk). apply lookup_seqZ. lia.
Qed.

Lemma block_at_eq off off' b file : block_at off b file -> off = off' -> block_at off' b file.
Proof. by intros ? <-. Qed.

(** ** Writing a disk in the format

    The directory in the second sector, then a table for every entry, then a
    place for every grain; tables and directory are filled up to whole sectors
    of 128 entries. *)

Section image.
  Context (hd : hosted_disk).
Let ph := parsed_header (hd_header hd).
Let n := seh_num_gtes_per_gt (hd_header hd).

Definition im_directory_sectors : Z := ceil_div (gd_entries (parsed_header (hd_header hd))) 128.
Definition im_table_sectors : Z := ceil_div (seh_num_gtes_per_gt (hd_header hd)) 128.

(** The sectors of table [t] and of grain [g]. *)
Definition im_table (t : Z) : Z := 1 + im_directory_sectors + t * im_table_sectors.
Definition im_grain (g : Z) : Z :=
  im_table (gd_entries (parsed_header (hd_header hd))) + g * seh_grain_size (hd_header hd).

Definition im_grain_entry (g : Z) : Z :=
  if (g <? grains_of (parsed_header (hd_header hd))) && bool_decide (is_Some (hd_grains hd g))
  then im_grain g else 0.

Definition im_table_entry (t i : Z) : Z :=
  if i <? seh_num_gtes_per_gt (hd_header hd)
  then im_grain_entry (t * seh_num_gtes_per_gt (hd_header hd) + i) else 0.

Definition im_table_entries (t : Z) : list Z :=
  map (im_table_entry t) (seqZ 0 (im_table_sectors * 128)).

(** A table without grains has no entry. *)
Definition im_directory_entry (t : Z) : Z :=
  if (t <? gd_entries (parsed_header (hd_header hd)))
     && existsb (fun e => negb (e =? 0)) (im_table_entries t)
  then im_table t else 0.

Definition im_directory : list Z :=
  map im_directory_entry (seqZ 0 (im_directory_sectors * 128)).

Definition hosted_image : bytes :=
  SparseExtentHeader_to_bytes (hd_header hd) ++ le_u32s im_directory
  ++ (seqZ 0 (gd_entries (parsed_header (hd_header hd))) ≫= fun t => le_u32s (im_table_entries t))
  ++ (seqZ 0 (grains_of (parsed_header (hd_header hd))) ≫= hd_grain hd).

(** The disks it can hold: plain grains of the grain size, few enough for
    32-bit sector numbers. *)
Record image_fits : Prop := {
  fi_header : header_wf (hd_header hd);
  fi_front : Forall is_byte (SparseExtentHeader_to_bytes (hd_header hd));
  fi_magic : seh_magic (hd_header hd) = VMDK_MAGIC;
  fi_version : seh_version (hd_header hd) <= 3;
  fi_markers : has_markers (parsed_header (hd_header hd)) = false;
  fi_plain : is_compressed (parsed_header (hd_header hd)) = false;
  fi_gd : seh_gd_offset (hd_header hd) = 1;
  fi_geometry : geometry (parsed_header (hd_header hd));
  fi_sectors : im_grain (grains_of (parsed_header (hd_header hd))) <= 2 ^ 32;
  fi_grains : forall g data, hd_grains hd g = Some data ->
    zlen data = hd_grain_bytes hd /\ Forall is_byte data;
}.

Hypothesis Hfit : image_fits.

Lemma im_counts :
  0 < n /\ 0 < seh_grain_size (hd_header hd) /\ 0 <= grains_of ph /\ 0 <= gd_entries ph /\
  0 < im_table_sectors /\ 0 <= im_directory_sectors /\
  n <= im_table_sectors * 128 /\ gd_entries ph <= im_directory_sectors * 128 /\
  grains_of ph <= gd_entries ph * n.
Proof.
  pose proof (fi_geometry Hfit) as [Hg [Hn _] Hc _ _ _ _]. cbn [parsed_header sh_grain_size sh_num_gtes_per_gt sh_capacity] in *.
  fold n in Hn. pose proof (ceil_div_nonneg (seh_capacity (hd_header hd)) _ Hg Hc) as HN.
  change (0 <= grains_of ph) in HN. pose proof (ceil_div_nonneg (grains_of ph) n ltac:(lia) HN) as HG.
  change (0 <= gd_entries ph) in HG.
  pose proof (ceil_div_bounds (grains_of ph) n ltac:(lia) HN) as HB. change (ceil_div (grains_of ph) n) with (gd_entries ph) in HB.
  pose proof (ceil_div_bounds n 128 ltac:(lia) ltac:(lia)) as HT. change (ceil_div n 128) with im_table_sectors in HT.
  pose proof (ceil_div_bounds (gd_entries ph) 128 ltac:(lia) HG) as HD. change (ceil_div (gd_entries ph) 128) with im_directory_sectors in HD.
  split_and!; nia.
Qed.

Lemma zlen_im_grain g : zlen (hd_grain hd g) = hd_grain_bytes hd.
Proof.
  pose proof im_counts. unfold hd_grain. destruct (hd_grains hd g) as [data|] eqn:E; cbn [default].
  - by apply (fi_grains Hfit g).
  - rewrite zlen_zrep. unfold hd_grain_bytes, SECTOR_SIZE. lia.
Qed.

Lemma zlen_im_table t : zlen (le_u32s (im_table_entries t)) = im_table_sectors * SECTOR_SIZE.
Proof.
  pose proof im_counts. unfold im_table_entries. rewrite zlen_entries by lia. unfold SECTOR_SIZE. lia.
Qed.

Lemma im_directory_at : block_at SECTOR_SIZE (le_u32s im_directory) hosted_image.
Proof.
  unfold hosted_image. eapply block_at_eq; [apply block_at_end|apply zlen_header].
Qed.

Lemma im_table_at t :
  0 <= t < gd_entries ph -> block_at (im_table t * SECTOR_SIZE) (le_u32s (im_table_entries t)) hosted_image.
Proof.
  intros Ht. pose proof im_counts as (_ & _ & _ & _ & HT & HD & _).
  unfold hosted_image. rewrite app_assoc.
  eapply block_at_eq.
  - eapply (block_at_record_in (fun t => le_u32s (im_table_entries t)));
      [apply block_at_end|exact zlen_im_table|exact Ht].
  - rewrite zlen_app, zlen_header. unfold im_directory. rewrite zlen_entries by lia.
    unfold im_table, SECTOR_SIZE. lia.
Qed.

Lemma im_grain_at g :
  0 <= g < grains_of ph -> block_at (im_grain g * SECTOR_SIZE) (hd_grain hd g) hosted_image.
Proof.
  intros Hg. pose proof im_counts as (_ & _ & _ & HG & HT & HD & _).
  unfold hosted_image. rewrite <- (app_nil_r (seqZ 0 (grains_of _) ≫= _)), !app_assoc, <- app_assoc.
  eapply block_at_eq.
  - eapply (block_at_record_in (hd_grain hd)); [apply block_at_end|exact zlen_im_grain|exact Hg].
  - rewrite !zlen_app, zlen_header. unfold im_directory. rewrite zlen_entries by lia.
    rewrite (zlen_records_in _ (im_table_sectors * SECTOR_SIZE)) by (intros x _; apply zlen_im_table).
    unfold zlen. rewrite length_seqZ. fold ph. unfold im_grain, im_table, hd_grain_bytes, SECTOR_SIZE. fold ph. nia.
Qed.
Lemma im_sector_range t g :
  0 <= t < gd_entries ph -> 0 <= g < grains_of ph ->
  0 < im_table t < 2 ^ 32 /\ 0 < im_grain g < 2 ^ 32.
Proof.
  intros Ht Hg. pose proof im_counts as (_ & Hgs & _ & _ & HT & HD & _).
  pose proof (fi_sectors Hfit) as Hs. unfold im_grain, im_table in *. subst ph. nia.
Qed.

Lemma im_grain_entry_value g :
  0 <= g < grains_of ph -> im_grain_entry g = match hd_grains hd g with Some _ => im_grain g | None => 0 end.
Proof.
  intros Hg. unfold im_grain_entry. fold ph. destruct (Z.ltb_spec g (grains_of ph)); [|lia].
  destruct (hd_grains hd g) eqn:E; [|done]. by rewrite bool_decide_true by (by eexists).
Qed.

(** The entries the image has for a grain. *)
Lemma im_table_entry_at g :
  0 <= g < grains_of ph ->
  word_at (table_entry (hd_header hd) (im_table (g / n)) g) (im_grain_entry g) hosted_image.
Proof.
  intros Hg. pose proof im_counts as (Hn & _ & _ & _ & HT & _ & Hn' & _ & HG).
  pose proof (Z.div_mod g n ltac:(lia)) as Hd. pose proof (Z.mod_pos_bound g n Hn).
  assert (Ht : 0 <= g / n < gd_entries ph) by (pose proof (Z.div_pos g n); nia).
  assert (He : im_table_entry (g / n) (g mod n) = im_grain_entry g).
  { unfold im_table_entry. fold n. destruct (Z.ltb_spec (g mod n) n); [|lia]. f_equal. lia. }
  rewrite <- He. unfold table_entry. fold n.
  apply (entry_at _ _ (im_table_sectors * 128)); [by apply im_table_at|lia|].
  rewrite He, im_grain_entry_value by done.
  pose proof (im_sector_range _ _ Ht Hg). destruct (hd_grains hd g); lia.
Qed.

Lemma im_directory_entry_at g :
  0 <= g < grains_of ph ->
  word_at (directory_entry (hd_header hd) g) (im_directory_entry (g / n)) hosted_image /\
  (im_directory_entry (g / n) = im_table (g / n) \/
   im_directory_entry (g / n) = 0 /\ hd_grains hd g = None).
Proof.
  intros Hg. pose proof im_counts as (Hn & _ & _ & _ & HT & _ & Hn' & HD & HG).
  pose proof (Z.div_mod g n ltac:(lia)) as Hd. pose proof (Z.mod_pos_bound g n Hn).
  assert (Ht : 0 <= g / n < gd_entries ph) by (pose proof (Z.div_pos g n); nia).
  pose proof (im_sector_range _ _ Ht Hg). split.
  - unfold directory_entry. rewrite (fi_gd Hfit), Z.mul_1_l. fold n.
    apply (entry_at _ _ (im_directory_sectors * 128)); [exact im_directory_at|lia|].
    unfold im_directory_entry. destruct (_ && _); lia.
  - unfold im_directory_entry. fold ph. destruct (Z.ltb_spec (g / n) (gd_entries ph)); [|lia].
    destruct (existsb _ _) eqn:Hex; [by left|right]. split; [done|].
    destruct (hd_grains hd g) eqn:Hs; [exfalso|done].
    apply Bool.not_true_iff_false in Hex. apply Hex, existsb_exists. exists (im_grain g). split.
    + apply in_map_iff. exists (g mod n). split.
      * unfold im_table_entry. fold n. destruct (Z.ltb_spec (g mod n) n); [|lia].
        replace (g / n * n + g mod n) with g by lia. by rewrite im_grain_entry_value, Hs.
      * apply list_elem_of_In, elem_of_seqZ. lia.
    + apply negb_true_iff, Z.eqb_neq. lia.
Qed.

Lemma im_grain_hosted `{Flate2} g :
  0 <= g < grains_of ph -> hosted_grain hosted_image (hd_header hd) g (hd_grains hd g).
Proof.
  intros Hg. destruct (im_directory_entry_at g Hg) as [Hd [He|[He Hnone]]]; rewrite He in Hd.
  - assert (Ht : 0 <= g / n < gd_entries ph).
    { pose proof im_counts as (Hn & _ & _ & _ & _ & _ & _ & _ & HG).
      pose proof (Z.div_mod g n ltac:(lia)). pose proof (Z.mod_pos_bound g n Hn).
      pose proof (Z.div_pos g n). nia. }
    pose proof (im_sector_range _ _ Ht Hg) as [Hrt Hrg]. pose proof (im_table_entry_at g Hg) as Hte.
    rewrite im_grain_entry_value in Hte by done. destruct (hd_grains hd g) as [data|] eqn:Hs.
    + eapply hosted_stored; [exact Hd|lia|exact Hte|lia|by apply (fi_grains Hfit g)|].
      apply grain_plain; [apply Hfit|]. pose proof (im_grain_at g Hg) as Hb.
      unfold hd_grain in Hb. by rewrite Hs in Hb.
    + eapply hosted_no_grain; [exact Hd|lia|exact Hte].
  - rewrite Hnone. by apply hosted_no_table.
Qed.

Lemma image_bytes : Forall is_byte hosted_image.
Proof.
  unfold hosted_image, le_u32s. repeat (apply Forall_app; split).
  - apply Hfit.
  - apply Forall_bind, Forall_forall. intros; apply le_bytes_is_byte.
  - apply Forall_bind, Forall_forall. intros. apply Forall_bind, Forall_forall.
    intros; apply le_bytes_is_byte.
  - apply Forall_bind, Forall_forall. intros g _. unfold compose, hd_grain.
    destruct (hd_grains hd g) as [data|] eqn:E; cbn [default].
    + exact (proj2 (fi_grains Hfit g data E)).
    + by apply Forall_zrep.
Qed.

(** Every disk that fits has an image in the format. *)
Lemma image_hosted `{Flate2} : hosted hosted_image hd.
Proof.
  pose proof Hfit as []. split; try done.
  - exact image_bytes.
  - eapply block_at_eq; [apply (block_at_end [])|done].
  - pose proof im_directory_at as (_ & Hl & _). pose proof im_counts as (_ & _ & _ & _ & _ & HD & _ & HG & _).
    unfold im_directory in Hl. rewrite zlen_entries in Hl by lia. unfold gd_offset_bytes.
    cbn [parsed_header sh_gd_offset]. rewrite fi_gd0. fold ph. lia.
  - exact im_grain_hosted.
Qed.
End image.

(** ** The export of hosted disks *)

Section export.
  Context `{FileSystem} `{!MmapLaws} `{BuildProfile} `{Flate2Laws} `{RayonLaws}.
  Context {W : Type}.
  Implicit Type s : export_state W.

(** The file at [path] stores the disk. *)
Definition hosted_at (path : str) (hd : hosted_disk) : Prop :=
  exists file, file_open path = Ok file /\ hosted file hd.

Lemma hosted_at_opens path hd :
  hosted_at path hd ->
  exists r, SparseVmdkReader_open path = Ok r /\ svr_wf r /\
    grains_readable r (grains_of (svr_header r)) /\ virtual_disk r = hd_contents hd.
Proof.
  intros (file & Hf & Ho). exists (hosted_reader file hd). split_and!.
  - unfold SparseVmdkReader_open. rewrite Hf. cbn [map_err mbind outcome_bind].
    rewrite mmap_faithful. by apply hosted_opens.
  - by apply hosted_reader_wf.
  - by apply hosted_readable.
  - by apply hosted_virtual_disk.
Qed.

Lemma hosted_extents_open dir extents hds :
  Forall2 (fun e hd => hosted_at (path_join dir (ex_filename e)) hd) extents hds ->
  exists rs, Forall2 (extent_opens dir) extents rs /\ map virtual_disk rs = map hd_contents hds.
Proof.
  induction 1 as [|e hd es hds Hh _ (rs & Hes & Hm)]; [by exists []|].
  apply hosted_at_opens in Hh as (r & Hr & Hwf & Hg & Hv).
  exists (r :: rs). split; [by constructor|]. cbn. by rewrite Hv, Hm.
Qed.

(** ** The properties *)

(** C13: the sparse reader implements the hosted format: a file that stores a
    disk, wherever its directory, its tables and its grains are and whichever
    grains are missing, plain or compressed, opens, announces the capacity, and
    its chunk iterator yields the contents of the disk cut into chunks, as many
    as it counts. *)
Theorem hosted_disk_readable file hd cs fuel :
  hosted file hd -> 0 < cs -> hd_capacity hd <= Z.of_nat fuel ->
  exists r, SparseVmdkReader_from_mmap file = Ok r /\ capacity r = zlen (hd_contents hd) /\
    drain_from (S fuel) SparseChunkIterator_next (sparse_chunks r cs)
      = Ok (split_chunks cs (hd_contents hd)) /\
    sparse_count_chunks (E:=Error) (sparse_chunks r cs) = Ok (zlen (split_chunks cs (hd_contents hd))).
Proof.
  intros Ho Hcs Hfuel. exists (hosted_reader file hd).
  pose proof (zlen_hd_contents file hd Ho) as Hl. split_and!; [by apply hosted_opens|done|by apply hosted_drains|].
  unfold sparse_count_chunks. cbn [sparse_chunks SparseChunkIterator_new sci_reader sci_chunk_size].
  rewrite count_expr by done. cbn [hosted_reader svr_capacity_bytes].
  by rewrite split_chunks_length, Hl by done.
Qed.

(** C4: a disk in the hosted format, in one file or split over several, keeps
    its contents when exported in chunks of one grain: read back from the image
    and decoded, it is byte for byte the contents of its grains, with zeros for
    the grains that are not allocated, and the image is the same however the
    disk is stored. *)
Theorem hosted_disks_exported cb (p : Pipeline) level d s :
  zlen d mod SECTOR_SIZE = 0 -> zlen d < 2 ^ 64 ->
  (forall chunk c, zlen chunk <= grain_len -> deflate_finish level chunk = Ok c -> zlen c < 2 ^ 32) ->
  exists vmdk s', (zlen vmdk <= max_file -> exported_read vmdk (zlen d) = Ok d) /\
    (forall path hd, hosted_at path hd -> hd_contents hd = d ->
       process_sparse_disk cb path (zlen d) p level grain_len s = (Ok vmdk, s')) /\
    (forall extents dir hds,
       Forall2 (fun e hd => hosted_at (path_join dir (ex_filename e)) hd) extents hds ->
       concat (map hd_contents hds) = d ->
       process_split_sparse_disk cb extents dir (zlen d) p level grain_len s = (Ok vmdk, s')).
Proof.
  intros Hm Hd Hsmall. destruct (disk_image_total (zlen d) level grain_len d) as [vmdk Hi].
  exists vmdk, (progressed cb 0 (map zlen (split_chunks grain_len d)) s). split_and!.
  - intros Hmax. by apply (image_holds_disk level).
  - intros path hd Hp Hc. apply hosted_at_opens in Hp as (r & Hr & Hwf & Hg & Hv). rewrite Hc in Hv.
    assert (Hcr : zlen d = capacity r) by (rewrite <- Hv; by apply zlen_virtual_disk).
    rewrite Hcr in Hi |- *. rewrite <- Hv in *. by apply process_sparse_disk_spec.
  - intros extents dir hds Hes Hc. apply hosted_extents_open in Hes as (rs & Hrs & Hvs).
    rewrite <- Hvs in Hc. rewrite <- Hc in *. by apply process_split_spec.
Qed.
End export.

(** ** Sample disks

    The disk of [sample_sparse], compressed; the same disk as an image; and a
    disk of twice its size. *)

Definition some_grain : bytes := pad_sector [1; 2; 3].

Definition sample_disk (h : SparseExtentHeader) (stored : list Z) : hosted_disk :=
  {| hd_header := h;
     hd_grains g := if bool_decide (g ∈ stored) then Some some_grain else None |}.

Definition compressed_header : SparseExtentHeader :=
  {| seh_magic := VMDK_MAGIC; seh_version := 1; seh_flags := 3 + 65536; seh_capacity := 3;
     seh_grain_size := 1; seh_descriptor_offset := 0; seh_descriptor_size := 0;
     seh_num_gtes_per_gt := 2; seh_rgd_offset := 0; seh_gd_offset := 1; seh_overhead := 0;
     seh_unclean_shutdown := 0; seh_newline_chars := (10, 32, 13, 10);
     seh_compress_algorithm := 1 |}.

Definition compressed_sparse : bytes :=
  SparseExtentHeader_to_bytes compressed_header ++ pad_sector (le_u32s [2; 0])
  ++ pad_sector (le_u32s [3; 0])
  ++ pad_sector (GrainMarker_to_bytes (GrainMarker_new 0 512) ++ some_grain).

(** Blocks of concrete files. *)
Definition block_atb (off : Z) (b file : bytes) : bool :=
  (0 <=? off) && (off + zlen b <=? zlen file) && bool_decide (zslice off (zlen b) file = b).

Lemma block_atb_spec off b file : block_atb off b file = true -> block_at off b file.
Proof.
  unfold block_atb. rewrite !andb_true_iff, bool_decide_eq_true. intros [[? ?] ?].
  split_and!; [lia|lia|done].
Qed.

Lemma word_atb off v file :
  (0 <=? v) && (v <? 2 ^ 32) && block_atb off (u32_le v) file = true -> word_at off v file.
Proof. rewrite !andb_true_iff. intros [[? ?] ?]. split; [lia|by apply block_atb_spec]. Qed.

Ltac word_check := apply word_atb; vm_compute; reflexivity.

Lemma compressed_hosted :
  hosted (H:=stored_flate2) compressed_sparse (sample_disk compressed_header [0]).
Proof.
  split; try (by vm_compute).
  - apply all_bytes_spec. by vm_compute.
  - intros g Hg. change (grains_of _) with 3 in Hg.
    assert (g = 0 \/ g = 1 \/ g = 2) as [->|[->| ->]] by lia.
    + change (hd_grains _ 0) with (Some some_grain).
      apply (hosted_stored _ _ _ 2 3);
        [word_check|discriminate|word_check|discriminate|by vm_compute|].
      by apply (grain_compressed _ _ _ _ 6 0 some_grain); vm_compute.
    + change (hd_grains _ 1) with (@None bytes).
      apply (hosted_no_grain _ _ _ 2); [word_check|discriminate|word_check].
    + change (hd_grains _ 2) with (@None bytes). apply hosted_no_table. word_check.
Qed.

Lemma some_if {A} (b : bool) (x y : A) : (if b then Some x else None) = Some y -> y = x.
Proof. destruct b; congruence. Qed.

Lemma sample_fits h stored :
  h = sample_header \/ h = double_header -> image_fits (sample_disk h stored).
Proof.
  intros Hh. split; try (by destruct Hh as [-> | ->]; vm_compute).
  - destruct Hh as [-> | ->]; apply all_bytes_spec; by vm_compute.
  - intros g data ->%some_if.
    split; [by destruct Hh as [-> | ->]; vm_compute|apply all_bytes_spec; by vm_compute].
Qed.

Lemma hosted_disk_readable_witness :
  exists r, SparseVmdkReader_from_mmap (H:=debug) compressed_sparse = Ok r /\
    capacity r = zlen sample_data /\
    drain_from (S 1536) (SparseChunkIterator_next (H:=debug) (H0:=stored_flate2)) (sparse_chunks r 1000)
      = Ok (split_chunks 1000 sample_data) /\
    sparse_count_chunks (E:=Error) (sparse_chunks r 1000) = Ok 2.
Proof.
  assert (Hc : hd_contents (sample_disk compressed_header [0]) = sample_data) by (by vm_compute).
  destruct (hosted_disk_readable (H1:=debug) (H3:=stored_flate2_laws) compressed_sparse
    (sample_disk compressed_header [0]) 1000 1536 compressed_hosted) as (r & Hr & Hcap & Hd & Hn);
    [lia|by vm_compute|].
  rewrite Hc in Hcap, Hd, Hn. exists r. split_and!; [exact Hr|exact Hcap|exact Hd|].
  rewrite Hn. vm_compute. reflexivity.
Defined.

Definition hosted_files : FileSystem :=
  fs_of [(lit "/vm/mono.vmdk", hosted_image (sample_disk double_header [0; 3]));
         (lit "/vm/s1.vmdk", hosted_image (sample_disk sample_header [0]));
         (lit "/vm/s2.vmdk", compressed_sparse)].

Lemma hosted_disks_exported_witness :
  exists vmdk s', exported_read (H:=stored_flate2) vmdk 3072 = Ok (sample_data ++ sample_data) /\
    process_sparse_disk (H:=hosted_files) (H1:=debug) (H2:=stored_flate2) (H3:=backwards) true
      (lit "/vm/mono.vmdk") 3072 disk_pipeline 6 grain_len idle = (Ok vmdk, s') /\
    process_split_sparse_disk (H:=hosted_files) (H1:=debug) (H2:=stored_flate2) (H3:=backwards) true
      split_extents (lit "/vm") 3072 disk_pipeline 6 grain_len idle = (Ok vmdk, s').
Proof.
  destruct (hosted_disks_exported (H:=hosted_files) (H0:=fun b => eq_refl) (H1:=debug)
    (H3:=stored_flate2_laws) (H5:=backwards_laws) true disk_pipeline 6
    (sample_data ++ sample_data) idle) as (vmdk & s' & Hread & Hmono & Hsplit).
  - by vm_compute.
  - by vm_compute.
  - intros chunk c. by apply stored_small.
  - assert (Hm : process_sparse_disk (H:=hosted_files) (H1:=debug) (H2:=stored_flate2) (H3:=backwards) true
      (lit "/vm/mono.vmdk") 3072 disk_pipeline 6 grain_len idle = (Ok vmdk, s')).
    { apply (Hmono (lit "/vm/mono.vmdk") (sample_disk double_header [0; 3])); [|by vm_compute].
      eexists. split; [reflexivity|]. apply image_hosted, sample_fits. by right. }
    exists vmdk, s'. split_and!; [|exact Hm|].
    + apply Hread. vm_compute in Hm. injection Hm as <- _. by vm_compute.
    + apply (Hsplit _ _ [sample_disk sample_header [0]; sample_disk compressed_header [0]]); [|by vm_compute].
      repeat (apply List.Forall2_cons || apply List.Forall2_nil).
      * eexists. split; [reflexivity|]. apply image_hosted, sample_fits. by left.
      * eexists. split; [reflexivity|]. exact compressed_hosted.
Defined.
