(* ===== verification/ExportVmSpec.v ===== *)
(** * ExportVmSpec: the whole export

    From the files of a virtual machine to the archive: what [export_vm]
    writes, and that its descriptor matches its disks. *)
From S2P Require Export ExportSpec OvfSpec OvaSpec TypesSpec.

(** ** How a disk is stored *)

Section vm.
  Context `{FileSystem} `{!MmapLaws} `{UnicodeTables} `{BuildProfile} `{Flate2Laws} `{RayonLaws}.

(** The disk [c] of a machine in the directory [dir] has the contents [d]. *)
Inductive disk_stored (dir : str) (c : DiskConfig) (d : bytes) : Prop :=
| stored_flat flat :
    disk_type_of dir (path_join dir (dc_file_name c)) = Ok (FlatDisk flat (zlen d)) ->
    file_open flat = Ok d -> disk_stored dir c d
| stored_sparse path r :
    disk_type_of dir (path_join dir (dc_file_name c)) = Ok (MonolithicSparse path (zlen d)) ->
    SparseVmdkReader_open path = Ok r -> svr_wf r -> grains_readable r (grains_of (svr_header r)) ->
    virtual_disk r = d -> disk_stored dir c d
| stored_split extents rs :
    disk_type_of dir (path_join dir (dc_file_name c)) = Ok (SplitSparse extents dir (zlen d)) ->
    Forall2 (extent_opens dir) extents rs -> concat (map virtual_disk rs) = d -> disk_stored dir c d.

(** What the callback and the progress do not concern: the output file, the
    total and the number of disks. *)
Definition same_run {W} (s s' : export_state W) : Prop :=
  es_output s' = es_output s /\ ep_bytes_total (es_progress s') = ep_bytes_total (es_progress s) /\
  ep_total_disks (es_progress s') = ep_total_disks (es_progress s).

Lemma progressed_same_run {W} cb n lens (s : export_state W) : same_run s (progressed cb n lens s).
Proof.
  revert n s. induction lens as [|l lens IH]; intros n s; [done|]. cbn [progressed].
  destruct (IH (n + l) (reported cb (n + l) s)) as (H1' & H2' & H3'). by split_and!.
Qed.

Lemma same_run_trans {W} (s1 s2 s3 : export_state W) : same_run s1 s2 -> same_run s2 s3 -> same_run s1 s3.
Proof. intros (? & ? & ?) (? & ? & ?). split_and!; congruence. Qed.

(** However the disk is stored, its image and the progress reported are a
    matter of its contents. *)
Lemma compress_disk_progressed {W} cb (p : Pipeline) level cs dir c d vmdk :
  disk_stored dir c d -> 0 < cs -> zlen d < 2 ^ 64 -> disk_image (zlen d) level cs d = Ok vmdk ->
  exists t, disk_type_of dir (path_join dir (dc_file_name c)) = Ok t /\
    forall s : export_state W, compress_disk cb p level cs t s =
      (Ok (vmdk, zlen d), progressed cb 0 (map zlen (split_chunks cs d)) s).
Proof.
  intros Hst Hcs Hd Hi. destruct Hst as [flat Ht Hf|path r Ht Ho Hwf Hg Hv|extents rs Ht Hes Hv];
    eexists; (split; [exact Ht|]); intros s; cbn [compress_disk].
  - rewrite (M_bind_step _ _ s _ _ (process_disk_spec cb flat (zlen d) p level cs d s vmdk Hf Hcs Hd Hi)).
    reflexivity.
  - assert (Hcap : zlen d = capacity r) by (subst d; by apply zlen_virtual_disk).
    rewrite Hcap in *. subst d.
    rewrite (M_bind_step _ _ s _ _ (process_sparse_disk_spec cb path p level cs r s vmdk Ho Hwf Hg Hcs Hi)).
    reflexivity.
  - subst d. rewrite (M_bind_step _ _ s _ _ (process_split_spec cb extents dir p level cs rs s vmdk Hes Hcs Hd Hi)).
    reflexivity.
Qed.

Lemma compress_disk_stored {W} cb (p : Pipeline) level cs dir c d vmdk :
  disk_stored dir c d -> 0 < cs -> zlen d < 2 ^ 64 -> disk_image (zlen d) level cs d = Ok vmdk ->
  exists t, disk_type_of dir (path_join dir (dc_file_name c)) = Ok t /\
    forall s : export_state W, exists s',
      compress_disk cb p level cs t s = (Ok (vmdk, zlen d), s') /\ same_run s s'.
Proof.
  intros Hst Hcs Hd Hi. destruct (compress_disk_progressed (W:=W) cb p level cs dir c d vmdk Hst Hcs Hd Hi)
    as (t & Ht & Hrun).
  exists t. split; [done|]. intros s. eexists. split; [apply Hrun|apply progressed_same_run].
Qed.
End vm.

(** ** The loop over the disks *)

(** The description of disk [k]. *)
Definition disk_info (k : nat) (capacity size : Z) : DiskInfo :=
  {| di_id := fmt (lit "vmdisk{}") [show_dec (Z.of_nat k + 1)];
     di_file_ref := fmt (lit "file{}") [show_dec (Z.of_nat k + 1)];
     di_capacity_bytes := capacity; di_file_size_bytes := size |}.

(** The descriptions of disks with the contents [ds] and the images [vs]. *)
Definition disk_infos (k : nat) (ds vs : list bytes) : list DiskInfo :=
  imap (fun j '(d, v) => disk_info (k + j) (zlen d) (zlen v)) (zip ds vs).

(** The same before the sizes are known. *)
Definition unsized_infos (k : nat) (ds : list bytes) : list DiskInfo :=
  imap (fun j d => disk_info (k + j) (zlen d) 0) ds.

Definition buffers (disks : list DiskConfig) (ds vs : list bytes) : list (str * bytes * Z) :=
  zip_with (fun c '(d, v) => (dc_file_name c, v, zlen d)) disks (zip ds vs).

Lemma imap_shift {A B} (f : nat -> A -> B) k x l :
  imap (fun j y => f (k + j)%nat y) (x :: l) = f k x :: imap (fun j y => f (S k + j)%nat y) l.
Proof.
  cbn [imap]. rewrite Nat.add_0_r. f_equal. apply imap_ext. intros j y _. unfold compose. f_equal. lia.
Qed.

Section loop.
  Context `{FileSystem} `{!MmapLaws} `{UnicodeTables} `{BuildProfile} `{Flate2Laws} `{RayonLaws} {W : Type}.
  Context (cb : bool) (options : ExportOptions) (p : Pipeline) (dir : str).
  Abbreviation cs := (eo_chunk_size options).

(** The images of the contents, for the options of the run. *)
Definition images (ds vs : list bytes) : Prop :=
  Forall2 (fun d v => zlen d < 2 ^ 64 /\ disk_image (zlen d) (compression_level p) cs d = Ok v) ds vs.

Lemma images_exist ds : Forall (fun d => zlen d < 2 ^ 64) ds -> exists vs, images ds vs.
Proof.
  induction 1 as [|d ds Hd _ [vs IH]]; [exists []; constructor|].
  destruct (disk_image_total (zlen d) (compression_level p) cs d) as [v Hv]. exists (v :: vs).
  by apply Forall2_cons.
Qed.

Lemma compress_disks_spec k disks ds vs infos bufs (s : export_state W) :
  Forall2 (disk_stored dir) disks ds -> images ds vs -> 0 < cs ->
  exists s', compress_disks cb options p dir (Z.of_nat k) disks infos bufs s
    = (Ok (infos ++ unsized_infos k ds, bufs ++ buffers disks ds vs), s') /\ same_run s s'.
Proof.
  intros Hst. revert k vs infos bufs s.
  induction Hst as [|c d disks ds Hc Hst IH]; intros k vs infos bufs s Him Hcs; cbn [compress_disks].
  { inversion Him. exists s. split; [|done]. unfold unsized_infos, buffers. cbn. by rewrite !app_nil_r. }
  inversion Him as [|? v ? vs' [Hd Hv] Him']; subst.
  destruct (compress_disk_stored (W:=W) cb p _ _ _ _ _ _ Hc Hcs Hd Hv) as (t & Ht & Hrun).
  set (s0 := snd (report cb (snd (set_progress (with_current_disk (Z.of_nat k + 1))
                   (snd (set_progress (with_phase Compressing) s)))))).
  rewrite (M_bind_step (set_progress _) _ s tt _ eq_refl), (M_bind_step (set_progress _) _ _ tt _ eq_refl).
  rewrite (M_bind_step (report cb) _ _ tt s0 eq_refl). cbv zeta. rewrite Ht.
  rewrite (M_bind_step (lift _) _ s0 t s0 eq_refl). destruct (Hrun s0) as (s1 & E1 & Hs1).
  rewrite (M_bind_step _ _ _ _ _ E1). cbn beta iota.
  destruct (IH (S k) vs' (infos ++ [disk_info k (zlen d) 0]) (bufs ++ [(dc_file_name c, v, zlen d)]) s1 Him' Hcs)
    as (s2 & E2 & Hs2).
  exists s2. split.
  - rewrite Nat2Z.inj_succ, <- Z.add_1_r in E2. unfold disk_info in E2. rewrite E2. do 3 f_equal; rewrite <- app_assoc; f_equal.
    unfold unsized_infos. symmetry. apply (imap_shift (fun j d => disk_info j (zlen d) 0)).
  - apply (same_run_trans _ s0); [by destruct cb|]. by apply (same_run_trans _ s1).
Qed.
End loop.

(** ** Writing the archive *)

(** Runs the actions that only touch the local state. *)
Ltac run_state :=
  repeat first
    [ rewrite (M_bind_step (set_progress _) _ _ tt _ eq_refl)
    | rewrite (M_bind_step (report _) _ _ tt _ eq_refl)
    | rewrite (M_bind_step (modify _) _ _ tt _ eq_refl)
    | rewrite (M_bind_step (lift (Ok _)) _ _ _ _ eq_refl) ].

Section archive.
  Context `{FileSystem} `{!MmapLaws} `{UnicodeTables} `{BuildProfile} `{Flate2Laws} `{RayonLaws}.
  Context `{InfallibleWrite W} `{Sha2Laws} (now : nat -> Z).

(** Member [i] of the archive. *)
Definition member_at (i : nat) (name : str) (data : bytes) : member :=
  {| mb_name := name; mb_mtime := Z.max 0 (now i); mb_data := data |}.

Definition disk_members (k : nat) (disks : list DiskConfig) (vs : list bytes) : list member :=
  imap (fun j '(c, v) => member_at (k + j) (dc_file_name c) v) (zip disks vs).

(** The state with the archive's file as the output. *)
Definition written (o : OvaWriter W) (s : export_state W) : export_state W :=
  Build_export_state (es_progress s) (es_reports s) (Some (ow_writer o)).

Lemma on_archive_add ms i name data o (s : export_state W) :
  archive_rep [] ms o -> member_wf (member_at i name data) ->
  exists o', on_archive (add_file (now i) name data) o s = (Ok o', written o' s) /\
    archive_rep [] (ms ++ [member_at i name data]) o'.
Proof.
  intros Hrep Hwf. pose proof (ar_wf _ _ _ Hrep) as Hw. destruct Hwf as (Hn & Ht & Hd). cbn in Hn, Ht, Hd.
  destruct (add_file_total (now i) name data o Hw Hn Hd ltac:(lia)) as [o' E]. exists o'. split.
  - unfold on_archive. by rewrite E.
  - eapply appended_rep; [exact Hrep|]. by apply add_file_appends in E.
Qed.

Lemma set_file_size_at k infos cap n rest :
  length infos = k ->
  set_file_size k n (infos ++ disk_info k cap 0 :: rest) = Ok (infos ++ disk_info k cap n :: rest).
Proof.
  intros <-. unfold set_file_size. rewrite lookup_app_r, Nat.sub_diag by done. cbn [lookup list_lookup].
  f_equal. rewrite insert_app_r_alt, Nat.sub_diag by done. done.
Qed.

Lemma write_disks_spec k disks ds vs infos ms o (s : export_state W) :
  length infos = k -> archive_rep [] ms o -> length disks = length ds -> length ds = length vs ->
  Forall member_wf (disk_members k disks vs) ->
  exists o' s', write_disks now k (buffers disks ds vs) (infos ++ unsized_infos k ds) o s
      = (Ok (infos ++ disk_infos k ds vs, o'), s') /\
    archive_rep [] (ms ++ disk_members k disks vs) o' /\
    es_progress s' = es_progress s /\ es_reports s' = es_reports s /\
    (es_output s = Some (ow_writer o) -> es_output s' = Some (ow_writer o')).
Proof.
  revert k disks ds infos ms o s. induction vs as [|v vs IH]; intros k disks ds infos ms o s Hk Hrep H1' H2' Hwf.
  { destruct ds; [|done]. destruct disks; [|done]. exists o, s. split; [done|]. by rewrite app_nil_r. }
  destruct ds as [|d ds]; [done|]. destruct disks as [|c disks]; [done|].
  unfold disk_members in Hwf. cbn [zip zip_with] in Hwf.
  rewrite (imap_shift (fun j '(c, v) => member_at j (dc_file_name c) v)) in Hwf.
  apply Forall_cons in Hwf as [Hm Hwf].
  destruct (on_archive_add ms k (dc_file_name c) v o s Hrep Hm) as (o1 & E1 & Hrep1).
  destruct (IH (S k) disks ds (infos ++ [disk_info k (zlen d) (zlen v)])
    (ms ++ [member_at k (dc_file_name c) v]) o1 (written o1 s))
    as (o2 & s2 & E2 & Hrep2 & Hp & Hr & Ho);
    [rewrite length_app; cbn; lia|exact Hrep1|by injection H1'|by injection H2'|done|].
  exists o2, s2. split_and!; [|..]; try done.
  - cbn [buffers zip zip_with write_disks]. unfold unsized_infos.
    rewrite (imap_shift (fun j d => disk_info j (zlen d) 0)), set_file_size_at by done.
    rewrite (M_bind_step (lift _) _ s _ s eq_refl), (M_bind_step _ _ _ _ _ E1).
    unfold buffers, unsized_infos in E2. rewrite <- app_assoc in E2. cbn [app] in E2. rewrite E2. do 3 f_equal.
    rewrite <- app_assoc. f_equal. unfold disk_infos. cbn [zip zip_with].
    by rewrite (imap_shift (fun j '(d, v) => disk_info j (zlen d) (zlen v))).
  - unfold disk_members in *. cbn [zip zip_with].
    rewrite (imap_shift (fun j '(c, v) => member_at j (dc_file_name c) v)). by rewrite <- app_assoc in Hrep2.
  - intros _. by apply Ho.
Qed.

Lemma on_archive_finish i ms o (s : export_state W) :
  archive_rep [] ms o -> Z.max 0 (now i) < tar_limit ->
  zlen (utf8_encode (ms ≫= manifest_line)) < tar_limit ->
  exists o', on_archive (ova_finish_body (now i)) o s = (Ok o', written o' s) /\
    tar_read (contents (ow_writer o')) = Some (listing (ms ++ manifest_of (now i) ms)).
Proof.
  intros Hrep Ht Hm.
  destruct (OvaWriter_finish_total ms (now i) o (ar_entries _ _ _ Hrep) (ar_wf _ _ _ Hrep) Hm Ht) as [w Ew].
  destruct (OvaWriter_finish_Ok _ _ _ _ _ Hrep Ew) as (_ & Hms & Hc). unfold OvaWriter_finish in Ew.
  destruct (ova_finish_body (now i) o) as [[u|e| |] o'] eqn:E; try done. injection Ew as <-.
  exists o'. split; [unfold on_archive; by rewrite E|]. rewrite Hc. by apply tar_read_archive.
Qed.

(** The whole run, on the machine the files describe. *)
Lemma export_vm_run `{HashOrder} file_create cb vmx_path output_path options config dir total
    (p : Pipeline) w ds vs xml (s : export_state W) :
  parse_vmx vmx_path = Ok config -> path_parent vmx_path = Some dir ->
  calculate_total_disk_size config dir = Ok total ->
  Pipeline_new (PipelineConfig_new (eo_chunk_size options) (eo_compression options)
                  (eo_num_threads options)) = (Ok p : Result Pipeline) ->
  file_create output_path = Ok w -> wf_writer w -> contents w = [] -> 0 < eo_chunk_size options ->
  Forall2 (disk_stored dir) (vc_disks config) ds -> images options p ds vs ->
  build (OvfBuilder_new config) (disk_infos 0 ds vs) = Ok xml ->
  let n := length (vc_disks config) in
  let ms := disk_members 0 (vc_disks config) vs
            ++ [member_at n (fmt (lit "{}.ovf") [sanitize_filename (vc_display_name config)]) (utf8_encode xml)] in
  Forall member_wf ms -> Z.max 0 (now (S n)) < tar_limit ->
  zlen (utf8_encode (ms ≫= manifest_line)) < tar_limit ->
  exists s' w', export_vm file_create now cb vmx_path output_path options s = (Ok tt, s') /\
    es_output s' = Some w' /\
    tar_read (contents w') = Some (listing (ms ++ manifest_of (now (S n)) ms)) /\
    ep_phase (es_progress s') = Complete /\ ep_bytes_processed (es_progress s') = total /\
    ep_bytes_total (es_progress s') = total.
Proof.
  intros Hparse Hdir Htotal Hpipe Hfile Hw Hc Hcs Hst Him Hxml n ms Hms Ht Hman.
  unfold export_vm. rewrite Hparse, Hdir. cbn [ok_or]. run_state. rewrite Htotal. cbv zeta. run_state.
  rewrite Hpipe. run_state. rewrite Hfile. cbn [map_err]. run_state. unfold OvaWriter_new. run_state.
  match goal with |- context [(compress_disks _ _ _ _ _ _ _ _ ≫= _) ?st] =>
    destruct (compress_disks_spec cb options p dir 0 (vc_disks config) ds vs [] [] st Hst Him Hcs)
      as (s1 & E1 & Ho1 & Ht1 & _) end.
  change (Z.of_nat 0) with 0 in E1. rewrite (M_bind_step _ _ _ _ _ E1). cbn beta iota.
  run_state. apply Forall2_length in Hst as Hl1. apply Forall2_length in Him as Hl2.
  apply Forall_app in Hms as Hms1. destruct Hms1 as [Hms1 Hms2]. apply Forall_cons in Hms2 as [Hms2 _].
  pose proof (archive_rep_new w Hw) as Hrep. rewrite Hc in Hrep.
  match goal with |- context [(write_disks _ _ _ _ _ ≫= _) ?st] =>
    destruct (write_disks_spec 0 (vc_disks config) ds vs [] [] _ st eq_refl Hrep Hl1 Hl2 Hms1)
      as (o2 & s2 & E2 & Hrep2 & Hp2 & _ & Ho2) end.
  rewrite (M_bind_step _ _ _ _ _ E2). cbn beta iota.
  run_state. cbn [app] in *. rewrite Hxml. run_state.
  assert (Hn : length (buffers (vc_disks config) ds vs) = n).
  { unfold buffers. rewrite length_zip_with, length_zip_with. lia. }
  rewrite Hn.
  match goal with |- context [(on_archive _ _ ≫= _) ?st] =>
    destruct (on_archive_add _ n _ _ o2 st Hrep2 Hms2) as (o3 & E3 & Hrep3) end.
  rewrite (M_bind_step _ _ _ _ _ E3).
  match goal with |- context [(on_archive _ _ ≫= _) ?st] =>
    destruct (on_archive_finish (S n) ms o3 st Hrep3 Ht Hman) as (o4 & E4 & Hread) end.
  rewrite (M_bind_step _ _ _ _ _ E4).
  run_state. eexists _, (ow_writer o4). split; [reflexivity|]. split; [reflexivity|]. split; [exact Hread|].
  cbn. rewrite Hp2. cbn. cbn in Ht1. by rewrite Ht1.
Qed.
End archive.

(** ** The descriptions *)

Lemma disk_infos_lookup k ds vs i d v :
  ds !! i = Some d -> vs !! i = Some v ->
  disk_infos k ds vs !! i = Some (disk_info (k + i) (zlen d) (zlen v)).
Proof.
  intros Hd Hv. unfold disk_infos. rewrite list_lookup_imap, lookup_zip_with, Hd. cbn [mbind option_bind].
  by rewrite Hv.
Qed.

Lemma disk_infos_inv k ds vs i x :
  disk_infos k ds vs !! i = Some x ->
  exists d v, ds !! i = Some d /\ vs !! i = Some v /\ x = disk_info (k + i) (zlen d) (zlen v).
Proof.
  unfold disk_infos. rewrite list_lookup_imap, lookup_zip_with. intros Hx.
  destruct (ds !! i) as [d|]; [|done]. cbn [mbind option_bind] in Hx.
  destruct (vs !! i) as [v|]; [|done]. injection Hx as <-. by exists d, v.
Qed.

Lemma disk_info_names k cap size :
  di_id (disk_info k cap size) = lit "vmdisk" ++ show_dec (Z.of_nat k + 1) /\
  di_file_ref (disk_info k cap size) = lit "file" ++ show_dec (Z.of_nat k + 1).
Proof.
  unfold disk_info. cbn [di_id di_file_ref]. generalize (show_dec (Z.of_nat k + 1)) as x. intros x.
  split; rewrite <- (app_nil_r x) at 2; reflexivity.
Qed.

(** A name that has the number of the disk in it is a different one for each. *)
Lemma disk_infos_distinct (f : DiskInfo -> str) (pre : str) ds vs :
  (forall k cap size, f (disk_info k cap size) = pre ++ show_dec (Z.of_nat k + 1)) ->
  NoDup (map f (disk_infos 0 ds vs)).
Proof.
  intros Hf. apply NoDup_alt. intros i j x Hi Hj. change (map f) with (fmap (M:=list) f) in *.
  apply list_lookup_fmap_Some in Hi as (di & -> & Hi). apply list_lookup_fmap_Some in Hj as (dj & Hx & Hj).
  apply disk_infos_inv in Hi as (? & ? & _ & _ & ->). apply disk_infos_inv in Hj as (? & ? & _ & _ & ->).
  rewrite !Hf in Hx. apply app_inv_head, show_dec_inj in Hx; lia.
Qed.

Lemma disk_infos_printable config ds vs :
  0 <= vc_num_cpus config -> 0 <= vc_memory_mb config ->
  Forall (fun c => xml_plain (dc_file_name c)) (vc_disks config) -> printable config (disk_infos 0 ds vs).
Proof.
  intros Hc Hm Hn. constructor; [done..|]. apply Forall_lookup. intros i x.
  intros (d & v & _ & _ & ->)%disk_infos_inv. destruct (disk_info_names (0 + i) (zlen d) (zlen v)) as [_ ->].
  split_and!; [|apply zlen_nonneg..]. unfold xml_plain. rewrite forallb_app. apply andb_true_iff.
  split; [done|]. apply show_fuel_plain. lia.
Qed.

(** ** The properties *)

Section run.
  Context `{FileSystem} `{!MmapLaws} `{UnicodeTables} `{BuildProfile} `{Flate2Laws} `{RayonLaws}.
  Context `{InfallibleWrite W} `{Sha2Laws} `{HashOrder} (file_create : str -> io_result W) (now : nat -> Z).

(** A machine that can be exported: what the files say, the contents [ds] of its
    disks and the images [vs] they are exported as. *)
Record exportable (vmx_path output_path : str) (options : ExportOptions) (config : VmxConfig) (dir : str)
    (total : Z) (p : Pipeline) (w : W) (ds vs : list bytes) : Prop := {
  xp_config : parse_vmx vmx_path = Ok config;
  xp_dir : path_parent vmx_path = Some dir;
  xp_total : calculate_total_disk_size config dir = Ok total;
  xp_pool : Pipeline_new (PipelineConfig_new (eo_chunk_size options) (eo_compression options)
                            (eo_num_threads options)) = (Ok p : Result Pipeline);
  xp_output : file_create output_path = Ok w;
  xp_writer : wf_writer w /\ contents w = [];
  xp_chunk_size : 0 < eo_chunk_size options;
  xp_disks : Forall2 (disk_stored dir) (vc_disks config) ds;
  xp_images : images options p ds vs;
}.

(** The members of the archive before its manifest. *)
Definition exported_members (config : VmxConfig) (vs : list bytes) (xml : str) : list member :=
  let n := length (vc_disks config) in
  disk_members now 0 (vc_disks config) vs
  ++ [member_at now n (fmt (lit "{}.ovf") [sanitize_filename (vc_display_name config)]) (utf8_encode xml)].

Lemma build_exported config ds vs path :
  parse_vmx path = Ok config -> Forall (fun c => xml_plain (dc_file_name c)) (vc_disks config) ->
  exists xml, build (OvfBuilder_new config) (disk_infos 0 ds vs) = Ok xml /\
    read_xml xml = Some (ovf_tree config (disk_infos 0 ds vs)).
Proof.
  intros Hparse Hn. apply bind_Ok in Hparse as (content & _ & Hparse).
  destruct (config_is_typed _ _ Hparse) as [[Hmem _] [Hcpu _] _].
  destruct (read_ovf config (disk_infos 0 ds vs)) as (xml & ? & ? & _); [by apply disk_infos_printable|].
  by exists xml.
Qed.

Lemma exported_links config ds vs i d v :
  length (vc_disks config) = length ds -> ds !! i = Some d -> vs !! i = Some v ->
  let t := ovf_tree config (disk_infos 0 ds vs) in
  let id := lit "vmdisk" ++ show_dec (Z.of_nat i + 1) in
  let ref := lit "file" ++ show_dec (Z.of_nat i + 1) in
  exists c it k f, vc_disks config !! i = Some c /\ backed_by id t = [it] /\
    with_attr "ovf:Disk" "ovf:diskId" id t = [k] /\
    attr (lit "ovf:capacity") k = Some (show_dec (zlen d)) /\
    attr (lit "ovf:fileRef") k = Some ref /\
    with_attr "ovf:File" "ovf:id" ref t = [f] /\
    attr (lit "ovf:href") f = Some (dc_file_name c) /\
    attr (lit "ovf:size") f = Some (show_dec (zlen v)).
Proof.
  intros Hl Hd Hv t id ref.
  pose proof (disk_infos_lookup 0 ds vs i d v Hd Hv) as Hi. rewrite Nat.add_0_l in Hi.
  destruct (disk_info_names i (zlen d) (zlen v)) as [Hid Href]. fold id in Hid. fold ref in Href.
  pose proof (disk_infos_distinct di_id _ ds vs (fun k c z => proj1 (disk_info_names k c z))) as Hids.
  pose proof (disk_infos_distinct di_file_ref _ ds vs (fun k c z => proj2 (disk_info_names k c z))) as Hrefs.
  assert (Hlt : (i < length (vc_disks config))%nat) by (apply lookup_lt_Some in Hd; lia).
  apply lookup_lt_is_Some in Hlt as [c Hc].
  destruct (ovf_item_link config _ i _ Hi Hids) as (it & Hit & _).
  destruct (ovf_disk_link config _ i _ Hi Hids) as (k & Hk & Hkf & Hkc).
  destruct (ovf_file_link config _ i _ c Hi Hc Hrefs) as (f & Hf & Hfh & Hfs).
  rewrite Hid in *. rewrite Href in *. exists c, it, k, f. by split_and!.
Qed.

Lemma exported_member_disk config vs xml i c v rest :
  vc_disks config !! i = Some c -> vs !! i = Some v ->
  listing (exported_members config vs xml ++ rest) !! i = Some (tar_name (dc_file_name c), v).
Proof.
  intros Hc Hv. unfold listing, exported_members, disk_members. rewrite list_lookup_fmap, !lookup_app_l.
  - by rewrite list_lookup_imap, lookup_zip_with, Hc; cbn; rewrite Hv.
  - rewrite length_imap, length_zip_with. apply lookup_lt_Some in Hc, Hv. lia.
  - rewrite length_app, length_imap, length_zip_with. apply lookup_lt_Some in Hc, Hv. lia.
Qed.

Lemma exported_member_ovf config vs xml rest :
  length (vc_disks config) = length vs ->
  listing (exported_members config vs xml ++ rest) !! length (vc_disks config) =
    Some (tar_name (fmt (lit "{}.ovf") [sanitize_filename (vc_display_name config)]), utf8_encode xml).
Proof.
  intros Hl. unfold listing, exported_members, disk_members. rewrite list_lookup_fmap, <- app_assoc.
  rewrite lookup_app_r; rewrite length_imap, length_zip_with; [|lia].
  replace (length (vc_disks config) - _)%nat with O by lia. done.
Qed.

(** C2: exporting a machine whose files can be read and whose members fit the
    TAR headers succeeds, and the output is a TAR archive that reads back as
    the images of the disks in their order, under the names of the machine's
    VMDK files, then the OVF descriptor, then the SHA-256 manifest of them all;
    the progress ends complete, with all bytes processed. *)
Theorem export_vm_archive cb vmx_path output_path options config dir total (p : Pipeline) w ds vs xml
    (s : export_state W) :
  exportable vmx_path output_path options config dir total p w ds vs ->
  build (OvfBuilder_new config) (disk_infos 0 ds vs) = Ok xml ->
  let ms := exported_members config vs xml in
  let closing := now (S (length (vc_disks config))) in
  Forall member_wf ms -> Z.max 0 closing < tar_limit ->
  zlen (utf8_encode (ms ≫= manifest_line)) < tar_limit ->
  exists s' w', export_vm file_create now cb vmx_path output_path options s = (Ok tt, s') /\
    es_output s' = Some w' /\
    tar_read (contents w') = Some (listing (ms ++ manifest_of closing ms)) /\
    ep_phase (es_progress s') = Complete /\
    ep_bytes_processed (es_progress s') = total /\ ep_bytes_total (es_progress s') = total.
Proof.
  intros [Hc Hd Ht Hp Ho [Hw He] Hcs Hds Him] Hx ms closing Hms Hcl Hman.
  eapply export_vm_run; eassumption.
Qed.

(** A name whose encoding has at most 99 bytes, none of them NUL, fits the
    name field of a TAR header; of a longer one only the beginning does. *)
Lemma tar_name_fits name :
  zlen (utf8_encode name) <= 99 -> 0 ∉ utf8_encode name -> tar_name name = utf8_encode name.
Proof.
  intros Hl Hz. unfold tar_name. rewrite ztake_all by done. revert Hz. generalize (utf8_encode name) as b. intros b.
  induction b as [|x b IH]; intros Hz; [done|]. cbn [until_nul].
  destruct (Z.eqb_spec x 0) as [->|]; [set_solver|]. rewrite IH; [done|set_solver].
Qed.

(** C5: the descriptor in the archive describes the disks in the archive.  When
    an exportable machine is exported, whose disks have file names without the
    five characters XML escapes, the member behind the disks is an XML
    document, and for disk [i] of the machine it has one [Disk] element with
    the length of the disk's contents as its capacity, which refers to the one
    [File] element with the file name of the disk and the length of the [i]-th
    member as its size, and one hardware item that is backed by the disk.  The
    [i]-th member is the image of the disk; it bears the file name, so that
    the [File] element names it, when the name has up to 99 bytes, and its
    first 99 bytes when it is longer. *)
Theorem exported_descriptor_matches cb vmx_path output_path options config dir total (p : Pipeline) w ds vs
    (s : export_state W) :
  exportable vmx_path output_path options config dir total p w ds vs ->
  Forall (fun c => xml_plain (dc_file_name c)) (vc_disks config) ->
  let n := length (vc_disks config) in
  Z.max 0 (now (S n)) < tar_limit ->
  (forall xml, build (OvfBuilder_new config) (disk_infos 0 ds vs) = Ok xml ->
     let ms := exported_members config vs xml in
     Forall member_wf ms /\ zlen (utf8_encode (ms ≫= manifest_line)) < tar_limit) ->
  exists s' w' members name xml t,
    export_vm file_create now cb vmx_path output_path options s = (Ok tt, s') /\
    es_output s' = Some w' /\ tar_read (contents w') = Some members /\
    members !! n = Some (name, utf8_encode xml) /\ read_xml xml = Some t /\
    forall i d v, ds !! i = Some d -> vs !! i = Some v ->
      let id := lit "vmdisk" ++ show_dec (Z.of_nat i + 1) in
      let ref := lit "file" ++ show_dec (Z.of_nat i + 1) in
      exists c it k f, vc_disks config !! i = Some c /\
        members !! i = Some (tar_name (dc_file_name c), v) /\
        backed_by id t = [it] /\
        with_attr "ovf:Disk" "ovf:diskId" id t = [k] /\
        attr (lit "ovf:capacity") k = Some (show_dec (zlen d)) /\
        attr (lit "ovf:fileRef") k = Some ref /\
        with_attr "ovf:File" "ovf:id" ref t = [f] /\
        attr (lit "ovf:href") f = Some (dc_file_name c) /\
        attr (lit "ovf:size") f = Some (show_dec (zlen v)) /\
        (zlen (utf8_encode (dc_file_name c)) <= 99 -> 0 ∉ utf8_encode (dc_file_name c) ->
         members !! i = Some (utf8_encode (dc_file_name c), v)).
Proof.
  intros Hx Hn n Hclock Hfits. destruct Hx as [Hparse Hd Ht Hp Ho [Hw He] Hcs Hds Him].
  destruct (build_exported config ds vs _ Hparse Hn) as (xml & Hxml & Hread).
  destruct (Hfits xml Hxml) as [Hms Hman].
  destruct (export_vm_run (W:=W) now file_create cb vmx_path output_path options config dir total p w ds vs xml s
    Hparse Hd Ht Hp Ho Hw He Hcs Hds Him Hxml Hms Hclock Hman) as (s' & w' & Hrun & Hout & Htar & _).
  eexists s', w', _, _, xml, (ovf_tree config (disk_infos 0 ds vs)).
  split; [exact Hrun|]. split; [exact Hout|]. split; [exact Htar|].
  apply Forall2_length in Hds as Hl1. apply Forall2_length in Him as Hl2.
  split; [apply (exported_member_ovf config vs xml); lia|]. split; [exact Hread|].
  intros i d v Hdi Hvi id ref.
  destruct (exported_links config ds vs i d v Hl1 Hdi Hvi) as (c & it & k & f & Hc & Hlinks).
  destruct Hlinks as (? & ? & ? & ? & ? & ? & ?). exists c, it, k, f.
  match goal with |- _ /\ ?G /\ _ => assert (Hmember : G) by (by apply exported_member_disk) end.
  split_and!; try done. intros Hlen Hz. rewrite <- (tar_name_fits (dc_file_name c)) by done. exact Hmember.
Qed.
End run.

(** ** A sample machine

    One disk in a sparse file, the same as a flat file, the same split into two
    sparse extents. *)

Definition vmx_text : str :=
  ln "displayName = `My VM/1`" ++ ln "numvcpus = `2`"
  ++ ln "scsi0:0.fileName = `mono.vmdk`" ++ ln "scsi0:0.present = `TRUE`"
  ++ ln "scsi0:1.fileName = `flat.vmdk`" ++ ln "scsi0:1.present = `TRUE`"
  ++ ln "scsi0:2.fileName = `split.vmdk`" ++ ln "scsi0:2.present = `TRUE`".

Definition flat_descriptor : str :=
  ln "# Disk DescriptorFile" ++ ln "createType=`monolithicFlat`" ++ ln "RW 6 FLAT `data.bin` 0".

Definition split_descriptor : str :=
  ln "# Disk DescriptorFile" ++ ln "createType=`twoGbMaxExtentSparse`"
  ++ ln "RW 3 SPARSE `s1.vmdk`" ++ ln "RW 3 SPARSE `s2.vmdk`".

Definition machine_files : FileSystem :=
  fs_of [(lit "/vm/my.vmx", vmx_text); (lit "/vm/mono.vmdk", double_sparse);
         (lit "/vm/flat.vmdk", flat_descriptor); (lit "/vm/data.bin", sample_data ++ sample_data);
         (lit "/vm/split.vmdk", split_descriptor);
         (lit "/vm/s1.vmdk", sample_sparse); (lit "/vm/s2.vmdk", sample_sparse)].

Definition machine_options : ExportOptions := ExportOptions_new Balanced 65536 2.

Definition machine_config : VmxConfig :=
  match parse_vmx (H:=machine_files) (H0:=key_order) (lit "/vm/my.vmx") with
  | Ok c => c
  | _ => {| vc_display_name := []; vc_guest_os := []; vc_memory_mb := 0; vc_num_cpus := 0;
            vc_disks := []; vc_networks := []; vc_raw := ∅ |}
  end.

Definition machine_pipeline : Pipeline (H:=backwards) :=
  {| pl_config := PipelineConfig_new 65536 Balanced 2; pl_thread_pool := @build_pool backwards 2 |}.

Definition machine_image : bytes :=
  match disk_image (H:=stored_flate2) 3072 6 65536 (sample_data ++ sample_data) with Ok v => v | _ => [] end.

Definition machine_contents : list bytes := repeat (sample_data ++ sample_data) 3.

Lemma machine_disk_list :
  vc_disks machine_config =
    [{| dc_file_name := lit "mono.vmdk"; dc_controller := lit "scsi0"; dc_unit := 0 |};
     {| dc_file_name := lit "flat.vmdk"; dc_controller := lit "scsi0"; dc_unit := 1 |};
     {| dc_file_name := lit "split.vmdk"; dc_controller := lit "scsi0"; dc_unit := 2 |}].
Proof. vm_compute. reflexivity. Qed.

Lemma machine_disks :
  Forall2 (disk_stored (H:=machine_files) (H1:=ascii_tables) (H2:=debug) (H3:=stored_flate2) (lit "/vm"))
    (vc_disks machine_config) machine_contents.
Proof.
  rewrite machine_disk_list.
  apply List.Forall2_cons; [|apply List.Forall2_cons; [|apply List.Forall2_cons; [|apply List.Forall2_nil]]].
  - eapply stored_sparse; [vm_compute; reflexivity|vm_compute; reflexivity|exact double_reader_wf
      |exact double_readable|vm_compute; reflexivity].
  - eapply stored_flat; vm_compute; reflexivity.
  - eapply (stored_split _ _ _ _ [sample_reader; sample_reader]); [vm_compute; reflexivity| |vm_compute; reflexivity].
    repeat (apply List.Forall2_cons || apply List.Forall2_nil);
      (split_and!; [by vm_compute|exact sample_reader_wf|exact sample_readable]).
Qed.

Definition machine_create : str -> io_result Cursor := fun _ => Ok cursor_new.

Lemma machine_exportable :
  exportable (H:=machine_files) (H1:=ascii_tables) (H2:=debug) (H3:=stored_flate2) (H5:=backwards)
    (H12:=key_order) machine_create (lit "/vm/my.vmx") (lit "out.ova") machine_options machine_config
    (lit "/vm") 10240 machine_pipeline cursor_new machine_contents (repeat machine_image 3).
Proof.
  constructor.
  - vm_compute. reflexivity.
  - vm_compute. reflexivity.
  - vm_compute. reflexivity.
  - reflexivity.
  - reflexivity.
  - done.
  - done.
  - exact machine_disks.
  - unfold images, machine_contents. cbn [repeat].
    repeat (apply List.Forall2_cons || apply List.Forall2_nil); by vm_compute.
Qed.

Definition machine_clock (_ : nat) : Z := 1700000000.

Definition machine_ovf : str :=
  match build (H:=ascii_tables) (OvfBuilder_new machine_config)
          (disk_infos 0 machine_contents (repeat machine_image 3)) with Ok x => x | _ => [] end.

Lemma member_wf_intro m :
  is_strb (mb_name m) && (0 <=? mb_mtime m) && (mb_mtime m <? tar_limit) && (zlen (mb_data m) <? tar_limit) = true ->
  member_wf m.
Proof. rewrite !andb_true_iff, !Z.ltb_lt, Z.leb_le. intros [[[Hn ?] ?] ?]. by split; [apply is_strb_spec|]. Qed.

Lemma export_vm_archive_witness :
  exists s' w', export_vm (H:=machine_files) (H0:=ascii_tables) (H1:=debug) (H2:=stored_flate2) (H3:=backwards)
      (H5:=sum_sha2) (H6:=key_order) machine_create machine_clock true (lit "/vm/my.vmx") (lit "out.ova")
      machine_options idle = (Ok tt, s') /\ es_output s' = Some w' /\
    fst <$> default [] (tar_read (contents w'))
      = [lit "mono.vmdk"; lit "flat.vmdk"; lit "split.vmdk"; lit "My_VM_1.ovf"; lit "manifest.mf"].
Proof.
  destruct (export_vm_archive (H:=machine_files) (H0:=fun b => eq_refl) (H1:=ascii_tables) (H2:=debug)
    (H4:=stored_flate2_laws) (H6:=backwards_laws) (H11:=sum_sha2_laws) (H12:=key_order) machine_create machine_clock
    true (lit "/vm/my.vmx") (lit "out.ova") machine_options machine_config (lit "/vm") 10240 machine_pipeline
    cursor_new machine_contents (repeat machine_image 3) machine_ovf idle machine_exportable)
    as (s' & w' & Hr & Ho & Ht & _).
  - vm_compute. reflexivity.
  - repeat apply List.Forall_cons; try apply List.Forall_nil; apply member_wf_intro; vm_compute; reflexivity.
  - vm_compute. reflexivity.
  - vm_compute. reflexivity.
  - exists s', w'. split; [exact Hr|]. split; [exact Ho|]. rewrite Ht. vm_compute. reflexivity.
Defined.

Lemma exported_descriptor_matches_witness :
  exists s' w' members name xml t k,
    export_vm (H:=machine_files) (H0:=ascii_tables) (H1:=debug) (H2:=stored_flate2) (H3:=backwards)
      (H5:=sum_sha2) (H6:=key_order) machine_create machine_clock true (lit "/vm/my.vmx") (lit "out.ova")
      machine_options idle = (Ok tt, s') /\
    es_output s' = Some w' /\ tar_read (contents w') = Some members /\
    members !! 3%nat = Some (name, utf8_encode xml) /\ read_xml xml = Some t /\
    with_attr "ovf:Disk" "ovf:diskId" (lit "vmdisk2") t = [k] /\
    attr (lit "ovf:capacity") k = Some (lit "3072").
Proof.
  destruct (exported_descriptor_matches (H:=machine_files) (H0:=fun b => eq_refl) (H1:=ascii_tables) (H2:=debug)
    (H4:=stored_flate2_laws) (H6:=backwards_laws) (H11:=sum_sha2_laws) (H12:=key_order) machine_create machine_clock
    true (lit "/vm/my.vmx") (lit "out.ova") machine_options machine_config (lit "/vm") 10240 machine_pipeline
    cursor_new machine_contents (repeat machine_image 3) idle machine_exportable)
    as (s' & w' & members & name & xml & t & Hr & Ho & Ht & Hm & Hx & Hl).
  - rewrite machine_disk_list. repeat apply List.Forall_cons; try apply List.Forall_nil; vm_compute; reflexivity.
  - vm_compute. reflexivity.
  - intros xml Hx. assert (E : xml = machine_ovf) by (unfold machine_ovf; by rewrite Hx). subst xml. split.
    + repeat apply List.Forall_cons; try apply List.Forall_nil; apply member_wf_intro; vm_compute; reflexivity.
    + vm_compute. reflexivity.
  - destruct (Hl 1%nat _ _ eq_refl eq_refl) as (c & it & k & f & _ & _ & _ & Hk & Hc & _).
    exists s', w', members, name, xml, t, k. rewrite machine_disk_list in Hm.
    split; [exact Hr|]. split; [exact Ho|]. split; [exact Ht|]. split; [exact Hm|]. split; [exact Hx|].
    split; [exact Hk|exact Hc].
Defined.
