(* ===== verification/RunsSpec.v ===== *)
(** * RunsSpec: what an export depends on

    Two runs of the same program need not be built alike, nor run on as many
    threads.  The order of success says that whatever one computation returns
    the other returns as well; it is a preorder that sequencing respects, so
    that it follows the definitions of the program.  A build with overflow
    checks is below one without, and a parallel run is below every other one,
    whatever the order in which the threads finish. *)
From S2P Require Export PipelineSpec Export ExportVmSpec.

(** ** The order of success *)

#[export] Instance outcome_sqsubseteq {E A} : SqSubsetEq (outcome E A) :=
  fun m1 m2 => forall a, m1 = Ok a -> m2 = Ok a.
#[export] Instance M_sqsubseteq {S E A} : SqSubsetEq (M S E A) :=
  fun m1 m2 => forall s a s', m1 s = (Ok a, s') -> m2 s = (Ok a, s').

#[export] Instance outcome_preorder {E A} : PreOrder (⊑@{outcome E A}).
Proof. split; [by intros m a|]. intros m1 m2 m3 H1 H2 a Ha. by apply H2, H1. Qed.
#[export] Instance M_preorder {S E A} : PreOrder (⊑@{M S E A}).
Proof. split; [by intros m s a s'|]. intros m1 m2 m3 H1 H2 s a s' Ha. by apply H2, H1. Qed.

Lemma outcome_bind_le {E A B} (m1 m2 : outcome E A) (f1 f2 : A -> outcome E B) :
  m1 ⊑ m2 -> (forall a, f1 a ⊑ f2 a) -> m1 ≫= f1 ⊑ m2 ≫= f2.
Proof. intros Hm Hf b (a & Ha & Hb)%bind_Ok. apply bind_Ok. exists a. split; [by apply Hm|by apply Hf]. Qed.

Lemma M_bind_le {S E A B} (m1 m2 : M S E A) (f1 f2 : A -> M S E B) :
  m1 ⊑ m2 -> (forall a, f1 a ⊑ f2 a) -> m1 ≫= f1 ⊑ m2 ≫= f2.
Proof.
  intros Hm Hf s b s' (a & s1 & Ha & Hb)%M_bind_Ok. apply M_bind_Ok. exists a, s1.
  split; [by apply Hm|by apply Hf].
Qed.

(** The first steps return results of their own types. *)
Lemma M_bind_le_het {S E A1 A2 B} (m1 : M S E A1) (m2 : M S E A2) (f1 : A1 -> M S E B) (f2 : A2 -> M S E B) :
  (forall s a s', m1 s = (Ok a, s') -> exists a2, m2 s = (Ok a2, s') /\ f1 a ⊑ f2 a2) ->
  m1 ≫= f1 ⊑ m2 ≫= f2.
Proof.
  intros Hm s b s' (a & s1 & Ha & Hb)%M_bind_Ok. destruct (Hm _ _ _ Ha) as (a2 & Ha2 & Hf).
  apply M_bind_Ok. exists a2, s1. split; [done|by apply Hf].
Qed.

Lemma lift_le {S E A} (m1 m2 : outcome E A) : m1 ⊑ m2 -> lift (S:=S) m1 ⊑ lift m2.
Proof. intros Hm s a s' [= Ha <-]. unfold lift. by rewrite (Hm a Ha). Qed.

Lemma mapM_le {E A B} (f1 f2 : A -> outcome E B) l :
  (forall a, f1 a ⊑ f2 a) -> mapM f1 l ⊑ mapM f2 l.
Proof.
  intros Hf. induction l as [|a l IH]; [done|]. cbn.
  apply outcome_bind_le; [apply Hf|]. intros b. apply outcome_bind_le; [exact IH|done].
Qed.

(** Draining two iterators over one state. *)
Lemma drain_from_le {S E A} fuel (next1 next2 : M S E (option A)) it :
  next1 ⊑ next2 -> drain_from fuel next1 it ⊑ drain_from fuel next2 it.
Proof.
  intros Hn. revert it. induction fuel as [|fuel IH]; intros it; [by intros a|]. rewrite !drain_from_S.
  destruct (next1 it) as [[x|e| |] it1] eqn:E1; [|by intros a..].
  rewrite (Hn _ _ _ E1). destruct x; [|by intros a]. intros l Hl. specialize (IH it1).
  destruct (drain_from fuel next1 it1); try done. injection Hl as <-. by rewrite (IH _ eq_refl).
Qed.

Create HintDb runs.

(** Follow the definitions: the same tests, the same steps. *)
Ltac runs :=
  repeat first
    [ match goal with |- ?m ⊑ ?m => reflexivity end
    | progress intros
    | solve [auto 2 with runs nocore]
    | match goal with
      | |- @mbind (outcome _) _ _ _ _ _ ⊑ _ => apply outcome_bind_le
      | |- @mbind (M _ _) _ _ _ _ _ ⊑ _ => apply M_bind_le
      | |- lift _ ⊑ _ => apply lift_le
      | |- mapM _ _ ⊑ _ => apply mapM_le
      | |- collect_chunks _ _ _ ⊑ _ => apply drain_from_le
      end
    | match goal with
      | |- context [match ?x with _ => _ end] => destruct x
      end ].

(** ** Two builds *)

Section profiles.
  Context (bp1 bp2 : BuildProfile) (Hbp : @overflow_checks bp2 = true -> @overflow_checks bp1 = true).

Lemma checked_le {E} bits n : @checked bp1 E bits n ⊑ @checked bp2 E bits n.
Proof.
  intros m. unfold checked. destruct (_ && _); [done|].
  destruct (@overflow_checks bp1), (@overflow_checks bp2); naive_solver.
Qed.

Lemma add_u64_le {E} a b : @add_u64 bp1 E a b ⊑ @add_u64 bp2 E a b.
Proof. apply checked_le. Qed.
Lemma sub_u64_le {E} a b : @sub_u64 bp1 E a b ⊑ @sub_u64 bp2 E a b.
Proof. apply checked_le. Qed.
Lemma mul_u64_le {E} a b : @mul_u64 bp1 E a b ⊑ @mul_u64 bp2 E a b.
Proof. apply checked_le. Qed.
#[local] Hint Resolve add_u64_le sub_u64_le mul_u64_le : runs.

Lemma disk_size_bytes_le {E} d : disk_size_bytes (H:=bp1) (E:=E) d ⊑ disk_size_bytes (H:=bp2) d.
Proof.
  unfold disk_size_bytes, disk_size_sectors. apply outcome_bind_le; [|runs].
  generalize 0. induction (map _ _) as [|x l IH]; intros acc; cbn [sum_u64]; runs.
Qed.

Lemma from_mmap_le m : SparseVmdkReader_from_mmap (H:=bp1) m ⊑ SparseVmdkReader_from_mmap (H:=bp2) m.
Proof. unfold SparseVmdkReader_from_mmap, num_gd_entries. runs. Qed.

Context `{Flate2}.

Lemma read_grain_le r i : read_grain (H:=bp1) r i ⊑ read_grain (H:=bp2) r i.
Proof. unfold read_grain, svr_grain_size_bytes. runs. Qed.
#[local] Hint Resolve read_grain_le : runs.

Lemma read_chunk_loop_le fuel r o n g k data :
  read_chunk_loop (H:=bp1) fuel r o n g k data ⊑ read_chunk_loop (H:=bp2) fuel r o n g k data.
Proof. revert k data. induction fuel as [|fuel IH]; intros k data; cbn [read_chunk_loop]; runs. Qed.
#[local] Hint Resolve read_chunk_loop_le : runs.

Lemma sparse_next_le : SparseChunkIterator_next (H:=bp1) ⊑ SparseChunkIterator_next (H:=bp2).
Proof. unfold SparseChunkIterator_next, svr_grain_size_bytes. runs. Qed.
#[local] Hint Resolve sparse_next_le : runs.

(** The loops of [export.rs]. *)
Lemma extent_chunks_le fuel cs it all part :
  extent_chunks (H1:=bp1) fuel cs it all part ⊑ extent_chunks (H1:=bp2) fuel cs it all part.
Proof.
  revert it all part. induction fuel as [|fuel IH]; intros it all part; cbn [extent_chunks]; [runs|].
  destruct (SparseChunkIterator_next it) as [[x|e| |] it1] eqn:E1; [|by intros a..].
  rewrite (sparse_next_le _ _ _ E1). cbn [mbind outcome_bind]. runs.
Qed.
#[local] Hint Resolve extent_chunks_le from_mmap_le disk_size_bytes_le : runs.

Lemma chunk_length_le n total cs i : chunk_length (H1:=bp1) n total cs i ⊑ chunk_length (H1:=bp2) n total cs i.
Proof. unfold chunk_length. runs. Qed.
#[local] Hint Resolve chunk_length_le : runs.

Lemma write_chunks_le {W} cb cs len1 len2 i n chunks w :
  (forall i, len1 i ⊑ len2 i) ->
  write_chunks (H1:=bp1) (W:=W) cb cs len1 i n chunks w ⊑ write_chunks (H1:=bp2) cb cs len2 i n chunks w.
Proof.
  intros Hl. revert i n w. induction chunks as [|c chunks IH]; intros i n w; cbn [write_chunks]; cbv zeta; runs.
Qed.

Context `{FileSystem} `{UnicodeTables}.

Lemma reader_open_le path : SparseVmdkReader_open (H:=bp1) path ⊑ SparseVmdkReader_open (H:=bp2) path.
Proof. unfold SparseVmdkReader_open. runs. Qed.
#[local] Hint Resolve reader_open_le : runs.

Lemma extents_chunks_le dir cs extents all part :
  extents_chunks (H1:=bp1) dir cs extents all part ⊑ extents_chunks (H1:=bp2) dir cs extents all part.
Proof. revert all part. induction extents as [|e extents IH]; intros all part; cbn [extents_chunks]; cbv zeta; runs. Qed.
#[local] Hint Resolve extents_chunks_le : runs.

Lemma disk_type_of_le dir path : disk_type_of (H1:=bp1) dir path ⊑ disk_type_of (H1:=bp2) dir path.
Proof. unfold disk_type_of. runs. Qed.

Lemma add_file_len_le total path : add_file_len (H1:=bp1) total path ⊑ add_file_len (H1:=bp2) total path.
Proof. unfold add_file_len. runs. Qed.
#[local] Hint Resolve disk_type_of_le add_file_len_le : runs.

Lemma add_file_lens_le total paths : add_file_lens (H1:=bp1) total paths ⊑ add_file_lens (H1:=bp2) total paths.
Proof. revert total. induction paths; intros total; cbn [add_file_lens]; runs. Qed.
#[local] Hint Resolve add_file_lens_le : runs.

Lemma calculate_total_le config dir :
  calculate_total_disk_size (H1:=bp1) config dir ⊑ calculate_total_disk_size (H1:=bp2) config dir.
Proof.
  unfold calculate_total_disk_size. generalize 0. induction (vc_disks config) as [|d ds IH]; intros total; [done|].
  cbn [add_disk_sizes]. unfold add_disk_size. cbv zeta. runs.
Qed.

(** *** Two thread pools *)

Context (r1 r2 : Rayon) (l1 : RayonLaws (H:=r1)) (l2 : RayonLaws (H:=r2)).

Lemma process_le {T} (p1 : Pipeline (H:=r1)) (p2 : Pipeline (H:=r2)) chunks (f : nat -> bytes -> Result T) :
  process p1 chunks f ⊑ process p2 chunks f.
Proof.
  intros vs Hp. apply process_ok.
  destruct (imap_all_Ok _ _ (process_succeeds _ _ _ _ Hp)) as [ws Hws%collect_Ok].
  rewrite (process_ok p1 _ _ _ Hws) in Hp. by injection Hp as <-.
Qed.

Context (p1 : Pipeline (H:=r1)) (p2 : Pipeline (H:=r2)).

Lemma compress_and_write_le {W} cb cap level cs len1 len2 chunks :
  (forall i, len1 i ⊑ len2 i) ->
  compress_and_write (H1:=bp1) (W:=W) cb cap p1 level cs len1 chunks
  ⊑ compress_and_write (H1:=bp2) cb cap p2 level cs len2 chunks.
Proof.
  intros Hl. unfold compress_and_write. apply M_bind_le; [apply lift_le, process_le|]. runs.
  by apply write_chunks_le.
Qed.

Lemma compress_disk_le {W} cb level cs t :
  compress_disk (H1:=bp1) (W:=W) cb p1 level cs t ⊑ compress_disk (H1:=bp2) cb p2 level cs t.
Proof.
  destruct t; cbn [compress_disk]; (apply M_bind_le; [|runs]);
    unfold process_sparse_disk, process_disk, process_split_sparse_disk; cbv zeta;
    runs; apply compress_and_write_le; runs.
Qed.

Lemma compress_disks_le {W} cb o1 o2 dir i ds infos bufs :
  eo_chunk_size o1 = eo_chunk_size o2 -> compression_level p1 = compression_level p2 ->
  compress_disks (H1:=bp1) (W:=W) cb o1 p1 dir i ds infos bufs
  ⊑ compress_disks (H1:=bp2) cb o2 p2 dir i ds infos bufs.
Proof.
  intros Hc Hl. revert i infos bufs. induction ds as [|d ds IH]; intros i infos bufs; cbn [compress_disks]; [runs|].
  rewrite Hc, Hl. cbv zeta. runs. apply compress_disk_le.
Qed.
End profiles.

Lemma pipeline_new_config `{Rayon} c (p : Pipeline) : Pipeline_new c = (Ok p : Result Pipeline) -> pl_config p = c.
Proof. unfold Pipeline_new. destruct (_ <? _); [destruct (build_pool _)|]; by intros [= <-]. Qed.

(** ** The property *)

(** C11: an export is reproducible.  When an export succeeds, the same export
    with any other number of threads for which the pool can be built, on any
    schedule of the threads, and without the overflow checks of a debug build
    or with the same, succeeds too and ends in the same state: the same bytes
    in the archive and the same progress reported. *)
Theorem export_reproducible `{FileSystem} `{UnicodeTables} `{Flate2} `{Write W} `{Sha2} `{HashOrder}
    (bp1 bp2 : BuildProfile) (r1 r2 : Rayon) `{!RayonLaws (H:=r1)} `{!RayonLaws (H:=r2)}
    file_create now cb vmx_path output_path (o1 o2 : ExportOptions) (p2 : Pipeline (H:=r2))
    (s t : export_state W) :
  bp2 = release \/ bp1 = bp2 ->
  eo_chunk_size o1 = eo_chunk_size o2 -> eo_compression o1 = eo_compression o2 ->
  Pipeline_new (PipelineConfig_new (eo_chunk_size o2) (eo_compression o2) (eo_num_threads o2))
    = (Ok p2 : Result Pipeline) ->
  export_vm (H1:=bp1) (H3:=r1) file_create now cb vmx_path output_path o1 s = (Ok tt, t) ->
  export_vm (H1:=bp2) (H3:=r2) file_create now cb vmx_path output_path o2 s = (Ok tt, t).
Proof.
  intros Hbp Hcs Hcomp Hp2. revert s t.
  assert (Hchecks : @overflow_checks bp2 = true -> @overflow_checks bp1 = true)
    by (destruct Hbp as [->| ->]; [discriminate|done]).
  cut (export_vm (H1:=bp1) (H3:=r1) (W:=W) file_create now cb vmx_path output_path o1
       ⊑ export_vm (H1:=bp2) (H3:=r2) file_create now cb vmx_path output_path o2);
    [intros Hle s t; apply Hle|].
  unfold export_vm. cbv zeta.
  apply M_bind_le; [done|]. intros config. apply M_bind_le; [done|]. intros dir.
  apply M_bind_le; [by apply lift_le, calculate_total_le|]. intros total.
  apply M_bind_le; [done|]. intros _. apply M_bind_le; [done|]. intros _.
  apply M_bind_le_het. intros s p1 s' [= Hp1 <-]. exists p2. rewrite Hp2. split; [done|].
  apply M_bind_le; [done|]. intros w. apply M_bind_le; [done|]. intros _.
  apply M_bind_le; [done|]. intros o. apply M_bind_le; [|intros [infos bufs]; runs].
  apply compress_disks_le; [done..|]. unfold compression_level.
  by rewrite (pipeline_new_config _ _ Hp1), (pipeline_new_config _ _ Hp2), Hcomp.
Qed.

(** ** The sample machine, exported twice

    A debug build on two threads that finish in reverse order, and a release
    build on the default pool, in order. *)

Definition in_order : Rayon :=
  {| ThreadPool := (); build_pool := fun _ => Some tt; schedule := fun _ n => seq 0 n |}.

Lemma in_order_laws : RayonLaws (H:=in_order).
Proof. by intros pool n. Qed.

Definition default_options : ExportOptions := ExportOptions_new Balanced 65536 0.

Lemma export_reproducible_witness :
  exists t, let run := fun bp r options => export_vm (H:=machine_files) (H0:=ascii_tables) (H1:=bp) (H2:=stored_flate2)
      (H3:=r) (H5:=sum_sha2) (H6:=key_order) machine_create machine_clock true (lit "/vm/my.vmx") (lit "out.ova")
      options idle in
    run debug backwards machine_options = (Ok tt, t) /\ run release in_order default_options = (Ok tt, t).
Proof.
  destruct (export_vm (H:=machine_files) (H0:=ascii_tables) (H1:=debug) (H2:=stored_flate2)
      (H3:=backwards) (H5:=sum_sha2) (H6:=key_order) machine_create machine_clock true (lit "/vm/my.vmx")
      (lit "out.ova") machine_options idle) as [r t] eqn:E.
  assert (Hr : r = Ok tt).
  { change r with (fst (r, t)). rewrite <- E. vm_compute. reflexivity. }
  subst r. exists t. split; [exact E|]. revert E.
  pose proof backwards_laws as Hb. pose proof in_order_laws as Hi.
  apply (export_reproducible debug release backwards in_order machine_create machine_clock true
    (lit "/vm/my.vmx") (lit "out.ova") machine_options default_options
    {| pl_config := PipelineConfig_new 65536 Balanced 0; pl_thread_pool := None |});
    [by left|reflexivity..].
Defined.
