(* ===== verification/ImportSpec.v ===== *)
(** * ImportSpec: what the archive is worth to the program that imports it

    [import_ova] is an importer of OVA archives, written from the formats: it
    lists the archive, takes the descriptor, goes from each disk it declares to
    the file it refers to, and reads that member as a stream-optimized disk of
    the declared capacity.  Importing what the export wrote gives the disks of
    the machine. *)
From S2P Require Export ExportVmSpec HostedSpec.

(** ** The importer *)

Definition has_suffix (suffix name : bytes) : bool :=
  bool_decide (zdrop (zlen name - zlen suffix) name = suffix).

(** The first member whose name has a property. *)
Definition find_member (P : bytes -> bool) (members : list (bytes * bytes)) : option bytes :=
  (fun found => found.2.2) <$> list_find (fun m => P m.1 = true) members.

Section importer.
  Context `{Flate2}.

(** The contents of a disk the descriptor declares. *)
Definition import_disk (members : list (bytes * bytes)) (descriptor disk : xml) : option bytes :=
  capacity ← attr (lit "ovf:capacity") disk ≫= parse_u64;
  ref ← attr (lit "ovf:fileRef") disk;
  file ← head (with_attr "ovf:File" "ovf:id" ref descriptor);
  href ← attr (lit "ovf:href") file;
  vmdk ← find_member (fun name => bool_decide (name = utf8_encode href)) members;
  match exported_read vmdk capacity with Ok d => Some d | _ => None end.

(** The contents of the disks of an archive, in the order of the descriptor. *)
Definition import_ova (archive : bytes) : option (list bytes) :=
  members ← tar_read archive;
  ovf ← find_member (has_suffix (lit ".ovf")) members;
  text ← utf8_decode ovf;
  descriptor ← read_xml text;
  mapM (import_disk members descriptor) (descendants (lit "ovf:Disk") descriptor).
End importer.

(** ** Finding members *)

Lemma find_member_at P members i name data :
  members !! i = Some (name, data) -> P name = true ->
  (forall j m, (j < i)%nat -> members !! j = Some m -> P m.1 = false) ->
  find_member P members = Some data.
Proof.
  intros Hi HP Hbefore. unfold find_member.
  assert (list_find (fun m => P m.1 = true) members = Some (i, (name, data))) as ->; [|done].
  apply list_find_Some. split_and!; [done|done|]. intros j m Hj Hlt. by rewrite (Hbefore j m Hlt Hj).
Qed.

(** The names of a machine's files suit an importer: they fit the TAR headers,
    differ, and only the descriptor's ends in [.ovf]. *)
Record importable `{UnicodeTables} (config : VmxConfig) : Prop := {
  ia_plain : Forall (fun c => xml_plain (dc_file_name c)) (vc_disks config);
  ia_fits : Forall (fun c => tar_name (dc_file_name c) = utf8_encode (dc_file_name c)) (vc_disks config);
  ia_distinct : NoDup (map (fun c => tar_name (dc_file_name c)) (vc_disks config));
  ia_disks : Forall (fun c => has_suffix (lit ".ovf") (tar_name (dc_file_name c)) = false) (vc_disks config);
  ia_ovf : has_suffix (lit ".ovf")
    (tar_name (fmt (lit "{}.ovf") [sanitize_filename (vc_display_name config)])) = true;
}.

(** ** The files of a machine *)

Section files.
  Context `{FileSystem} `{!MmapLaws} `{UnicodeTables} `{BuildProfile} `{Flate2Laws}.

(** The file at [path] is a descriptor. *)
Definition descriptor_at (path : str) (dscr : VmdkDescriptor) : Prop :=
  exists b content, file_open path = Ok b /\ has_sparse_magic b = false /\
    utf8_decode b = Some content /\ parse_descriptor content = Ok dscr.

(** How the files of a machine in [dir] hold the contents of its disk [c]: in
    one hosted sparse file; in the one flat extent of a descriptor; in hosted
    sparse files, one for each extent of a descriptor. *)
Inductive machine_disk (dir : str) (c : DiskConfig) : bytes -> Prop :=
  | machine_sparse hd :
      hosted_at (path_join dir (dc_file_name c)) hd -> machine_disk dir c (hd_contents hd)
  | machine_flat dscr e d :
      descriptor_at (path_join dir (dc_file_name c)) dscr ->
      vd_extents dscr = [e] -> ex_extent_type e = Flat ->
      file_open (path_join dir (ex_filename e)) = Ok d ->
      zlen d = ex_size_sectors e * SECTOR_SIZE -> zlen d < 2 ^ 64 -> machine_disk dir c d
  | machine_split dscr hds :
      descriptor_at (path_join dir (dc_file_name c)) dscr ->
      vd_extents dscr <> [] -> Forall (fun e => ex_extent_type e = Descriptor.Sparse) (vd_extents dscr) ->
      Forall2 (fun e hd => hosted_at (path_join dir (ex_filename e)) hd /\
                 ex_size_sectors e = seh_capacity (hd_header hd)) (vd_extents dscr) hds ->
      zlen (concat (map hd_contents hds)) < 2 ^ 64 ->
      machine_disk dir c (concat (map hd_contents hds)).

Lemma descriptor_type dir path dscr :
  descriptor_at path dscr ->
  disk_type_of dir path =
    capacity ← disk_size_bytes dscr;
    match List.find (is_type Flat) (vd_extents dscr) with
    | Some e => Ok (FlatDisk (path_join dir (ex_filename e)) capacity)
    | None => let es := List.filter (is_type Descriptor.Sparse) (vd_extents dscr) in
              if negb (bool_decide (es = [])) then Ok (SplitSparse es dir capacity) else Err no_extent
    end.
Proof.
  intros (b & content & Hf & Hm & Hu & Hp). unfold disk_type_of, is_sparse_vmdk, read_descriptor, read_to_string.
  rewrite Hf. cbn [map_err mbind outcome_bind]. rewrite Hm, Hu. cbn [map_err mbind outcome_bind].
  by rewrite Hp.
Qed.

(** The size a descriptor announces, where it fits the machine. *)
Lemma descriptor_size dscr total :
  Forall (fun e => 0 <= ex_size_sectors e) (vd_extents dscr) ->
  foldr Z.add 0 (map ex_size_sectors (vd_extents dscr)) = total -> total * SECTOR_SIZE < 2 ^ 64 ->
  disk_size_bytes (E:=Error) dscr = Ok (total * SECTOR_SIZE).
Proof.
  intros Hs <- Ht. unfold SECTOR_SIZE in *.
  destruct (disk_size_exact_or_overflow dscr Hs ltac:(lia)) as [_ ->]. by rewrite if_true by lia.
Qed.

Lemma hosted_magic file hd : hosted file hd -> has_sparse_magic file = true.
Proof.
  intros Ho. destruct (block_at_split _ _ _ (ho_front _ _ Ho)) as [-> _].
  rewrite ztake_nonpos, app_nil_l by lia. unfold has_sparse_magic.
  rewrite if_false by zsolve. rewrite SparseExtentHeader_layout, <- app_assoc.
  rewrite ztake_app_le by (rewrite zlen_le_bytes; lia). rewrite ztake_all by (rewrite zlen_le_bytes; lia).
  rewrite (ho_magic _ _ Ho). by vm_compute.
Qed.

Lemma hosted_capacities dir es hds :
  Forall2 (fun e hd => hosted_at (path_join dir (ex_filename e)) hd /\
             ex_size_sectors e = seh_capacity (hd_header hd)) es hds ->
  Forall (fun e => 0 <= ex_size_sectors e) es /\
  zlen (concat (map hd_contents hds)) = foldr Z.add 0 (map ex_size_sectors es) * SECTOR_SIZE.
Proof.
  induction 1 as [|e hd es hds [(file & _ & Ho) He] _ [IHs IHl]]; [done|]. split.
  - constructor; [|done]. rewrite He. apply (hw_capacity _ (ho_header _ _ Ho)).
  - cbn [map concat foldr]. rewrite zlen_app, IHl, He, (zlen_hd_contents file) by done.
    unfold hd_capacity. lia.
Qed.

Lemma all_sparse es :
  Forall (fun e => ex_extent_type e = Descriptor.Sparse) es ->
  List.find (is_type Flat) es = None /\ List.filter (is_type Descriptor.Sparse) es = es.
Proof.
  unfold is_type. induction 1 as [|e es He _ [IHf IHs]]; [done|]. cbn [List.find List.filter].
  by rewrite He, IHf, IHs.
Qed.

(** The export finds the contents of such a disk, which are whole sectors. *)
Lemma machine_disk_stored dir c d :
  machine_disk dir c d -> disk_stored dir c d /\ zlen d mod SECTOR_SIZE = 0 /\ zlen d < 2 ^ 64.
Proof.
  intros [hd Hh|dscr e d' Hd He Ht Hf Hl Hmax|dscr hds Hd Hne Hall Hes Hmax].
  - pose proof Hh as (file & Hf & Ho).
    apply hosted_at_opens in Hh as (r & Hr & Hwf & Hg & Hv).
    pose proof (zlen_virtual_disk r Hwf Hg) as Hcap. rewrite Hv in Hcap. split_and!.
    + eapply stored_sparse; [|done..]. unfold disk_type_of, is_sparse_vmdk. rewrite Hf.
      cbn [map_err mbind outcome_bind]. rewrite (hosted_magic _ _ Ho), Hr. by rewrite Hcap.
    + rewrite (zlen_hd_contents file) by done. by apply Z.mod_mul.
    + rewrite (zlen_hd_contents file) by done. apply Ho.
  - split_and!; [|rewrite Hl; by apply Z.mod_mul|done]. eapply stored_flat; [|exact Hf].
    rewrite (descriptor_type _ _ _ Hd), (descriptor_size _ (ex_size_sectors e)).
    + rewrite He. cbn [List.find]. unfold is_type at 1. rewrite Ht. cbn. by rewrite Hl.
    + rewrite He. constructor; [|done]. unfold SECTOR_SIZE in *. zlen_pos. lia.
    + rewrite He. cbn. lia.
    + lia.
  - destruct (hosted_capacities _ _ _ Hes) as [Hs Hl]. destruct (all_sparse _ Hall) as [Hnf Hsp].
    assert (Hat : Forall2 (fun e hd => hosted_at (path_join dir (ex_filename e)) hd) (vd_extents dscr) hds)
      by (eapply Forall2_impl; [exact Hes|]; by intros ?? []).
    apply hosted_extents_open in Hat as (rs & Hrs & Hvs).
    split_and!; [|rewrite Hl; by apply Z.mod_mul|done].
    eapply (stored_split _ _ _ (vd_extents dscr) rs); [|exact Hrs|by rewrite Hvs].
    rewrite (descriptor_type _ _ _ Hd), (descriptor_size _ _ Hs eq_refl) by lia.
    cbn [mbind outcome_bind]. cbv zeta. rewrite Hnf, Hsp, bool_decide_false by done. by rewrite Hl.
Qed.
End files.

(** ** Importing what was exported *)

Section import.
  Context `{FileSystem} `{!MmapLaws} `{UnicodeTables} `{BuildProfile} `{Flate2Laws} `{RayonLaws}.
  Context `{InfallibleWrite W} `{Sha2Laws} `{HashOrderLaws} (file_create : str -> io_result W) (now : nat -> Z).

Section members.
  Context (config : VmxConfig) (vs : list bytes) (xml : str) (rest : list member).
  Hypothesis Hl : length (vc_disks config) = length vs.
  Hypothesis Hnames : importable config.
Let members := listing (exported_members now config vs xml ++ rest).

(** A member before the descriptor is a disk. *)
Lemma member_disk_inv j m :
  (j < length (vc_disks config))%nat -> members !! j = Some m ->
  exists c, vc_disks config !! j = Some c /\ m.1 = tar_name (dc_file_name c).
Proof.
  intros Hj Hm. apply lookup_lt_is_Some in Hj as Hc. destruct Hc as [c Hc].
  assert (Hv : (j < length vs)%nat) by lia. apply lookup_lt_is_Some in Hv as [v Hv].
  pose proof (exported_member_disk now config vs xml j c v rest Hc Hv) as E.
  subst members. rewrite E in Hm. injection Hm as <-. by exists c.
Qed.

Lemma find_ovf : find_member (has_suffix (lit ".ovf")) members = Some (utf8_encode xml).
Proof.
  eapply (find_member_at _ _ (length (vc_disks config))).
  - by apply exported_member_ovf.
  - apply Hnames.
  - intros j m Hj Hm. destruct (member_disk_inv j m Hj Hm) as (c & Hc & ->).
    exact (proj1 (Forall_lookup _ _) (ia_disks _ Hnames) j c Hc).
Qed.

Lemma find_disk i c v :
  vc_disks config !! i = Some c -> vs !! i = Some v ->
  find_member (fun name => bool_decide (name = utf8_encode (dc_file_name c))) members = Some v.
Proof.
  intros Hc Hv. pose proof (proj1 (Forall_lookup _ _) (ia_fits _ Hnames) i c Hc) as Hfit. cbn in Hfit.
  eapply (find_member_at _ _ i).
  - by apply exported_member_disk.
  - by apply bool_decide_true.
  - intros j m Hj Hm. apply bool_decide_false. rewrite <- Hfit. intros E.
    pose proof (lookup_lt_Some _ _ _ Hc).
    destruct (member_disk_inv j m ltac:(lia) Hm) as (c' & Hc' & Hn).
    rewrite Hn in E. pose proof (NoDup_key _ _ i j c c' (ia_distinct _ Hnames) Hc Hc' E). lia.
Qed.
End members.

Lemma ovf_disk_attrs x :
  attr (lit "ovf:capacity") (tree 4 (ovf_disk x)) = Some (show_dec (di_capacity_bytes x)) /\
  attr (lit "ovf:fileRef") (tree 4 (ovf_disk x)) = Some (di_file_ref x).
Proof. done. Qed.

(** The disk a declared disk is imported as. *)
Lemma import_exported_disk config ds vs xml rest i d v :
  importable config -> length (vc_disks config) = length ds -> length ds = length vs ->
  ds !! i = Some d -> vs !! i = Some v -> zlen d < 2 ^ 64 -> exported_read v (zlen d) = Ok d ->
  import_disk (listing (exported_members now config vs xml ++ rest)) (ovf_tree config (disk_infos 0 ds vs))
    (tree 4 (ovf_disk (disk_info i (zlen d) (zlen v)))) = Some d.
Proof.
  intros Hn Hl Hlv Hd Hv Hmax Hread. unfold import_disk.
  destruct (ovf_disk_attrs (disk_info i (zlen d) (zlen v))) as [-> ->]. cbn [disk_info di_capacity_bytes].
  cbn [mbind option_bind]. rewrite parse_u64_show by (zlen_pos; lia). cbn [mbind option_bind].
  destruct (exported_links config ds vs i d v Hl Hd Hv) as (c & _ & _ & f & Hc & _ & _ & _ & _ & Hf & Hh & _).
  rewrite (proj2 (disk_info_names _ _ _)), Hf. cbn [head mbind option_bind]. rewrite Hh. cbn [mbind option_bind].
  rewrite (find_disk config vs xml rest) with (i := i) (v := v) by (done || lia).
  cbn [mbind option_bind]. by rewrite Hread.
Qed.

(** All of them. *)
Lemma import_exported_disks (p : Pipeline) options config ds vs xml rest :
  importable config -> length (vc_disks config) = length ds -> images options p ds vs ->
  eo_chunk_size options = grain_len ->
  (forall chunk c, zlen chunk <= grain_len -> deflate_finish (compression_level p) chunk = Ok c ->
     zlen c < 2 ^ 32) ->
  Forall (fun d => zlen d mod SECTOR_SIZE = 0) ds -> Forall (fun v => zlen v <= max_file) vs ->
  mapM (import_disk (listing (exported_members now config vs xml ++ rest)) (ovf_tree config (disk_infos 0 ds vs)))
    (descendants (lit "ovf:Disk") (ovf_tree config (disk_infos 0 ds vs))) = Some ds.
Proof.
  intros Hn Hl1 Him Hgrain Hsmall Hsectors Hmax. apply Forall2_length in Him as Hl2.
  rewrite ovf_disks. apply mapM_Some, Forall2_same_length_lookup.
  assert (Hlen : length (disk_infos 0 ds vs) = length ds).
  { unfold disk_infos. rewrite length_imap, length_zip_with. lia. }
  split; [by rewrite length_map|]. intros i el d Hel Hd.
  change (map ?f) with (fmap (M:=list) f) in Hel. apply list_lookup_fmap_Some in Hel as (x & -> & Hx).
  apply disk_infos_inv in Hx as (d' & v & Hd' & Hv & ->).
  assert (d' = d) as -> by congruence.
  destruct (Forall2_lookup_lr _ _ _ _ _ _ Him Hd Hv) as [Hmax64 Himg]. rewrite Hgrain in Himg.
  apply import_exported_disk; try done.
  apply (image_holds_disk (compression_level p)); try done.
  - exact (proj1 (Forall_lookup _ _) Hsectors i d Hd).
  - exact (proj1 (Forall_lookup _ _) Hmax i v Hv).
Qed.

(** A run on a machine: what its files say, the contents [ds] of its disks, and
    an empty output. *)
Record machine_run (vmx_path output_path : str) (options : ExportOptions) (config : VmxConfig) (dir : str)
    (total : Z) (p : Pipeline) (w : W) (ds : list bytes) : Prop := {
  mr_file : exists b, file_open vmx_path = Ok b /\ Forall is_byte b;
  mr_config : parse_vmx vmx_path = Ok config;
  mr_dir : path_parent vmx_path = Some dir;
  mr_disks : Forall2 (machine_disk dir) (vc_disks config) ds;
  mr_total : calculate_total_disk_size config dir = Ok total;
  mr_pool : Pipeline_new (PipelineConfig_new (eo_chunk_size options) (eo_compression options)
                            (eo_num_threads options)) = (Ok p : Result Pipeline);
  mr_output : file_create output_path = Ok w;
  mr_writer : wf_writer w /\ contents w = [];
}.

(** The members and the clock fit the TAR headers. *)
Definition members_fit (options : ExportOptions) (config : VmxConfig) (p : Pipeline) (ds : list bytes) : Prop :=
  forall vs xml, images options p ds vs -> build (OvfBuilder_new config) (disk_infos 0 ds vs) = Ok xml ->
    Forall (fun v => zlen v < tar_limit) vs /\ zlen (utf8_encode xml) < tar_limit /\
    zlen (utf8_encode (exported_members now config vs xml ≫= manifest_line)) < tar_limit.

Lemma machine_config_strs path b config :
  file_open path = Ok b -> Forall is_byte b -> parse_vmx path = Ok config -> config_strs config /\ config_typed config.
Proof.
  intros Hf Hb Hc. unfold parse_vmx, read_to_string in Hc. rewrite Hf in Hc. cbn [mbind outcome_bind] in Hc.
  destruct (utf8_decode b) as [content|] eqn:E; [|done]. cbn [map_err mbind outcome_bind] in Hc.
  apply utf8_decode_is_str in E; [|done].
  split; [by apply (config_strs_parse content)|by apply (config_is_typed content)].
Qed.

Lemma disk_infos_strs ds vs : Forall disk_info_strs (disk_infos 0 ds vs).
Proof.
  apply Forall_lookup. intros i x (d & v & _ & _ & ->)%disk_infos_inv.
  destruct (disk_info_names (0 + i) (zlen d) (zlen v)) as [Hid Href].
  split; [rewrite Hid|rewrite Href|apply zlen_nonneg|apply zlen_nonneg];
    (apply is_str_app; [lit_str|apply is_str_show; lia]).
Qed.

(** The members are well formed, their names and the descriptor strings. *)
Lemma members_well_formed config ds vs xml :
  config_strs config -> config_typed config -> length (vc_disks config) = length vs ->
  build (OvfBuilder_new config) (disk_infos 0 ds vs) = Ok xml -> (forall i, now i < tar_limit) ->
  Forall (fun v => zlen v < tar_limit) vs -> zlen (utf8_encode xml) < tar_limit ->
  is_str xml /\ Forall member_wf (exported_members now config vs xml).
Proof.
  intros Hs [Hmem Hcpu _] Hl Hxml Hclock Hvs Hx. split.
  { apply (build_str config (disk_infos 0 ds vs)); try done; [apply Hcpu|apply Hmem|apply disk_infos_strs]. }
  assert (Hnow : forall i, 0 <= Z.max 0 (now i) < tar_limit).
  { intros i. specialize (Hclock i). unfold tar_limit in *. lia. }
  unfold exported_members. apply Forall_app. split.
  - apply Forall_lookup. intros i m Hm. unfold disk_members in Hm.
    rewrite list_lookup_imap, lookup_zip_with in Hm.
    destruct (vc_disks config !! i) as [c|] eqn:Hc; [|done]. cbn [mbind option_bind] in Hm.
    destruct (vs !! i) as [v|] eqn:Hv; [|done]. injection Hm as <-. split_and!; cbn.
    + apply (proj1 (Forall_lookup _ _) (cs_disks _ Hs) i c Hc).
    + apply Hnow.
    + apply Hnow.
    + exact (proj1 (Forall_lookup _ _) Hvs i v Hv).
  - repeat constructor; cbn [mb_name mb_mtime mb_data member_at]; [|apply Hnow|apply Hnow|done].
    apply is_str_fmt; [lit_str|]. constructor; [|constructor]. apply is_str_sanitize, Hs.
Qed.

Lemma machine_disks_stored dir cs ds :
  Forall2 (machine_disk dir) cs ds ->
  Forall2 (disk_stored dir) cs ds /\ Forall (fun d => zlen d mod SECTOR_SIZE = 0) ds /\
  Forall (fun d => zlen d < 2 ^ 64) ds.
Proof.
  induction 1 as [|c d cs ds Hd _ (IH1 & IH2 & IH3)]; [done|].
  apply machine_disk_stored in Hd as (? & ? & ?). split_and!; by constructor.
Qed.

(** The run on a machine: it succeeds, and its archive lists the images of the
    disks and a descriptor that reads back. *)
Lemma machine_exports cb vmx_path output_path options config dir total (p : Pipeline) w ds (s : export_state W) :
  machine_run vmx_path output_path options config dir total p w ds ->
  0 < eo_chunk_size options -> Forall (fun c => xml_plain (dc_file_name c)) (vc_disks config) ->
  (forall i, now i < tar_limit) -> members_fit options config p ds ->
  exists vs xml rest s' w', images options p ds vs /\ Forall (fun v => zlen v <= max_file) vs /\
    read_xml xml = Some (ovf_tree config (disk_infos 0 ds vs)) /\ is_str xml /\
    export_vm file_create now cb vmx_path output_path options s = (Ok tt, s') /\
    es_output s' = Some w' /\
    tar_read (contents w') = Some (listing (exported_members now config vs xml ++ rest)).
Proof.
  intros [(b & Hfile & Hb) Hparse Hdir Hdisks Ht Hp Ho [Hw He]] Hcs Hplain Hclock Hfits.
  destruct (machine_disks_stored _ _ _ Hdisks) as (Hds & _ & Hsizes).
  destruct (images_exist options p ds Hsizes) as [vs Him].
  destruct (build_exported config ds vs _ Hparse Hplain) as (xml & Hxml & Hread).
  destruct (Hfits vs xml Him Hxml) as (Hvs & Hsize & Hman).
  apply Forall2_length in Hds as Hl1. apply Forall2_length in Him as Hl2.
  destruct (machine_config_strs _ _ _ Hfile Hb Hparse) as [Hstrs Htyped].
  destruct (members_well_formed config ds vs xml Hstrs Htyped ltac:(lia) Hxml Hclock Hvs Hsize) as [Hstr Hms].
  assert (Hmax : Forall (fun v => zlen v <= max_file) vs).
  { eapply Forall_impl; [exact Hvs|]. intros v Hv. unfold tar_limit, max_file, SECTOR_SIZE in *. lia. }
  assert (Hlast : Z.max 0 (now (S (length (vc_disks config)))) < tar_limit).
  { specialize (Hclock (S (length (vc_disks config)))). unfold tar_limit in *. lia. }
  destruct (export_vm_run (W:=W) now file_create cb vmx_path output_path options config dir total p w ds vs xml s
    Hparse Hdir Ht Hp Ho Hw He Hcs Hds Him Hxml Hms Hlast Hman) as (s' & w' & Hrun & Hout & Htar & _).
  by exists vs, xml, (manifest_of (now (S (length (vc_disks config)))) (exported_members now config vs xml)), s', w'.
Qed.

(** ** The property *)

(** C1: what is exported can be imported.  A machine, given by its files, that
    is read in chunks of one grain, whose files have names an importer can tell
    apart and whose members fit the TAR headers is exported to an archive from
    which the importer, by way of the TAR headers, the OVF descriptor, the
    references in it and the tables of the stream-optimized disks, gets the
    contents of every disk back, byte for byte and in order, whether a disk is
    a hosted sparse file, a flat extent or split over sparse extents. *)
Theorem export_import cb vmx_path output_path options config dir total (p : Pipeline) w ds
    (s : export_state W) :
  machine_run vmx_path output_path options config dir total p w ds ->
  importable config -> eo_chunk_size options = grain_len ->
  (forall chunk c, zlen chunk <= grain_len -> deflate_finish (compression_level p) chunk = Ok c ->
     zlen c < 2 ^ 32) ->
  (forall i, now i < tar_limit) -> members_fit options config p ds ->
  exists s' w', export_vm file_create now cb vmx_path output_path options s = (Ok tt, s') /\
    es_output s' = Some w' /\ import_ova (contents w') = Some ds.
Proof.
  intros Hrun Hn Hgrain Hsmall Hclock Hfits. pose proof (mr_disks _ _ _ _ _ _ _ _ _ Hrun) as Hdisks.
  destruct (machine_disks_stored _ _ _ Hdisks) as (_ & Hsectors & _). apply Forall2_length in Hdisks as Hl1.
  destruct (machine_exports cb vmx_path output_path options config dir total p w ds s Hrun
    ltac:(by rewrite Hgrain) (ia_plain _ Hn) Hclock Hfits)
    as (vs & xml & rest & s' & w' & Him & Hmax & Hread & Hstr & He & Hout & Hlist).
  apply Forall2_length in Him as Hl2.
  exists s', w'. split; [exact He|]. split; [exact Hout|].
  unfold import_ova. rewrite Hlist. cbn [mbind option_bind].
  rewrite (find_ovf config vs xml rest) by (done || lia). cbn [mbind option_bind].
  rewrite utf8_roundtrip by done. cbn [mbind option_bind]. rewrite Hread. cbn [mbind option_bind].
  by apply (import_exported_disks p options).
Qed.
End import.

(** ** The sample machine, exported and imported

    The machine of [machine_files], its sparse files written in the hosted
    format: a disk in one hosted file, flat, and split over two hosted files, of
    which the second has its grain compressed. *)

Definition import_files : FileSystem :=
  fs_of [(lit "/vm/my.vmx", vmx_text);
         (lit "/vm/mono.vmdk", hosted_image (sample_disk double_header [0; 3]));
         (lit "/vm/flat.vmdk", flat_descriptor); (lit "/vm/data.bin", sample_data ++ sample_data);
         (lit "/vm/split.vmdk", split_descriptor);
         (lit "/vm/s1.vmdk", hosted_image (sample_disk sample_header [0]));
         (lit "/vm/s2.vmdk", compressed_sparse)].

Definition import_total : Z :=
  match calculate_total_disk_size (H:=import_files) (H0:=ascii_tables) (H1:=debug) machine_config (lit "/vm") with
  | Ok t => t | _ => 0 end.

Definition descriptor_of (text : str) : VmdkDescriptor :=
  match parse_descriptor (H:=ascii_tables) text with Ok d => d | _ => sample_descriptor end.

Lemma descriptor_file path text :
  text = flat_descriptor \/ text = split_descriptor ->
  file_open (H:=import_files) path = Ok (utf8_encode text) ->
  descriptor_at (H:=import_files) (H1:=ascii_tables) path (descriptor_of text).
Proof.
  intros Ht Hf. exists (utf8_encode text), text.
  split_and!; [exact Hf|destruct Ht as [->| ->]; vm_compute; reflexivity..].
Qed.

Lemma machine_disk_files :
  Forall2 (machine_disk (H:=import_files) (H1:=ascii_tables) (H3:=stored_flate2) (lit "/vm"))
    (vc_disks machine_config) machine_contents.
Proof.
  rewrite machine_disk_list.
  assert (Hd : forall h st, h = sample_header \/ h = double_header ->
    hosted (H:=stored_flate2) (hosted_image (sample_disk h st)) (sample_disk h st))
    by (intros; by apply image_hosted, sample_fits).
  apply List.Forall2_cons; [|apply List.Forall2_cons; [|apply List.Forall2_cons; [|apply List.Forall2_nil]]].
  - assert (E : sample_data ++ sample_data = hd_contents (sample_disk double_header [0; 3])) by (by vm_compute).
    rewrite E. apply machine_sparse. eexists. split; [reflexivity|]. apply Hd. by right.
  - apply (machine_flat _ _ (descriptor_of flat_descriptor)
      {| ex_access := lit "RW"; ex_size_sectors := 6; ex_extent_type := Flat;
         ex_filename := lit "data.bin"; ex_offset := 0 |}); [apply descriptor_file; [by left|]|..];
      vm_compute; reflexivity.
  - assert (E : sample_data ++ sample_data
      = concat (map hd_contents [sample_disk sample_header [0]; sample_disk compressed_header [0]])) by (by vm_compute).
    rewrite E. apply (machine_split _ _ (descriptor_of split_descriptor)).
    + apply descriptor_file; [by right|vm_compute; reflexivity].
    + discriminate.
    + repeat (apply List.Forall_cons || apply List.Forall_nil); reflexivity.
    + repeat (apply List.Forall2_cons || apply List.Forall2_nil); (split; [eexists; split; [reflexivity|]|reflexivity]).
      * apply Hd. by left.
      * exact compressed_hosted.
    + vm_compute. reflexivity.
Qed.

Lemma machine_runs :
  machine_run (H:=import_files) (H1:=ascii_tables) (H2:=debug) (H3:=stored_flate2) (H5:=backwards) (H12:=key_order)
    machine_create (lit "/vm/my.vmx") (lit "out.ova") machine_options machine_config (lit "/vm") import_total
    machine_pipeline cursor_new machine_contents.
Proof.
  constructor.
  - eexists. split; [reflexivity|]. apply all_bytes_spec. vm_compute. reflexivity.
  - vm_compute. reflexivity.
  - vm_compute. reflexivity.
  - exact machine_disk_files.
  - vm_compute. reflexivity.
  - reflexivity.
  - reflexivity.
  - done.
Qed.

Lemma machine_images vs :
  images (H3:=stored_flate2) (H5:=backwards) machine_options machine_pipeline machine_contents vs ->
  vs = repeat machine_image 3.
Proof.
  unfold images, machine_contents. cbn [repeat]. intros Him.
  assert (Hv : forall v, disk_image (H:=stored_flate2) (zlen (sample_data ++ sample_data))
      (compression_level machine_pipeline) (eo_chunk_size machine_options) (sample_data ++ sample_data) = Ok v ->
      v = machine_image).
  { intros v Hv. unfold machine_image. change 3072 with (zlen (sample_data ++ sample_data)).
    change 6 with (compression_level machine_pipeline). change 65536 with (eo_chunk_size machine_options).
    by rewrite Hv. }
  do 3 (apply Forall2_cons_inv_l in Him as (? & ? & [_ ->%Hv] & Him & ->)).
  by apply Forall2_nil_inv_l in Him as ->.
Qed.

Lemma machine_members_fit :
  members_fit (H1:=ascii_tables) (H3:=stored_flate2) (H5:=backwards) (H11:=sum_sha2_laws) machine_clock
    machine_options machine_config machine_pipeline machine_contents.
Proof.
  intros vs xml ->%machine_images Hx.
  assert (E : xml = machine_ovf) by (unfold machine_ovf; by rewrite Hx). subst xml.
  split_and!; [repeat (apply List.Forall_cons || apply List.Forall_nil)|..]; vm_compute; reflexivity.
Qed.

Lemma machine_importable : importable (H:=ascii_tables) machine_config.
Proof.
  constructor; rewrite ?machine_disk_list.
  - repeat (apply List.Forall_cons || apply List.Forall_nil); vm_compute; reflexivity.
  - repeat (apply List.Forall_cons || apply List.Forall_nil); vm_compute; reflexivity.
  - apply (bool_decide_unpack _). vm_compute. exact I.
  - repeat (apply List.Forall_cons || apply List.Forall_nil); vm_compute; reflexivity.
  - vm_compute. reflexivity.
Qed.

Lemma export_import_witness :
  exists s' w', export_vm (H:=import_files) (H0:=ascii_tables) (H1:=debug) (H2:=stored_flate2) (H3:=backwards)
      (H5:=sum_sha2) (H6:=key_order) machine_create machine_clock true (lit "/vm/my.vmx") (lit "out.ova")
      machine_options idle = (Ok tt, s') /\ es_output s' = Some w' /\
    import_ova (H:=stored_flate2) (contents w') = Some machine_contents.
Proof.
  apply (export_import (H:=import_files) (H0:=fun b => eq_refl) (H1:=ascii_tables) (H2:=debug)
    (H4:=stored_flate2_laws) (H6:=backwards_laws) (H11:=sum_sha2_laws) (H12:=key_order) machine_create machine_clock
    true (lit "/vm/my.vmx") (lit "out.ova") machine_options machine_config (lit "/vm") import_total machine_pipeline
    cursor_new machine_contents idle machine_runs machine_importable).
  - vm_compute. reflexivity.
  - intros chunk c. by apply stored_small.
  - done.
  - exact machine_members_fit.
Defined.
