(* ===== verification/ExportFailSpec.v ===== *)
(** * ExportFailSpec: exports that fail

    What a run of the export leaves behind when it stops, and the disks it
    does not export whole. *)
From S2P Require Export ExportVmSpec.

(** ** What a failed run leaves behind *)

(** Actions that leave the output file as it is, however they end. *)
Definition keeps_output {W A} (m : M (export_state W) Error A) : Prop :=
  forall s, es_output (snd (m s)) = es_output s.

Section keeps.
  Context {W : Type}.
  Implicit Type s : export_state W.

Lemma keeps_bind {A B} (m : M (export_state W) Error A) (f : A -> M (export_state W) Error B) :
  keeps_output m -> (forall a, keeps_output (f a)) -> keeps_output (m ≫= f).
Proof.
  intros Hm Hf s. specialize (Hm s). unfold mbind, M_bind. destruct (m s) as [[a|e| |] s1]; cbn in *; try done.
  by rewrite Hf.
Qed.

Lemma keeps_lift {A} (r : Result A) : keeps_output (lift r : M (export_state W) Error A).
Proof. done. Qed.

Lemma keeps_ret {A} (a : A) : keeps_output (mret a : M (export_state W) Error A).
Proof. done. Qed.

Lemma keeps_set_progress f : keeps_output (W:=W) (set_progress f).
Proof. done. Qed.

Lemma keeps_report cb : keeps_output (W:=W) (report cb).
Proof. done. Qed.
End keeps.

Create HintDb output.
#[export] Hint Resolve keeps_lift keeps_ret keeps_set_progress keeps_report : output.

(** Steps through the binds of an action and the pairs they take apart. *)
Ltac keeps :=
  repeat first
    [ progress intros
    | match goal with |- keeps_output (let '(_, _) := ?x in _) => destruct x end
    | solve [auto 2 with output]
    | match goal with |- keeps_output (_ ≫= _) => apply keeps_bind end ].

Section quiet.
  Context `{FileSystem} `{UnicodeTables} `{BuildProfile} `{Flate2} `{Rayon} {W : Type}.

Lemma keeps_write_chunks cb cs original idx n l w :
  keeps_output (W:=W) (write_chunks cb cs original idx n l w).
Proof. revert idx n w. induction l as [|c l IH]; intros idx n w; cbn [write_chunks]; cbv zeta; keeps. Qed.

#[local] Hint Resolve keeps_write_chunks : output.

Lemma keeps_compress_and_write cb cap (p : Pipeline) level cs original chunks :
  keeps_output (W:=W) (compress_and_write cb cap p level cs original chunks).
Proof. unfold compress_and_write. keeps. Qed.

#[local] Hint Resolve keeps_compress_and_write : output.

Lemma keeps_compress_disk cb (p : Pipeline) level cs t : keeps_output (W:=W) (compress_disk cb p level cs t).
Proof.
  destruct t; cbn [compress_disk]; unfold process_sparse_disk, process_disk, process_split_sparse_disk; cbv zeta; keeps.
Qed.

#[local] Hint Resolve keeps_compress_disk : output.

Lemma keeps_compress_disks cb options (p : Pipeline) dir k disks infos bufs :
  keeps_output (W:=W) (compress_disks cb options p dir k disks infos bufs).
Proof.
  revert k infos bufs. induction disks as [|c disks IH]; intros k infos bufs; cbn [compress_disks]; cbv zeta; keeps.
Qed.
End quiet.

Lemma bind_cases {S A B} (m : M S Error A) (f : A -> M S Error B) s r s' :
  (m ≫= f) s = (r, s') ->
  (exists a s1, m s = (Ok a, s1) /\ f a s1 = (r, s')) \/ (is_ok r = false /\ s' = snd (m s)).
Proof.
  unfold mbind, M_bind. destruct (m s) as [[a|e| |] s1]; [|intros [= <- <-]; by right..].
  intros E. left. by exists a, s1.
Qed.

Section failures.
  Context `{FileSystem} `{UnicodeTables} `{BuildProfile} `{Flate2} `{Rayon} `{Write W} `{Sha2} `{HashOrder}.
  Context (file_create : str -> io_result W) (now : nat -> Z).

(** C19: nothing is written to the output before every disk has been read and
    compressed.  A run that fails earlier leaves no output, or the file that
    [File::create] made, untouched. *)
Theorem output_untouched_until_compressed cb vmx_path output_path options (s : export_state W) r s' :
  es_output s = None -> export_vm file_create now cb vmx_path output_path options s = (r, s') ->
  (is_ok r = false /\
   (es_output s' = None \/ exists w, file_create output_path = Ok w /\ es_output s' = Some w)) \/
  exists config dir (p : Pipeline) infos bufs (s0 s1 : export_state W),
    parse_vmx vmx_path = Ok config /\ path_parent vmx_path = Some dir /\
    compress_disks cb options p dir 0 (vc_disks config) [] [] s0 = (Ok (infos, bufs), s1).
Proof.
  intros Hs Hr. unfold export_vm in Hr.
  apply bind_cases in Hr as [(config & s1 & Hc & Hr)|[Hr ->]]; [|left; auto].
  injection Hc as Hc <-. apply bind_cases in Hr as [(dir & s1 & Hd & Hr)|[Hr ->]]; [|left; auto].
  injection Hd as Hd <-. apply bind_cases in Hr as [(total & s1 & Ht & Hr)|[Hr ->]]; [|left; auto].
  injection Ht as Ht <-. cbv zeta in Hr.
  apply bind_cases in Hr as [(? & s1 & E & Hr)|[Hr ->]]; [|left; auto]. injection E as _ <-.
  apply bind_cases in Hr as [([] & s1 & E & Hr)|[Hr ->]]; [|left; auto]. injection E as E.
  assert (Hs1 : es_output s1 = None) by (by subst s1). clear E.
  apply bind_cases in Hr as [(p & s2 & E & Hr)|[Hr ->]]; [|left; auto]. injection E as _ <-.
  apply bind_cases in Hr as [(w & s2 & E & Hr)|[Hr ->]]; [|left; auto]. injection E as Hw <-.
  assert (Hw' : file_create output_path = Ok w) by (by destruct (file_create output_path); [injection Hw as ->|..]).
  apply bind_cases in Hr as [([] & s2 & E & Hr)|[Hr ->]]; [|left; cbn; eauto]. injection E as E.
  assert (Hs2 : es_output s2 = Some w) by (by subst s2). clear E.
  apply bind_cases in Hr as [(o & s3 & E & Hr)|[Hr ->]]; [|left; eauto]. injection E as _ <-.
  apply bind_cases in Hr as [([infos bufs] & s3 & E & Hr)|[Hr ->]].
  - right. exists config, dir, p, infos, bufs, s2, s3. split_and!; [done| |done].
    destruct (path_parent vmx_path); [by injection Hd as ->|done].
  - left. split; [done|]. right. exists w. split; [done|]. by rewrite keeps_compress_disks.
Qed.
End failures.

Section missing.
  Context `{FileSystem} `{!MmapLaws} `{UnicodeTables} `{BuildProfile} `{Flate2Laws} `{RayonLaws}.
  Context `{Write W} `{Sha2} `{HashOrder} (file_create : str -> io_result W) (now : nat -> Z).

Lemma compress_disks_stops cb options (p : Pipeline) dir k pre c post ds vs infos bufs e (s : export_state W) :
  Forall2 (disk_stored dir) pre ds -> images options p ds vs -> 0 < eo_chunk_size options ->
  disk_type_of dir (path_join dir (dc_file_name c)) = Err e ->
  exists s', compress_disks cb options p dir (Z.of_nat k) (pre ++ c :: post) infos bufs s = (Err e, s') /\
    ep_phase (es_progress s') = Compressing /\
    ep_current_disk (es_progress s') = Z.of_nat (k + length pre) + 1.
Proof.
  intros Hst. revert k vs infos bufs s.
  induction Hst as [|c0 d pre ds Hc0 Hst IH]; intros k vs infos bufs s Him Hcs Ht; cbn [app compress_disks].
  - rewrite (M_bind_step (set_progress _) _ s tt _ eq_refl), (M_bind_step (set_progress _) _ _ tt _ eq_refl).
    rewrite (M_bind_step (report cb) _ _ tt _ eq_refl). cbv zeta. rewrite Ht. eexists. split; [reflexivity|].
    cbn. split; [done|lia].
  - inversion Him as [|? v ? vs' [Hd Hv] Him']; subst.
    destruct (compress_disk_stored (W:=W) cb p _ _ _ _ _ _ Hc0 Hcs Hd Hv) as (t & Ht0 & Hrun).
    rewrite (M_bind_step (set_progress _) _ s tt _ eq_refl), (M_bind_step (set_progress _) _ _ tt _ eq_refl).
    rewrite (M_bind_step (report cb) _ _ tt _ eq_refl). cbv zeta. rewrite Ht0.
    rewrite (M_bind_step (lift _) _ _ t _ eq_refl).
    match goal with |- context [(compress_disk _ _ _ _ _ ≫= _) ?st] => destruct (Hrun st) as (s1 & E1 & _) end.
    rewrite (M_bind_step _ _ _ _ _ E1). cbn beta iota.
    replace (Z.of_nat k + 1) with (Z.of_nat (S k)) by lia.
    replace (k + length (c0 :: pre))%nat with (S k + length pre)%nat by (cbn [length]; lia). by eapply IH.
Qed.

Lemma disk_size_bytes_no_Err (d : VmdkDescriptor) e : disk_size_bytes d <> (Err e : Result Z).
Proof.
  assert (Hch : forall n, checked 64 n <> (Err e : Result Z)).
  { intros n. unfold checked. destruct (_ && _); [done|]. by destruct overflow_checks. }
  assert (Hs : forall l acc, sum_u64 acc l <> (Err e : Result Z)).
  { induction l as [|x l IH]; intros acc; [done|]. cbn [sum_u64]. pose proof (Hch (acc + x)) as Hx.
    unfold add_u64. destruct (checked 64 (acc + x)); [apply IH|by intros [= ->]|done..]. }
  unfold disk_size_bytes, disk_size_sectors. pose proof (Hs (map ex_size_sectors (vd_extents d)) 0) as Hd.
  destruct (sum_u64 _ _); [apply Hch|by intros [= ->]|done..].
Qed.

(** The sizes are summed before the archive is created, and for that every disk
    whose file exists is opened. *)
Lemma total_opens_disks config dir c e total :
  calculate_total_disk_size config dir = Ok total -> c ∈ vc_disks config ->
  let path := path_join dir (dc_file_name c) in
  disk_type_of dir path = Err e -> path_exists path = false \/ e = no_extent.
Proof.
  unfold calculate_total_disk_size. generalize 0. intros n Ht Hc. cbv zeta. intros He.
  assert (Hd : exists m m', add_disk_size dir m c = Ok m').
  { revert n Ht Hc. induction (vc_disks config) as [|d ds IH]; intros n Ht Hc; [by apply elem_of_nil in Hc|].
    cbn [add_disk_sizes] in Ht. apply bind_Ok in Ht as (m & Hm & Ht).
    apply elem_of_cons in Hc as [->|Hc]; [by exists n, m|by eapply IH]. }
  destruct Hd as (m & m' & Hd). unfold add_disk_size in Hd. cbv zeta in Hd.
  destruct (path_exists _); [right|by left]. unfold disk_type_of in He.
  apply bind_Ok in Hd as (sparse & Hs & Hd). rewrite Hs, bind_ret_Ok in He.
  destruct sparse.
  { apply bind_Ok in Hd as (r & Hr & _). by rewrite Hr in He. }
  apply bind_Ok in Hd as (dscr & Hr & _). rewrite Hr, bind_ret_Ok in He.
  destruct (disk_size_bytes dscr) as [size|e'| |] eqn:Esize; try done.
  - rewrite bind_ret_Ok in He. destruct (List.find _ _); [done|]. destruct (negb _); [done|by injection He].
  - by apply disk_size_bytes_no_Err in Esize.
Qed.

End missing.

(** The sample machine without its second disk. *)
Definition broken_files : FileSystem :=
  fs_of [(lit "/vm/my.vmx", vmx_text); (lit "/vm/mono.vmdk", double_sparse);
         (lit "/vm/split.vmdk", split_descriptor);
         (lit "/vm/s1.vmdk", sample_sparse); (lit "/vm/s2.vmdk", sample_sparse)].

Definition missing_disk : Error := Error.io file_not_found (lit "/vm/flat.vmdk").

Lemma broken_first_disk :
  disk_stored (H:=broken_files) (H1:=ascii_tables) (H2:=debug) (H3:=stored_flate2) (lit "/vm")
    {| dc_file_name := lit "mono.vmdk"; dc_controller := lit "scsi0"; dc_unit := 0 |} (sample_data ++ sample_data).
Proof.
  eapply stored_sparse; [vm_compute; reflexivity|vm_compute; reflexivity|exact double_reader_wf
    |exact double_readable|vm_compute; reflexivity].
Qed.

Lemma output_untouched_until_compressed_witness :
  let run := export_vm (H:=broken_files) (H0:=ascii_tables) (H1:=debug) (H2:=stored_flate2) (H3:=backwards)
    (H5:=sum_sha2) (H6:=key_order) machine_create machine_clock true (lit "/vm/other.vmx") (lit "out.ova")
    machine_options idle in
  is_ok (fst run) = false /\ (es_output (snd run) = None \/ exists w, es_output (snd run) = Some w).
Proof.
  cbv zeta.
  destruct (output_untouched_until_compressed (H:=broken_files) (H0:=ascii_tables) (H1:=debug) (H2:=stored_flate2)
    (H3:=backwards) (H5:=sum_sha2) (H6:=key_order) machine_create machine_clock true (lit "/vm/other.vmx")
    (lit "out.ova") machine_options idle _ _ eq_refl (surjective_pairing _))
    as [[Hr Ho]|(config & dir & p & infos & bufs & s0 & s1 & Hp & _)].
  - split; [exact Hr|]. destruct Ho as [Ho|(w & _ & Ho)]; [by left|right; by exists w].
  - exfalso. vm_compute in Hp. discriminate.
Defined.


(** ** Disks that are not exported whole *)

Lemma find_head {A} (f : A -> bool) l : List.find f l = head (List.filter f l).
Proof. induction l as [|x l IH]; [done|]. cbn. by destruct (f x). Qed.

(** C17: a disk with several flat extents ([twoGbMaxExtentFlat]) is not exported
    whole.  The image is that of the file of its first flat extent alone,
    whatever the files of the other extents hold, while the capacity that goes
    into the image and the descriptor is the size of all extents. *)
Theorem later_flat_extents_ignored `{FileSystem} `{!MmapLaws} `{UnicodeTables} `{BuildProfile} `{Flate2Laws}
    `{RayonLaws} {W} cb (p : Pipeline) level cs dir path descriptor first rest cap d (s : export_state W) :
  is_sparse_vmdk path = Ok false -> read_descriptor path = Ok descriptor ->
  List.filter (is_type Flat) (vd_extents descriptor) = first :: rest ->
  disk_size_bytes descriptor = (Ok cap : Result Z) ->
  file_open (path_join dir (ex_filename first)) = Ok d -> 0 < cs -> zlen d < 2 ^ 64 ->
  exists t vmdk s', disk_type_of dir path = Ok t /\
    compress_disk cb p level cs t s = (Ok (vmdk, cap), s') /\ disk_image cap level cs d = Ok vmdk.
Proof.
  intros Hs Hd Hf Hc Ho Hcs Hlen. destruct (disk_image_total cap level cs d) as [vmdk Hi].
  unfold disk_type_of. rewrite Hs. cbn [mbind outcome_bind]. rewrite Hd. cbn [mbind outcome_bind].
  rewrite Hc. cbn [mbind outcome_bind]. rewrite find_head, Hf. cbn [head].
  eexists _, vmdk, _. split; [reflexivity|]. split; [|exact Hi]. cbn [compress_disk].
  by rewrite (M_bind_step _ _ _ _ _ (process_disk_spec cb _ cap p level cs d s vmdk Ho Hcs Hlen Hi)).
Qed.

Definition two_flat_files : FileSystem :=
  fs_of [(lit "/vm/d.vmdk", ln "RW 3 FLAT `f1.bin` 0" ++ ln "RW 3 FLAT `f2.bin` 0");
         (lit "/vm/f1.bin", sample_data); (lit "/vm/f2.bin", repeat 9 1536);
         (lit "/vm/m.vmx", ln "ide0:0.fileName = `d.vmdk`" ++ ln "ide0:0.present = `true`")].

Lemma later_flat_extents_ignored_witness :
  exists t vmdk s', disk_type_of (H:=two_flat_files) (H0:=ascii_tables) (H1:=debug) (lit "/vm") (lit "/vm/d.vmdk") = Ok t /\
    compress_disk (H:=two_flat_files) (H1:=debug) (H2:=stored_flate2) true disk_pipeline 6 1000 t idle
      = (Ok (vmdk, 3072), s') /\
    disk_image (H:=stored_flate2) 3072 6 1000 sample_data = Ok vmdk.
Proof.
  eapply (later_flat_extents_ignored (H:=two_flat_files) (H0:=fun b => eq_refl) (H1:=ascii_tables) (H2:=debug)
    (H4:=stored_flate2_laws) (H6:=backwards_laws)).
  - vm_compute. reflexivity.
  - vm_compute. reflexivity.
  - vm_compute. reflexivity.
  - vm_compute. reflexivity.
  - vm_compute. reflexivity.
  - lia.
  - vm_compute. reflexivity.
Defined.
