(* ===== verification/ExportSplitSpec.v ===== *)
(** * ExportSplitSpec: split disks larger than their descriptor says

    The length of the last chunk of a split disk is computed from the capacity
    in the descriptor, not from the extents: where the extents hold more, the
    subtraction underflows. *)
From S2P Require Export ExportVmSpec ProgressSpec.

(** ** The chunk loop, by the totals it reports *)

Section totals.
  Context `{FileSystem} `{UnicodeTables} `{BuildProfile} `{Flate2} `{Rayon} {W : Type}.
  Context (callback : bool) (cs : Z) (original : Z -> Result Z).

(** From chunk [idx] on, with [n] bytes written, the totals are these. *)
Fixpoint totals_ok (idx n : Z) (totals : list Z) : Prop :=
  match totals with
  | [] => True
  | t :: rest =>
      is_u64 (idx * cs) /\ (exists l, original idx = Ok l /\ add_u64 (E:=Error) n l = Ok t) /\
      totals_ok (idx + 1) t rest
  end.

Definition reported_all (totals : list Z) (s : export_state W) : export_state W :=
  fold_left (fun s t => reported callback t s) totals s.

Lemma write_chunks_totals idx n totals l l' (w w' : StreamVmdkWriter Cursor) (s : export_state W) :
  totals_ok idx n totals -> zlen l = zlen totals ->
  write_grains (chunk_grains cs idx l) w = (Ok tt, w') ->
  write_chunks callback cs original idx n (l ++ l') w s =
  write_chunks callback cs original (idx + zlen l) (default n (last totals)) l' w' (reported_all totals s).
Proof.
  revert idx n totals w s. induction l as [|c l IH]; intros idx n totals w s Ht Hlen Hw.
  { destruct totals; [|rewrite zlen_cons in Hlen; zlen_pos; change (zlen (@nil bytes)) with 0 in *; lia].
    injection Hw as <-. cbn. by rewrite Z.add_0_r. }
  destruct totals as [|t totals]; [rewrite zlen_cons in Hlen; zlen_pos; change (zlen (@nil Z)) with 0 in *; lia|].
  destruct Ht as (Hi & (len & Ho & Ha) & Ht).
  rewrite chunk_grains_cons in Hw. cbn [write_grains] in Hw.
  apply M_bind_Ok in Hw as ([] & w1 & Hg & Hw). cbn [app write_chunks].
  unfold mul_u64. rewrite checked_ok by done. rewrite (M_bind_step (lift _) _ s _ s eq_refl).
  cbv zeta. erewrite (M_bind_step (lift _)); [|unfold lift; rewrite Hg; reflexivity]. rewrite Ho.
  rewrite (M_bind_step (lift _) _ s len s eq_refl), Ha, (M_bind_step (lift _) _ s _ s eq_refl).
  rewrite (M_bind_step (set_progress _) _ s tt _ eq_refl).
  rewrite (M_bind_step (report _) _ _ tt (reported callback t s)) by (by destruct callback).
  rewrite !zlen_cons in Hlen. rewrite (IH _ _ _ _ _ Ht ltac:(lia) Hw). rewrite zlen_cons, Z.add_assoc.
  f_equal. rewrite last_cons. by destruct (last totals).
Qed.

Lemma reported_all_reports totals s :
  map ep_bytes_processed (es_reports (reported_all totals s)) =
    map ep_bytes_processed (es_reports s) ++ (if callback then totals else []) /\
  ep_bytes_processed (es_progress (reported_all totals s)) =
    default (ep_bytes_processed (es_progress s)) (last totals).
Proof.
  revert s. induction totals as [|t totals IH]; intros s; cbn [reported_all fold_left].
  { split; [|done]. by destruct callback; rewrite app_nil_r. }
  destruct (IH (reported callback t s)) as [Hr Hp]. unfold reported_all in *. rewrite Hr, Hp. split.
  - destruct callback; [|by rewrite !app_nil_r]. cbn. by rewrite map_app, <- app_assoc.
  - rewrite last_cons. by destruct (last totals).
Qed.
End totals.

Lemma chunk_grains_app cs idx l l' :
  chunk_grains cs idx (l ++ l') = chunk_grains cs idx l ++ chunk_grains cs (idx + zlen l) l'.
Proof.
  revert idx. induction l as [|c l IH]; intros idx; cbn [app].
  { by rewrite zlen_nil, Z.add_0_r. }
  by rewrite !chunk_grains_cons, IH, zlen_cons, Z.add_assoc.
Qed.

Lemma write_grains_app `{Write U} gs gs' (w : StreamVmdkWriter U) :
  write_grains (gs ++ gs') w = (write_grains gs ≫= fun _ => write_grains gs') w.
Proof.
  revert w. induction gs as [|[lba data] gs IH]; intros w; [done|]. cbn [app write_grains].
  unfold mbind, M_bind in *. destruct (write_grain lba data w) as [[[]|e| |] w1]; done.
Qed.

Lemma list_app_last {A} (l : list A) : l <> [] -> exists pre x, l = pre ++ [x].
Proof. intros Hl. destruct (exists_last Hl) as (pre & x & ->). by exists pre, x. Qed.

(** ** The disk *)

Section split.
  Context `{FileSystem} `{UnicodeTables} `{BuildProfile} `{Flate2Laws} `{RayonLaws} {W : Type}.
  Context (cs cap : Z) (d : bytes).
  Hypothesis (Hcs : 0 < cs) (Hd : zlen d < 2 ^ 64).
  Abbreviation n := (zlen (split_chunks cs d)).
  Hypothesis (Hcap : 0 <= cap < (n - 1) * cs).

Definition split_original (chunk_idx : Z) : Result Z :=
  last ← sub_u64 n 1; chunk_length last cap cs chunk_idx.

Lemma split_bounds : 2 <= n /\ (n - 1) * cs < zlen d /\ zlen d < 2 ^ 64.
Proof.
  pose proof (ceil_div_bounds (zlen d) cs Hcs ltac:(zlen_pos; lia)) as Hb.
  rewrite <- split_chunks_length in Hb by done. nia.
Qed.

Lemma split_original_full i : 0 <= i < n - 1 -> split_original i = Ok cs.
Proof.
  intros Hi. pose proof split_bounds. unfold split_original, sub_u64.
  rewrite checked_ok by (unfold is_u; nia). cbn [mbind outcome_bind]. unfold chunk_length.
  destruct (Z.ltb_spec i (n - 1)); [done|lia].
Qed.

(** The last chunk: the capacity minus its offset, which is negative. *)
Lemma split_original_last :
  split_original (n - 1) = if overflow_checks then Panic else Ok (2 ^ 64 + cap - (n - 1) * cs).
Proof.
  pose proof split_bounds. unfold split_original, sub_u64 at 1.
  rewrite checked_ok by (unfold is_u; nia). cbn [mbind outcome_bind]. unfold chunk_length.
  rewrite Z.ltb_irrefl. unfold mul_u64, sub_u64. rewrite checked_ok by (unfold is_u; nia).
  cbn [mbind outcome_bind]. unfold checked. destruct (Z.leb_spec 0 (cap - (n - 1) * cs)); [lia|]. cbn [andb].
  destruct overflow_checks; [done|]. f_equal.
  rewrite <- (Z.mod_add _ 1), Z.mod_small by lia. lia.
Qed.

Lemma split_totals_ok i k :
  0 <= i -> i + Z.of_nat k <= n - 1 ->
  totals_ok cs split_original i (i * cs) (map (fun j => j * cs) (seqZ (i + 1) (Z.of_nat k))).
Proof.
  pose proof split_bounds. revert i. induction k as [|k IH]; intros i Hi Hk; [done|].
  rewrite Nat2Z.inj_succ, seqZ_cons, Z.pred_succ by lia. cbn [map totals_ok]. split_and!.
  - unfold is_u. nia.
  - exists cs. split; [apply split_original_full; lia|]. unfold add_u64. rewrite checked_ok by (unfold is_u; nia).
    f_equal. lia.
  - rewrite <- Z.add_1_r. apply IH; lia.
Qed.

(** The offset of the last chunk plus its wrapped length is the capacity. *)
Lemma split_last_total :
  overflow_checks = false ->
  totals_ok cs split_original (n - 1) ((n - 1) * cs) [cap].
Proof.
  intros Ho. pose proof split_bounds. cbn [totals_ok]. split_and!; [unfold is_u; nia| |done].
  exists (2 ^ 64 + cap - (n - 1) * cs). rewrite split_original_last, Ho. split; [done|].
  unfold add_u64, checked. replace ((n - 1) * cs + (2 ^ 64 + cap - (n - 1) * cs)) with (cap + 1 * 2 ^ 64) by lia.
  destruct (Z.ltb_spec (cap + 1 * 2 ^ 64) (2 ^ 64)); [lia|]. rewrite andb_false_r, Ho.
  rewrite Z.mod_add, Z.mod_small by lia. done.
Qed.

(** The loop over the chunks, all but the last of them full. *)
Lemma write_chunks_oversized cb cc (w w' : StreamVmdkWriter Cursor) (s : export_state W) :
  zlen cc = n -> write_grains (chunk_grains cs 0 cc) w = (Ok tt, w') ->
  let totals := map (fun j => j * cs) (seqZ 1 (n - 1)) ++ [cap] in
  let '(r, s') := write_chunks cb cs split_original 0 0 cc w s in
  if overflow_checks then r = Panic else r = Ok w' /\ s' = reported_all cb totals s.
Proof.
  intros Hlen Hw. cbv zeta. pose proof split_bounds as Hb.
  destruct (list_app_last cc) as (pre & c & ->); [intros ->; change (zlen (@nil bytes)) with 0 in Hlen; lia|].
  rewrite zlen_app in Hlen. change (zlen [c]) with 1 in Hlen.
  rewrite chunk_grains_app, write_grains_app in Hw. apply M_bind_Ok in Hw as ([] & w1 & Hw1 & Hw2).
  assert (Hpre : zlen (map (fun j => j * cs) (seqZ 1 (n - 1))) = n - 1).
  { rewrite zlen_map. transitivity (Z.of_nat (Z.to_nat (n - 1))); [|lia]. unfold zlen at 1. by rewrite length_seqZ. }
  rewrite (write_chunks_totals cb cs split_original 0 0 (map (fun j => j * cs) (seqZ 1 (n - 1))) pre [c] w w1 s);
    [|replace (n - 1) with (Z.of_nat (Z.to_nat (n - 1))) by lia; apply (split_totals_ok 0); lia|lia|done].
  assert (Hl : default 0 (last (map (fun j => j * cs) (seqZ 1 (n - 1)))) = (n - 1) * cs).
  { change (@map Z Z) with (fmap (M:=list) (A:=Z) (B:=Z)). rewrite fmap_last, last_seqZ by lia. cbn. lia. }
  rewrite Hl. replace (0 + zlen pre) with (n - 1) in * by lia.
  destruct overflow_checks eqn:Ho.
  - cbn [write_chunks]. unfold mul_u64. rewrite checked_ok by (unfold is_u; nia).
    rewrite chunk_grains_cons in Hw2. cbn [write_grains] in Hw2. apply M_bind_Ok in Hw2 as ([] & w2 & Hg & _).
    rewrite (M_bind_step (lift _) _ _ _ _ eq_refl). cbv zeta.
    erewrite (M_bind_step (lift _)); [|unfold lift; rewrite Hg; reflexivity].
    rewrite split_original_last, Ho. done.
  - pose proof (write_chunks_totals cb cs split_original (n - 1) ((n - 1) * cs) [cap] [c] [] w1 w'
      (reported_all cb (map (fun j => j * cs) (seqZ 1 (n - 1))) s) (split_last_total Ho) eq_refl Hw2) as E.
    cbn [app] in E. rewrite E. cbn [write_chunks]. split; [done|]. unfold reported_all. by rewrite fold_left_app.
Qed.

(** A disk whose extents hold more than its descriptor says: the export
    computes the length of the last chunk below zero. *)
Lemma compress_and_write_oversized cb (p : Pipeline) level (s : export_state W) vmdk :
  disk_image cap level cs d = Ok vmdk ->
  let totals := map (fun j => j * cs) (seqZ 1 (n - 1)) ++ [cap] in
  let '(r, s') := compress_and_write cb cap p level cs split_original (split_chunks cs d) s in
  if overflow_checks then r = Panic else r = Ok vmdk /\ s' = reported_all cb totals s.
Proof.
  intros Hi. cbv zeta. unfold disk_image in Hi.
  apply bind_Ok in Hi as (cc & Hcc & Hi). apply bind_Ok in Hi as (w & Hw & [= <-]).
  unfold compress_and_write.
  rewrite (process_ok p _ (fun _ chunk => compress_grain chunk level) cc) by
    (rewrite <- Hcc; f_equal; symmetry; apply map_as_imap).
  apply collect_Ok in Hcc. apply (f_equal zlen) in Hcc. rewrite zlen_map, zlen_fmap in Hcc.
  unfold write_disk in Hw. apply bind_Ok in Hw as (w0 & Hnew & Hw).
  destruct (write_grains (chunk_grains cs 0 cc) w0) as [r w1] eqn:Eg.
  apply bind_Ok in Hw as ([] & -> & Hfin).
  rewrite (M_bind_step (lift _) _ s cc s eq_refl), Hnew, (M_bind_step (lift _) _ s w0 s eq_refl).
  pose proof (write_chunks_oversized cb cc w0 w1 s (eq_sym Hcc) Eg) as Hrun. cbv zeta in Hrun.
  unfold mbind, M_bind. destruct (write_chunks cb cs split_original 0 0 cc w0 s) as [r s'].
  destruct overflow_checks; [by subst r|]. destruct Hrun as [-> ->]. unfold lift. by rewrite Hfin.
Qed.
End split.

Section property.
  Context `{FileSystem} `{!MmapLaws} `{UnicodeTables} `{BuildProfile} `{Flate2Laws} `{RayonLaws} {W : Type}.

(** C16: a split disk whose extents hold more than its descriptor says, by more
    than the last chunk.  The export subtracts the offset of the last chunk
    from the smaller capacity: a debug build panics; a release build wraps
    twice, writes an image of the smaller capacity and reports success, after
    progress that runs past the capacity and falls back to it. *)
Theorem split_larger_than_capacity cb extents base_dir (p : Pipeline) level cs rs cap (s : export_state W) :
  let d := concat (map virtual_disk rs) in
  let n := ceil_div (zlen d) cs in
  Forall2 (extent_opens base_dir) extents rs -> 0 < cs -> zlen d < 2 ^ 64 -> 0 <= cap < (n - 1) * cs ->
  let '(r, s') := process_split_sparse_disk cb extents base_dir cap p level cs s in
  if overflow_checks then r = Panic
  else disk_image cap level cs d = r /\ is_ok r = true /\
    ep_bytes_processed (es_progress s') = cap /\
    map ep_bytes_processed (es_reports s') = map ep_bytes_processed (es_reports s) ++
      (if cb then map (fun i => i * cs) (seqZ 1 (n - 1)) ++ [cap] else []).
Proof.
  cbv zeta. intros Hes Hcs Hd Hcap. destruct (disk_image_total cap level cs (concat (map virtual_disk rs))) as [vmdk Hi].
  unfold process_split_sparse_disk.
  destruct (extents_chunks_merges base_dir cs extents rs [] [] []) as (all_chunks & partial & E & Hm);
    [done|done|split_and!; [done|constructor|done]|].
  rewrite E. rewrite (M_bind_step (lift _) _ s _ s eq_refl). cbv zeta. rewrite (merged_split _ _ _ _ Hm).
  rewrite <- split_chunks_length in Hcap |- * by done.
  pose proof (compress_and_write_oversized cs cap _ Hcs Hd Hcap cb p level s vmdk Hi) as Hrun. cbv zeta in Hrun.
  unfold split_original in Hrun.
  destruct (compress_and_write cb cap p level cs _ _ s) as [r s']. destruct overflow_checks; [done|].
  destruct Hrun as [-> ->]. rewrite Hi. split_and!; [done|done| |].
  - destruct (reported_all_reports cb (map (fun i => i * cs)
      (seqZ 1 (zlen (split_chunks cs (concat (map virtual_disk rs))) - 1)) ++ [cap]) s) as [_ ->].
    by rewrite last_snoc.
  - apply reported_all_reports.
Qed.
End property.

Lemma split_opens_release :
  Forall2 (extent_opens (H:=disk_files) (H1:=release) (H2:=stored_flate2) (lit "/vm"))
    split_extents [sample_reader; sample_reader].
Proof.
  repeat (apply List.Forall2_cons || apply List.Forall2_nil);
    (split_and!; [by vm_compute|exact sample_reader_wf|]);
    (intros gi Hgi; assert (Hc : gi = 0 \/ gi = 1 \/ gi = 2) by (change (0 <= gi < 3) in Hgi; lia);
     destruct Hc as [->|[->| ->]]; eexists; split; vm_compute; reflexivity).
Qed.

(** Six sectors whose descriptor counts one, in chunks of 1000 bytes. *)
Lemma split_larger_than_capacity_witness :
  let run profile := process_split_sparse_disk (H:=disk_files) (H1:=profile) (H2:=stored_flate2) (H3:=backwards)
    true split_extents (lit "/vm") 512 disk_pipeline 6 1000 idle in
  fst (run debug) = Panic /\
  is_ok (fst (run release)) = true /\
  map ep_bytes_processed (es_reports (snd (run release))) = [1000; 2000; 3000; 512].
Proof.
  cbv zeta. split.
  - pose proof (split_larger_than_capacity (H:=disk_files) (H2:=debug) (H4:=stored_flate2_laws)
      (H6:=backwards_laws) true split_extents (lit "/vm") disk_pipeline 6 1000 [sample_reader; sample_reader] 512 idle
      split_opens) as Hd. cbv zeta in Hd.
    destruct (process_split_sparse_disk _ _ _ _ _ _ _ _) as [r s']. apply Hd; [lia|by vm_compute|by vm_compute].
  - pose proof (split_larger_than_capacity (H:=disk_files) (H2:=release) (H4:=stored_flate2_laws)
      (H6:=backwards_laws) true split_extents (lit "/vm") disk_pipeline 6 1000 [sample_reader; sample_reader] 512 idle
      split_opens_release) as Hd. cbv zeta in Hd.
    destruct (process_split_sparse_disk _ _ _ _ _ _ _ _) as [r s'].
    destruct Hd as (_ & Hok & _ & Hr); [lia|by vm_compute|by vm_compute|]. split; [exact Hok|].
    cbn [snd]. rewrite Hr. vm_compute. reflexivity.
Defined.
