(* ===== verification/ExportDeviceSpec.v ===== *)
(** * ExportDeviceSpec: exporting to a device that fills up

    An export is compared with the same export to a writer that takes
    everything: whatever the device, it receives a prefix of that archive, and
    the export succeeds only with all of it. *)
From S2P Require Export ExportFailSpec.

(** ** Two writers in step

    [sync w c]: the writer is sound and holds [c]; [cut a b]: a device holds
    [a] when it failed, where the other writer holds [b]. *)

Section lockstep.
  Context `{WriteLaws W} `{InfallibleWrite V}.
  Context (sync : W -> bytes -> Prop) (cut : bytes -> bytes -> Prop) (w0 : W).
  Hypothesis cut_app : forall a b c, cut a b -> cut a (b ++ c).
  Hypothesis write_all_sync : forall b w c r w', sync w c -> write_all b w = (r, w') ->
    (r = Ok tt /\ sync w' (c ++ b)) \/ (exists e, r = Err e /\ cut (contents w') (c ++ b)).

Definition ova_sync (s : OvaWriter W) (t : OvaWriter V) : Prop :=
  sync (ow_writer s) (contents (ow_writer t)) /\ wf_writer (ow_writer t) /\
  ow_entries s = ow_entries t /\ ow_current_position s = ow_current_position t.

(** An action that only appends. *)
Definition appends {A} (n : M (OvaWriter V) Error A) : Prop :=
  forall t, wf_writer (ow_writer t) ->
    wf_writer (ow_writer (snd (n t))) /\
    exists c, contents (ow_writer (snd (n t))) = contents (ow_writer t) ++ c.

(** The device fails where the other writer goes on. *)
Definition cut_off {A} (m : M (OvaWriter W) Error A) (n : M (OvaWriter V) Error A) s t : Prop :=
  exists e, fst (m s) = Err (Error.ova e) /\
    cut (contents (ow_writer (snd (m s)))) (contents (ow_writer (snd (n t)))).

Definition lockstep {A} (m : M (OvaWriter W) Error A) (n : M (OvaWriter V) Error A) : Prop :=
  appends n /\
  forall s t, ova_sync s t ->
    (fst (m s) = fst (n t) /\ ova_sync (snd (m s)) (snd (n t))) \/ cut_off m n s t.

Lemma appends_bind {A B} (n : M (OvaWriter V) Error A) (g : A -> M (OvaWriter V) Error B) :
  appends n -> (forall a, appends (g a)) -> appends (n ≫= g).
Proof.
  intros Hn Hg t Ht. specialize (Hn t Ht) as [Hw [c Hc]]. unfold mbind, M_bind.
  destruct (n t) as [[a|e| |] t1]; cbn in *; eauto.
  destruct (Hg a t1 Hw) as [Hw2 [c2 Hc2]]. split; [done|]. exists (c ++ c2). by rewrite Hc2, Hc, app_assoc.
Qed.

Lemma lockstep_bind {A B} m n (f : A -> M (OvaWriter W) Error B) (g : A -> M (OvaWriter V) Error B) :
  lockstep m n -> (forall a, lockstep (f a) (g a)) -> lockstep (m ≫= f) (n ≫= g).
Proof.
  intros [Hn Hmn] Hfg. split; [by apply appends_bind; [|intros a; apply Hfg]|].
  intros s t Hst. specialize (Hmn s t Hst). specialize (Hn t ltac:(apply Hst)) as [Hw1 _].
  revert Hmn Hw1. unfold cut_off, mbind, M_bind. destruct (m s) as [r s1], (n t) as [q t1]. cbn [fst snd].
  intros [[-> Hst1]|(e & -> & Hc)] Hw1.
  - destruct q as [a|e| |]; [|by left..]. exact (proj2 (Hfg a) s1 t1 Hst1).
  - right. exists e. split; [done|]. destruct q as [a| | |]; cbn [snd]; try done.
    destruct (proj1 (Hfg a) t1 Hw1) as [_ [c ->]]. by apply cut_app.
Qed.

Lemma lockstep_get {A} (f : OvaWriter W -> M (OvaWriter W) Error A) (g : OvaWriter V -> M (OvaWriter V) Error A) :
  (forall s t, ow_entries s = ow_entries t -> lockstep (f s) (g t)) ->
  lockstep (Write.get ≫= f) (Write.get ≫= g).
Proof.
  intros Hfg. split.
  - intros t Ht. exact (proj1 (Hfg (Build_OvaWriter w0 (ow_entries t) 0) t eq_refl) t Ht).
  - intros s t Hst. exact (proj2 (Hfg s t (proj1 (proj2 (proj2 Hst)))) s t Hst).
Qed.

Lemma lockstep_lift {A} (r : Result A) : lockstep (lift r) (lift r).
Proof. split; [intros t Ht; split; [done|exists []; by rewrite app_nil_r]|intros s t Hst; by left]. Qed.

Lemma lockstep_ret {A} (a : A) : lockstep (mret a) (mret a).
Proof. exact (lockstep_lift (Ok a)). Qed.

Lemma lockstep_advance k : lockstep (ow_advance k) (ow_advance k).
Proof.
  split; [intros t Ht; split; [done|exists []; by rewrite app_nil_r]|].
  intros s t (Hs & Hw & He & Hp). left. split; [done|]. unfold ova_sync. cbn. by rewrite Hp.
Qed.

Lemma lockstep_push e : lockstep (ow_push e) (ow_push e).
Proof.
  split; [intros t Ht; split; [done|exists []; by rewrite app_nil_r]|].
  intros s t (Hs & Hw & He & Hp). left. split; [done|]. unfold ova_sync. cbn. by rewrite He.
Qed.

Lemma lockstep_write_all msg b : lockstep (ow_write_all msg b) (ow_write_all msg b).
Proof.
  assert (HV : forall v, wf_writer v -> exists v', write_all b v = (Ok tt, v') /\ wf_writer v' /\
    contents v' = contents v ++ b).
  { intros v Hv. destruct (write_all_total b v Hv) as [v' E]. exists v'. split; [done|].
    exact (write_all_Ok _ _ _ _ Hv E). }
  unfold lockstep, appends, cut_off, ow_write_all, on_field, map_err_m. split.
  - intros t Ht. destruct (HV _ Ht) as (v' & -> & Hv' & Hc). cbn. split; [done|]. by exists b.
  - intros s t (Hs & Hw & He & Hp). destruct (HV _ Hw) as (v' & -> & Hv' & Hc).
    destruct (write_all b (ow_writer s)) as [r w'] eqn:Er. cbn.
    destruct (write_all_sync _ _ _ _ _ Hs Er) as [[-> Hs']|(e & -> & Hcut)]; cbn.
    + left. split; [done|]. unfold ova_sync. cbn. by rewrite Hc.
    + right. eexists. split; [reflexivity|]. by rewrite Hc.
Qed.
End lockstep.

Create HintDb lockstep.
#[export] Hint Resolve lockstep_lift lockstep_ret lockstep_advance lockstep_push lockstep_write_all : lockstep.

Ltac lockstep :=
  repeat first
    [ progress intros
    | match goal with |- lockstep _ _ (if ?b then _ else _) _ => destruct b end
    | match goal with |- lockstep _ _ (let '(_, _) := ?x in _) _ => destruct x end
    | solve [eauto 3 with lockstep]
    | match goal with |- lockstep _ _ (Write.get ≫= _) _ => eapply lockstep_get end
    | match goal with |- lockstep _ _ (_ ≫= _) _ => eapply lockstep_bind end ].

(** ** The archive *)

Section archive.
  Context `{WriteLaws W} `{InfallibleWrite V} `{Sha2} `{UnicodeTables}.
  Context (sync : W -> bytes -> Prop) (cut : bytes -> bytes -> Prop) (w0 : W).
  Hypothesis cut_app : forall a b c, cut a b -> cut a (b ++ c).
  Hypothesis write_all_sync : forall b w c r w', sync w c -> write_all b w = (r, w') ->
    (r = Ok tt /\ sync w' (c ++ b)) \/ (exists e, r = Err e /\ cut (contents w') (c ++ b)).

Lemma lockstep_add_file now name data :
  lockstep (W:=W) (V:=V) sync cut (add_file now name data) (add_file now name data).
Proof. unfold add_file. cbv zeta. lockstep. Qed.

Lemma lockstep_finish now : lockstep (W:=W) (V:=V) sync cut (ova_finish_body now) (ova_finish_body now).
Proof.
  unfold ova_finish_body. cbv zeta. eapply lockstep_get; [done..|]. intros s t ->. lockstep.
Qed.

(** The writing half of [export_vm], on the archive alone. *)
Fixpoint archive_disks `{Write U} (now : nat -> Z) (i : nat) (vmdk_buffers : list (str * bytes * Z))
    (disk_infos : list DiskInfo) : M (OvaWriter U) Error (list DiskInfo) :=
  match vmdk_buffers with
  | [] => mret disk_infos
  | (filename, vmdk_data, _) :: rest =>
      disk_infos ← lift (set_file_size i (zlen vmdk_data) disk_infos);
      _ ← add_file (now i) filename vmdk_data;
      archive_disks now (Datatypes.S i) rest disk_infos
  end.

Definition archive_tail `{Write U} (now : nat -> Z) (config : VmxConfig)
    (vmdk_buffers : list (str * bytes * Z)) (disk_infos : list DiskInfo) : M (OvaWriter U) Error () :=
  disk_infos ← archive_disks now 0 vmdk_buffers disk_infos;
  ovf_xml ← lift (build (OvfBuilder_new config) disk_infos);
  _ ← add_file (now (length vmdk_buffers)) (fmt (lit "{}.ovf") [sanitize_filename (vc_display_name config)])
        (utf8_encode ovf_xml);
  ova_finish_body (now (Datatypes.S (length vmdk_buffers))).

#[local] Hint Resolve lockstep_add_file lockstep_finish : lockstep.

Lemma lockstep_archive_disks now i bufs infos :
  lockstep (W:=W) (V:=V) sync cut (archive_disks now i bufs infos) (archive_disks now i bufs infos).
Proof.
  revert i infos. induction bufs as [|[[name data] cap] bufs IH]; intros i infos; cbn [archive_disks]; lockstep.
Qed.

#[local] Hint Resolve lockstep_archive_disks : lockstep.

Lemma lockstep_archive_tail now config bufs infos :
  lockstep (W:=W) (V:=V) sync cut (archive_tail now config bufs infos) (archive_tail now config bufs infos).
Proof. unfold archive_tail. lockstep. Qed.
End archive.

Section tail.
  Context `{Write U} `{Sha2} `{UnicodeTables} (now : nat -> Z).

Definition with_output (w : U) (s : export_state U) : export_state U :=
  Build_export_state (es_progress s) (es_reports s) (Some w).

Lemma write_disks_archive i bufs infos o (s : export_state U) :
  es_output s = Some (ow_writer o) ->
  write_disks now i bufs infos o s =
    (infos' ← fst (archive_disks now i bufs infos o); Ok (infos', snd (archive_disks now i bufs infos o)),
     with_output (ow_writer (snd (archive_disks now i bufs infos o))) s).
Proof.
  revert i infos o s. induction bufs as [|[[name data] cap] bufs IH]; intros i infos o s Ho;
    cbn [write_disks archive_disks].
  - unfold with_output. cbn. rewrite <- Ho. by destruct s.
  - destruct (set_file_size i (zlen data) infos) as [infos1|e| |];
      [|unfold mbind, M_bind, lift, with_output; cbn; rewrite <- Ho; by destruct s..].
    run_state. unfold on_archive. unfold mbind, M_bind.
    destruct (add_file (now i) name data o) as [[[]|e| |] o1]; try done.
    exact (IH (Datatypes.S i) infos1 o1 (with_output (ow_writer o1) s) eq_refl).
Qed.

(** The writing half of [export_vm]. *)
Definition export_tail (callback : bool) (config : VmxConfig) (bufs : list (str * bytes * Z))
    (infos : list DiskInfo) (o : OvaWriter U) : M (export_state U) Error () :=
  '(infos, o) ← write_disks now 0 bufs infos o;
  _ ← set_progress (with_phase Finalizing);
  _ ← report callback;
  ovf_xml ← lift (build (OvfBuilder_new config) infos);
  let ovf_filename := fmt (lit "{}.ovf") [sanitize_filename (vc_display_name config)] in
  o ← on_archive (add_file (now (length bufs)) ovf_filename (utf8_encode ovf_xml)) o;
  _ ← on_archive (ova_finish_body (now (Datatypes.S (length bufs)))) o;
  _ ← set_progress (with_phase Complete);
  _ ← set_progress (fun p => with_bytes_processed (ep_bytes_total p) p);
  report callback.

Lemma export_tail_archive cb config bufs infos o (s : export_state U) :
  es_output s = Some (ow_writer o) ->
  let '(r, o') := archive_tail now config bufs infos o in
  fst (export_tail cb config bufs infos o s) = r /\
  es_output (snd (export_tail cb config bufs infos o s)) = Some (ow_writer o').
Proof.
  intros Ho. unfold export_tail, archive_tail, on_archive, mbind, M_bind, lift, set_progress, report, modify.
  rewrite write_disks_archive by done.
  destruct (archive_disks now 0 bufs infos o) as [[infos1|e| |] o1]; cbn [fst snd mbind outcome_bind]; try done.
  destruct (build (OvfBuilder_new config) infos1) as [xml|e| |]; cbn [fst snd es_output]; try done.
  destruct (add_file _ _ _ o1) as [[[]|e| |] o2]; cbn [fst snd mbind outcome_bind es_output]; try done.
  destruct (ova_finish_body _ o2) as [[[]|e| |] o3]; cbn [fst snd mbind outcome_bind es_output]; done.
Qed.
End tail.

(** ** The reading half does not see the device *)

Definition alike {W V A} (m : M (export_state W) Error A) (n : M (export_state V) Error A) : Prop :=
  forall s t, es_progress s = es_progress t -> es_reports s = es_reports t ->
    fst (m s) = fst (n t) /\ es_progress (snd (m s)) = es_progress (snd (n t)) /\
    es_reports (snd (m s)) = es_reports (snd (n t)).

Section reading.
  Context `{FileSystem} `{UnicodeTables} `{BuildProfile} `{Flate2} `{Rayon} {W V : Type}.

Lemma alike_bind {A B} m n (f : A -> M (export_state W) Error B) (g : A -> M (export_state V) Error B) :
  alike m n -> (forall a, alike (f a) (g a)) -> alike (m ≫= f) (n ≫= g).
Proof.
  intros Hmn Hfg s t Hp Hr. specialize (Hmn s t Hp Hr) as (He & Hp1 & Hr1). unfold mbind, M_bind.
  destruct (m s) as [r s1], (n t) as [q t1]. cbn [fst snd] in *. subst q.
  destruct r; cbn [fst snd]; [by apply Hfg|done..].
Qed.

Lemma alike_lift {A} (r : Result A) : alike (W:=W) (V:=V) (lift r) (lift r).
Proof. done. Qed.

Lemma alike_ret {A} (a : A) : alike (W:=W) (V:=V) (mret a) (mret a).
Proof. done. Qed.

Lemma alike_set_progress f : alike (W:=W) (V:=V) (set_progress f) (set_progress f).
Proof. intros s t Hp Hr. cbn. by rewrite Hp. Qed.

Lemma alike_report cb : alike (W:=W) (V:=V) (report cb) (report cb).
Proof. intros s t Hp Hr. cbn. by rewrite Hp, Hr. Qed.
End reading.

Create HintDb alike.
#[export] Hint Resolve alike_lift alike_ret alike_set_progress alike_report : alike.

Ltac alike :=
  repeat first
    [ progress intros
    | match goal with |- alike (let '(_, _) := ?x in _) _ => destruct x end
    | solve [auto 2 with alike]
    | match goal with |- alike (_ ≫= _) _ => eapply alike_bind end ].

Section reads.
  Context `{FileSystem} `{UnicodeTables} `{BuildProfile} `{Flate2} `{Rayon} {W V : Type}.

Lemma alike_write_chunks cb cs original idx n l w :
  alike (W:=W) (V:=V) (write_chunks cb cs original idx n l w) (write_chunks cb cs original idx n l w).
Proof. revert idx n w. induction l as [|c l IH]; intros idx n w; cbn [write_chunks]; cbv zeta; alike. Qed.

#[local] Hint Resolve alike_write_chunks : alike.

Lemma alike_compress_and_write cb cap (p : Pipeline) level cs original chunks :
  alike (W:=W) (V:=V) (compress_and_write cb cap p level cs original chunks)
    (compress_and_write cb cap p level cs original chunks).
Proof. unfold compress_and_write. alike. Qed.

#[local] Hint Resolve alike_compress_and_write : alike.

Lemma alike_compress_disk cb (p : Pipeline) level cs t :
  alike (W:=W) (V:=V) (compress_disk cb p level cs t) (compress_disk cb p level cs t).
Proof.
  destruct t; cbn [compress_disk]; unfold process_sparse_disk, process_disk, process_split_sparse_disk; cbv zeta; alike.
Qed.

#[local] Hint Resolve alike_compress_disk : alike.

Lemma alike_compress_disks cb options (p : Pipeline) dir k disks infos bufs :
  alike (W:=W) (V:=V) (compress_disks cb options p dir k disks infos bufs)
    (compress_disks cb options p dir k disks infos bufs).
Proof.
  revert k infos bufs. induction disks as [|c disks IH]; intros k infos bufs; cbn [compress_disks]; cbv zeta; alike.
Qed.
End reads.

(** ** The export *)

Section export.
  Context `{FileSystem} `{UnicodeTables} `{BuildProfile} `{Flate2} `{Rayon} `{WriteLaws W} `{InfallibleWrite V}.
  Context `{Sha2} `{HashOrder}.
  Context (sync : W -> bytes -> Prop) (cut : bytes -> bytes -> Prop).
  Hypothesis cut_app : forall a b c, cut a b -> cut a (b ++ c).
  Hypothesis write_all_sync : forall b w c r w', sync w c -> write_all b w = (r, w') ->
    (r = Ok tt /\ sync w' (c ++ b)) \/ (exists e, r = Err e /\ cut (contents w') (c ++ b)).

(** A successful export to [v] tells what one to [w] does. *)
Lemma export_in_step (w : W) (v : V) now cb vmx_path output_path options
    (s : export_state W) (t : export_state V) t' :
  sync w (contents v) -> wf_writer v ->
  es_progress s = es_progress t -> es_reports s = es_reports t ->
  export_vm (fun _ => Ok v) now cb vmx_path output_path options t = (Ok tt, t') ->
  exists v' w', es_output t' = Some v' /\
    es_output (snd (export_vm (fun _ => Ok w) now cb vmx_path output_path options s)) = Some w' /\
    let r := fst (export_vm (fun _ => Ok w) now cb vmx_path output_path options s) in
    ((r = Ok tt /\ sync w' (contents v')) \/
     (exists e, r = Err (Error.ova e) /\ cut (contents w') (contents v'))).
Proof.
  intros Hw Hv Hp Hr E. unfold export_vm in E |- *.
  apply M_bind_Ok in E as (config & t1 & E1 & E). injection E1 as E1 <-. rewrite E1. run_state.
  apply M_bind_Ok in E as (dir & t1 & E2 & E). injection E2 as E2 <-. rewrite E2. run_state.
  apply M_bind_Ok in E as (total & t1 & E3 & E). injection E3 as E3 <-. rewrite E3. cbv zeta in E |- *. run_state.
  apply M_bind_Ok in E as (? & t1 & E4 & E). injection E4 as _ <-.
  apply M_bind_Ok in E as ([] & t2 & E4 & E). injection E4 as <-.
  apply M_bind_Ok in E as (p & t2 & E4 & E). injection E4 as E4 <-. rewrite E4. cbn [map_err] in E |- *. run_state.
  apply M_bind_Ok in E as (v1 & t2 & E5 & E). injection E5 as <- <-.
  apply M_bind_Ok in E as ([] & t2 & E5 & E). injection E5 as <-.
  apply M_bind_Ok in E as (o & t2 & E5 & E). injection E5 as <- <-. unfold OvaWriter_new. run_state.
  apply M_bind_Ok in E as ([infos bufs] & t3 & E5 & E).
  match type of E5 with compress_disks _ _ _ _ _ _ _ _ ?tv = _ =>
    match goal with |- context [(compress_disks ?a ?b ?c ?d ?e ?f ?g ?h ≫= _) ?sw] =>
      destruct (alike_compress_disks (W:=W) (V:=V) a b c d e f g h sw tv) as (Hres & _ & _);
        [reflexivity|cbn; by rewrite Hr|];
      pose proof (keeps_compress_disks (W:=W) a b c d e f g h sw) as Hs3;
      pose proof (keeps_compress_disks (W:=V) a b c d e f g h tv) as Ht3;
      destruct (compress_disks (W:=W) a b c d e f g h sw) as [r s3] eqn:E6
    end end.
  rewrite E5 in Hres, Ht3. cbn [fst snd es_output] in Hres, Hs3, Ht3. subst r.
  rewrite (M_bind_step _ _ _ _ _ E6). clear E6 E5. run_state.
  apply M_bind_Ok in E as ([] & t4 & E7 & E). injection E7 as <-.
  apply M_bind_Ok in E as ([] & t4 & E7 & E). injection E7 as <-.
  match goal with |- context [fst ((write_disks now 0 bufs infos ?ow ≫= ?k) ?sw)] =>
    change ((write_disks now 0 bufs infos ow ≫= k) sw) with (export_tail now cb config bufs infos ow sw);
    pose proof (export_tail_archive now cb config bufs infos ow sw Hs3) as HW;
    set (ow' := ow) in *; set (sw' := sw) in * end.
  match type of E with ((write_disks now 0 bufs infos ?ov ≫= ?k) ?tv) = _ =>
    change (export_tail now cb config bufs infos ov tv = (Ok tt, t')) in E;
    pose proof (export_tail_archive now cb config bufs infos ov tv Ht3) as HV; rewrite E in HV;
    set (ov' := ov) in * end.
  destruct (lockstep_archive_tail sync cut w cut_app write_all_sync now config bufs infos) as [_ Hl].
  assert (Ho : ova_sync sync ow' ov') by (split_and!; done). specialize (Hl _ _ Ho). unfold cut_off in Hl.
  destruct (archive_tail (U:=W) now config bufs infos ow') as [rW oW].
  destruct (archive_tail (U:=V) now config bufs infos ov') as [rV oV].
  destruct HW as [HrW HoW], HV as [HrV HoV]. cbn [fst snd] in *. subst rV.
  exists (ow_writer oV), (ow_writer oW). split_and!; [done|done|]. cbv zeta. rewrite HrW.
  destruct Hl as [[-> Hs]|(e & -> & Hc)]; [left|right; by exists e]. split; [done|]. apply Hs.
Qed.
End export.

(** ** A device with limited room *)

Definition disk_holds (room : Z) (d : Disk) (c : bytes) : Prop :=
  disk_data d = c /\ disk_room d = room - zlen c /\ 0 <= disk_room d /\ 0 < disk_burst d.

Definition cut_at (room : Z) (a b : bytes) : Prop := room < zlen b /\ a = ztake room b.

Lemma cut_at_app room a b c : 0 <= room -> cut_at room a b -> cut_at room a (b ++ c).
Proof.
  unfold cut_at. intros Hr [Hlt ->]. rewrite zlen_app. pose proof (zlen_nonneg c).
  split; [lia|]. by rewrite ztake_app_le by lia.
Qed.

Lemma disk_write_rounds room fuel b d c r d' :
  (length b <= fuel)%nat -> disk_holds room d c -> write_all_rounds fuel b d = (r, d') ->
  (r = Ok tt /\ disk_holds room d' (c ++ b)) \/ (exists e, r = Err e /\ cut_at room (disk_data d') (c ++ b)).
Proof.
  revert b d c. induction fuel as [|fuel IH]; intros [|x b] d c Hf Hd; cbn in Hf; cbn [write_all_rounds];
    try lia; try (intros [= <- <-]; left; by rewrite app_nil_r).
  set (buf := x :: b) in *. destruct Hd as (Hdata & Hroom & Hpos & Hburst).
  assert (Hbuf : 0 < zlen buf) by (unfold buf; rewrite zlen_cons; pose proof (zlen_nonneg b); lia).
  unfold mbind, M_bind. cbn [write Write_Disk]. destruct (Z.leb_spec (disk_room d) 0).
  - intros [= <- <-]. right. eexists. split; [done|]. unfold cut_at. rewrite zlen_app, Hdata. split; [lia|].
    assert (room = zlen c) as -> by lia. rewrite ztake_app_le by lia. by rewrite ztake_all by lia.
  - set (n := Z.min (zlen buf) (Z.min (disk_room d) (disk_burst d))). destruct (Z.eqb_spec n 0); [lia|].
    destruct (Z.ltb_spec (zlen buf) n); [lia|]. intros Hr.
    assert (E : c ++ buf = (c ++ ztake n buf) ++ zdrop n buf) by (by rewrite <- app_assoc, ztake_zdrop).
    rewrite E. revert Hr. apply IH.
    + unfold zdrop. rewrite length_drop. unfold buf. cbn [length]. lia.
    + unfold disk_holds. cbn. rewrite Hdata, zlen_app, zlen_ztake. split_and!; [done|lia|lia|done].
Qed.

Lemma disk_write_all room b d c r d' :
  disk_holds room d c -> write_all b d = (r, d') ->
  (r = Ok tt /\ disk_holds room d' (c ++ b)) \/ (exists e, r = Err e /\ cut_at room (contents d') (c ++ b)).
Proof. by apply disk_write_rounds. Qed.

(** Any writer that keeps its word. *)
Lemma lawful_write_all `{WriteLaws W} b w c r w' :
  wf_writer w /\ contents w = c -> write_all b w = (r, w') ->
  (r = Ok tt /\ wf_writer w' /\ contents w' = c ++ b) \/ (exists e, r = Err e /\ contents w' `prefix_of` c ++ b).
Proof.
  intros [Hw <-] Hr. destruct (write_all_prefix _ _ _ _ Hw Hr) as (Hw' & Hret & k & Hk & Hc & Hok).
  destruct r as [[]|e| |]; [|right|done|done].
  - left. rewrite Hc, Hok, ztake_all by done. done.
  - exists e. split; [done|]. rewrite Hc. apply prefix_app. exists (zdrop k b). by rewrite ztake_zdrop.
Qed.

Section device.
  Context `{FileSystem} `{UnicodeTables} `{BuildProfile} `{Flate2} `{Rayon} `{Sha2} `{HashOrder}.

(** Whatever the writer, as long as it keeps its word, it receives a prefix of
    the archive, and the export succeeds only with all of it. *)
Lemma export_output_prefix `{WriteLaws W} (w : W) now cb vmx_path output_path options t t' a :
  wf_writer w -> contents w = [] ->
  export_vm (fun _ => Ok cursor_new) now cb vmx_path output_path options t = (Ok tt, t') ->
  es_output t' = Some a ->
  let s := Build_export_state (es_progress t) (es_reports t) None in
  let '(r, s') := export_vm (fun _ => Ok w) now cb vmx_path output_path options s in
  exists w', es_output s' = Some w' /\ contents w' `prefix_of` cursor_buf a /\
    (r = Ok tt -> contents w' = cursor_buf a).
Proof.
  intros Hw Hc E Ha. cbv zeta.
  destruct (export_in_step (W:=W) (V:=Cursor) (fun w c => wf_writer w /\ contents w = c) prefix
    (fun a b c => prefix_app_r a b c) lawful_write_all w cursor_new now cb vmx_path output_path
    options (Build_export_state (es_progress t) (es_reports t) None) t t') as (v & w' & Hv & Hw' & Hr);
    [by rewrite Hc|done..|].
  rewrite Ha in Hv. injection Hv as <-. cbn [contents WriteLaws_Cursor] in Hr.
  destruct (export_vm (W:=W) _ _ _ _ _ _ _) as [r s']. cbn [fst snd] in *. cbv zeta in Hr.
  exists w'. destruct Hr as [[-> [_ Hcw]]|(e & -> & Hp)]; split_and!; try done.
  by rewrite Hcw.
Qed.

(** C20: an export to a device that fills up.  When an export would succeed with
    the archive [a], the same export to a device with [room] bytes, which may
    take them in bursts of any size, leaves the first [room] bytes of [a] on
    the device; it succeeds when [a] fits, and returns an OVA error when it
    does not.  The partial file stays. *)
Theorem full_device_cuts_archive now cb vmx_path output_path options room burst t t' a :
  0 <= room -> 0 < burst ->
  export_vm (fun _ => Ok cursor_new) now cb vmx_path output_path options t = (Ok tt, t') ->
  es_output t' = Some a ->
  let device := {| disk_data := []; disk_room := room; disk_burst := burst |} in
  let s := Build_export_state (es_progress t) (es_reports t) None in
  let '(r, s') := export_vm (fun _ => Ok device) now cb vmx_path output_path options s in
  (exists d, es_output s' = Some d /\ disk_data d = ztake room (cursor_buf a)) /\
  (if zlen (cursor_buf a) <=? room then r = Ok tt else exists message, r = Err (Error.ova message)).
Proof.
  intros Hroom Hburst E Ha. cbv zeta.
  destruct (export_in_step (W:=Disk) (V:=Cursor) (disk_holds room) (cut_at room)
    (fun a b c => cut_at_app room a b c Hroom) (disk_write_all room)
    {| disk_data := []; disk_room := room; disk_burst := burst |} cursor_new now cb vmx_path output_path
    options (Build_export_state (es_progress t) (es_reports t) None) t t') as (v & w & Hv & Hw & Hr); [|done..|].
  { unfold disk_holds. cbn. change (zlen (@nil Z)) with 0. split_and!; [done|lia|lia|done]. }
  rewrite Ha in Hv. injection Hv as <-. cbn [contents WriteLaws_Cursor WriteLaws_Disk] in Hr.
  destruct (export_vm (W:=Disk) _ _ _ _ _ _ _) as [r s']. cbn [fst snd] in *. cbv zeta in Hr.
  destruct Hr as [[-> (Hd & Hrm & Hpos & _)]|(e & -> & Hlt & Hd)]; (split; [exists w; split; [done|]|]).
  - rewrite Hd, ztake_all by lia. done.
  - destruct (Z.leb_spec (zlen (cursor_buf a)) room); [done|lia].
  - done.
  - destruct (Z.leb_spec (zlen (cursor_buf a)) room); [lia|by eexists].
Qed.
End device.

(** The sample machine, exported to a device with room for 5000 bytes. *)
Definition machine_run : Result () * export_state Cursor :=
  export_vm (H:=machine_files) (H0:=ascii_tables) (H1:=debug) (H2:=stored_flate2) (H3:=backwards)
    (H5:=sum_sha2) (H6:=key_order) machine_create machine_clock true (lit "/vm/my.vmx") (lit "out.ova")
    machine_options idle.

Definition small_device : Disk := {| disk_data := []; disk_room := 5000; disk_burst := 700 |}.

Lemma full_device_cuts_archive_witness :
  exists message d,
    let '(r, s') := export_vm (H:=machine_files) (H0:=ascii_tables) (H1:=debug) (H2:=stored_flate2) (H3:=backwards)
      (H5:=sum_sha2) (H6:=key_order) (fun _ => Ok small_device) machine_clock true (lit "/vm/my.vmx")
      (lit "out.ova") machine_options {| es_progress := es_progress idle; es_reports := []; es_output := None |} in
    r = Err (Error.ova message) /\ es_output s' = Some d /\ zlen (disk_data d) = 5000.
Proof.
  assert (E1 : fst machine_run = Ok tt) by (vm_compute; reflexivity).
  assert (E2 : match es_output (snd machine_run) with Some a => 5000 <? zlen (cursor_buf a) | None => false end = true)
    by (vm_compute; reflexivity).
  destruct machine_run as [r0 t'] eqn:E. cbn [fst snd] in E1, E2. subst r0.
  destruct (es_output t') as [a|] eqn:Ha; [|discriminate]. apply Z.ltb_lt in E2.
  pose proof (full_device_cuts_archive (H:=machine_files) (H0:=ascii_tables) (H1:=debug) (H2:=stored_flate2)
    (H3:=backwards) (H4:=sum_sha2) (H5:=key_order) machine_clock true (lit "/vm/my.vmx") (lit "out.ova")
    machine_options 5000 700 idle t' a ltac:(lia) ltac:(lia) E Ha) as Hd.
  cbv zeta in Hd. revert Hd. destruct (Z.leb_spec (zlen (cursor_buf a)) 5000); [lia|].
  destruct (export_vm (W:=Disk) _ _ _ _ _ _ _) as [r s'].
  intros [(d & Hs & Hd) [m ->]]. exists m, d. split; [done|]. split; [exact Hs|].
  rewrite Hd, zlen_ztake. lia.
Defined.
