(* ===== verification/ExportEndsSpec.v ===== *)
(** * ExportEndsSpec: every export comes to an end

    With a chunk size that is not zero, [export_vm] stops on any files
    whatever: broken headers, wrong sizes and failing outputs lead to a value,
    an error or a panic, never to a loop without end. *)
From S2P Require Export ExportVmSpec DescriptorSpec.

(** ** Calls that come to an end *)

Definition ends {E A} (r : outcome E A) : Prop :=
  match r with Diverge => False | _ => True end.

Lemma returns_ends {E A} (r : outcome E A) : returns r -> ends r.
Proof. by destruct r. Qed.

Lemma ends_bind {E A B} (m : outcome E A) (f : A -> outcome E B) :
  ends m -> (forall a, m = Ok a -> ends (f a)) -> ends (m ≫= f).
Proof. destruct m as [a|e| |]; cbn; intros Hm Hf; try done. by apply Hf. Qed.

Lemma ends_map_err {E E' A} (f : E -> E') (m : outcome E A) : ends m -> ends (map_err f m).
Proof. by destruct m. Qed.

Lemma ends_mapM {E A B} (f : A -> outcome E B) l : (forall a, ends (f a)) -> ends (mapM f l).
Proof.
  intros Hf. induction l as [|a l IH]; [done|]. cbn [mapM]. apply ends_bind; [apply Hf|]. intros b _.
  apply ends_bind; [exact IH|done].
Qed.

Lemma ends_collect {E A} (l : list (outcome E A)) : Forall ends l -> ends (collect l).
Proof.
  induction 1 as [|m l Hm _ IH]; [done|]. cbn [collect]. apply ends_bind; [exact Hm|]. intros a _.
  apply ends_bind; [exact IH|done].
Qed.

Create HintDb ends.
#[export] Hint Resolve returns_ends ends_map_err ends_mapM : ends.

(** Splits a computation into its calls. *)
Ltac ends_step :=
  match goal with
  | |- ends (_ ≫= _) => apply ends_bind; [|intros ? ?]
  | |- ends (if ?b then _ else _) => destruct b eqn:?
  | |- ends (match ?x with _ => _ end) => destruct x eqn:?
  | |- ends (Ok _) => exact I
  | |- ends (Err _) => exact I
  | |- ends Panic => exact I
  | |- ends (map_err _ _) => apply ends_map_err
  | |- ends (mapM _ _) => apply ends_mapM; intros ?
  | |- ends _ => solve [auto 3 with ends]
  end.
Ltac ends := cbv zeta; repeat ends_step.

Section pure.
  Context `{FileSystem} `{!MmapLaws} `{UnicodeTables} `{BuildProfile} `{Flate2Laws}.

Lemma ends_checked {E} bits n : ends (checked bits n : outcome E Z).
Proof. unfold checked. ends. Qed.

Lemma ends_div {E} a b : ends (div_u64 a b : outcome E Z).
Proof. unfold div_u64. ends. Qed.

Lemma ends_rem {E} a b : ends (rem_u64 a b : outcome E Z).
Proof. unfold rem_u64. ends. Qed.

Lemma ends_read_slice {E} a b (l : bytes) : ends (read_slice a b l : outcome E bytes).
Proof. unfold read_slice. ends. Qed.

Lemma ends_read_le {E} n off (l : bytes) : ends (read_le n off l : outcome E Z).
Proof. unfold read_le. ends. Qed.

Lemma ends_file_open path : ends (file_open path).
Proof.
  unfold file_open. destruct (fs_node_at path) as [[b [e|]]|]; exact I.
Qed.
End pure.
#[export] Hint Resolve ends_checked ends_div ends_rem ends_read_slice ends_read_le ends_file_open : ends.
#[export] Hint Extern 1 (ends (add_u64 _ _)) => apply ends_checked : ends.
#[export] Hint Extern 1 (ends (sub_u64 _ _)) => apply ends_checked : ends.
#[export] Hint Extern 1 (ends (mul_u64 _ _)) => apply ends_checked : ends.

Section readers.
  Context `{FileSystem} `{!MmapLaws} `{UnicodeTables} `{BuildProfile} `{Flate2Laws}.

Lemma ends_sparse_open path : ends (SparseVmdkReader_open path).
Proof.
  unfold SparseVmdkReader_open. ends. { by rewrite mmap_faithful. }
  unfold SparseVmdkReader_from_mmap, SparseHeader_from_bytes, num_gd_entries. ends.
Qed.

Lemma ends_is_sparse path : ends (is_sparse_vmdk path).
Proof. unfold is_sparse_vmdk. ends. Qed.

Lemma ends_read_grain r g : ends (read_grain r g).
Proof.
  unfold read_grain, svr_grain_size_bytes, read_compressed_grain. ends.
  match goal with |- ends (inflate ?n ?c) => pose proof (inflate_exact n c) as Hi; by destruct (inflate n c) end.
Qed.
#[local] Hint Resolve ends_read_grain : ends.

(** A round of the loop takes at least a byte. *)
Lemma ends_read_chunk_loop fuel r off len g br data :
  0 <= g -> len - br <= Z.of_nat fuel -> ends (read_chunk_loop fuel r off len g br data).
Proof.
  intros Hg. revert br data. induction fuel as [|f IH]; intros br data Hf; cbn [read_chunk_loop];
    destruct (Z.leb_spec len br); try exact I; [lia|]. cbv zeta.
  apply ends_bind; [auto with ends|]. intros gi Hgi. apply ends_bind; [auto with ends|]. intros o Ho.
  apply ends_bind; [auto with ends|]. intros gd _. apply ends_bind; [auto with ends|]. intros part _.
  apply IH. unfold rem_u64 in Ho. destruct (Z.eqb_spec g 0); [done|]. injection Ho as <-.
  pose proof (Z.mod_pos_bound (off + br) g). lia.
Qed.

Lemma ends_sparse_next r cs off :
  0 < cs ->
  SparseChunkIterator_next (sci_at r cs off) =
    (if capacity r <=? off then (Ok None, sci_at r cs off) else
     let len := Z.min (capacity r - off) cs in
     match (g ← svr_grain_size_bytes r; read_chunk_loop (Z.to_nat len) r off len g 0 []) with
     | Ok d => (Ok (Some d), sci_at r cs (off + len))
     | Err e => (Err e, sci_at r cs off)
     | Panic => (Panic, sci_at r cs off)
     | Diverge => (Diverge, sci_at r cs off)
     end) /\
  ends (g ← svr_grain_size_bytes r;
        read_chunk_loop (Z.to_nat (Z.min (capacity r - off) cs)) r off (Z.min (capacity r - off) cs) g 0 []).
Proof.
  intros Hcs. split.
  - unfold SparseChunkIterator_next. rewrite (M_bind_step Write.get _ _ (sci_at r cs off) _ eq_refl). cbv zeta.
    cbn [sci_at sci_reader sci_current_offset sci_chunk_size]. unfold capacity.
    destruct (svr_capacity_bytes r <=? off); [done|]. unfold mbind, M_bind, lift, outcome_bind.
    destruct (svr_grain_size_bytes r) as [g|e| |]; [|done..]. by destruct (read_chunk_loop _ _ _ _ _ _ _).
  - apply ends_bind; [apply ends_checked|]. intros g Hg%checked_range; [|lia]. unfold is_u in Hg.
    apply ends_read_chunk_loop; lia.
Qed.

Lemma ends_drain_sparse fuel r cs off :
  0 < cs -> capacity r - off <= Z.of_nat fuel ->
  ends (drain_from (S fuel) SparseChunkIterator_next (sci_at r cs off)).
Proof.
  intros Hcs. revert off. induction fuel as [|f IH]; intros off Hf; rewrite drain_from_S;
    destruct (ends_sparse_next r cs off Hcs) as [-> He]; destruct (Z.leb_spec (capacity r) off); try exact I; [lia|].
  cbv zeta. destruct (svr_grain_size_bytes r ≫= _) as [d|e| |]; try exact I; [|done].
  specialize (IH (off + Z.min (capacity r - off) cs) ltac:(lia)).
  by destruct (drain_from (S f) SparseChunkIterator_next (sci_at r cs (off + Z.min (capacity r - off) cs))).
Qed.

Lemma ends_drain_full fuel cs all_chunks partial :
  0 < cs -> zlen partial <= Z.of_nat fuel -> ends (drain_full fuel cs all_chunks partial).
Proof.
  intros Hcs Hf. destruct (drain_full_merges fuel cs [] partial partial Hcs eq_refl (List.Forall_nil _) Hf)
    as (a & p & E & _).
  clear E a p. revert all_chunks partial Hf. induction fuel as [|f IH]; intros all_chunks partial Hf;
    cbn [drain_full]; destruct (Z.leb_spec cs (zlen partial)); try exact I; [lia|].
  apply IH. rewrite zlen_zdrop. lia.
Qed.

Lemma ends_absorb cs all_chunks partial chunk : 0 < cs -> ends (absorb cs all_chunks partial chunk).
Proof. intros Hcs. unfold absorb. ends. apply ends_drain_full; [done|unfold zlen; lia]. Qed.

Lemma ends_extent_chunks fuel cs r off all_chunks partial :
  0 < cs -> capacity r - off <= Z.of_nat fuel ->
  ends (extent_chunks (S fuel) cs (sci_at r cs off) all_chunks partial).
Proof.
  intros Hcs. revert off all_chunks partial. induction fuel as [|f IH]; intros off all_chunks partial Hf;
    cbn [extent_chunks]; destruct (ends_sparse_next r cs off Hcs) as [-> He];
    destruct (Z.leb_spec (capacity r) off); try exact I; [lia|].
  cbv zeta. destruct (svr_grain_size_bytes r ≫= _) as [d|e| |]; try exact I; [|done].
  cbn [mbind outcome_bind]. apply ends_bind; [by apply ends_absorb|]. intros [a p] _. apply IH. lia.
Qed.

Lemma ends_extents_chunks dir cs extents all_chunks partial :
  0 < cs -> ends (extents_chunks dir cs extents all_chunks partial).
Proof.
  intros Hcs. revert all_chunks partial. induction extents as [|e es IH]; intros all_chunks partial; [done|].
  cbn [extents_chunks]. cbv zeta. apply ends_bind; [apply ends_sparse_open|]. intros r _.
  apply ends_bind; [|intros [a p] _; apply IH].
  change (sparse_chunks r cs) with (sci_at r cs 0). apply ends_extent_chunks; [done|lia].
Qed.

Lemma ends_read_descriptor path : ends (read_descriptor path).
Proof.
  unfold read_descriptor, read_to_string. ends. apply returns_ends, descriptor_lines_returns.
Qed.

Lemma ends_sum_u64 {E} acc l : ends (sum_u64 (E:=E) acc l).
Proof. revert acc. induction l as [|x l IH]; intros acc; [done|]. cbn [sum_u64]. ends. Qed.

Lemma ends_disk_size {E} d : ends (disk_size_bytes (E:=E) d).
Proof. unfold disk_size_bytes, disk_size_sectors. ends. apply ends_sum_u64. Qed.
#[local] Hint Resolve ends_sparse_open ends_is_sparse ends_read_descriptor ends_disk_size : ends.

Lemma ends_disk_type dir path : ends (disk_type_of dir path).
Proof. unfold disk_type_of. ends. Qed.

Lemma ends_add_file_len total path : ends (add_file_len total path).
Proof. unfold add_file_len, metadata_len. ends. Qed.

Lemma ends_add_file_lens total paths : ends (add_file_lens total paths).
Proof.
  revert total. induction paths as [|path paths IH]; intros total; [done|]. cbn [add_file_lens].
  apply ends_bind; [apply ends_add_file_len|]. intros t _. apply IH.
Qed.

Lemma ends_total config dir : ends (calculate_total_disk_size config dir).
Proof.
  unfold calculate_total_disk_size. generalize 0 as total. induction (vc_disks config) as [|c l IH]; intros total; [done|].
  cbn [add_disk_sizes]. apply ends_bind; [|intros t _; apply IH].
  unfold add_disk_size. ends; [apply ends_add_file_len|apply ends_add_file_lens].
Qed.

Lemma ends_parse_vmx `{HashOrder} path : ends (parse_vmx path).
Proof. unfold parse_vmx, read_to_string, parse_vmx_content. ends. Qed.
End readers.

(** ** Actions that come to an end *)

(** From any state, the action comes to an end, and what it returns has [Q]. *)
Definition lasts {S A} (m : M S Error A) (Q : A -> Prop) : Prop :=
  forall s, match fst (m s) with Ok a => Q a | Diverge => False | _ => True end.

Definition any {A} (_ : A) : Prop := True.

Lemma lasts_bind {S A B} (m : M S Error A) (f : A -> M S Error B) Q R :
  lasts m Q -> (forall a, Q a -> lasts (f a) R) -> lasts (m ≫= f) R.
Proof.
  intros Hm Hf s. specialize (Hm s). unfold mbind, M_bind. destruct (m s) as [[a|e| |] s1]; cbn in *; try done.
  by apply Hf.
Qed.

Lemma lasts_lift {S A} (r : Result A) (Q : A -> Prop) :
  ends r -> (forall a, r = Ok a -> Q a) -> lasts (lift r : M S Error A) Q.
Proof. intros Hr Hq s. cbn. destruct r; auto. Qed.

Lemma lasts_ret {S A} (a : A) (Q : A -> Prop) : Q a -> lasts (mret a : M S Error A) Q.
Proof. by intros Hq s. Qed.

Lemma lasts_any {S A} (m : M S Error A) (Q : A -> Prop) : lasts m Q -> lasts m any.
Proof. intros Hm s. specialize (Hm s). by destruct (fst (m s)). Qed.

Lemma lasts_set_progress {W} f : lasts (set_progress (W:=W) f) any.
Proof. done. Qed.

Lemma lasts_report {W} cb : lasts (report (W:=W) cb) any.
Proof. done. Qed.

Section disks.
  Context `{FileSystem} `{!MmapLaws} `{UnicodeTables} `{BuildProfile} `{Flate2Laws} `{RayonLaws} {W : Type}.

Definition vmdk_wf (w : StreamVmdkWriter Cursor) : Prop := wf_writer (svw_writer w).

Lemma grain_comes_back lba c w : vmdk_wf w -> safe false (write_grain lba c) w.
Proof. intros Hw. by apply write_grain_safe. Qed.

Lemma finish_comes_back w : vmdk_wf w -> safe false finish_body w.
Proof. intros Hw. by apply finish_body_safe. Qed.

Lemma lasts_write_chunks cb cs original idx n l w :
  (forall i, ends (original i)) -> vmdk_wf w ->
  lasts (write_chunks (W:=W) cb cs original idx n l w) vmdk_wf.
Proof.
  intros Ho. revert idx n w. induction l as [|c l IH]; intros idx n w Hw; cbn [write_chunks].
  { by apply lasts_ret. }
  apply (lasts_bind _ _ any); [by apply lasts_lift; [apply ends_checked|]|]. intros off _. cbv zeta.
  pose proof (grain_comes_back (off / 512) c w Hw) as Hs.
  unfold safe in Hs. destruct (write_grain (off / 512) c w) as [r w1]. cbn [fst snd] in Hs. destruct Hs as [Hr Hw1].
  apply (lasts_bind _ _ vmdk_wf).
  { apply lasts_lift; [by destruct r|]. intros w2 E. destruct r; [|discriminate E..]. by injection E as <-. }
  intros w2 Hw2. apply (lasts_bind _ _ any); [by apply lasts_lift|]. intros o _.
  apply (lasts_bind _ _ any); [by apply lasts_lift; [apply ends_checked|]|]. intros n1 _.
  apply (lasts_bind _ _ any); [apply lasts_set_progress|]. intros _ _.
  apply (lasts_bind _ _ any); [apply lasts_report|]. intros _ _. by apply IH.
Qed.

Lemma lasts_compress_and_write cb cap (p : Pipeline) level cs original chunks :
  (forall i, ends (original i)) -> lasts (compress_and_write (W:=W) cb cap p level cs original chunks) any.
Proof.
  intros Ho. unfold compress_and_write. destruct (compress_all level chunks) as (cc & Hcc & _).
  rewrite (process_ok p _ (fun _ chunk => compress_grain chunk level) cc) by
    (rewrite <- Hcc; f_equal; symmetry; apply map_as_imap).
  apply (lasts_bind _ _ any); [by apply lasts_lift|]. intros compressed _.
  apply (lasts_bind _ _ vmdk_wf).
  { unfold StreamVmdkWriter_new. destruct (write_all _ cursor_new) as [r w1] eqn:Ew.
    apply write_all_prefix in Ew as (Hw1 & Hr & _); [|done].
    apply lasts_lift; [by destruct r as [[]|e| |]|]. intros w E. by destruct r as [[]|e| |]; [injection E as <-|..]. }
  intros w Hw. apply (lasts_bind _ _ vmdk_wf); [by apply lasts_write_chunks|]. intros w1 Hw1.
  apply (lasts_bind _ _ any); [|by intros; apply lasts_ret]. apply lasts_lift; [|done].
  pose proof (finish_comes_back w1 Hw1) as Hf.
  unfold safe, StreamVmdkWriter_finish in *. destruct (finish_body w1) as [r s2]. destruct Hf as [Hf _].
  cbn in Hf. by destruct r.
Qed.

Lemma lasts_compress_disk cb (p : Pipeline) level cs t :
  0 < cs -> lasts (compress_disk (W:=W) cb p level cs t) any.
Proof.
  intros Hcs. destruct t as [path cap|path cap|es dir cap]; cbn [compress_disk];
    (apply (lasts_bind _ _ any); [|by intros; apply lasts_ret]).
  - unfold process_sparse_disk. apply (lasts_bind _ _ any); [by apply lasts_lift; [apply ends_sparse_open|]|].
    intros r _. apply (lasts_bind _ _ any).
    { apply lasts_lift; [|done]. change (sparse_chunks r cs) with (sci_at r cs 0). apply ends_drain_sparse; lia. }
    intros chunks _. cbv zeta. apply lasts_compress_and_write. intros i. unfold chunk_length. ends.
  - unfold process_disk. rewrite VmdkReader_open_spec.
    pose proof (ends_file_open path) as Ho. destruct (file_open path) as [d|e| |]; [|done..].
    apply (lasts_bind _ _ (eq {| vr_mmap := d; vr_size := zlen d |})).
    { apply lasts_lift; [done|]. by intros r [= <-]. }
    intros r <-. cbv zeta. apply (lasts_bind _ _ any).
    { apply lasts_lift; [|done]. unfold collect_chunks. change (chunks _ cs) with (ci_at d cs 0).
      cbn [VmdkReader_size vr_size]. rewrite drain_chunks; [done|done|done|zlen_pos; lia]. }
    intros chunks _. apply lasts_compress_and_write. intros i. unfold chunk_length. ends.
  - unfold process_split_sparse_disk. apply (lasts_bind _ _ any).
    { apply lasts_lift; [|done]. by apply ends_extents_chunks. }
    intros [a q] _. cbv zeta. apply lasts_compress_and_write. intros i. unfold chunk_length. ends.
Qed.

Lemma lasts_compress_disks cb options (p : Pipeline) dir k disks infos bufs :
  0 < eo_chunk_size options -> lasts (compress_disks (W:=W) cb options p dir k disks infos bufs) any.
Proof.
  intros Hcs. revert k infos bufs. induction disks as [|c l IH]; intros k infos bufs; cbn [compress_disks].
  { by apply lasts_ret. }
  apply (lasts_bind _ _ any); [apply lasts_set_progress|]. intros _ _.
  apply (lasts_bind _ _ any); [apply lasts_set_progress|]. intros _ _.
  apply (lasts_bind _ _ any); [apply lasts_report|]. intros _ _. cbv zeta.
  apply (lasts_bind _ _ any); [by apply lasts_lift; [apply ends_disk_type|]|]. intros t _.
  apply (lasts_bind _ _ any); [by apply lasts_compress_disk|]. intros [v cap] _. apply IH.
Qed.
End disks.

(** ** The archive *)

Section archive.
  Context `{WriteLaws W} `{Sha2}.

(** From any archive with a sound writer, the call comes to an end and leaves
    the writer sound. *)
Definition archives {A} (m : M (OvaWriter W) Error A) : Prop :=
  forall o, wf_writer (ow_writer o) -> ends (fst (m o)) /\ wf_writer (ow_writer (snd (m o))).

Lemma archives_bind {A B} (m : M (OvaWriter W) Error A) (f : A -> M (OvaWriter W) Error B) :
  archives m -> (forall a, archives (f a)) -> archives (m ≫= f).
Proof.
  intros Hm Hf o Ho. destruct (Hm o Ho) as [He Hw]. unfold mbind, M_bind.
  destruct (m o) as [[a|e| |] o1]; cbn in *; [by apply Hf|done..].
Qed.

Lemma archives_lift {A} (r : Result A) : ends r -> archives (lift r).
Proof. by intros Hr o Ho. Qed.

Lemma archives_write_all msg b : archives (ow_write_all msg b).
Proof.
  intros o Ho. unfold ow_write_all, on_field, map_err_m. destruct (write_all b (ow_writer o)) as [r w] eqn:E.
  apply write_all_prefix in E as (Hw & Hr & _); [|done]. split; [by destruct r|exact Hw].
Qed.

Lemma archives_header now name size : archives (lift (create_tar_header now name size)).
Proof.
  apply archives_lift. unfold create_tar_header, create_tar_header_with_mtime. cbv zeta.
  assert (Hc : forall a b (src buf : bytes), ends (copy_into (E:=Error) a b src buf)).
  { intros. unfold copy_into. by destruct (_ =? _). }
  repeat (apply ends_bind; [apply Hc|intros ? _]). apply Hc.
Qed.

Ltac archive_step :=
  match goal with
  | |- archives (_ ≫= _) => apply archives_bind; [|intros ?]
  | |- archives (if ?b then _ else _) => destruct b
  | |- archives (ow_write_all _ _) => apply archives_write_all
  | |- archives (lift (create_tar_header _ _ _)) => apply archives_header
  | |- archives _ => by intros ? ?
  end.

Lemma archives_add_file now name data : archives (add_file now name data).
Proof. unfold add_file. cbv zeta. repeat archive_step. Qed.

Lemma archives_finish now : archives (ova_finish_body now).
Proof. unfold ova_finish_body. cbv zeta. repeat archive_step. Qed.

Definition ova_wf (o : OvaWriter W) : Prop := wf_writer (ow_writer o).

Lemma lasts_on_archive {A} (m : M (OvaWriter W) Error A) o :
  archives m -> ova_wf o -> lasts (on_archive m o) ova_wf.
Proof.
  intros Hm Ho s. destruct (Hm o Ho) as [He Hw]. unfold on_archive. destruct (m o) as [[a|e| |] o1]; done.
Qed.

Lemma lasts_write_disks now i bufs infos o : ova_wf o ->
  lasts (write_disks now i bufs infos o) (fun x => ova_wf (snd x)).
Proof.
  revert i infos o. induction bufs as [|[[name data] cap] l IH]; intros i infos o Ho; cbn [write_disks].
  { by apply lasts_ret. }
  apply (lasts_bind _ _ any).
  { apply lasts_lift; [|done]. unfold set_file_size. by destruct (infos !! i). }
  intros infos1 _. apply (lasts_bind _ _ ova_wf); [|by intros; apply IH].
  apply lasts_on_archive; [apply archives_add_file|done].
Qed.
End archive.

Lemma ends_build `{UnicodeTables} b disks : ends (build b disks).
Proof.
  unfold build, build_virtual_system, build_hardware_section. ends. apply ends_collect, Forall_lookup.
  intros i m (k & _ & ->)%list_lookup_imap_Some. unfold build_network_item. cbv zeta.
  by destruct (vc_networks _ !! i).
Qed.

(** ** The property *)

(** C9: with a chunk size that is not zero, every export comes to an end, in
    every build: whatever the files of the machine hold and however the writes
    to the output go, [export_vm] returns or panics, and never loops for ever. *)
Theorem export_vm_ends `{FileSystem} `{!MmapLaws} `{UnicodeTables} `{BuildProfile} `{Flate2Laws} `{RayonLaws}
    `{WriteLaws W} `{Sha2} `{HashOrder} (file_create : str -> io_result W) now cb vmx_path output_path options
    (s : export_state W) :
  0 < eo_chunk_size options ->
  match file_create output_path with Ok w => wf_writer w | Diverge => False | _ => True end ->
  ends (fst (export_vm file_create now cb vmx_path output_path options s)).
Proof.
  intros Hcs Hfile.
  enough (Hl : lasts (export_vm file_create now cb vmx_path output_path options) any).
  { specialize (Hl s). unfold ends. by destruct (fst _). }
  unfold export_vm. apply (lasts_bind _ _ any); [by apply lasts_lift; [apply ends_parse_vmx|]|]. intros config _.
  apply (lasts_bind _ _ any); [by apply lasts_lift; [destruct (path_parent vmx_path)|]|]. intros dir _.
  apply (lasts_bind _ _ any); [by apply lasts_lift; [apply ends_total|]|]. intros total _. cbv zeta.
  apply (lasts_bind _ _ any); [apply lasts_set_progress|]. intros _ _.
  apply (lasts_bind _ _ any); [apply lasts_report|]. intros _ _.
  apply (lasts_bind _ _ any); [apply lasts_lift; [unfold Pipeline_new; ends|done]|]. intros p _.
  apply (lasts_bind _ _ wf_writer).
  { apply lasts_lift; destruct (file_create output_path); try done. by intros w [= <-]. }
  intros w Hw. apply (lasts_bind _ _ any); [done|]. intros _ _.
  apply (lasts_bind _ _ ova_wf); [by apply lasts_lift; [|intros o [= <-]]|]. intros o Ho.
  apply (lasts_bind _ _ any); [by apply lasts_compress_disks|]. intros [infos bufs] _.
  apply (lasts_bind _ _ any); [apply lasts_set_progress|]. intros _ _.
  apply (lasts_bind _ _ any); [apply lasts_report|]. intros _ _.
  apply (lasts_bind _ _ (fun x => ova_wf (snd x))); [by apply lasts_write_disks|]. intros [infos1 o1] Ho1.
  apply (lasts_bind _ _ any); [apply lasts_set_progress|]. intros _ _.
  apply (lasts_bind _ _ any); [apply lasts_report|]. intros _ _.
  apply (lasts_bind _ _ any); [by apply lasts_lift; [apply ends_build|]|]. intros xml _.
  apply (lasts_bind _ _ ova_wf); [by apply lasts_on_archive; [apply archives_add_file|]|]. intros o2 Ho2.
  apply (lasts_bind _ _ ova_wf); [by apply lasts_on_archive; [apply archives_finish|]|]. intros o3 _.
  apply (lasts_bind _ _ any); [apply lasts_set_progress|]. intros _ _.
  apply (lasts_bind _ _ any); [apply lasts_set_progress|]. intros _ _. apply lasts_report.
Qed.

(** The sample machine on a device with room for a hundred bytes. *)
Lemma export_vm_ends_witness :
  ends (fst (export_vm (H:=machine_files) (H0:=ascii_tables) (H1:=debug) (H2:=stored_flate2) (H3:=backwards)
    (H5:=sum_sha2) (H6:=key_order)
    (fun _ => Ok {| disk_data := []; disk_room := 100; disk_burst := 7 |}) machine_clock true
    (lit "/vm/my.vmx") (lit "out.ova") machine_options
    {| es_progress := ExportProgress_new Parsing 0 0; es_reports := []; es_output := None |})).
Proof.
  apply (export_vm_ends (H:=machine_files) (H0:=fun b => eq_refl) (H1:=ascii_tables) (H2:=debug)
    (H4:=stored_flate2_laws) (H6:=backwards_laws) (H9:=sum_sha2) (H10:=key_order)); [done|cbn; lia].
Defined.
