(* ===== verification/Cli.v ===== *)
(** * Cli: [ovatool-cli/src/main.rs]

    The two commands, once [clap] has parsed them: what they print, the options
    they make of their arguments and the export they run.  Not modelled are
    the parsing of the command line and the drawing of the progress bar.  What
    [fs::metadata] says of the output once it is written is a parameter. *)
From S2P Require Export Export.

Inductive CompressionArg := ArgFast | ArgBalanced | ArgMax.

Definition CompressionLevel_from (arg : CompressionArg) : CompressionLevel :=
  match arg with ArgFast => Fast | ArgBalanced => Balanced | ArgMax => Max end.

(** [{:?}] of a compression level. *)
Definition CompressionLevel_debug (l : CompressionLevel) : str :=
  match l with Fast => lit "Fast" | Balanced => lit "Balanced" | Max => lit "Max" end.

Inductive Commands :=
| Export (vmx_file : str) (output : option str) (compression : CompressionArg)
    (threads chunk_size : Z) (quiet : bool)
| Info (vmx_file : str).

Definition cli_sanitize_filename `{UnicodeTables} (name : str) : str :=
  map (fun c => if is_alphanumeric c || (c =? c_underscore) || (c =? c_minus) || (c =? c_dot) then c
                else c_underscore) name.

(** ** Sizes for people *)

Definition KB : Z := 1024.
Definition MB : Z := KB * 1024.
Definition GB : Z := MB * 1024.
Definition TB : Z := GB * 1024.

Definition format_bytes (bytes : Z) : str :=
  if TB <=? bytes then
    fmt (lit "{} TB") [show_fixed 2 (f64_div (f64_of_u64 bytes) (f64_of_u64 TB))]
  else if GB <=? bytes then
    fmt (lit "{} GB") [show_fixed 2 (f64_div (f64_of_u64 bytes) (f64_of_u64 GB))]
  else if MB <=? bytes then
    fmt (lit "{} MB") [show_fixed 2 (f64_div (f64_of_u64 bytes) (f64_of_u64 MB))]
  else if KB <=? bytes then
    fmt (lit "{} KB") [show_fixed 2 (f64_div (f64_of_u64 bytes) (f64_of_u64 KB))]
  else fmt (lit "{} B") [show_dec bytes].

(** ** [show_info] *)

Definition disk_line (i : nat) (disk : DiskDetail) : str :=
  fmt (lit "  {}. {} - {} ({})")
    [show_dec (Z.of_nat i + 1); dd_filename disk; format_bytes (dd_size_bytes disk); dd_create_type disk].

(** The lines it prints. *)
Definition show_info `{FileSystem} `{UnicodeTables} `{BuildProfile} `{HashOrder} (vmx_file : str)
    : Result (list str) :=
  vm_info ← get_vm_info vmx_file;
  Ok ([lit "VM Information"; lit "=============="; [];
       fmt (lit "Name:      {}") [vi_name vm_info];
       fmt (lit "Guest OS:  {}") [vi_guest_os vm_info];
       fmt (lit "CPUs:      {}") [show_dec (vi_cpus vm_info)];
       fmt (lit "Memory:    {} MB") [show_dec (vi_memory_mb vm_info)];
       []]
      ++ (if bool_decide (vi_disks vm_info = []) then [lit "Disks:     None"]
          else [lit "Disks:"] ++ imap disk_line (vi_disks vm_info)
               ++ [[]; fmt (lit "Total disk size: {}") [format_bytes (vi_total_disk_size vm_info)]])).

(** ** [run_export] *)

Definition output_path_of `{UnicodeTables} (output : option str) (vm_info : VmInfo) : str :=
  match output with
  | Some path => path
  | None =>
      let sanitized_name := cli_sanitize_filename (vi_name vm_info) in
      fmt (lit "{}.ova") [sanitized_name]
  end.

(** [chunk_size_mb * 1024 * 1024] on a 64-bit [usize]. *)
Definition chunk_size_bytes_of `{BuildProfile} {E} (chunk_size_mb : Z) : outcome E Z :=
  kb ← mul_u64 chunk_size_mb 1024; mul_u64 kb 1024.

(** What the progress callback sets on the bar: its position and message. *)
Definition bar_update (progress : ExportProgress) : Z * str :=
  (ep_bytes_processed progress,
   match ep_phase progress with
   | Parsing => lit "Parsing..."
   | Compressing =>
       if 1 <? ep_total_disks progress then lit "Compressing disk" else lit "Compressing..."
   | Writing => lit "Writing..."
   | Finalizing => lit "Finalizing..."
   | Complete => lit "Complete!"
   end).

Definition export_banner (vm_info : VmInfo) (output_path : str) (compression : CompressionArg) : list str :=
  [lit "VM Export"; lit "---------";
   fmt (lit "Name:      {}") [vi_name vm_info];
   fmt (lit "Guest OS:  {}") [vi_guest_os vm_info];
   fmt (lit "CPUs:      {}") [show_dec (vi_cpus vm_info)];
   fmt (lit "Memory:    {} MB") [show_dec (vi_memory_mb vm_info)];
   fmt (lit "Disks:     {}") [show_dec (zlen (vi_disks vm_info))];
   fmt (lit "Total:     {}") [format_bytes (vi_total_disk_size vm_info)];
   [];
   fmt (lit "Output:    {}") [output_path];
   fmt (lit "Compression: {}") [CompressionLevel_debug (CompressionLevel_from compression)];
   []].

(** Standard output and the export the command runs. *)
Record cli_state (W : Type) := { cl_stdout : list str; cl_export : export_state W }.
Arguments cl_stdout {W} _.
Arguments cl_export {W} _.
Arguments Build_cli_state {W} _ _.

Section commands.
  Context `{FileSystem} `{UnicodeTables} `{BuildProfile} `{Flate2} `{Rayon}.
  Context `{Write W} `{Sha2} `{HashOrder} (file_create : str -> io_result W) (now : nat -> Z).
  Context (output_metadata : str -> option W -> io_result Z).
  Abbreviation cli_m := (M (cli_state W) Error).

Definition println (lines : list str) : cli_m () :=
  modify (fun s => Build_cli_state (cl_stdout s ++ lines) (cl_export s)).

Definition set_export (e : export_state W) (s : cli_state W) : cli_state W :=
  Build_cli_state (cl_stdout s) e.

(** The last line: the size of the output, and its ratio to the disks. *)
Definition output_size_line (len : Z) (vm_info : VmInfo) : str :=
  fmt (lit "Output size: {} (compression ratio: {}%)")
    [format_bytes len;
     show_fixed 1 (f64_mul (f64_div (f64_of_u64 len) (f64_of_u64 (vi_total_disk_size vm_info))) (f64_lit 100))].

Definition run_export (vmx_file : str) (output : option str) (compression : CompressionArg)
    (threads chunk_size_mb : Z) (quiet : bool) : cli_m () :=
  vm_info ← lift (get_vm_info vmx_file);
  let output_path := output_path_of output vm_info in
  _ ← (if negb quiet then println (export_banner vm_info output_path compression) else mret tt);
  chunk_size_bytes ← lift (chunk_size_bytes_of chunk_size_mb);
  let options := ExportOptions_new (CompressionLevel_from compression) chunk_size_bytes threads in
  _ ← on_field cl_export set_export
        (export_vm file_create now (negb quiet) vmx_file output_path options);
  if negb quiet then
    _ ← println [[]; fmt (lit "Export completed successfully: {}") [output_path]];
    s ← Write.get;
    match output_metadata output_path (es_output (cl_export s)) with
    | Ok len => println [output_size_line len vm_info]
    | _ => mret tt
    end
  else mret tt.

Definition cli_main (command : Commands) : cli_m () :=
  match command with
  | Export vmx_file output compression threads chunk_size quiet =>
      run_export vmx_file output compression threads chunk_size quiet
  | Info vmx_file => lines ← lift (show_info vmx_file); println lines
  end.
End commands.
