(* ===== verification/CliSpec.v ===== *)
(** * CliSpec: the command line

    The sizes [format_bytes] shows are right to the last digit, a chunk size
    that is zero, or that wraps to zero, makes an export that never ends, the
    total [info] shows is the sum of the disks, and the default output lies in
    the current directory. *)
From S2P Require Export Cli ExportEndsSpec ExportFailSpec.

(** ** Sizes *)

(** The units, each with its exponent and its name. *)
Definition size_units : list (Z * str) :=
  [(40, lit "TB"); (30, lit "GB"); (20, lit "MB"); (10, lit "KB")].

Definition size_in (n j : Z) : str := show_fixed 2 (f64_div (f64_of_u64 n) (f64_of_u64 (2 ^ j))).

Lemma format_bytes_unit n :
  KB <= n -> exists j name, (j, name) ∈ size_units /\ 2 ^ j <= n /\ (j = 40 \/ n < 2 ^ (j + 10)) /\
    format_bytes n = size_in n j ++ [c_space] ++ name.
Proof.
  intros Hn. unfold format_bytes.
  assert (Hu : forall s name, fmt (lit "{} " ++ name) [s] = s ++ fmt (c_space :: name) []) by reflexivity.
  destruct (Z.leb_spec TB n); [|destruct (Z.leb_spec GB n); [|destruct (Z.leb_spec MB n); [|
    destruct (Z.leb_spec KB n); [|lia]]]].
  - exists 40, (lit "TB"). split_and!; [set_solver|done|by left|exact (Hu _ (lit "TB"))].
  - exists 30, (lit "GB"). split_and!; [set_solver|done|by right|exact (Hu _ (lit "GB"))].
  - exists 20, (lit "MB"). split_and!; [set_solver|done|by right|exact (Hu _ (lit "MB"))].
  - exists 10, (lit "KB"). split_and!; [set_solver|done|by right|exact (Hu _ (lit "KB"))].
Qed.

Lemma size_units_bounded : Forall (fun u => 0 <= fst u <= 53) size_units.
Proof. repeat constructor; cbn; lia. Qed.

(** ** The properties *)

(** C40: the size shown for [n] bytes, from a kilobyte up to the 2{^53} bytes that
    doubles count exactly, is a number with two decimals and the largest unit
    that does not exceed [n]; the number is off by at most half of its last
    digit. *)
Theorem format_bytes_accurate n :
  KB <= n <= 2 ^ 53 ->
  exists j name whole fraction h,
    (j, name) ∈ size_units /\ 2 ^ j <= n /\ (j = 40 \/ n < 2 ^ (j + 10)) /\
    format_bytes n = (whole ++ [c_dot] ++ fraction) ++ [c_space] ++ name /\
    digits_value 10 0 whole = Some (h / 100) /\
    digits_value 10 0 fraction = Some (h mod 100) /\ zlen fraction = 2 /\
    2 * Z.abs (100 * n - h * 2 ^ j) <= 2 ^ j.
Proof.
  intros [Hk Hn]. unfold KB in Hk. destruct (format_bytes_unit n Hk) as (j & name & Hin & Hle & Hlt & E).
  pose proof (proj1 (Forall_forall _ _) size_units_bounded _ Hin) as Hj. cbn in Hj.
  assert (Hp : 0 < 2 ^ j) by (apply Z.pow_pos_nonneg; lia).
  pose proof (round_even_near (100 * n) (2 ^ j) Hp) as Hr.
  pose proof (round_even_ge (100 * n) (2 ^ j) 0 Hp ltac:(lia)) as Hh.
  unfold size_in in E. rewrite show_fixed_pow2 in E by lia. cbv zeta in E. change (10 ^ 2) with 100 in E.
  set (h := round_even (100 * n) (2 ^ j)) in *. pose proof (Z.mod_pos_bound h 100 ltac:(lia)).
  exists j, name, (show_dec (h / 100)), (pad_zero 2 (show_dec (h mod 100))), h.
  split_and!; [done|done|done|exact E|..].
  - rewrite <- (pad_zero_0 (show_dec _)). apply digits_value_pad_zero; [lia|]. apply Z.div_pos; lia.
  - apply digits_value_pad_zero; lia.
  - apply zlen_pad_zero; lia.
  - exact Hr.
Qed.

Lemma format_bytes_accurate_witness :
  format_bytes 1536 = lit "1.50 KB" /\
  exists j name whole fraction h,
    (j, name) ∈ size_units /\ 2 ^ j <= 1536 /\ (j = 40 \/ 1536 < 2 ^ (j + 10)) /\
    format_bytes 1536 = (whole ++ [c_dot] ++ fraction) ++ [c_space] ++ name /\
    digits_value 10 0 whole = Some (h / 100) /\
    digits_value 10 0 fraction = Some (h mod 100) /\ zlen fraction = 2 /\
    2 * Z.abs (100 * 1536 - h * 2 ^ j) <= 2 ^ j.
Proof. split; [vm_compute; reflexivity|]. apply (format_bytes_accurate 1536). unfold KB. lia. Defined.

(** ** A chunk size of zero *)

Lemma bind_diverges {S A B} (m : M S Error A) (f : A -> M S Error B) s :
  fst (m s) = Diverge -> fst ((m ≫= f) s) = Diverge.
Proof. unfold mbind, M_bind. destruct (m s) as [[a|e| |] s1]; cbn; congruence. Qed.

Section zero.
  Context `{FileSystem} `{!MmapLaws} `{UnicodeTables} `{BuildProfile} `{Flate2} `{Rayon}.
  Context `{Write W} `{Sha2} `{HashOrder} (file_create : str -> io_result W) (now : nat -> Z).
  Context (output_metadata : str -> option W -> io_result Z).

Lemma checked_wraps {E} bits n : overflow_checks = false -> checked (E:=E) bits n = Ok (n mod 2 ^ bits).
Proof.
  intros Ho. unfold checked. rewrite Ho. destruct (Z.leb_spec 0 n), (Z.ltb_spec n (2 ^ bits)); cbn [andb]; try done.
  by rewrite Z.mod_small.
Qed.

Lemma chunk_size_bytes_zero {E} mb :
  mb = 0 \/ overflow_checks = false /\ mb mod 2 ^ 44 = 0 -> chunk_size_bytes_of (E:=E) mb = Ok 0.
Proof.
  unfold chunk_size_bytes_of, mul_u64. intros [->|[Ho Hm]]; [done|]. rewrite checked_wraps by done.
  cbn [mbind outcome_bind]. rewrite checked_wraps by done. f_equal. rewrite Z.mul_mod_idemp_l by done.
  apply Z.mod_divide in Hm as [q ->]; [|done]. replace (q * 2 ^ 44 * 1024 * 1024) with (q * 2 ^ 64) by lia.
  by apply Z.mod_mul.
Qed.

Lemma zero_chunks_never_end d fuel : d <> [] -> drain_from fuel ChunkIterator_next (ci_at d 0 0) = Diverge.
Proof.
  intros Hd. assert (0 < zlen d) by (destruct d; [done|rewrite zlen_cons; zlen_pos; lia]).
  induction fuel as [|f IH]; [done|]. rewrite drain_from_S, ChunkIterator_next_at by lia.
  destruct (Z.leb_spec (zlen d) 0); [lia|]. rewrite Z.min_r, Z.add_0_r by lia. by rewrite IH.
Qed.

(** C30: [--chunk-size 0] is accepted and the export never ends: the iterator
    over the first disk yields empty chunks without end, however many are
    asked for.  A release build does the same for every multiple of 2{^44}
    megabytes, whose size in bytes wraps to zero. *)
Theorem cli_zero_chunk_never_ends vmx_file output compression threads mb quiet info config dir total
    (p : Pipeline) w c rest flat cap d (s : cli_state W) :
  mb = 0 \/ overflow_checks = false /\ mb mod 2 ^ 44 = 0 ->
  get_vm_info vmx_file = Ok info -> parse_vmx vmx_file = Ok config -> path_parent vmx_file = Some dir ->
  calculate_total_disk_size config dir = Ok total ->
  Pipeline_new (PipelineConfig_new 0 (CompressionLevel_from compression) threads) = (Ok p : Result Pipeline) ->
  file_create (output_path_of output info) = Ok w ->
  vc_disks config = c :: rest ->
  disk_type_of dir (path_join dir (dc_file_name c)) = Ok (FlatDisk flat cap) ->
  file_open flat = Ok d -> d <> [] ->
  fst (run_export file_create now output_metadata vmx_file output compression threads mb quiet s) = Diverge /\
  forall fuel, drain_from fuel ChunkIterator_next (chunks {| vr_mmap := d; vr_size := zlen d |} 0) = Diverge.
Proof.
  intros Hmb Hi Hc Hd Ht Hp Hw Hdisks Htype Hf Hne. split.
  2: { intros fuel. by apply zero_chunks_never_end. }
  unfold run_export. rewrite Hi. run_state. cbv zeta.
  match goal with |- fst ((?m ≫= _) _) = _ =>
    assert (Hm : exists s1, m s = (Ok tt, s1)) by (destruct quiet; by eexists) end.
  destruct Hm as [s1 Hs1]. rewrite (M_bind_step _ _ _ _ _ Hs1).
  rewrite (chunk_size_bytes_zero mb Hmb). run_state.
  apply bind_diverges. unfold on_field. match goal with |- context [export_vm _ _ _ _ _ _ ?st] =>
    enough (He : fst (export_vm file_create now (negb quiet) vmx_file (output_path_of output info)
      (ExportOptions_new (CompressionLevel_from compression) 0 threads) st) = Diverge) by
      (destruct (export_vm _ _ _ _ _ _ st) as [r e]; exact He) end.
  unfold export_vm. rewrite Hc, Hd. cbn [ok_or]. run_state. rewrite Ht. cbv zeta. run_state.
  cbn [eo_chunk_size eo_compression eo_num_threads ExportOptions_new]. rewrite Hp. run_state.
  rewrite Hw. cbn [map_err]. run_state. unfold OvaWriter_new. run_state. rewrite Hdisks. cbn [compress_disks].
  apply bind_diverges.
  cbv zeta. run_state. rewrite Htype. run_state.
  apply bind_diverges.
  cbn [compress_disk]. unfold process_disk. rewrite VmdkReader_open_spec, Hf. apply bind_diverges.
  run_state. cbv zeta. apply bind_diverges. exact (zero_chunks_never_end d _ Hne).
Qed.
End zero.

(** The length of the file written so far. *)
Definition cursor_metadata (path : str) (output : option Cursor) : io_result Z :=
  match output with Some c => Ok (zlen (cursor_buf c)) | None => Err file_not_found end.

Lemma cli_zero_chunk_never_ends_witness :
  fst (run_export (H:=two_flat_files) (H0:=ascii_tables) (H1:=release) (H2:=stored_flate2) (H3:=backwards)
    (H5:=sum_sha2) (H6:=key_order) machine_create machine_clock cursor_metadata (lit "/vm/m.vmx") None ArgFast 0 (2 ^ 44) true
    {| cl_stdout := []; cl_export := idle |}) = Diverge.
Proof.
  eapply (cli_zero_chunk_never_ends (H:=two_flat_files) (H0:=fun b => eq_refl) (H1:=ascii_tables) (H2:=release)
    (H3:=stored_flate2) (H4:=backwards) (H6:=sum_sha2) (H7:=key_order) machine_create machine_clock cursor_metadata).
  - right. split; vm_compute; reflexivity.
  - vm_compute. reflexivity.
  - vm_compute. reflexivity.
  - vm_compute. reflexivity.
  - vm_compute. reflexivity.
  - reflexivity.
  - reflexivity.
  - vm_compute. reflexivity.
  - vm_compute. reflexivity.
  - vm_compute. reflexivity.
  - discriminate.
Defined.

(** ** What [info] and the defaults say *)

Lemma checked_mod `{BuildProfile} {E} bits n m :
  checked (E:=E) bits n = Ok m -> m = n mod 2 ^ bits.
Proof.
  unfold checked. destruct (Z.leb_spec 0 n), (Z.ltb_spec n (2 ^ bits)); cbn [andb].
  1: { intros [= <-]. by rewrite Z.mod_small. }
  all: destruct overflow_checks; [done|]; by intros [= <-].
Qed.

(** [get_vm_info] lists the disks of the configuration in order, and the total
    is the sum of their sizes: exactly in a debug build, which panics when it
    does not fit, and modulo 2{^64} in a release build. *)
Lemma disk_details_total `{FileSystem} `{UnicodeTables} `{BuildProfile} dir t disks l t' :
  0 <= t < 2 ^ 64 -> disk_details dir t disks = Ok (l, t') ->
  map dd_filename l = map dc_file_name disks /\
  t' = (t + foldr Z.add 0 (map dd_size_bytes l)) mod 2 ^ 64.
Proof.
  revert t l t'. induction disks as [|c disks IH]; intros t l t' Ht; cbn [disk_details].
  { intros [= <- <-]. cbn. by rewrite Z.add_0_r, Z.mod_small. }
  intros E. apply bind_Ok in E as ([size kind] & _ & E). apply bind_Ok in E as (t1 & Ht1%checked_mod & E).
  apply bind_Ok in E as ([l1 t2] & E1 & [= <- <-]).
  destruct (IH t1 l1 t2 ltac:(subst t1; by apply Z.mod_pos_bound) E1) as [Hl ->].
  cbn [map foldr dd_filename dd_size_bytes]. split; [by rewrite Hl|]. subst t1.
  rewrite Z.add_mod_idemp_l by done. f_equal. lia.
Qed.

(** Without [--output] the archive is written to the current directory: no name
    of a machine leads out of it. *)
Lemma default_output_is_local `{UnicodeTables} info : c_slash ∉ output_path_of None info.
Proof.
  unfold output_path_of. set (name := cli_sanitize_filename (vi_name info)).
  assert (Hn : c_slash ∉ name).
  { unfold name, cli_sanitize_filename. intros (c & Hc & _)%list_elem_of_fmap.
    destruct (is_alphanumeric c || _ || _ || _) eqn:E; [|done]. subst c. discriminate E. }
  assert (E : fmt (lit "{}.ova") [name] = name ++ lit ".ova") by reflexivity. cbv zeta. rewrite E.
  rewrite elem_of_app. intros [Hs|Hs]; [by apply Hn|].
  rewrite list_elem_of_In in Hs. cbn in Hs. intuition discriminate.
Qed.
