(* ===== verification/CliExportSpec.v ===== *)
(** * CliExportSpec: what the [export] command does with a machine

    From the command line to the archive: the lines printed, the members
    written, and the grains that every chunk size the command line can give
    leaves out, since it counts in megabytes and a grain has 64 KiB. *)
From S2P Require Export CliSpec ImportSpec.

(** A chunk size given in megabytes is sixteen grains at least, or zero. *)
Lemma chunk_size_sixteen_grains `{BuildProfile} mb cs :
  chunk_size_bytes_of (E:=Error) mb = Ok cs -> exists m, cs = 16 * m * grain_len.
Proof.
  unfold chunk_size_bytes_of, mul_u64. intros E.
  apply bind_Ok in E as (kb & Hkb%checked_mod & Hcs%checked_mod).
  exists (mb - 2 ^ 54 * (mb * 1024 / 2 ^ 64) - 2 ^ 44 * (kb * 1024 / 2 ^ 64)).
  unfold grain_len, DEFAULT_GRAIN_SIZE, SECTOR_SIZE.
  pose proof (Z.div_mod (mb * 1024) (2 ^ 64) ltac:(done)) as H1.
  pose proof (Z.div_mod (kb * 1024) (2 ^ 64) ltac:(done)) as H2. rewrite <- Hkb in H1. rewrite <- Hcs in H2. lia.
Qed.

Lemma mod_16_mod gi m : 0 < m -> gi mod 16 <> 0 -> gi mod (16 * m) <> 0.
Proof.
  intros Hm H16 Hk. apply H16. apply Z.mod_divide in Hk as [q ->]; [|lia].
  rewrite (Z.mul_comm 16 m), Z.mul_assoc. by apply Z.mod_mul.
Qed.

Section command.
  Context `{FileSystem} `{!MmapLaws} `{UnicodeTables} `{BuildProfile} `{Flate2Laws} `{RayonLaws}.
  Context `{InfallibleWrite W} `{Sha2Laws} `{HashOrderLaws} (file_create : str -> io_result W) (now : nat -> Z).
  Context (output_metadata : str -> option W -> io_result Z).
  Abbreviation run := (run_export file_create now output_metadata).

(** The lines of a successful run. *)
Definition export_lines (quiet : bool) (info : VmInfo) (output : str) (compression : CompressionArg) (w : W) : list str :=
  if quiet then [] else
  export_banner info output compression
  ++ [[]; fmt (lit "Export completed successfully: {}") [output]]
  ++ match output_metadata output (Some w) with Ok len => [output_size_line len info] | _ => [] end.

(** The command around the export. *)
Lemma run_export_Ok vmx_file output compression threads mb quiet info cs (s : cli_state W) e w :
  get_vm_info vmx_file = Ok info -> chunk_size_bytes_of (E:=Error) mb = Ok cs ->
  (let options := ExportOptions_new (CompressionLevel_from compression) cs threads in
   export_vm file_create now (negb quiet) vmx_file (output_path_of output info) options (cl_export s) = (Ok tt, e)) ->
  es_output e = Some w ->
  run vmx_file output compression threads mb quiet s =
    (Ok tt, Build_cli_state (cl_stdout s ++ export_lines quiet info (output_path_of output info) compression w) e).
Proof.
  intros Hi Hc He Hw. destruct s as [out ex]. cbn [cl_export cl_stdout] in *. cbv zeta in He.
  unfold run_export, export_lines, println, on_field, lift, modify, Write.get, mret, M_ret, mbind, M_bind.
  rewrite Hi. cbv beta iota zeta. destruct quiet; cbn [negb] in *; cbv beta iota zeta; rewrite Hc;
    cbn [cl_export cl_stdout set_export]; rewrite He; cbn [cl_export cl_stdout set_export].
  - by rewrite app_nil_r.
  - rewrite Hw. destruct (output_metadata _ _); cbn [cl_export cl_stdout]; rewrite <- ?app_assoc; try done.
    all: by rewrite app_nil_r.
Qed.

(** ** The property *)

End command.

(** ** A machine with a disk of two grains *)

Definition two_grains : bytes := repeat 7 (Z.to_nat (2 * grain_len)).

Definition big_vmx : str :=
  ln "displayName = `big`" ++ ln "scsi0:0.fileName = `big.vmdk`" ++ ln "scsi0:0.present = `TRUE`".

Definition big_descriptor : str :=
  ln "# Disk DescriptorFile" ++ ln "createType=`monolithicFlat`" ++ ln "RW 256 FLAT `big-flat.vmdk` 0".

Definition big_files : FileSystem :=
  fs_of [(lit "/vm/big.vmx", big_vmx); (lit "/vm/big.vmdk", big_descriptor);
         (lit "/vm/big-flat.vmdk", two_grains)].

Definition big_disk : DiskConfig :=
  {| dc_file_name := lit "big.vmdk"; dc_controller := lit "scsi0"; dc_unit := 0 |}.

Definition big_config : VmxConfig :=
  match parse_vmx (H:=big_files) (H0:=key_order) (lit "/vm/big.vmx") with
  | Ok c => c | _ => machine_config end.

Definition big_info : VmInfo :=
  match get_vm_info (H:=big_files) (H0:=ascii_tables) (H1:=debug) (H4:=key_order) (lit "/vm/big.vmx") with
  | Ok i => i
  | _ => {| vi_name := []; vi_guest_os := []; vi_memory_mb := 0; vi_cpus := 0; vi_disks := []; vi_total_disk_size := 0 |}
  end.

Definition big_options : ExportOptions := ExportOptions_new Balanced 1048576 2.

Definition big_pipeline : Pipeline (H:=backwards) :=
  {| pl_config := PipelineConfig_new 1048576 Balanced 2; pl_thread_pool := @build_pool backwards 2 |}.

Lemma big_disks : vc_disks big_config = [big_disk].
Proof. vm_compute. reflexivity. Qed.

Lemma big_runs :
  machine_run (H:=big_files) (H1:=ascii_tables) (H2:=debug) (H3:=stored_flate2) (H5:=backwards) (H12:=key_order)
    machine_create (lit "/vm/big.vmx") (lit "big.ova") big_options big_config (lit "/vm") 131072
    big_pipeline cursor_new [two_grains].
Proof.
  constructor.
  - eexists. split; [reflexivity|]. apply all_bytes_spec. vm_compute. reflexivity.
  - vm_compute. reflexivity.
  - vm_compute. reflexivity.
  - rewrite big_disks. apply List.Forall2_cons; [|apply List.Forall2_nil].
    apply (machine_flat _ _ (descriptor_of big_descriptor)
      {| ex_access := lit "RW"; ex_size_sectors := 256; ex_extent_type := Flat;
         ex_filename := lit "big-flat.vmdk"; ex_offset := 0 |}).
    + exists big_descriptor, big_descriptor. split_and!; vm_compute; reflexivity.
    + vm_compute. reflexivity.
    + reflexivity.
    + reflexivity.
    + vm_compute. reflexivity.
    + vm_compute. reflexivity.
  - vm_compute. reflexivity.
  - reflexivity.
  - reflexivity.
  - done.
Qed.

Definition ok_or_nil (r : Result bytes) : bytes := match r with Ok v => v | _ => [] end.

Definition big_image : bytes :=
  ok_or_nil (disk_image (H:=stored_flate2) (2 * grain_len) 6 1048576 two_grains).

Definition big_ovf : str :=
  match build (H:=ascii_tables) (OvfBuilder_new big_config) (disk_infos 0 [two_grains] [big_image]) with
  | Ok x => x | _ => [] end.

Lemma zlen_two_grains : zlen two_grains = 2 * grain_len.
Proof. vm_compute. reflexivity. Qed.

Lemma big_images vs :
  images (H3:=stored_flate2) (H5:=backwards) big_options big_pipeline [two_grains] vs -> vs = [big_image].
Proof.
  unfold images. intros Him. apply Forall2_cons_inv_l in Him as (v & vs' & [_ Hv] & Him & ->).
  apply Forall2_nil_inv_l in Him as ->. rewrite zlen_two_grains in Hv.
  change (compression_level big_pipeline) with 6 in Hv. change (eo_chunk_size big_options) with 1048576 in Hv.
  unfold big_image. rewrite Hv. reflexivity.
Qed.

Lemma big_members_fit :
  members_fit (H1:=ascii_tables) (H3:=stored_flate2) (H5:=backwards) (H11:=sum_sha2_laws) machine_clock
    big_options big_config big_pipeline [two_grains].
Proof.
  intros vs xml ->%big_images Hx. assert (E : xml = big_ovf) by (unfold big_ovf; by rewrite Hx). subst xml.
  split_and!; [repeat (apply List.Forall_cons || apply List.Forall_nil)|..]; vm_compute; reflexivity.
Qed.

