(* ===== verification/InfoSpec.v ===== *)
(** * InfoSpec: what [info] says and what the export does

    [get_vm_info] and [export_vm] find out the size of a disk independently;
    for every disk the export can read they agree. *)
From S2P Require Export ExportDeviceSpec CliSpec.

Section details.
  Context `{FileSystem} `{UnicodeTables} `{BuildProfile}.

(** A disk whose storage the export recognises is listed with its capacity. *)
Lemma disk_detail_capacity dir c t :
  disk_type_of dir (path_join dir (dc_file_name c)) = Ok t ->
  exists kind, disk_detail dir c = Ok (disk_capacity t, kind).
Proof.
  unfold disk_type_of, disk_detail. cbv zeta. set (path := path_join dir (dc_file_name c)).
  intros E. apply bind_Ok in E as (sparse & Es & E).
  assert (Hex : path_exists path = true).
  { revert Es. unfold is_sparse_vmdk, file_open, path_exists. by destruct (fs_node_at path). }
  rewrite Hex, Es. cbn [mbind outcome_bind]. destruct sparse.
  - apply bind_Ok in E as (r & Hr & [= <-]). rewrite Hr. cbn. by eexists.
  - apply bind_Ok in E as (d & Hd & E). apply bind_Ok in E as (cap & Hc & E). rewrite Hd. cbn [mbind outcome_bind].
    rewrite Hc. cbn [mbind outcome_bind]. eexists.
    destruct (List.find _ _); [by injection E as <-|].
    destruct (negb _); [by injection E as <-|done].
Qed.

(** The list of the disks and their total, which panics or wraps when it does
    not fit. *)
Lemma disk_details_types dir disks ts total :
  Forall2 (fun c t => disk_type_of dir (path_join dir (dc_file_name c)) = Ok t) disks ts ->
  Forall (fun t => 0 <= disk_capacity t) ts -> is_u64 total ->
  let sum := total + foldr Z.add 0 (map disk_capacity ts) in
  match disk_details dir total disks with
  | Ok (details, total') =>
      map dd_filename details = map dc_file_name disks /\
      map dd_size_bytes details = map disk_capacity ts /\ total' = sum mod 2 ^ 64
  | Panic => overflow_checks = true /\ 2 ^ 64 <= sum
  | _ => False
  end.
Proof.
  intros Hts. revert total. induction Hts as [|c t disks ts Hc Hts IH]; intros total Hpos Ht; cbn.
  { split_and!; [done..|]. rewrite Z.add_0_r, Z.mod_small; done. }
  inversion Hpos as [|? ? Hp Hps]; subst. destruct (disk_detail_capacity dir c t Hc) as [kind ->].
  assert (Hnn : 0 <= foldr Z.add 0 (map disk_capacity ts)) by (clear - Hps; induction Hps; cbn; lia).
  cbn [mbind outcome_bind]. unfold add_u64, checked, is_u in *. cbv zeta in IH.
  destruct (Z.leb_spec 0 (total + disk_capacity t)); [|lia].
  destruct (Z.ltb_spec (total + disk_capacity t) (2 ^ 64)) as [Hlt|Hge]; cbn [andb mbind outcome_bind].
  - specialize (IH (total + disk_capacity t) Hps ltac:(lia)).
    destruct (disk_details dir _ disks) as [[l t']|e| |]; cbn [mbind outcome_bind]; try done; [|split; [apply IH|lia]].
    destruct IH as (Hn & Hs & ->). cbn. rewrite Hn, Hs, Z.add_assoc. done.
  - destruct overflow_checks eqn:Ho; cbn [mbind outcome_bind]; [split; [done|lia]|].
    specialize (IH ((total + disk_capacity t) mod 2 ^ 64) Hps ltac:(apply Z.mod_pos_bound; lia)).
    destruct (disk_details dir _ disks) as [[l t']|e| |]; cbn [mbind outcome_bind]; try done; [|by destruct IH].
    destruct IH as (Hn & Hs & ->). cbn. rewrite Hn, Hs, Z.add_mod_idemp_l by done. by rewrite Z.add_assoc.
Qed.
End details.

Section capacities.
  Context `{FileSystem} `{UnicodeTables} `{BuildProfile} `{Flate2} `{Rayon} {W : Type}.

Lemma compress_disk_capacity cb (p : Pipeline) level cs t (s : export_state W) vmdk cap s' :
  compress_disk cb p level cs t s = (Ok (vmdk, cap), s') -> cap = disk_capacity t.
Proof.
  destruct t; cbn [compress_disk disk_capacity]; intros E; apply M_bind_Ok in E as (? & ? & _ & E);
    by injection E.
Qed.

(** The descriptions and the files of the disks, in the order of the
    configuration. *)
Lemma compress_disks_types cb options (p : Pipeline) dir k disks infos bufs infos' bufs' (s s' : export_state W) :
  compress_disks cb options p dir k disks infos bufs s = (Ok (infos', bufs'), s') ->
  exists ts, Forall2 (fun c t => disk_type_of dir (path_join dir (dc_file_name c)) = Ok t) disks ts /\
    map di_capacity_bytes infos' = map di_capacity_bytes infos ++ map disk_capacity ts /\
    map (fun b => fst (fst b)) bufs' = map (fun b => fst (fst b)) bufs ++ map dc_file_name disks.
Proof.
  revert k infos bufs s. induction disks as [|c disks IH]; intros k infos bufs s; cbn [compress_disks].
  { intros [= <- <- <-]. exists []. by rewrite !app_nil_r. }
  rewrite (M_bind_step (set_progress _) _ s tt _ eq_refl), (M_bind_step (set_progress _) _ _ tt _ eq_refl).
  rewrite (M_bind_step (report cb) _ _ tt _ eq_refl). cbv zeta. intros E.
  apply M_bind_Ok in E as (t & s1 & E1 & E). injection E1 as Ht <-.
  apply M_bind_Ok in E as ([vmdk cap] & s2 & E2 & E). apply compress_disk_capacity in E2 as ->.
  apply IH in E as (ts & Hts & Hi & Hb). exists (t :: ts). split; [by constructor|].
  rewrite Hi, Hb, !map_app, <- !app_assoc. done.
Qed.

Lemma sparse_capacity_range path r : SparseVmdkReader_open path = Ok r -> is_u64 (capacity r).
Proof.
  unfold SparseVmdkReader_open, SparseVmdkReader_from_mmap. intros E.
  apply bind_Ok in E as (file & _ & E). apply bind_Ok in E as (mmap & _ & E). apply bind_Ok in E as (h & _ & E).
  destruct (3 <? _); [done|]. destruct (has_markers h); [done|].
  apply bind_Ok in E as (? & _ & E). apply bind_Ok in E as (? & _ & E). apply bind_Ok in E as (? & _ & E).
  apply bind_Ok in E as (? & _ & E). destruct (zlen mmap <? _); [done|].
  apply bind_Ok in E as (? & _ & E). apply bind_Ok in E as (cap & Hc & [= <-]). by eapply checked_range.
Qed.

Lemma disk_type_capacity dir path t : disk_type_of dir path = Ok t -> is_u64 (disk_capacity t).
Proof.
  unfold disk_type_of. intros E. apply bind_Ok in E as (sparse & _ & E). destruct sparse.
  - apply bind_Ok in E as (r & Hr & [= <-]). exact (sparse_capacity_range _ _ Hr).
  - apply bind_Ok in E as (d & _ & E). apply bind_Ok in E as (cap & Hc & E).
    assert (Hcap : is_u64 cap).
    { revert Hc. unfold disk_size_bytes. intros Hc. apply bind_Ok in Hc as (n & _ & Hc).
      by eapply checked_range. }
    destruct (List.find _ _); [by injection E as <-|]. cbv zeta in E.
    destruct (negb _); [by injection E as <-|done].
Qed.
End capacities.

(** ** The property *)

Section info.
  Context `{FileSystem} `{UnicodeTables} `{BuildProfile} `{Flate2} `{Rayon} `{Write W} `{Sha2} `{HashOrder}.

(** C21: [info] and the export agree.  When an export succeeds, whatever the
    writer, [get_vm_info] on the same machine lists the disks the export
    wrote, by the names of their members and with the capacities of their
    entries in the descriptor, and its total is the sum of those capacities
    modulo 2{^64}; only in a debug build, and only when the sum does not fit,
    it panics. *)
Theorem info_matches_export file_create now cb vmx_path output_path options (s s' : export_state W) :
  export_vm file_create now cb vmx_path output_path options s = (Ok tt, s') ->
  exists config dir (p : Pipeline) infos bufs s0 s1,
    parse_vmx vmx_path = Ok config /\ path_parent vmx_path = Some dir /\
    compress_disks (W:=W) cb options p dir 0 (vc_disks config) [] [] s0 = (Ok (infos, bufs), s1) /\
    let capacities := map di_capacity_bytes infos in
    match get_vm_info vmx_path with
    | Ok info =>
        (vi_name info, vi_guest_os info, vi_memory_mb info, vi_cpus info)
          = (vc_display_name config, vc_guest_os config, vc_memory_mb config, vc_num_cpus config) /\
        map dd_filename (vi_disks info) = map (fun b => fst (fst b)) bufs /\
        map dd_size_bytes (vi_disks info) = capacities /\
        vi_total_disk_size info = foldr Z.add 0 capacities mod 2 ^ 64
    | Panic => overflow_checks = true /\ 2 ^ 64 <= foldr Z.add 0 capacities
    | _ => False
    end.
Proof.
  intros E. unfold export_vm in E.
  apply M_bind_Ok in E as (config & ? & E1 & E). injection E1 as Hc <-.
  apply M_bind_Ok in E as (dir & ? & E1 & E). injection E1 as Hd <-.
  apply M_bind_Ok in E as (total & ? & E1 & E). injection E1 as _ <-. cbv zeta in E.
  apply M_bind_Ok in E as (? & ? & _ & E). apply M_bind_Ok in E as (? & ? & _ & E).
  apply M_bind_Ok in E as (p & ? & _ & E). apply M_bind_Ok in E as (w & ? & _ & E).
  apply M_bind_Ok in E as (? & ? & _ & E). apply M_bind_Ok in E as (o & s0 & _ & E).
  apply M_bind_Ok in E as ([infos bufs] & s1 & E1 & _).
  assert (Hdir : path_parent vmx_path = Some dir) by (by destruct (path_parent vmx_path); [injection Hd as ->|]).
  exists config, dir, p, infos, bufs, s0, s1. split_and!; [done..|]. cbv zeta.
  apply compress_disks_types in E1 as (ts & Hts & Hi & Hb). cbn [map app] in Hi, Hb. rewrite Hi, Hb in *.
  assert (Hpos : Forall (fun t => 0 <= disk_capacity t) ts).
  { clear - Hts. induction Hts as [|c t disks ts Ht _ IH]; constructor; [|done]. by apply disk_type_capacity in Ht as []. }
  pose proof (disk_details_types dir _ ts 0 Hts Hpos ltac:(unfold is_u; lia)) as Hl. cbv zeta in Hl.
  rewrite Z.add_0_l in Hl.
  unfold get_vm_info. rewrite Hc. cbn [mbind outcome_bind]. rewrite Hdir. cbn [ok_or mbind outcome_bind].
  destruct (disk_details dir 0 (vc_disks config)) as [[l t']|e| |]; cbn [mbind outcome_bind]; [|done..].
  cbn [vi_name vi_guest_os vi_memory_mb vi_cpus vi_disks vi_total_disk_size]. done.
Qed.
End info.

Definition machine_info : Result VmInfo :=
  get_vm_info (H:=machine_files) (H0:=ascii_tables) (H1:=debug) (H4:=key_order) (lit "/vm/my.vmx").

Lemma info_matches_export_witness :
  exists info, machine_info = Ok info /\ vi_total_disk_size info = 9216 /\
    map dd_size_bytes (vi_disks info) = [3072; 3072; 3072] /\
    exists infos : list DiskInfo, map dd_size_bytes (vi_disks info) = map di_capacity_bytes infos.
Proof.
  assert (E : fst machine_run = Ok tt) by (vm_compute; reflexivity).
  assert (E2 : match machine_info with Ok info => vi_total_disk_size info =? 9216 | _ => false end = true)
    by (vm_compute; reflexivity).
  destruct (info_matches_export (H:=machine_files) (H0:=ascii_tables) (H1:=debug) (H2:=stored_flate2)
    (H3:=backwards) (H5:=sum_sha2) (H6:=key_order) machine_create machine_clock true (lit "/vm/my.vmx")
    (lit "out.ova") machine_options idle (snd machine_run)) as (config & dir & p & infos & bufs & s0 & s1 & _ & _ & _ & Hi).
  { destruct machine_run as [r t'] eqn:Er. cbn [fst snd] in *. subst r. exact Er. }
  cbv zeta in Hi. change (get_vm_info _) with machine_info in Hi.
  destruct machine_info as [info|e| |] eqn:Einfo; [|done..]. apply Z.eqb_eq in E2.
  exists info. split_and!; [done|done| |by exists infos; apply Hi].
  assert (E3 : match machine_info with Ok info => map dd_size_bytes (vi_disks info) | _ => [] end = [3072; 3072; 3072])
    by (vm_compute; reflexivity).
  by rewrite Einfo in E3.
Defined.
