(* ===== verification/Testing.v ===== *)
(** * Testing: the assertions of the unit tests

    A [#[test]] function is an action without result: it passes when it
    returns, a failed assertion and an [unwrap] of an error panic.  The tests
    run in the [dev] profile, on ASCII tables and on concrete instances of what
    the program imports. *)
From S2P Require Export Errors Machine Write.

Abbreviation test := (Result ()).

Definition passes (t : test) : bool := match t with Ok _ => true | _ => false end.

(** [assert!], [assert_eq!]. *)
Definition assert (b : bool) : test := if b then Ok tt else Panic.
Definition assert_eq `{EqDecision A} (left right : A) : test := assert (bool_decide (left = right)).

(** [Result::unwrap], [Result::unwrap_err], [Option::unwrap], [is_err]. *)
Definition unwrap {E A} (r : outcome E A) : Result A :=
  match r with Ok a => Ok a | Err _ | Panic => Panic | Diverge => Diverge end.
Definition unwrap_err {E A} (r : outcome E A) : Result E :=
  match r with Err e => Ok e | Ok _ | Panic => Panic | Diverge => Diverge end.
Definition unwrap_some {A} (o : option A) : Result A :=
  match o with Some a => Ok a | None => Panic end.
Definition is_err {E A} (r : outcome E A) : bool := match r with Err _ => true | _ => false end.

(** A method called on [&mut self], its result unwrapped. *)
Definition call {S E A} (m : M S E A) (s : S) : Result (A * S) :=
  match m s with
  | (Ok a, s') => Ok (a, s')
  | ((Err _ | Panic), _) => Panic
  | (Diverge, _) => Diverge
  end.

(** [v[i]]. *)
Definition index {A} (v : list A) (i : nat) : Result A := unwrap_some (v !! i).

(** [str::contains]. *)
Fixpoint contains (pat s : str) : bool :=
  starts_with pat s || match s with [] => false | _ :: s' => contains pat s' end.

Definition all_pass (tests : list test) : bool := forallb passes tests.

Lemma all_pass_spec tests : all_pass tests = true -> Forall (fun t => t = Ok tt) tests.
Proof.
  unfold all_pass. induction tests as [|t tests IH]; [constructor|]. cbn. intros [Ht Hs]%andb_prop.
  constructor; [|by apply IH]. destruct t as [[]| | |]; [done|discriminate..].
Qed.

#[export] Instance test_profile : BuildProfile := debug.
#[export] Instance test_tables : UnicodeTables := ascii_tables.
