(* ===== verification/TestsParse.v ===== *)
(** * TestsParse: the unit tests of error.rs, vmx.rs and vmdk/descriptor.rs *)
From S2P Require Export Vmx Descriptor Testing.

(** ** error.rs *)

Definition test_io_error_with_path : test :=
  let io_err := {| io_kind := NotFound; io_text := lit "file not found" |} in
  let err := Error.io io_err (lit "/path/to/file.vmx") in
  let msg := Error.to_string err in
  assert (contains (lit "I/O error") msg) ;;
  assert (contains (lit "/path/to/file.vmx") msg).

Definition test_io_error_without_path : test :=
  let io_err := {| io_kind := NotFound; io_text := lit "file not found" |} in
  let err := Error.io_simple io_err in
  let msg := Error.to_string err in
  assert (contains (lit "I/O error") msg) ;;
  assert (negb (contains (lit "at '") msg)).

Definition test_vmx_parse_error : test :=
  let err := Error.vmx_parse (lit "invalid syntax") in
  assert (contains (lit "VMX parse error") (Error.to_string err)) ;;
  assert (contains (lit "invalid syntax") (Error.to_string err)).

Definition test_vmdk_error : test :=
  let err := Error.vmdk (lit "unsupported format") in
  assert (contains (lit "VMDK error") (Error.to_string err)).

Definition test_ovf_error : test :=
  let err := Error.ovf (lit "invalid XML") in
  assert (contains (lit "OVF error") (Error.to_string err)).

Definition test_ova_error : test :=
  let err := Error.ova (lit "tar creation failed") in
  assert (contains (lit "OVA error") (Error.to_string err)).

Definition test_pipeline_error : test :=
  let err := Error.pipeline (lit "worker thread panicked") in
  assert (contains (lit "Pipeline error") (Error.to_string err)).

Definition test_from_io_error : test :=
  let io_err := {| io_kind := PermissionDenied; io_text := lit "access denied" |} in
  let err := Error.from_io io_err in
  assert (match err with Error.Io _ None => true | _ => false end).

Definition error_tests : list test :=
  [test_io_error_with_path;
   test_io_error_without_path;
   test_vmx_parse_error; test_vmdk_error;
   test_ovf_error; test_ova_error;
   test_pipeline_error; test_from_io_error].

(** ** vmx.rs

    A raw string is its lines, the first of them empty. *)

#[export] Instance test_hash_order : HashOrder := key_order.

Definition text (ls : list str) : str := join [c_nl] ls.

Definition test_parse_key_value_pairs_quoted : test :=
  let content := text [[]; raw "            displayName = `My VM`"; raw "            memsize = `2048`"; lit "        "] in
  let map := parse_key_value_pairs content in
  assert_eq (map !! lit "displayName") (Some (lit "My VM")) ;;
  assert_eq (map !! lit "memsize") (Some (lit "2048")).

Definition test_parse_key_value_pairs_unquoted : test :=
  let content := text [[]; lit "            displayName = MyVM"; lit "            memsize = 2048"; lit "        "] in
  let map := parse_key_value_pairs content in
  assert_eq (map !! lit "displayName") (Some (lit "MyVM")) ;;
  assert_eq (map !! lit "memsize") (Some (lit "2048")).

Definition test_parse_key_value_pairs_skips_comments : test :=
  let content := text [[]; lit "            # This is a comment"; raw "            displayName = `Test`"; lit "        "] in
  let map := parse_key_value_pairs content in
  assert_eq (size map) 1%nat ;;
  assert_eq (map !! lit "displayName") (Some (lit "Test")).

Definition test_parse_key_value_pairs_skips_empty_lines : test :=
  let content := text [[]; raw "            displayName = `Test`"; []; raw "            memsize = `1024`"; lit "        "] in
  let map := parse_key_value_pairs content in
  assert_eq (size map) 2%nat.

Definition test_extract_disks_scsi : test :=
  let raw := ∅ in
  let raw := <[lit "scsi0:0.present" := lit "TRUE"]> raw in
  let raw := <[lit "scsi0:0.fileName" := lit "disk.vmdk"]> raw in
  let disks := extract_disks raw in
  assert_eq (zlen disks) 1 ;;
  disk ← index disks 0;
  assert_eq (dc_file_name disk) (lit "disk.vmdk") ;;
  assert_eq (dc_controller disk) (lit "scsi0") ;;
  assert_eq (dc_unit disk) 0.

Definition test_extract_disks_multiple_controllers : test :=
  let raw := ∅ in
  let raw := <[lit "scsi0:0.present" := lit "TRUE"]> raw in
  let raw := <[lit "scsi0:0.fileName" := lit "disk1.vmdk"]> raw in
  let raw := <[lit "nvme0:0.present" := lit "TRUE"]> raw in
  let raw := <[lit "nvme0:0.fileName" := lit "disk2.vmdk"]> raw in
  let disks := extract_disks raw in
  assert_eq (zlen disks) 2.

Definition test_extract_disks_skips_not_present : test :=
  let raw := ∅ in
  let raw := <[lit "scsi0:0.present" := lit "FALSE"]> raw in
  let raw := <[lit "scsi0:0.fileName" := lit "disk.vmdk"]> raw in
  let disks := extract_disks raw in
  assert_eq (zlen disks) 0.

Definition test_extract_disks_skips_iso_files : test :=
  let raw := ∅ in
  let raw := <[lit "ide0:0.present" := lit "TRUE"]> raw in
  let raw := <[lit "ide0:0.fileName" := lit "ubuntu.iso"]> raw in
  let disks := extract_disks raw in
  assert_eq (zlen disks) 0.

Definition test_extract_networks : test :=
  let raw := ∅ in
  let raw := <[lit "ethernet0.present" := lit "TRUE"]> raw in
  let raw := <[lit "ethernet0.virtualDev" := lit "vmxnet3"]> raw in
  let raw := <[lit "ethernet0.networkName" := lit "Bridged"]> raw in
  let networks := extract_networks raw in
  assert_eq (zlen networks) 1 ;;
  network ← index networks 0;
  assert_eq (nc_name network) (lit "ethernet0") ;;
  assert_eq (nc_virtual_dev network) (Some (lit "vmxnet3")) ;;
  assert_eq (nc_network_name network) (Some (lit "Bridged")).

Definition test_extract_networks_optional_fields : test :=
  let raw := ∅ in
  let raw := <[lit "ethernet0.present" := lit "TRUE"]> raw in
  let networks := extract_networks raw in
  assert_eq (zlen networks) 1 ;;
  network ← index networks 0;
  assert_eq (nc_name network) (lit "ethernet0") ;;
  assert_eq (nc_virtual_dev network) None ;;
  assert_eq (nc_network_name network) None.

Definition test_parse_vmx_content_defaults : test :=
  let content := lit "" in
  config ← unwrap (parse_vmx_content content);
  assert_eq (vc_display_name config) (lit "Unnamed VM") ;;
  assert_eq (vc_guest_os config) (lit "other") ;;
  assert_eq (vc_memory_mb config) 1024 ;;
  assert_eq (vc_num_cpus config) 1 ;;
  assert_eq (zlen (vc_disks config)) 0 ;;
  assert_eq (zlen (vc_networks config)) 0.

Definition test_parse_vmx_content_full : test :=
  let content := text [[];
    raw "            displayName = `TestVM`"; raw "            guestOS = `ubuntu-64`";
    raw "            memsize = `4096`"; raw "            numvcpus = `2`";
    raw "            scsi0:0.present = `TRUE`"; raw "            scsi0:0.fileName = `disk.vmdk`";
    raw "            ethernet0.present = `TRUE`"; lit "        "] in
  config ← unwrap (parse_vmx_content content);
  assert_eq (vc_display_name config) (lit "TestVM") ;;
  assert_eq (vc_guest_os config) (lit "ubuntu-64") ;;
  assert_eq (vc_memory_mb config) 4096 ;;
  assert_eq (vc_num_cpus config) 2 ;;
  assert_eq (zlen (vc_disks config)) 1 ;;
  assert_eq (zlen (vc_networks config)) 1.

Definition vmx_tests : list test :=
  [test_parse_key_value_pairs_quoted;
   test_parse_key_value_pairs_unquoted;
   test_parse_key_value_pairs_skips_comments;
   test_parse_key_value_pairs_skips_empty_lines;
   test_extract_disks_scsi;
   test_extract_disks_multiple_controllers;
   test_extract_disks_skips_not_present;
   test_extract_disks_skips_iso_files;
   test_extract_networks;
   test_extract_networks_optional_fields;
   test_parse_vmx_content_defaults;
   test_parse_vmx_content_full].

(** ** vmdk/descriptor.rs *)

#[export] Instance extent_type_eq_dec : EqDecision ExtentType.
Proof. solve_decision. Defined.

Definition test_extent_type_from_str : test :=
  t ← unwrap (ExtentType_from_str (lit "FLAT")); assert_eq t Flat ;;
  t ← unwrap (ExtentType_from_str (lit "flat")); assert_eq t Flat ;;
  t ← unwrap (ExtentType_from_str (lit "SPARSE")); assert_eq t Sparse ;;
  t ← unwrap (ExtentType_from_str (lit "ZERO")); assert_eq t Zero ;;
  t ← unwrap (ExtentType_from_str (lit "VMFS")); assert_eq t Vmfs ;;
  t ← unwrap (ExtentType_from_str (lit "VMFSSPARSE")); assert_eq t VmfsSparse ;;
  t ← unwrap (ExtentType_from_str (lit "VMFSRDM")); assert_eq t VmfsRdm ;;
  t ← unwrap (ExtentType_from_str (lit "VMFSRAW")); assert_eq t VmfsRaw.

Definition test_extent_type_unknown : test :=
  assert (is_err (ExtentType_from_str (lit "UNKNOWN"))).

Definition test_parse_key_value_no_spaces : test :=
  '(key, value) ← unwrap_some (parse_key_value (lit "version=1"));
  assert_eq key (lit "version") ;;
  assert_eq value (lit "1").

Definition test_parse_key_value_with_spaces : test :=
  '(key, value) ← unwrap_some (parse_key_value (raw "ddb.geometry.cylinders = `52216`"));
  assert_eq key (lit "ddb.geometry.cylinders") ;;
  assert_eq value (lit "52216").

Definition test_parse_key_value_quoted : test :=
  '(key, value) ← unwrap_some (parse_key_value (raw "createType=`monolithicFlat`"));
  assert_eq key (lit "createType") ;;
  assert_eq value (lit "monolithicFlat").

Definition test_parse_extent_line : test :=
  extent ← unwrap (parse_extent_line (raw "RW 838860800 FLAT `TestVM-flat.vmdk` 0"));
  assert_eq (ex_access extent) (lit "RW") ;;
  assert_eq (ex_size_sectors extent) 838860800 ;;
  assert_eq (ex_extent_type extent) Flat ;;
  assert_eq (ex_filename extent) (lit "TestVM-flat.vmdk") ;;
  assert_eq (ex_offset extent) 0.

Definition test_parse_extent_line_sparse : test :=
  extent ← unwrap (parse_extent_line (raw "RW 12345 SPARSE `disk.vmdk` 128"));
  assert_eq (ex_access extent) (lit "RW") ;;
  assert_eq (ex_size_sectors extent) 12345 ;;
  assert_eq (ex_extent_type extent) Sparse ;;
  assert_eq (ex_filename extent) (lit "disk.vmdk") ;;
  assert_eq (ex_offset extent) 128.

Definition test_parse_quoted_filename_and_offset : test :=
  '(filename, offset) ← unwrap (parse_quoted_filename_and_offset (raw "`disk.vmdk` 0"));
  assert_eq filename (lit "disk.vmdk") ;;
  assert_eq offset (Some (lit "0")).

Definition test_parse_quoted_filename_with_spaces : test :=
  '(filename, offset) ← unwrap (parse_quoted_filename_and_offset (raw "`my disk file.vmdk` 128"));
  assert_eq filename (lit "my disk file.vmdk") ;;
  assert_eq offset (Some (lit "128")).

Definition test_parse_quoted_filename_no_offset : test :=
  '(filename, offset) ← unwrap (parse_quoted_filename_and_offset (raw "`sparse.vmdk`"));
  assert_eq filename (lit "sparse.vmdk") ;;
  assert_eq offset None.

Definition test_parse_extent_line_sparse_no_offset : test :=
  extent ← unwrap (parse_extent_line (raw "RW 12345 SPARSE `disk.vmdk`"));
  assert_eq (ex_access extent) (lit "RW") ;;
  assert_eq (ex_size_sectors extent) 12345 ;;
  assert_eq (ex_extent_type extent) Sparse ;;
  assert_eq (ex_filename extent) (lit "disk.vmdk") ;;
  assert_eq (ex_offset extent) 0.

Definition test_disk_size_calculations : test :=
  let descriptor :=
    {| vd_version := 1;
       vd_cid := 0;
       vd_parent_cid := 0xffffffff;
       vd_create_type := lit "test";
       vd_extents :=
         [{| ex_access := lit "RW"; ex_size_sectors := 1000; ex_extent_type := Flat;
             ex_filename := lit "a.vmdk"; ex_offset := 0 |};
          {| ex_access := lit "RW"; ex_size_sectors := 2000; ex_extent_type := Flat;
             ex_filename := lit "b.vmdk"; ex_offset := 0 |}];
       vd_cylinders := 0;
       vd_heads := 0;
       vd_sectors := 0;
       vd_hw_version := [];
       vd_adapter_type := [] |} in
  sectors ← disk_size_sectors descriptor; assert_eq sectors 3000 ;;
  size ← disk_size_bytes descriptor; assert_eq size (3000 * 512).

Definition descriptor_tests : list test :=
  [test_extent_type_from_str; test_extent_type_unknown; test_parse_key_value_no_spaces;
   test_parse_key_value_with_spaces; test_parse_key_value_quoted; test_parse_extent_line;
   test_parse_extent_line_sparse; test_parse_quoted_filename_and_offset;
   test_parse_quoted_filename_with_spaces; test_parse_quoted_filename_no_offset;
   test_parse_extent_line_sparse_no_offset; test_disk_size_calculations].
