(* ===== verification/TestsDisk.v ===== *)
(** * TestsDisk: the unit tests of vmdk/reader.rs, vmdk/sparse.rs and vmdk/stream.rs

    [test_compress_grain_basic] is left out: that zeros get shorter is a
    promise of the DEFLATE library. *)
From S2P Require Export Reader Sparse Stream Testing.

(** ** vmdk/reader.rs *)

Definition test_path : str := lit "/tmp/.tmp".

(** A temporary file with the pattern 0, 1, .., 255, 0, .. *)
Definition create_test_file (size : Z) : FileSystem :=
  let pattern := map (fun i => i mod 256) (seqZ 0 size) in
  fs_of [(test_path, pattern)].

Definition test_open_and_size : test :=
  let file := create_test_file 1024 in
  reader ← unwrap (VmdkReader_open test_path);
  assert_eq (VmdkReader_size reader) 1024.

Definition test_data_access : test :=
  let file := create_test_file 256 in
  reader ← unwrap (VmdkReader_open test_path);
  let data := VmdkReader_data reader in
  assert_eq (zlen data) 256 ;;
  assert (forallb (fun '(i, byte) => byte =? i mod 256) (combine (seqZ 0 (zlen data)) data)).

Definition test_chunk_iterator_basic : test :=
  let file := create_test_file 1000 in
  reader ← unwrap (VmdkReader_open test_path);
  chunks ← drain_from 1001 ChunkIterator_next (chunks reader 256);
  assert_eq (zlen chunks) 4.

Definition test_indexed_chunk_is_last : test :=
  let file := create_test_file 512 in
  reader ← unwrap (VmdkReader_open test_path);
  it ← indexed_chunks reader 256;
  chunks ← unwrap (drain_from 513 IndexedChunkIterator_next it);
  assert_eq (zlen chunks) 2 ;;
  c0 ← index chunks 0; assert (negb (ic_is_last c0)) ;;
  c1 ← index chunks 1; assert (ic_is_last c1).

Definition reader_tests : list test :=
  [test_open_and_size; test_data_access; test_chunk_iterator_basic; test_indexed_chunk_is_last].

(** ** vmdk/sparse.rs *)

Definition test_sparse_header_from_bytes : test :=
  let header_bytes := zeros 512 in
  let header_bytes := put_at 0 (u32_le VMDK_MAGIC) header_bytes in
  let header_bytes := put_at 4 (u32_le 1) header_bytes in
  let header_bytes := put_at 8 (u32_le 1) header_bytes in
  let header_bytes := put_at 12 (u64_le 1000) header_bytes in
  let header_bytes := put_at 20 (u64_le 128) header_bytes in
  let header_bytes := put_at 28 (u64_le 1) header_bytes in
  let header_bytes := put_at 36 (u64_le 20) header_bytes in
  let header_bytes := put_at 44 (u32_le 512) header_bytes in
  let header_bytes := put_at 48 (u64_le 0) header_bytes in
  let header_bytes := put_at 56 (u64_le 100) header_bytes in
  header ← unwrap (SparseHeader_from_bytes header_bytes);
  assert_eq (sh_version header) 1 ;;
  assert_eq (sh_capacity header) 1000 ;;
  assert_eq (sh_grain_size header) 128 ;;
  assert_eq (sh_gd_offset header) 100.

Definition test_invalid_magic : test :=
  let header_bytes := zeros 512 in
  let result := SparseHeader_from_bytes header_bytes in
  assert (is_err result).

Definition sparse_tests : list test := [test_sparse_header_from_bytes; test_invalid_magic].

(** ** vmdk/stream.rs *)

Definition test_vmdk_magic_value : test :=
  let magic_bytes := u32_le VMDK_MAGIC in
  assert_eq magic_bytes (lit "KDMV").

Definition test_sparse_extent_header_new : test :=
  let header := SparseExtentHeader_new (1024 * 1024 * 1024) in
  assert_eq (seh_magic header) VMDK_MAGIC ;;
  assert_eq (seh_version header) 3 ;;
  assert_eq (seh_grain_size header) DEFAULT_GRAIN_SIZE ;;
  assert_eq (seh_gd_offset header) GD_AT_END.

Definition test_marker_to_bytes : test :=
  let marker := Marker_new GrainTable 4 in
  let bytes := Marker_to_bytes marker in
  assert_eq (zlen bytes) SECTOR_SIZE ;;
  num_sectors ← read_u64 0 bytes;
  assert_eq num_sectors 4 ;;
  marker_type ← read_u32 12 bytes;
  assert_eq marker_type (MarkerType_as_u32 GrainTable).

Definition test_grain_marker_to_bytes : test :=
  let marker := GrainMarker_new 128 4096 in
  let bytes := GrainMarker_to_bytes marker in
  assert_eq (zlen bytes) 12 ;;
  lba ← read_u64 0 bytes;
  assert_eq lba 128 ;;
  size ← read_u32 8 bytes;
  assert_eq size 4096.

Definition test_stream_vmdk_writer_basic : test :=
  let buffer := cursor_new in
  writer ← unwrap (StreamVmdkWriter_new buffer (1024 * 1024 * 1024));
  result ← unwrap (StreamVmdkWriter_finish writer);
  let data := cursor_buf result in
  assert (SECTOR_SIZE * 4 <=? zlen data) ;;
  magic ← read_u32 0 data;
  assert_eq magic VMDK_MAGIC.

Definition stream_tests : list test :=
  [test_vmdk_magic_value; test_sparse_extent_header_new; test_marker_to_bytes;
   test_grain_marker_to_bytes; test_stream_vmdk_writer_basic].
