(* ===== verification/TestsOva.v ===== *)
(** * TestsOva: the unit tests of ova.rs and pipeline.rs

    Hashes are those of [sha256]; the clock of the headers is at zero; the
    items of a parallel run complete in reverse order. *)
From S2P Require Export Sha256 PipelineSpec Testing.

#[export] Instance test_sha2 : Sha2 := sha256_sha2.
#[export] Instance test_rayon : Rayon := backwards.

(** ** ova.rs *)

Definition test_sha256_computation : test :=
  let data := lit "hello world" in
  let hash := compute_sha256 data in
  assert_eq hash (lit "b94d27b9934d3e08a52e52d7da7dabfac484efe37a5380ee9088f7ace2efcde9").

Definition test_sha256_empty : test :=
  let data := lit "" in
  let hash := compute_sha256 data in
  assert_eq hash (lit "e3b0c44298fc1c149afbf4c8996fb92427ae41e4649b934ca495991b7852b855").

(** A growing vector is a cursor at its end. *)
Definition test_sha256_writer : test :=
  let buffer := cursor_new in
  let writer := Sha256Writer_new buffer in
  '(_, writer) ← call (write_all (lit "hello ")) writer;
  '(_, writer) ← call (write_all (lit "world")) writer;
  let '(_, hash, bytes) := Sha256Writer_finish writer in
  assert_eq hash (lit "b94d27b9934d3e08a52e52d7da7dabfac484efe37a5380ee9088f7ace2efcde9") ;;
  assert_eq bytes 11.

Definition test_tar_header_name : test :=
  header ← create_tar_header 0 (lit "test.ovf") 100;
  name ← read_slice 0 8 header; assert_eq name (lit "test.ovf") ;;
  nul ← index header 8; assert_eq nul 0.

Definition test_tar_header_mode : test :=
  header ← create_tar_header 0 (lit "test.ovf") 100;
  mode ← read_slice 100 107 header; assert_eq mode (lit "0000644").

Definition test_tar_header_size : test :=
  header ← create_tar_header 0 (lit "test.ovf") 1234;
  size ← read_slice 124 135 header; assert_eq size (lit "00000002322").

Definition test_tar_header_type_flag : test :=
  header ← create_tar_header 0 (lit "test.ovf") 100;
  flag ← index header 156; assert_eq flag c_zero.

Definition test_tar_header_ustar : test :=
  header ← create_tar_header 0 (lit "test.ovf") 100;
  magic ← read_slice 257 263 header; assert_eq magic (lit "ustar" ++ [0]) ;;
  version ← read_slice 263 265 header; assert_eq version (lit "00").

Definition test_ova_tar_structure : test :=
  let buffer := cursor_new in
  writer ← unwrap (OvaWriter_new buffer);
  '(_, writer) ← call (add_file 0 (lit "test.txt") (lit "hello")) writer;
  result ← unwrap (OvaWriter_finish 0 writer);
  let data := cursor_buf result in
  name ← read_slice 0 8 data; assert_eq name (lit "test.txt") ;;
  content ← read_slice 512 517 data; assert_eq content (lit "hello").

(** [trim_matches('\0')]. *)
Fixpoint trim_nul_start (s : str) : str :=
  match s with c :: s' => if c =? 0 then trim_nul_start s' else s | [] => [] end.
Definition trim_nul (s : str) : str := rev (trim_nul_start (rev (trim_nul_start s))).

(** The helper that finds a member: a round for every header it passes. *)
Fixpoint find_file_from (fuel : nat) (data : bytes) (filename : str) (pos : Z) : Result (option Z) :=
  match fuel with
  | O => Diverge
  | S f =>
      if zlen data <? pos + 512 then Ok None else
      block ← read_slice pos (pos + 512) data;
      if forallb (fun b => b =? 0) block then Ok None else
      name_field ← read_slice pos (pos + 100) data;
      let name_end := default 100 (find_char 0 name_field) in
      name_bytes ← read_slice pos (pos + name_end) data;
      match utf8_decode name_bytes with
      | None => Ok None
      | Some name =>
          if bool_decide (name = filename) then Ok (Some pos) else
          size_field ← read_slice (pos + 124) (pos + 135) data;
          match utf8_decode size_field with
          | None => Ok None
          | Some size_str =>
              match parse_uint 64 8 (trim (trim_nul size_str)) with
              | None => Ok None
              | Some size =>
                  let content_blocks := (size + 511) / 512 in
                  find_file_from f data filename (pos + 512 + content_blocks * 512)
              end
          end
      end
  end.

Definition find_file_in_tar (data : bytes) (filename : str) : Result (option Z) :=
  find_file_from (S (length data)) data filename 0.

(** The 200 bytes are valid UTF-8, so that [from_utf8_lossy] is the decoding. *)
Definition test_ova_manifest_generation : test :=
  let buffer := cursor_new in
  writer ← unwrap (OvaWriter_new buffer);
  '(_, writer) ← call (add_file 0 (lit "file1.ovf") (lit "content1")) writer;
  '(_, writer) ← call (add_file 0 (lit "file2.vmdk") (lit "content2")) writer;
  result ← unwrap (OvaWriter_finish 0 writer);
  let data := cursor_buf result in
  manifest_header_pos ← find_file_in_tar data (lit "manifest.mf");
  assert (bool_decide (is_Some manifest_header_pos)) ;;
  header_pos ← unwrap_some manifest_header_pos;
  let manifest_pos := header_pos + 512 in
  manifest_bytes ← read_slice manifest_pos (manifest_pos + 200) data;
  manifest_content ← unwrap_some (utf8_decode manifest_bytes);
  assert (contains (lit "SHA256(file1.ovf)= ") manifest_content) ;;
  assert (contains (lit "SHA256(file2.vmdk)= ") manifest_content).

Definition test_ova_streaming_write : test :=
  let buffer := cursor_new in
  ova_writer ← unwrap (OvaWriter_new buffer);
  let data := lit "streaming content" in
  '(stream_writer, _) ← call (add_file_streaming 0 (lit "stream.txt") (zlen data)) ova_writer;
  '(_, stream_writer) ← call (write_all data) stream_writer;
  '(_, stream_writer) ← call StreamingFileWriter_finish stream_writer;
  let ova_writer := sfw_ova_writer stream_writer in
  result ← unwrap (OvaWriter_finish 0 ova_writer);
  let archive_data := cursor_buf result in
  name ← read_slice 0 10 archive_data; assert_eq name (lit "stream.txt") ;;
  content ← read_slice 512 (512 + zlen data) archive_data; assert_eq content data.

Definition test_ova_streaming_size_mismatch : test :=
  let buffer := cursor_new in
  ova_writer ← unwrap (OvaWriter_new buffer);
  '(stream_writer, _) ← call (add_file_streaming 0 (lit "test.txt") 100) ova_writer;
  '(_, stream_writer) ← call (write_all (lit "short")) stream_writer;
  let result := fst (StreamingFileWriter_finish stream_writer) in
  assert (is_err result).

Definition test_ova_padding : test :=
  let buffer := cursor_new in
  writer ← unwrap (OvaWriter_new buffer);
  '(_, writer) ← call (add_file 0 (lit "test.txt") (lit "hello")) writer;
  result ← unwrap (OvaWriter_finish 0 writer);
  let data := cursor_buf result in
  assert_eq (zlen data mod 512) 0.

Definition ova_tests : list test :=
  [test_sha256_computation; test_sha256_empty; test_sha256_writer; test_tar_header_name;
   test_tar_header_mode; test_tar_header_size; test_tar_header_type_flag; test_tar_header_ustar;
   test_ova_tar_structure; test_ova_manifest_generation; test_ova_streaming_write;
   test_ova_streaming_size_mismatch; test_ova_padding].

(** ** pipeline.rs *)

#[export] Instance compression_level_eq_dec : EqDecision CompressionLevel.
Proof. solve_decision. Defined.

(** The literal [0.5]. *)
Definition f64_half : f64 := Finite (2 ^ 1073).

Definition set_processed_chunks (n : Z) (p : PipelineProgress) : PipelineProgress :=
  Build_PipelineProgress (pp_total_chunks p) n (pp_total_bytes p) (pp_processed_bytes p) (pp_compressed_bytes p).
Definition set_processed_bytes (n : Z) (p : PipelineProgress) : PipelineProgress :=
  Build_PipelineProgress (pp_total_chunks p) (pp_processed_chunks p) (pp_total_bytes p) n (pp_compressed_bytes p).
Definition set_compressed_bytes (n : Z) (p : PipelineProgress) : PipelineProgress :=
  Build_PipelineProgress (pp_total_chunks p) (pp_processed_chunks p) (pp_total_bytes p) (pp_processed_bytes p) n.

Definition test_compression_level_to_zlib : test :=
  assert_eq (to_zlib_level Fast) 1 ;;
  assert_eq (to_zlib_level Balanced) 6 ;;
  assert_eq (to_zlib_level Max) 9.

Definition test_compression_level_default : test :=
  assert_eq CompressionLevel_default Balanced.

Definition test_pipeline_config_default : test :=
  let config := PipelineConfig_default in
  assert_eq (pc_chunk_size config) (1024 * 1024) ;;
  assert_eq (pc_compression_level config) Balanced ;;
  assert_eq (pc_num_threads config) 0.

Definition test_pipeline_config_new : test :=
  let config := PipelineConfig_new 4096 Max 4 in
  assert_eq (pc_chunk_size config) 4096 ;;
  assert_eq (pc_compression_level config) Max ;;
  assert_eq (pc_num_threads config) 4.

Definition test_pipeline_progress_percent_complete : test :=
  let progress := PipelineProgress_new 10 1000 in
  assert_eq (PipelineProgress_percent_complete progress) (f64_lit 0) ;;
  let progress := set_processed_chunks 5 progress in
  assert_eq (PipelineProgress_percent_complete progress) (f64_lit 50) ;;
  let progress := set_processed_chunks 10 progress in
  assert_eq (PipelineProgress_percent_complete progress) (f64_lit 100).

Definition test_pipeline_progress_percent_complete_empty : test :=
  let progress := PipelineProgress_new 0 0 in
  assert_eq (PipelineProgress_percent_complete progress) (f64_lit 100).

Definition test_pipeline_progress_compression_ratio : test :=
  let progress := PipelineProgress_new 10 1000 in
  assert_eq (compression_ratio progress) (f64_lit 1) ;;
  let progress := set_processed_bytes 1000 progress in
  let progress := set_compressed_bytes 500 progress in
  assert_eq (compression_ratio progress) f64_half ;;
  let progress := set_compressed_bytes 1000 progress in
  assert_eq (compression_ratio progress) (f64_lit 1).

Definition test_progress_tracker : test :=
  let tracker := ProgressTracker_new 4 400 in
  assert (negb (is_complete tracker)) ;;
  '(_, tracker) ← call (tracker_update (E:=Error) 100 50) tracker;
  let snap := snapshot tracker in
  assert_eq (pp_processed_chunks snap) 1 ;;
  assert_eq (pp_processed_bytes snap) 100 ;;
  assert_eq (pp_compressed_bytes snap) 50 ;;
  '(_, tracker) ← call (tracker_update (E:=Error) 100 60) tracker;
  '(_, tracker) ← call (tracker_update (E:=Error) 100 40) tracker;
  '(_, tracker) ← call (tracker_update (E:=Error) 100 50) tracker;
  assert (is_complete tracker) ;;
  let final_snap := snapshot tracker in
  assert_eq (pp_processed_chunks final_snap) 4 ;;
  assert_eq (pp_processed_bytes final_snap) 400 ;;
  assert_eq (pp_compressed_bytes final_snap) 200 ;;
  assert_eq (PipelineProgress_percent_complete final_snap) (f64_lit 100) ;;
  assert_eq (compression_ratio final_snap) f64_half.

Definition test_pipeline_compression_level : test :=
  let config := PipelineConfig_new 1024 Max 0 in
  pipeline ← Pipeline_new config;
  assert_eq (compression_level pipeline) 9.

Definition test_pipeline_chunk_size : test :=
  let config := PipelineConfig_new 4096 Fast 0 in
  pipeline ← Pipeline_new config;
  assert_eq (pl_chunk_size pipeline) 4096.

Definition test_pipeline_process_empty : test :=
  pipeline ← Pipeline_default;
  let chunks := [] in
  results ← unwrap (process pipeline chunks (fun idx _data => Ok idx));
  assert (bool_decide (results = [])).

Definition test_pipeline_processes_chunks : test :=
  pipeline ← Pipeline_default;
  let chunks := [[1; 2; 3]; [4; 5; 6]; [7; 8; 9]; [10; 11; 12]] in
  results ← unwrap (process pipeline chunks (fun _idx data => Ok (zlen data)));
  assert_eq (zlen results) 4 ;;
  assert (forallb (fun len => len =? 3) results).

Definition test_pipeline_preserves_order : test :=
  pipeline ← Pipeline_default;
  let chunks := map (fun i => [i]) (seqZ 0 10) in
  results ← unwrap (process pipeline chunks (fun _idx data => index data 0));
  assert_eq (zlen results) 10 ;;
  assert (forallb (fun '(i, val) => val =? i) (combine (seqZ 0 10) results)).

Definition test_pipeline_with_custom_threads : test :=
  let config := PipelineConfig_new 1024 Balanced 2 in
  pipeline ← Pipeline_new config;
  let chunks := [[1]; [2]; [3]; [4]] in
  results ← unwrap (process pipeline chunks (fun _idx data => d ← index data 0; checked 8 (d * 2)));
  assert_eq results [2; 4; 6; 8].

Definition test_pipeline_error_propagation : test :=
  pipeline ← Pipeline_default;
  let chunks := [[1]; [2]; [3]] in
  let result := process pipeline chunks (fun idx _data =>
    if (idx =? 1)%nat then Err (Error.pipeline (lit "test error")) else Ok 0) in
  assert (is_err result) ;;
  err ← unwrap_err result;
  assert (contains (lit "test error") (Error.to_string err)).

Definition test_pipeline_with_progress_tracking : test :=
  pipeline ← Pipeline_default;
  let tracker := ProgressTracker_new 3 300 in
  let chunks := [zeros 100; zeros 100; zeros 100] in
  '(results, tracker) ← call (process_with_progress pipeline chunks (fun _idx data =>
    let compressed_size := zlen data / 2 in
    Ok (zlen data, compressed_size))) tracker;
  assert_eq (zlen results) 3 ;;
  assert (is_complete tracker) ;;
  let snap := snapshot tracker in
  assert_eq (pp_processed_bytes snap) 300 ;;
  assert_eq (pp_compressed_bytes snap) 150 ;;
  assert_eq (compression_ratio snap) f64_half.

Definition pipeline_tests : list test :=
  [test_compression_level_to_zlib; test_compression_level_default; test_pipeline_config_default;
   test_pipeline_config_new; test_pipeline_progress_percent_complete;
   test_pipeline_progress_percent_complete_empty; test_pipeline_progress_compression_ratio;
   test_progress_tracker; test_pipeline_compression_level; test_pipeline_chunk_size;
   test_pipeline_process_empty; test_pipeline_processes_chunks; test_pipeline_preserves_order;
   test_pipeline_with_custom_threads; test_pipeline_error_propagation;
   test_pipeline_with_progress_tracking].
