(* ===== verification/TestsOvf.v ===== *)
(** * TestsOvf: the unit tests of ovf.rs *)
From S2P Require Export Ovf Testing.

Definition create_test_config : VmxConfig :=
  {| vc_display_name := lit "TestVM";
     vc_guest_os := lit "ubuntu-64";
     vc_memory_mb := 4096;
     vc_num_cpus := 2;
     vc_disks := [{| dc_file_name := lit "disk.vmdk"; dc_controller := lit "scsi0"; dc_unit := 0 |}];
     vc_networks := [{| nc_name := lit "ethernet0"; nc_virtual_dev := Some (lit "vmxnet3");
                        nc_network_name := Some (lit "NAT") |}];
     vc_raw := ∅ |}.

(** An assignment to [config.networks]. *)
Definition set_networks (networks : list NetworkConfig) (c : VmxConfig) : VmxConfig :=
  Build_VmxConfig (vc_display_name c) (vc_guest_os c) (vc_memory_mb c) (vc_num_cpus c) (vc_disks c)
    networks (vc_raw c).

Definition test_escape_xml : test :=
  assert_eq (escape_xml (lit "hello")) (lit "hello") ;;
  assert_eq (escape_xml (lit "<test>")) (lit "&lt;test&gt;") ;;
  assert_eq (escape_xml (lit "a&b")) (lit "a&amp;b") ;;
  assert_eq (escape_xml (raw "`quote`")) (lit "&quot;quote&quot;") ;;
  assert_eq (escape_xml (lit "it's")) (lit "it&apos;s").

Definition test_sanitize_id : test :=
  assert_eq (sanitize_id (lit "TestVM")) (lit "TestVM") ;;
  assert_eq (sanitize_id (lit "Test VM")) (lit "Test_VM") ;;
  assert_eq (sanitize_id (lit "VM<>123")) (lit "VM__123") ;;
  assert_eq (sanitize_id (lit "my-vm_01")) (lit "my-vm_01").

Definition test_map_guest_os_ubuntu : test :=
  let '(id, os_type) := map_guest_os (lit "ubuntu-64") in
  assert_eq id 96 ;;
  assert_eq os_type (lit "ubuntu64Guest").

Definition test_map_guest_os_windows : test :=
  let '(id, os_type) := map_guest_os (lit "windows10-64") in
  assert_eq id 109 ;;
  assert_eq os_type (lit "windows9_64Guest").

Definition test_map_guest_os_unknown : test :=
  let '(id, os_type) := map_guest_os (lit "unknownOS") in
  assert_eq id 1 ;;
  assert_eq os_type (lit "otherGuest").

Definition test_ovf_builder_new : test :=
  let config := create_test_config in
  let builder := OvfBuilder_new config in
  assert_eq (vc_display_name (ob_config builder)) (lit "TestVM").

Definition test_build_basic_ovf : test :=
  let config := create_test_config in
  let builder := OvfBuilder_new config in
  let disks :=
    [{| di_id := lit "vmdisk1"; di_file_ref := lit "file1";
        di_capacity_bytes := 10 * 1024 * 1024 * 1024; di_file_size_bytes := 1024 * 1024 * 100 |}] in
  ovf ← unwrap (build builder disks);
  assert (starts_with (raw "<?xml version=`1.0` encoding=`UTF-8`?>") ovf) ;;
  assert (contains (lit "xmlns:ovf=") ovf) ;;
  assert (contains (lit "xmlns:rasd=") ovf) ;;
  assert (contains (lit "xmlns:vssd=") ovf) ;;
  assert (contains (lit "xmlns:vmw=") ovf) ;;
  assert (contains (lit "xmlns:xsi=") ovf).

Definition test_build_envelope_open : test :=
  let config := create_test_config in
  let builder := OvfBuilder_new config in
  let envelope := build_envelope_open in
  assert (contains (lit "ovf:Envelope") envelope) ;;
  assert (contains (lit "http://schemas.dmtf.org/ovf/envelope/1") envelope).

Definition test_build_references : test :=
  let config := create_test_config in
  let builder := OvfBuilder_new config in
  let disks :=
    [{| di_id := lit "vmdisk1"; di_file_ref := lit "file1";
        di_capacity_bytes := 10737418240; di_file_size_bytes := 104857600 |}] in
  let refs := build_references builder disks in
  assert (contains (lit "ovf:References") refs) ;;
  assert (contains (lit "ovf:File") refs) ;;
  assert (contains (raw "ovf:href=`disk.vmdk`") refs) ;;
  assert (contains (raw "ovf:id=`file1`") refs) ;;
  assert (contains (raw "ovf:size=`104857600`") refs).

Definition test_build_disk_section : test :=
  let config := create_test_config in
  let builder := OvfBuilder_new config in
  let disks :=
    [{| di_id := lit "vmdisk1"; di_file_ref := lit "file1";
        di_capacity_bytes := 10737418240; di_file_size_bytes := 104857600 |}] in
  let section := build_disk_section disks in
  assert (contains (lit "ovf:DiskSection") section) ;;
  assert (contains (lit "ovf:Disk") section) ;;
  assert (contains (raw "ovf:diskId=`vmdisk1`") section) ;;
  assert (contains (raw "ovf:capacity=`10737418240`") section) ;;
  assert (contains (lit "vmdk.html#streamOptimized") section).

Definition test_build_network_section : test :=
  let config := create_test_config in
  let builder := OvfBuilder_new config in
  let section := build_network_section builder in
  assert (contains (lit "ovf:NetworkSection") section) ;;
  assert (contains (lit "ovf:Network") section) ;;
  assert (contains (raw "ovf:name=`NAT`") section).

Definition test_build_network_section_default : test :=
  let config := create_test_config in
  let config := set_networks [] config in
  let builder := OvfBuilder_new config in
  let section := build_network_section builder in
  assert (contains (lit "ovf:NetworkSection") section) ;;
  assert (contains (raw "ovf:name=`VM Network`") section).

Definition test_build_virtual_system : test :=
  let config := create_test_config in
  let builder := OvfBuilder_new config in
  let disks :=
    [{| di_id := lit "vmdisk1"; di_file_ref := lit "file1";
        di_capacity_bytes := 10737418240; di_file_size_bytes := 104857600 |}] in
  vs ← build_virtual_system builder disks;
  assert (contains (lit "ovf:VirtualSystem") vs) ;;
  assert (contains (raw "ovf:id=`TestVM`") vs) ;;
  assert (contains (lit "<ovf:Name>TestVM</ovf:Name>") vs).

Definition test_build_hardware_section : test :=
  let config := create_test_config in
  let builder := OvfBuilder_new config in
  let disks :=
    [{| di_id := lit "vmdisk1"; di_file_ref := lit "file1";
        di_capacity_bytes := 10737418240; di_file_size_bytes := 104857600 |}] in
  hw ← build_hardware_section builder disks;
  assert (contains (lit "ovf:VirtualHardwareSection") hw) ;;
  assert (contains (lit "<rasd:ResourceType>3</rasd:ResourceType>") hw) ;;
  assert (contains (lit "<rasd:VirtualQuantity>2</rasd:VirtualQuantity>") hw) ;;
  assert (contains (lit "<rasd:ResourceType>4</rasd:ResourceType>") hw) ;;
  assert (contains (lit "<rasd:VirtualQuantity>4096</rasd:VirtualQuantity>") hw) ;;
  assert (contains (lit "<rasd:ResourceType>6</rasd:ResourceType>") hw) ;;
  assert (contains (lit "<rasd:ResourceType>17</rasd:ResourceType>") hw) ;;
  assert (contains (lit "<rasd:ResourceType>10</rasd:ResourceType>") hw).

Definition test_build_cpu_item : test :=
  let config := create_test_config in
  let builder := OvfBuilder_new config in
  let cpu := build_cpu_item builder in
  assert (contains (lit "<rasd:ResourceType>3</rasd:ResourceType>") cpu) ;;
  assert (contains (lit "<rasd:VirtualQuantity>2</rasd:VirtualQuantity>") cpu) ;;
  assert (contains (lit "hertz * 10^6") cpu).

Definition test_build_memory_item : test :=
  let config := create_test_config in
  let builder := OvfBuilder_new config in
  let mem := build_memory_item builder in
  assert (contains (lit "<rasd:ResourceType>4</rasd:ResourceType>") mem) ;;
  assert (contains (lit "<rasd:VirtualQuantity>4096</rasd:VirtualQuantity>") mem) ;;
  assert (contains (lit "byte * 2^20") mem).

Definition test_build_scsi_controller : test :=
  let config := create_test_config in
  let builder := OvfBuilder_new config in
  let scsi := build_scsi_controller in
  assert (contains (lit "<rasd:ResourceType>6</rasd:ResourceType>") scsi) ;;
  assert (contains (lit "lsilogic") scsi) ;;
  assert (contains (lit "SCSI Controller 0") scsi).

Definition test_disk_id_with_special_characters_escaped : test :=
  let config := create_test_config in
  let builder := OvfBuilder_new config in
  let disks :=
    [{| di_id := raw "disk<>&`'1"; di_file_ref := lit "file1";
        di_capacity_bytes := 10737418240; di_file_size_bytes := 104857600 |}] in
  ovf ← unwrap (build builder disks);
  assert (contains (lit "ovf:/disk/disk&lt;&gt;&amp;&quot;&apos;1") ovf) ;;
  assert (contains (raw "ovf:diskId=`disk&lt;&gt;&amp;&quot;&apos;1`") ovf).

Definition test_adapter_type_with_special_characters_escaped : test :=
  let config := create_test_config in
  let config :=
    match vc_networks config with
    | network :: rest =>
        set_networks ({| nc_name := nc_name network; nc_virtual_dev := Some (lit "E1000<script>");
                         nc_network_name := nc_network_name network |} :: rest) config
    | [] => config
    end in
  let builder := OvfBuilder_new config in
  let disks :=
    [{| di_id := lit "vmdisk1"; di_file_ref := lit "file1";
        di_capacity_bytes := 10737418240; di_file_size_bytes := 104857600 |}] in
  ovf ← unwrap (build builder disks);
  assert (contains (lit "E1000&lt;script&gt;") ovf).

Definition ovf_tests : list test :=
  [test_escape_xml; test_sanitize_id; test_map_guest_os_ubuntu; test_map_guest_os_windows;
   test_map_guest_os_unknown; test_ovf_builder_new; test_build_basic_ovf;
   test_build_envelope_open; test_build_references; test_build_disk_section;
   test_build_network_section; test_build_network_section_default; test_build_virtual_system;
   test_build_hardware_section; test_build_cpu_item; test_build_memory_item;
   test_build_scsi_controller; test_disk_id_with_special_characters_escaped;
   test_adapter_type_with_special_characters_escaped].
