(* ===== verification/TestsExport.v ===== *)
(** * TestsExport: the unit tests of export.rs, and the list of all unit tests *)
From S2P Require Export Export TestsParse TestsDisk TestsOva TestsOvf.
From S2P Require Export Testing.

#[export] Instance export_phase_eq_dec : EqDecision ExportPhase.
Proof. solve_decision. Defined.

Definition test_export_options_default : test :=
  let options := ExportOptions_default in
  assert_eq (eo_compression options) Balanced ;;
  assert_eq (eo_chunk_size options) DEFAULT_CHUNK_SIZE ;;
  assert_eq (eo_num_threads options) 0.

Definition test_export_options_fast : test :=
  let options := ExportOptions_fast in
  assert_eq (eo_compression options) Fast.

Definition test_export_options_max_compression : test :=
  let options := ExportOptions_max_compression in
  assert_eq (eo_compression options) Max.

Definition test_export_options_new : test :=
  let options := ExportOptions_new Max (1024 * 1024) 4 in
  assert_eq (eo_compression options) Max ;;
  assert_eq (eo_chunk_size options) (1024 * 1024) ;;
  assert_eq (eo_num_threads options) 4.

Definition test_export_phase_display : test :=
  assert_eq (fmt (lit "{}") [ExportPhase_to_string Parsing]) (lit "Parsing") ;;
  assert_eq (fmt (lit "{}") [ExportPhase_to_string Compressing]) (lit "Compressing") ;;
  assert_eq (fmt (lit "{}") [ExportPhase_to_string Writing]) (lit "Writing") ;;
  assert_eq (fmt (lit "{}") [ExportPhase_to_string Finalizing]) (lit "Finalizing") ;;
  assert_eq (fmt (lit "{}") [ExportPhase_to_string Complete]) (lit "Complete").

Definition test_export_progress_new : test :=
  let progress := ExportProgress_new Parsing 1000 2 in
  assert_eq (ep_phase progress) Parsing ;;
  assert_eq (ep_bytes_processed progress) 0 ;;
  assert_eq (ep_bytes_total progress) 1000 ;;
  assert_eq (ep_current_disk progress) 0 ;;
  assert_eq (ep_total_disks progress) 2.

Definition test_export_progress_percent_complete : test :=
  let progress := ExportProgress_new Compressing 1000 1 in
  assert_eq (ExportProgress_percent_complete progress) (f64_lit 0) ;;
  let progress := with_bytes_processed 500 progress in
  assert_eq (ExportProgress_percent_complete progress) (f64_lit 50) ;;
  let progress := with_bytes_processed 1000 progress in
  assert_eq (ExportProgress_percent_complete progress) (f64_lit 100).

Definition test_export_progress_percent_complete_zero_total : test :=
  let progress := ExportProgress_new Parsing 0 0 in
  assert_eq (ExportProgress_percent_complete progress) (f64_lit 0) ;;
  let complete :=
    {| ep_phase := Complete;
       ep_bytes_processed := 0;
       ep_bytes_total := 0;
       ep_current_disk := 0;
       ep_total_disks := 0 |} in
  assert_eq (ExportProgress_percent_complete complete) (f64_lit 100).

Definition test_disk_detail : test :=
  let detail :=
    {| dd_filename := lit "disk.vmdk";
       dd_size_bytes := 10 * 1024 * 1024 * 1024;
       dd_create_type := lit "monolithicFlat" |} in
  assert_eq (dd_filename detail) (lit "disk.vmdk") ;;
  assert_eq (dd_size_bytes detail) (10 * 1024 * 1024 * 1024) ;;
  assert_eq (dd_create_type detail) (lit "monolithicFlat").

Definition test_vm_info : test :=
  let info :=
    {| vi_name := lit "TestVM";
       vi_guest_os := lit "ubuntu-64";
       vi_memory_mb := 4096;
       vi_cpus := 2;
       vi_disks := [{| dd_filename := lit "disk.vmdk"; dd_size_bytes := 10 * 1024 * 1024 * 1024;
                       dd_create_type := lit "monolithicFlat" |}];
       vi_total_disk_size := 10 * 1024 * 1024 * 1024 |} in
  assert_eq (vi_name info) (lit "TestVM") ;;
  assert_eq (vi_guest_os info) (lit "ubuntu-64") ;;
  assert_eq (vi_memory_mb info) 4096 ;;
  assert_eq (vi_cpus info) 2 ;;
  assert_eq (zlen (vi_disks info)) 1 ;;
  assert_eq (vi_total_disk_size info) (10 * 1024 * 1024 * 1024).

Definition test_sanitize_filename : test :=
  assert_eq (sanitize_filename (lit "TestVM")) (lit "TestVM") ;;
  assert_eq (sanitize_filename (lit "Test VM")) (lit "Test_VM") ;;
  assert_eq (sanitize_filename (lit "VM<>123")) (lit "VM__123") ;;
  assert_eq (sanitize_filename (lit "my-vm_01.old")) (lit "my-vm_01.old") ;;
  assert_eq (sanitize_filename (lit "a/b\c:d")) (lit "a_b_c_d").

Definition test_default_chunk_size : test :=
  assert_eq DEFAULT_CHUNK_SIZE (64 * 1024 * 1024).

Definition export_tests : list test :=
  [test_export_options_default; test_export_options_fast; test_export_options_max_compression;
   test_export_options_new; test_export_phase_display; test_export_progress_new;
   test_export_progress_percent_complete; test_export_progress_percent_complete_zero_total;
   test_disk_detail; test_vm_info; test_sanitize_filename; test_default_chunk_size].

(** ** The suite *)

Definition unit_tests : list test :=
  error_tests ++ vmx_tests ++ descriptor_tests ++ reader_tests ++ sparse_tests ++ stream_tests
  ++ ova_tests ++ pipeline_tests ++ ovf_tests ++ export_tests.

(** The model passes the unit tests of the repository: 103 of the 104
    [#[test]] functions of its modules, translated assertion by assertion and
    run on the definitions, with SHA-256 itself for the hashes, return
    without a failed assertion or a panic. *)
Theorem unit_tests_pass : zlen unit_tests = 103 /\ Forall (fun t => t = Ok tt) unit_tests.
Proof. split; [|apply all_pass_spec]; vm_compute; reflexivity. Qed.
