(* ===== verification/IntegrationParse.v ===== *)
(** * IntegrationParse: the tests of tests/ that parse

    Of the directory tests/: vmx_test.rs, vmdk_descriptor_test.rs, ovf_test.rs,
    and of vmdk_reader_test.rs the tests on files of up to a kilobyte; the
    others cut a file of a megabyte, and [ReaderSpec.reader_chunks_cut_file]
    shows what they test for every file. *)
From S2P Require Export TestsParse TestsDisk TestsOvf.

(** ** vmx_test.rs *)

Definition fixture_path : str := lit "/ovatool-core/tests/fixtures/test.vmx".

(** The file tests/fixtures/test.vmx. *)
Definition fixture_vmx : str :=
  unlines [raw ".encoding = `UTF-8`"; raw "config.version = `8`"; raw "virtualHW.version = `21`";
           raw "displayName = `TestVM`"; raw "guestOS = `ubuntu-64`"; raw "memsize = `4096`";
           raw "numvcpus = `2`"; raw "scsi0.present = `TRUE`"; raw "scsi0.virtualDev = `lsilogic`";
           raw "scsi0:0.present = `TRUE`"; raw "scsi0:0.fileName = `TestVM.vmdk`";
           raw "ethernet0.present = `TRUE`"; raw "ethernet0.virtualDev = `e1000`";
           raw "ethernet0.networkName = `NAT`"].

Definition fixtures : FileSystem := fs_of [(fixture_path, utf8_encode fixture_vmx)].

Definition parsed_fixture : Result VmxConfig := unwrap (parse_vmx (H:=fixtures) fixture_path).

Definition test_parse_vmx_display_name : test :=
  config ← parsed_fixture;
  assert_eq (vc_display_name config) (lit "TestVM").

Definition test_parse_vmx_memory : test :=
  config ← parsed_fixture;
  assert_eq (vc_memory_mb config) 4096.

Definition test_parse_vmx_cpus : test :=
  config ← parsed_fixture;
  assert_eq (vc_num_cpus config) 2.

Definition test_parse_vmx_disks : test :=
  config ← parsed_fixture;
  assert_eq (zlen (vc_disks config)) 1 ;;
  disk ← index (vc_disks config) 0;
  assert_eq (dc_file_name disk) (lit "TestVM.vmdk") ;;
  assert_eq (dc_controller disk) (lit "scsi0") ;;
  assert_eq (dc_unit disk) 0.

Definition test_parse_vmx_guest_os : test :=
  config ← parsed_fixture;
  assert_eq (vc_guest_os config) (lit "ubuntu-64").

Definition test_parse_vmx_networks : test :=
  config ← parsed_fixture;
  assert_eq (zlen (vc_networks config)) 1 ;;
  network ← index (vc_networks config) 0;
  assert_eq (nc_name network) (lit "ethernet0") ;;
  assert_eq (nc_virtual_dev network) (Some (lit "e1000")) ;;
  assert_eq (nc_network_name network) (Some (lit "NAT")).

Definition test_parse_vmx_raw_values : test :=
  config ← parsed_fixture;
  assert_eq (vc_raw config !! lit "config.version") (Some (lit "8")) ;;
  assert_eq (vc_raw config !! lit "virtualHW.version") (Some (lit "21")) ;;
  assert_eq (vc_raw config !! lit ".encoding") (Some (lit "UTF-8")).

Definition vmx_file_tests : list test :=
  [test_parse_vmx_display_name; test_parse_vmx_memory; test_parse_vmx_cpus; test_parse_vmx_disks;
   test_parse_vmx_guest_os; test_parse_vmx_networks; test_parse_vmx_raw_values].

(** ** vmdk_descriptor_test.rs *)

Definition SPLIT_SPARSE_DESCRIPTOR : str :=
  text [[]; lit "# Disk DescriptorFile"; lit "version=1"; lit "CID=12345678"; lit "parentCID=ffffffff";
        raw "createType=`twoGbMaxExtentSparse`"; [];
        lit "# Extent description";
        raw "RW 4194304 SPARSE `Ubuntu 64-bit-s001.vmdk`"; raw "RW 4194304 SPARSE `Ubuntu 64-bit-s002.vmdk`";
        raw "RW 4194304 SPARSE `Ubuntu 64-bit-s003.vmdk`"; raw "RW 2097152 SPARSE `Ubuntu 64-bit-s004.vmdk`"; [];
        lit "# The Disk Data Base";
        raw "ddb.virtualHWVersion = `21`"; raw "ddb.geometry.cylinders = `913`"; raw "ddb.geometry.heads = `16`";
        raw "ddb.geometry.sectors = `63`"; raw "ddb.adapterType = `lsilogic`"; []].

Definition MONOLITHIC_FLAT_DESCRIPTOR : str :=
  text [[]; lit "# Disk DescriptorFile"; lit "version=1"; lit "CID=fffffffe"; lit "parentCID=ffffffff";
        raw "createType=`monolithicFlat`"; [];
        lit "# Extent description"; raw "RW 838860800 FLAT `TestVM-flat.vmdk` 0"; [];
        lit "# The Disk Data Base";
        raw "ddb.virtualHWVersion = `21`"; raw "ddb.geometry.cylinders = `52216`"; raw "ddb.geometry.heads = `16`";
        raw "ddb.geometry.sectors = `63`"; raw "ddb.adapterType = `lsilogic`"; []].

Definition test_parse_create_type : test :=
  descriptor ← unwrap (parse_descriptor MONOLITHIC_FLAT_DESCRIPTOR);
  assert_eq (vd_create_type descriptor) (lit "monolithicFlat").

Definition test_parse_extent : test :=
  descriptor ← unwrap (parse_descriptor MONOLITHIC_FLAT_DESCRIPTOR);
  assert_eq (zlen (vd_extents descriptor)) 1 ;;
  extent ← index (vd_extents descriptor) 0;
  assert_eq (ex_access extent) (lit "RW") ;;
  assert_eq (ex_size_sectors extent) 838860800 ;;
  assert_eq (ex_extent_type extent) Flat ;;
  assert_eq (ex_filename extent) (lit "TestVM-flat.vmdk") ;;
  assert_eq (ex_offset extent) 0.

Definition test_parse_geometry : test :=
  descriptor ← unwrap (parse_descriptor MONOLITHIC_FLAT_DESCRIPTOR);
  assert_eq (vd_cylinders descriptor) 52216 ;;
  assert_eq (vd_heads descriptor) 16 ;;
  assert_eq (vd_sectors descriptor) 63.

Definition test_disk_size_bytes : test :=
  descriptor ← unwrap (parse_descriptor MONOLITHIC_FLAT_DESCRIPTOR);
  size ← disk_size_bytes descriptor;
  expected ← mul_u64 838860800 512;
  assert_eq size expected.

Definition test_disk_size_sectors : test :=
  descriptor ← unwrap (parse_descriptor MONOLITHIC_FLAT_DESCRIPTOR);
  size ← disk_size_sectors descriptor;
  assert_eq size 838860800.

Definition test_parse_version : test :=
  descriptor ← unwrap (parse_descriptor MONOLITHIC_FLAT_DESCRIPTOR);
  assert_eq (vd_version descriptor) 1.

Definition test_parse_cid : test :=
  descriptor ← unwrap (parse_descriptor MONOLITHIC_FLAT_DESCRIPTOR);
  assert_eq (vd_cid descriptor) 0xfffffffe.

Definition test_parse_parent_cid : test :=
  descriptor ← unwrap (parse_descriptor MONOLITHIC_FLAT_DESCRIPTOR);
  assert_eq (vd_parent_cid descriptor) 0xffffffff.

Definition test_parse_adapter_type : test :=
  descriptor ← unwrap (parse_descriptor MONOLITHIC_FLAT_DESCRIPTOR);
  assert_eq (vd_adapter_type descriptor) (lit "lsilogic").

Definition test_parse_hw_version : test :=
  descriptor ← unwrap (parse_descriptor MONOLITHIC_FLAT_DESCRIPTOR);
  assert_eq (vd_hw_version descriptor) (lit "21").

Definition test_parse_split_sparse_create_type : test :=
  descriptor ← unwrap (parse_descriptor SPLIT_SPARSE_DESCRIPTOR);
  assert_eq (vd_create_type descriptor) (lit "twoGbMaxExtentSparse").

Definition test_parse_split_sparse_extents : test :=
  descriptor ← unwrap (parse_descriptor SPLIT_SPARSE_DESCRIPTOR);
  assert_eq (zlen (vd_extents descriptor)) 4 ;;
  extent0 ← index (vd_extents descriptor) 0;
  assert_eq (ex_access extent0) (lit "RW") ;;
  assert_eq (ex_size_sectors extent0) 4194304 ;;
  assert_eq (ex_extent_type extent0) Descriptor.Sparse ;;
  assert_eq (ex_filename extent0) (lit "Ubuntu 64-bit-s001.vmdk") ;;
  assert_eq (ex_offset extent0) 0 ;;
  extent1 ← index (vd_extents descriptor) 1;
  assert_eq (ex_extent_type extent1) Descriptor.Sparse ;;
  assert_eq (ex_filename extent1) (lit "Ubuntu 64-bit-s002.vmdk") ;;
  extent3 ← index (vd_extents descriptor) 3;
  assert_eq (ex_size_sectors extent3) 2097152 ;;
  assert_eq (ex_filename extent3) (lit "Ubuntu 64-bit-s004.vmdk").

Definition test_split_sparse_total_size : test :=
  descriptor ← unwrap (parse_descriptor SPLIT_SPARSE_DESCRIPTOR);
  three ← mul_u64 4194304 3;
  expected_sectors ← add_u64 three 2097152;
  sectors ← disk_size_sectors descriptor;
  assert_eq sectors expected_sectors ;;
  size ← disk_size_bytes descriptor;
  expected ← mul_u64 expected_sectors 512;
  assert_eq size expected.

Definition test_split_sparse_has_no_flat_extents : test :=
  descriptor ← unwrap (parse_descriptor SPLIT_SPARSE_DESCRIPTOR);
  let flat_extents := List.filter (fun e => bool_decide (ex_extent_type e = Flat)) (vd_extents descriptor) in
  assert (bool_decide (flat_extents = [])).

Definition test_split_sparse_all_extents_are_sparse : test :=
  descriptor ← unwrap (parse_descriptor SPLIT_SPARSE_DESCRIPTOR);
  assert (forallb (fun e => bool_decide (ex_extent_type e = Descriptor.Sparse)) (vd_extents descriptor)).

Definition descriptor_file_tests : list test :=
  [test_parse_create_type; test_parse_extent; test_parse_geometry; test_disk_size_bytes;
   test_disk_size_sectors; test_parse_version; test_parse_cid; test_parse_parent_cid;
   test_parse_adapter_type; test_parse_hw_version; test_parse_split_sparse_create_type;
   test_parse_split_sparse_extents; test_split_sparse_total_size; test_split_sparse_has_no_flat_extents;
   test_split_sparse_all_extents_are_sparse].

(** ** vmdk_reader_test.rs, with the file of [TestsDisk.create_test_file] *)

Definition test_reader_data_access : test :=
  let size := 1024 in
  let file := create_test_file size in
  reader ← unwrap (VmdkReader_open test_path);
  let data := VmdkReader_data reader in
  assert_eq (zlen data) size ;;
  assert (forallb (fun '(i, byte) => byte =? i mod 256) (combine (seqZ 0 (zlen data)) data)).

Definition test_empty_file : test :=
  let file := fs_of [(test_path, [])] in
  reader ← unwrap (VmdkReader_open test_path);
  assert_eq (VmdkReader_size reader) 0 ;;
  chunks ← unwrap (drain_from 1 ChunkIterator_next (chunks reader (256 * 1024)));
  assert_eq (zlen chunks) 0.

Definition test_nonexistent_file : test :=
  let files := fs_of [] in
  assert (is_err (VmdkReader_open (lit "/nonexistent/path/file.vmdk"))).

Definition reader_file_tests : list test := [test_reader_data_access; test_empty_file; test_nonexistent_file].
