(* ===== verification/IntegrationOvf.v ===== *)
(** * IntegrationOvf: the tests of tests/ovf_test.rs *)
From S2P Require Export TestsOvf.

Definition create_test_config : VmxConfig :=
  {| vc_display_name := lit "TestVM";
     vc_guest_os := lit "ubuntu-64";
     vc_memory_mb := 4096;
     vc_num_cpus := 2;
     vc_disks := [{| dc_file_name := lit "TestVM.vmdk"; dc_controller := lit "scsi0"; dc_unit := 0 |}];
     vc_networks := [{| nc_name := lit "ethernet0"; nc_virtual_dev := Some (lit "e1000");
                        nc_network_name := Some (lit "NAT") |}];
     vc_raw := ∅ |}.

Definition create_test_disks : list DiskInfo :=
  [{| di_id := lit "vmdisk1"; di_file_ref := lit "file1";
      di_capacity_bytes := 10 * 1024 * 1024 * 1024; di_file_size_bytes := 100 * 1024 * 1024 |}].

(** Assignments to the fields of [config]. *)
Definition set_disks (disks : list DiskConfig) (c : VmxConfig) : VmxConfig :=
  Build_VmxConfig (vc_display_name c) (vc_guest_os c) (vc_memory_mb c) (vc_num_cpus c) disks
    (vc_networks c) (vc_raw c).
Definition set_guest_os (guest_os : str) (c : VmxConfig) : VmxConfig :=
  Build_VmxConfig (vc_display_name c) guest_os (vc_memory_mb c) (vc_num_cpus c) (vc_disks c)
    (vc_networks c) (vc_raw c).
Definition set_display_name (display_name : str) (c : VmxConfig) : VmxConfig :=
  Build_VmxConfig display_name (vc_guest_os c) (vc_memory_mb c) (vc_num_cpus c) (vc_disks c)
    (vc_networks c) (vc_raw c).

Definition test_ovf_envelope : test :=
  let config := create_test_config in
  let builder := OvfBuilder_new config in
  let disks := create_test_disks in
  ovf ← unwrap (build builder disks);
  assert (contains (lit "ovf:Envelope") ovf) ;;
  assert (contains (lit "xmlns:ovf=") ovf) ;;
  assert (contains (lit "http://schemas.dmtf.org/ovf/envelope/1") ovf) ;;
  assert (contains (lit "xmlns:rasd=") ovf) ;;
  assert (contains (lit "xmlns:vssd=") ovf) ;;
  assert (contains (lit "xmlns:vmw=") ovf) ;;
  assert (contains (lit "xmlns:xsi=") ovf) ;;
  assert (contains (lit "</ovf:Envelope>") ovf).

Definition test_ovf_virtual_system : test :=
  let config := create_test_config in
  let builder := OvfBuilder_new config in
  let disks := create_test_disks in
  ovf ← unwrap (build builder disks);
  assert (contains (lit "VirtualSystem") ovf) ;;
  assert (contains (raw "ovf:id=`TestVM`") ovf) ;;
  assert (contains (lit "<ovf:Name>TestVM</ovf:Name>") ovf) ;;
  assert (contains (lit "OperatingSystemSection") ovf) ;;
  assert (contains (lit "ubuntu64Guest") ovf).

Definition test_ovf_hardware_section : test :=
  let config := create_test_config in
  let builder := OvfBuilder_new config in
  let disks := create_test_disks in
  ovf ← unwrap (build builder disks);
  assert (contains (lit "VirtualHardwareSection") ovf) ;;
  assert (contains (lit "<rasd:VirtualQuantity>4096</rasd:VirtualQuantity>") ovf) ;;
  assert (contains (lit "<rasd:VirtualQuantity>2</rasd:VirtualQuantity>") ovf) ;;
  assert (contains (lit "<rasd:ResourceType>3</rasd:ResourceType>") ovf) ;;
  assert (contains (lit "<rasd:ResourceType>4</rasd:ResourceType>") ovf) ;;
  assert (contains (lit "<rasd:ResourceType>6</rasd:ResourceType>") ovf) ;;
  assert (contains (lit "<rasd:ResourceType>10</rasd:ResourceType>") ovf) ;;
  assert (contains (lit "<rasd:ResourceType>17</rasd:ResourceType>") ovf).

Definition test_ovf_disk_section : test :=
  let config := create_test_config in
  let builder := OvfBuilder_new config in
  let disks := create_test_disks in
  ovf ← unwrap (build builder disks);
  assert (contains (lit "DiskSection") ovf) ;;
  assert (contains (raw "ovf:diskId=`vmdisk1`") ovf) ;;
  let capacity := 10 * 1024 * 1024 * 1024 in
  assert (contains (fmt (raw "ovf:capacity=`{}`") [show_dec capacity]) ovf) ;;
  assert (contains (lit "vmdk.html#streamOptimized") ovf) ;;
  assert (contains (raw "ovf:fileRef=`file1`") ovf).

Definition test_ovf_references_section : test :=
  let config := create_test_config in
  let builder := OvfBuilder_new config in
  let disks := create_test_disks in
  ovf ← unwrap (build builder disks);
  assert (contains (lit "ovf:References") ovf) ;;
  assert (contains (lit "ovf:File") ovf) ;;
  assert (contains (raw "ovf:href=`TestVM.vmdk`") ovf) ;;
  assert (contains (raw "ovf:id=`file1`") ovf) ;;
  let file_size := 100 * 1024 * 1024 in
  assert (contains (fmt (raw "ovf:size=`{}`") [show_dec file_size]) ovf).

Definition test_ovf_network_section : test :=
  let config := create_test_config in
  let builder := OvfBuilder_new config in
  let disks := create_test_disks in
  ovf ← unwrap (build builder disks);
  assert (contains (lit "NetworkSection") ovf) ;;
  assert (contains (raw "ovf:name=`NAT`") ovf) ;;
  assert (contains (lit "<rasd:Connection>NAT</rasd:Connection>") ovf) ;;
  assert (contains (lit "e1000") ovf).

Definition test_ovf_xml_declaration : test :=
  let config := create_test_config in
  let builder := OvfBuilder_new config in
  let disks := create_test_disks in
  ovf ← unwrap (build builder disks);
  assert (starts_with (raw "<?xml version=`1.0` encoding=`UTF-8`?>") ovf).

Definition test_ovf_multiple_disks : test :=
  let config := create_test_config in
  let config := set_disks (vc_disks config ++
    [{| dc_file_name := lit "TestVM_1.vmdk"; dc_controller := lit "scsi0"; dc_unit := 1 |}]) config in
  let builder := OvfBuilder_new config in
  let disks :=
    [{| di_id := lit "vmdisk1"; di_file_ref := lit "file1";
        di_capacity_bytes := 10 * 1024 * 1024 * 1024; di_file_size_bytes := 100 * 1024 * 1024 |};
     {| di_id := lit "vmdisk2"; di_file_ref := lit "file2";
        di_capacity_bytes := 20 * 1024 * 1024 * 1024; di_file_size_bytes := 200 * 1024 * 1024 |}] in
  ovf ← unwrap (build builder disks);
  assert (contains (raw "ovf:diskId=`vmdisk1`") ovf) ;;
  assert (contains (raw "ovf:diskId=`vmdisk2`") ovf) ;;
  assert (contains (raw "ovf:href=`TestVM.vmdk`") ovf) ;;
  assert (contains (raw "ovf:href=`TestVM_1.vmdk`") ovf).

Definition test_ovf_windows_guest_os : test :=
  let config := create_test_config in
  let config := set_guest_os (lit "windows10-64") config in
  let builder := OvfBuilder_new config in
  let disks := create_test_disks in
  ovf ← unwrap (build builder disks);
  assert (contains (lit "windows9_64Guest") ovf).

Definition test_ovf_no_networks : test :=
  let config := create_test_config in
  let config := set_networks [] config in
  let builder := OvfBuilder_new config in
  let disks := create_test_disks in
  ovf ← unwrap (build builder disks);
  assert (contains (raw "ovf:name=`VM Network`") ovf).

Definition test_ovf_special_characters_escaped : test :=
  let config := create_test_config in
  let config := set_display_name (raw "Test<VM>&`Name'") config in
  let builder := OvfBuilder_new config in
  let disks := create_test_disks in
  ovf ← unwrap (build builder disks);
  assert (contains (lit "&lt;") ovf) ;;
  assert (contains (lit "&gt;") ovf) ;;
  assert (contains (lit "&amp;") ovf).

Definition test_ovf_scsi_controller : test :=
  let config := create_test_config in
  let builder := OvfBuilder_new config in
  let disks := create_test_disks in
  ovf ← unwrap (build builder disks);
  assert (contains (lit "SCSI Controller") ovf) ;;
  assert (contains (lit "lsilogic") ovf).

Definition ovf_file_tests : list test :=
  [test_ovf_envelope; test_ovf_virtual_system; test_ovf_hardware_section; test_ovf_disk_section;
   test_ovf_references_section; test_ovf_network_section; test_ovf_xml_declaration;
   test_ovf_multiple_disks; test_ovf_windows_guest_os; test_ovf_no_networks;
   test_ovf_special_characters_escaped; test_ovf_scsi_controller].
