(* ===== verification/IntegrationOva.v ===== *)
(** * IntegrationOva: the tests of tests/ova_test.rs *)
From S2P Require Export TestsOva.

(** [buffer[pos..].iter().position(|&b| b == 0).unwrap_or(100)] on the name
    field, and the name in front of it. *)
Definition name_in_header (data : bytes) (pos : Z) : Result (option str) :=
  name_field ← read_slice pos (pos + 100) data;
  let name_end := default 100 (find_char 0 name_field) in
  name_bytes ← read_slice pos (pos + name_end) data;
  Ok (utf8_decode name_bytes).

(** The octal size in the header; [None] when it is no number. *)
Definition size_in_header (data : bytes) (pos : Z) : Result (option Z) :=
  size_field ← read_slice (pos + 124) (pos + 135) data;
  Ok (size_str ← utf8_decode size_field; parse_uint 64 8 (trim (trim_nul size_str))).

(** The loops over the headers, a round for every header. *)
Fixpoint extract_tar_filenames_from (fuel : nat) (data : bytes) (pos : Z) (filenames : list str)
    : Result (list str) :=
  match fuel with
  | O => Diverge
  | S f =>
      if zlen data <? pos + 512 then Ok filenames else
      block ← read_slice pos (pos + 512) data;
      if forallb (fun b => b =? 0) block then Ok filenames else
      name ← name_in_header data pos;
      let filenames :=
        match name with
        | Some name => if bool_decide (name = []) then filenames else filenames ++ [name]
        | None => filenames
        end in
      size ← size_in_header data pos;
      match size with
      | Some size =>
          let content_blocks := (size + 511) / 512 in
          extract_tar_filenames_from f data (pos + (512 + content_blocks * 512)) filenames
      | None => Ok filenames
      end
  end.

Definition extract_tar_filenames (data : bytes) : Result (list str) :=
  extract_tar_filenames_from (S (length data)) data 0 [].

Fixpoint extract_file_content_from (fuel : nat) (data : bytes) (filename : str) (pos : Z)
    : Result (option bytes) :=
  match fuel with
  | O => Diverge
  | S f =>
      if zlen data <? pos + 512 then Ok None else
      block ← read_slice pos (pos + 512) data;
      if forallb (fun b => b =? 0) block then Ok None else
      name ← name_in_header data pos;
      match name with
      | None => Ok None
      | Some name =>
          size ← size_in_header data pos;
          match size with
          | None => Ok None
          | Some size =>
              if bool_decide (name = filename) then
                let content_start := pos + 512 in
                let content_end := content_start + size in
                content ← read_slice content_start content_end data;
                Ok (Some content)
              else
              let content_blocks := (size + 511) / 512 in
              extract_file_content_from f data filename (pos + (512 + content_blocks * 512))
          end
      end
  end.

Definition extract_file_content (data : bytes) (filename : str) : Result (option bytes) :=
  extract_file_content_from (S (length data)) data filename 0.

(** [filenames.contains(&name)]. *)
Definition lists (name : str) (filenames : list str) : bool := bool_decide (name ∈ filenames).

Definition test_sha256_computation : test :=
  let data := lit "hello world" in
  let hash := compute_sha256 data in
  assert_eq hash (lit "b94d27b9934d3e08a52e52d7da7dabfac484efe37a5380ee9088f7ace2efcde9").

Definition test_ova_tar_structure : test :=
  let buffer := cursor_new in
  writer ← unwrap (OvaWriter_new buffer);
  '(_, writer) ← call (add_file 0 (lit "test.ovf") (lit "<ovf content>")) writer;
  result ← unwrap (OvaWriter_finish 0 writer);
  let data := cursor_buf result in
  filename ← name_in_header data 0;
  filename ← unwrap_some filename;
  assert_eq filename (lit "test.ovf") ;;
  content ← read_slice 512 525 data; assert_eq content (lit "<ovf content>").

Definition test_tar_header_fields : test :=
  header ← create_tar_header_with_mtime (lit "myfile.vmdk") 65536 1700000000;
  name ← read_slice 0 11 header; assert_eq name (lit "myfile.vmdk") ;;
  nul ← index header 11; assert_eq nul 0 ;;
  mode ← read_slice 100 107 header; assert_eq mode (lit "0000644") ;;
  uid ← read_slice 108 115 header; assert_eq uid (lit "0000000") ;;
  gid ← read_slice 116 123 header; assert_eq gid (lit "0000000") ;;
  size ← read_slice 124 135 header; assert_eq size (lit "00000200000") ;;
  mtime ← read_slice 136 147 header; assert_eq mtime (lit "14524770400") ;;
  flag ← index header 156; assert_eq flag c_zero ;;
  magic ← read_slice 257 263 header; assert_eq magic (lit "ustar" ++ [0]) ;;
  version ← read_slice 263 265 header; assert_eq version (lit "00").

Definition test_sha256_writer_incremental : test :=
  let buffer := cursor_new in
  let writer := Sha256Writer_new buffer in
  '(_, writer) ← call (write_all (lit "hello")) writer;
  '(_, writer) ← call (write_all (lit " ")) writer;
  '(_, writer) ← call (write_all (lit "world")) writer;
  let '(inner, hash, bytes) := Sha256Writer_finish writer in
  assert_eq hash (lit "b94d27b9934d3e08a52e52d7da7dabfac484efe37a5380ee9088f7ace2efcde9") ;;
  assert_eq bytes 11 ;;
  assert_eq (zlen (cursor_buf inner)) 11.

Definition test_ova_multiple_files : test :=
  let buffer := cursor_new in
  writer ← unwrap (OvaWriter_new buffer);
  '(_, writer) ← call (add_file 0 (lit "descriptor.ovf") (lit "OVF content")) writer;
  '(_, writer) ← call (add_file 0 (lit "disk1.vmdk") (lit "VMDK data 1")) writer;
  '(_, writer) ← call (add_file 0 (lit "disk2.vmdk") (lit "VMDK data 2")) writer;
  result ← unwrap (OvaWriter_finish 0 writer);
  let data := cursor_buf result in
  files ← extract_tar_filenames data;
  assert (lists (lit "descriptor.ovf") files) ;;
  assert (lists (lit "disk1.vmdk") files) ;;
  assert (lists (lit "disk2.vmdk") files) ;;
  assert (lists (lit "manifest.mf") files).

(** The manifest is valid UTF-8, so that [from_utf8_lossy] is the decoding. *)
Definition manifest_of_archive (data : bytes) : Result str :=
  manifest ← extract_file_content data (lit "manifest.mf");
  manifest ← unwrap_some manifest;
  unwrap_some (utf8_decode manifest).

Definition test_manifest_format : test :=
  let buffer := cursor_new in
  writer ← unwrap (OvaWriter_new buffer);
  '(_, writer) ← call (add_file 0 (lit "test.ovf") (lit "OVF content")) writer;
  '(_, writer) ← call (add_file 0 (lit "test.vmdk") (lit "VMDK data")) writer;
  result ← unwrap (OvaWriter_finish 0 writer);
  let data := cursor_buf result in
  manifest_str ← manifest_of_archive data;
  assert (contains (lit "SHA256(test.ovf)= ") manifest_str) ;;
  assert (contains (lit "SHA256(test.vmdk)= ") manifest_str) ;;
  let ovf_hash := compute_sha256 (lit "OVF content") in
  let vmdk_hash := compute_sha256 (lit "VMDK data") in
  assert (contains ovf_hash manifest_str) ;;
  assert (contains vmdk_hash manifest_str).

(** [for chunk in chunks { stream.write_all(chunk).unwrap(); }]. *)
Fixpoint write_each (chunks : list bytes) (stream : StreamingFileWriter Cursor)
    : Result (StreamingFileWriter Cursor) :=
  match chunks with
  | [] => Ok stream
  | chunk :: rest => '(_, stream) ← call (write_all chunk) stream; write_each rest stream
  end.

Definition test_streaming_file_write : test :=
  let buffer := cursor_new in
  ova ← unwrap (OvaWriter_new buffer);
  let content := lit "This is streaming content that gets written incrementally" in
  '(stream, _) ← call (add_file_streaming 0 (lit "stream.bin") (zlen content)) ova;
  stream ← write_each (split_chunks 10 content) stream;
  '(_, stream) ← call StreamingFileWriter_finish stream;
  result ← unwrap (OvaWriter_finish 0 (sfw_ova_writer stream));
  let data := cursor_buf result in
  extracted ← extract_file_content data (lit "stream.bin");
  extracted ← unwrap_some extracted;
  assert_eq extracted content ;;
  manifest ← manifest_of_archive data;
  let expected_hash := compute_sha256 content in
  assert (contains expected_hash manifest).

Definition test_tar_padding_to_512_boundary : test :=
  let buffer := cursor_new in
  writer ← unwrap (OvaWriter_new buffer);
  '(_, writer) ← call (add_file 0 (lit "small.txt") (lit "tiny")) writer;
  result ← unwrap (OvaWriter_finish 0 writer);
  let data := cursor_buf result in
  assert_eq (zlen data mod 512) 0 ;;
  assert (512 * 4 <=? zlen data).

Definition test_tar_end_marker : test :=
  let buffer := cursor_new in
  writer ← unwrap (OvaWriter_new buffer);
  '(_, writer) ← call (add_file 0 (lit "test.txt") (lit "content")) writer;
  result ← unwrap (OvaWriter_finish 0 writer);
  let data := cursor_buf result in
  start ← sub_u64 (zlen data) 1024;
  end_blocks ← read_slice start (zlen data) data;
  assert (forallb (fun b => b =? 0) end_blocks).

Definition test_empty_file : test :=
  let buffer := cursor_new in
  writer ← unwrap (OvaWriter_new buffer);
  '(_, writer) ← call (add_file 0 (lit "empty.txt") (lit "")) writer;
  result ← unwrap (OvaWriter_finish 0 writer);
  let data := cursor_buf result in
  files ← extract_tar_filenames data;
  assert (lists (lit "empty.txt") files) ;;
  manifest ← manifest_of_archive data;
  let empty_hash := compute_sha256 (lit "") in
  assert (contains empty_hash manifest).

Definition test_long_filename : test :=
  let buffer := cursor_new in
  writer ← unwrap (OvaWriter_new buffer);
  let long_name := concat (repeat (lit "a") 99) in
  '(_, writer) ← call (add_file 0 long_name (lit "content")) writer;
  result ← unwrap (OvaWriter_finish 0 writer);
  let data := cursor_buf result in
  files ← extract_tar_filenames data;
  assert (lists long_name files).

Definition ova_file_tests : list test :=
  [test_sha256_computation; test_ova_tar_structure; test_tar_header_fields; test_sha256_writer_incremental;
   test_ova_multiple_files; test_manifest_format; test_streaming_file_write;
   test_tar_padding_to_512_boundary; test_tar_end_marker; test_empty_file; test_long_filename].
