(* ===== verification/IntegrationRun.v ===== *)
(** * IntegrationRun: pipeline_test.rs, vmdk_stream_test.rs and
    integration_test.rs of tests/, and the whole suite

    Of vmdk_stream_test.rs, [test_compress_grain] and
    [test_compress_grain_random_data] are left out: they run the DEFLATE
    library on its own output.  Of integration_test.rs the tests marked
    [#[ignore]] are left out: they export a machine that is not in the
    repository. *)
From S2P Require Export SparseSpec TestsExport IntegrationParse IntegrationOvf IntegrationOva.
From S2P Require Export Testing.

(** ** pipeline_test.rs *)

(** [data.iter().map(|&b| b as u32).sum()]. *)
Fixpoint sum_u32 (acc : Z) (data : bytes) : Result Z :=
  match data with
  | [] => Ok acc
  | b :: data => acc ← checked 32 (acc + b); sum_u32 acc data
  end.

Definition test_pipeline_processes_chunks : test :=
  pipeline ← Pipeline_default;
  let chunks := [[1; 2; 3; 4]; [5; 6; 7; 8]; [9; 10; 11; 12]; [13; 14; 15; 16]] in
  results ← unwrap (process pipeline chunks (fun _idx data => sum ← sum_u32 0 data; Ok sum));
  assert_eq (zlen results) 4 ;;
  r0 ← index results 0; assert_eq r0 (1 + 2 + 3 + 4) ;;
  r1 ← index results 1; assert_eq r1 (5 + 6 + 7 + 8) ;;
  r2 ← index results 2; assert_eq r2 (9 + 10 + 11 + 12) ;;
  r3 ← index results 3; assert_eq r3 (13 + 14 + 15 + 16).

Definition test_pipeline_preserves_order : test :=
  pipeline ← Pipeline_default;
  let chunks := map (fun i => [i] ++ repeat 0 99) (seqZ 0 10) in
  results ← unwrap (process pipeline chunks (fun idx data =>
    d ← index data 0;
    assert_eq d (Z.of_nat idx mod 256) ;;
    Ok d));
  assert_eq (zlen results) 10 ;;
  assert (forallb (fun '(expected_idx, actual_value) => actual_value =? expected_idx mod 256)
            (combine (seqZ 0 (zlen results)) results)).

Definition test_compression_level_variants : test :=
  assert_eq (to_zlib_level Fast) 1 ;;
  assert_eq (to_zlib_level Balanced) 6 ;;
  assert_eq (to_zlib_level Max) 9.

Definition test_pipeline_config_accessors : test :=
  let config := PipelineConfig_new 65536 Max 4 in
  pipeline ← Pipeline_new config;
  assert_eq (pl_chunk_size pipeline) 65536 ;;
  assert_eq (compression_level pipeline) 9.

Definition test_progress_tracking_integration : test :=
  let config := PipelineConfig_new 1024 Balanced 2 in
  pipeline ← Pipeline_new config;
  let tracker := ProgressTracker_new 5 500 in
  let chunks := [zeros 100; zeros 100; zeros 100; zeros 100; zeros 100] in
  '(_results, tracker) ← call (process_with_progress pipeline chunks (fun _idx data =>
    let compressed_size := zlen data / 2 in
    Ok (zlen data, compressed_size))) tracker;
  assert (is_complete tracker) ;;
  let progress := snapshot tracker in
  assert_eq (pp_total_chunks progress) 5 ;;
  assert_eq (pp_processed_chunks progress) 5 ;;
  assert_eq (pp_total_bytes progress) 500 ;;
  assert_eq (pp_processed_bytes progress) 500 ;;
  assert_eq (pp_compressed_bytes progress) 250 ;;
  assert_eq (PipelineProgress_percent_complete progress) (f64_lit 100) ;;
  assert_eq (compression_ratio progress) f64_half.

(** The literal [0.4]: the double 3602879701896397 / 2{^53}. *)
Definition f64_two_fifths : f64 := Finite (3602879701896397 * 2 ^ 1021).

Definition test_pipeline_progress_methods : test :=
  let progress := PipelineProgress_new 100 10000 in
  assert_eq (PipelineProgress_percent_complete progress) (f64_lit 0) ;;
  assert_eq (compression_ratio progress) (f64_lit 1) ;;
  let progress := set_processed_chunks 50 progress in
  let progress := set_processed_bytes 5000 progress in
  let progress := set_compressed_bytes 2500 progress in
  assert_eq (PipelineProgress_percent_complete progress) (f64_lit 50) ;;
  assert_eq (compression_ratio progress) f64_half ;;
  let progress := set_processed_chunks 100 progress in
  let progress := set_processed_bytes 10000 progress in
  let progress := set_compressed_bytes 4000 progress in
  assert_eq (PipelineProgress_percent_complete progress) (f64_lit 100) ;;
  assert_eq (compression_ratio progress) f64_two_fifths.

Definition test_parallel_processing_with_multiple_threads : test :=
  let config := PipelineConfig_new 1024 Fast 4 in
  pipeline ← Pipeline_new config;
  let chunks := map (fun i => repeat i 10) (seqZ 0 100) in
  results ← unwrap (process pipeline chunks (fun _idx data => index data 0));
  assert_eq (zlen results) 100 ;;
  assert (forallb (fun '(i, val) => val =? i mod 256) (combine (seqZ 0 (zlen results)) results)).

Definition test_empty_chunks : test :=
  pipeline ← Pipeline_default;
  let chunks := [] in
  results ← unwrap (process pipeline chunks (fun _idx _data => Ok 0));
  assert (bool_decide (results = [])).

Definition test_error_handling : test :=
  pipeline ← Pipeline_default;
  let chunks := [[1]; [2]; [3]] in
  let result := process pipeline chunks (fun idx _data =>
    if (idx =? 1)%nat then Err (Error.pipeline (lit "intentional test error")) else Ok 0) in
  assert (is_err result) ;;
  err ← unwrap_err result;
  let err_msg := Error.to_string err in
  assert (contains (lit "intentional test error") err_msg).

Definition pipeline_file_tests : list test :=
  [test_pipeline_processes_chunks; test_pipeline_preserves_order; test_compression_level_variants;
   test_pipeline_config_accessors; test_progress_tracking_integration; test_pipeline_progress_methods;
   test_parallel_processing_with_multiple_threads; test_empty_chunks; test_error_handling].

(** ** vmdk_stream_test.rs, on stored blocks *)

#[export] Instance test_flate2 : Flate2 := stored_flate2.

Definition ONE_GB : Z := 1024 * 1024 * 1024.

Definition test_writer_magic_number : test :=
  let buffer := cursor_new in
  writer ← unwrap (StreamVmdkWriter_new buffer ONE_GB);
  result ← unwrap (StreamVmdkWriter_finish writer);
  let data := cursor_buf result in
  assert (4 <=? zlen data) ;;
  magic ← read_u32 0 data;
  assert_eq magic VMDK_MAGIC.

Definition test_writer_version : test :=
  let buffer := cursor_new in
  writer ← unwrap (StreamVmdkWriter_new buffer ONE_GB);
  result ← unwrap (StreamVmdkWriter_finish writer);
  let data := cursor_buf result in
  assert (8 <=? zlen data) ;;
  version ← read_u32 4 data;
  assert_eq version 3.

Definition test_sparse_extent_header_size : test :=
  let header := SparseExtentHeader_new ONE_GB in
  let bytes := SparseExtentHeader_to_bytes header in
  assert_eq (zlen bytes) SECTOR_SIZE.

Definition test_sparse_extent_header_fields : test :=
  capacity_bytes ← mul_u64 10 ONE_GB;
  let header := SparseExtentHeader_new capacity_bytes in
  let bytes := SparseExtentHeader_to_bytes header in
  magic ← read_u32 0 bytes; assert_eq magic VMDK_MAGIC ;;
  version ← read_u32 4 bytes; assert_eq version 3 ;;
  capacity ← read_u64 12 bytes;
  expected_capacity ← div_u64 capacity_bytes SECTOR_SIZE;
  assert_eq capacity expected_capacity ;;
  grain_size ← read_u64 20 bytes; assert_eq grain_size DEFAULT_GRAIN_SIZE.

Definition test_writer_writes_grain_data : test :=
  let buffer := cursor_new in
  writer ← unwrap (StreamVmdkWriter_new buffer ONE_GB);
  let grain_data := repeat 0xAB (Z.to_nat (64 * 1024)) in
  compressed ← unwrap (compress_grain grain_data 6);
  '(_, writer) ← call (write_grain 0 compressed) writer;
  result ← unwrap (StreamVmdkWriter_finish writer);
  let data := cursor_buf result in
  assert (SECTOR_SIZE <? zlen data).

Definition stream_file_tests : list test :=
  [test_writer_magic_number; test_writer_version; test_sparse_extent_header_size;
   test_sparse_extent_header_fields; test_writer_writes_grain_data].

(** ** integration_test.rs *)

Definition before_export : export_state Cursor :=
  {| es_progress := ExportProgress_new Parsing 0 0; es_reports := []; es_output := None |}.

Definition test_export_nonexistent_vmx : test :=
  let files := fs_of [] in
  let vmx_path := lit "/nonexistent/path/to/vm.vmx" in
  let output_path := lit "/tmp/.tmp.ova" in
  let options := ExportOptions_default in
  let result := fst (export_vm (fun _ => Ok cursor_new) (fun _ => 0) false vmx_path output_path options
                       before_export) in
  assert (is_err result).

Definition test_get_vm_info_nonexistent_vmx : test :=
  let files := fs_of [] in
  let vmx_path := lit "/nonexistent/path/to/vm.vmx" in
  let result := get_vm_info vmx_path in
  assert (is_err result).

Definition test_export_options_defaults : test :=
  let options := ExportOptions_default in
  assert_eq (eo_compression options) Balanced ;;
  assert_eq (eo_chunk_size options) (64 * 1024 * 1024) ;;
  assert_eq (eo_num_threads options) 0.

Definition test_export_options_fast : test :=
  let options := ExportOptions_fast in
  assert_eq (eo_compression options) Fast.

Definition test_export_options_max_compression : test :=
  let options := ExportOptions_max_compression in
  assert_eq (eo_compression options) Max.

Definition test_export_phase_display : test :=
  assert_eq (fmt (lit "{}") [ExportPhase_to_string Parsing]) (lit "Parsing") ;;
  assert_eq (fmt (lit "{}") [ExportPhase_to_string Compressing]) (lit "Compressing") ;;
  assert_eq (fmt (lit "{}") [ExportPhase_to_string Writing]) (lit "Writing") ;;
  assert_eq (fmt (lit "{}") [ExportPhase_to_string Finalizing]) (lit "Finalizing") ;;
  assert_eq (fmt (lit "{}") [ExportPhase_to_string Complete]) (lit "Complete").

Definition test_export_progress_percent : test :=
  let progress :=
    {| ep_phase := Compressing;
       ep_bytes_processed := 500;
       ep_bytes_total := 1000;
       ep_current_disk := 1;
       ep_total_disks := 1 |} in
  assert_eq (ExportProgress_percent_complete progress) (f64_lit 50) ;;
  let progress := with_bytes_processed 1000 progress in
  assert_eq (ExportProgress_percent_complete progress) (f64_lit 100) ;;
  let progress := with_bytes_processed 0 progress in
  assert_eq (ExportProgress_percent_complete progress) (f64_lit 0).

Definition test_export_progress_zero_total : test :=
  let progress :=
    {| ep_phase := Parsing;
       ep_bytes_processed := 0;
       ep_bytes_total := 0;
       ep_current_disk := 0;
       ep_total_disks := 0 |} in
  assert_eq (ExportProgress_percent_complete progress) (f64_lit 0).

Definition test_compression_level_values : test :=
  assert_eq (to_zlib_level Fast) 1 ;;
  assert_eq (to_zlib_level Balanced) 6 ;;
  assert_eq (to_zlib_level Max) 9.

Definition export_file_tests : list test :=
  [test_export_nonexistent_vmx; test_get_vm_info_nonexistent_vmx; test_export_options_defaults;
   test_export_options_fast; test_export_options_max_compression; test_export_phase_display;
   test_export_progress_percent; test_export_progress_zero_total; test_compression_level_values].

(** ** The suite *)

Definition integration_tests : list test :=
  vmx_file_tests ++ descriptor_file_tests ++ reader_file_tests ++ ovf_file_tests ++ ova_file_tests
  ++ pipeline_file_tests ++ stream_file_tests ++ export_file_tests.

(** The model passes the tests of the repository: the 103 unit tests and
    71 integration tests that need neither DEFLATE itself nor files of a
    megabyte, translated assertion by assertion and run on the definitions,
    with SHA-256 itself for the hashes, return without a failed assertion or a
    panic. *)
Theorem test_suite_passes :
  zlen unit_tests = 103 /\ zlen integration_tests = 71 /\
  Forall (fun t => t = Ok tt) (unit_tests ++ integration_tests).
Proof.
  split; [exact (proj1 unit_tests_pass)|]. split; [vm_compute; reflexivity|].
  refine (Forall_app_2 _ _ _ (proj2 unit_tests_pass) _). apply all_pass_spec.
  vm_compute. reflexivity.
Qed.
